(** * GST reconciliation: a shallow embedding of [reconciliation_v2.py]

    The development follows the Python module function by function:
    the three matching phases of [match_invoices], the value coercion
    [to_float], the record normaliser ([Invoice.__init__],
    [read_invoices]), the header detection ([get_header_map]), the
    annotator ([write_results]) and the driver
    ([process_reconciliation]) together with the error path of
    [app.upload_file].  The definitions come first, the properties
    after them.

    Modelling conventions.
    - A Python [str] is the list of its code points ([list N]).
    - A Python [float] is an exact rational ([Q]): sums, differences
      and comparisons are exact, and [float('inf')], the initial
      [best_diff], is [None] in an [option Q].  The tolerance, which
      [app.upload_file] reads with [float] from the form, is also
      taken as any float ([PyFloat]: a rational, an infinity or NaN)
      in module [Float], which gives [match_invoices] and
      [process_reconciliation] for such a tolerance.
    - A Python [int] is a [Z].
    - The invoice objects of a list are mutated in place and aliased by
      the lookup structures of each phase; the lists are therefore kept
      in a store ([MState]) and every lookup structure holds positions
      into [list2] instead of copies of the objects.  The two lists
      hold distinct objects, as [read_invoices] builds them.
    - A function that can raise returns a [result].
    - Reading the workbook from disk, saving it, the clock and the
      [print] calls are left out: the driver takes the loaded workbook
      and the time stamp and returns the workbook it saves. *)

From Stdlib Require Import ZArith QArith Qabs Lqa Lia Bool Ascii String DecimalString.
From stdpp Require Import base option list sorting gmap.

(** ** Strings *)

Abbreviation pystr := (list N).

(** An ASCII literal as a Python string. *)
Fixpoint py (s : string) : pystr :=
  match s with
  | EmptyString => []
  | String c r => N_of_ascii c :: py r
  end.

(** ** Numbers *)

#[global] Arguments Qabs : simpl never.
#[global] Arguments Qminus : simpl never.
#[global] Arguments Qplus : simpl never.
#[global] Arguments Qopp : simpl never.
#[global] Arguments Qle_bool : simpl never.

(** [x < y] on floats. *)
Definition Qlt_bool (x y : Q) : bool := negb (Qle_bool y x).

(** [diff < best_diff], where [best_diff] starts as [float('inf')]. *)
Definition lt_best (diff : Q) (best_diff : option Q) : bool :=
  match best_diff with
  | None => true
  | Some b => Qlt_bool diff b
  end.

(** ** Records *)

(** The three values [Invoice.__init__] ever stores in [head]:
    ['IGST'], ['CGST/SGST'] and ['ZERO']. *)
Inductive Head := IGST | CGST_SGST | ZERO.

#[global] Instance Head_eq_dec : EqDecision Head.
Proof. solve_decision. Defined.

#[global] Instance Head_countable : Countable Head.
Proof.
  refine (inj_countable'
            (fun h => match h with IGST => 0 | CGST_SGST => 1 | ZERO => 2 end)
            (fun n => match n with 0 => IGST | 1 => CGST_SGST | _ => ZERO end) _).
  intros []; reflexivity.
Defined.

(** The slots of class [Invoice]. *)
Record Invoice := mkInvoice {
  row_idx : Z;
  gstin : pystr;
  igst : Q;
  cgst : Q;
  sgst : Q;
  party : pystr;
  head : Head;
  amount : Q;
  source : pystr;
  match_id : option Z;
  match_type : option pystr;
  matched_with_row : option Z
}.

(** Truth value of [inv.match_id] ([None] or an [int]). *)
Definition claimed (inv : Invoice) : bool :=
  match match_id inv with
  | Some m => negb (m =? 0)%Z
  | None => false
  end.

(** Truth value of a string ([inv.gstin]) or of a list. *)
Definition nonempty {A} (s : list A) : bool :=
  match s with
  | [] => false
  | _ :: _ => true
  end.

(** The three assignments [x.match_id = ..., x.match_type = ...,
    x.matched_with_row = ...] made on one side of a link. *)
Definition set_match (inv : Invoice) (mid : Z) (mtype : pystr) (row : Z) : Invoice :=
  {| row_idx := row_idx inv; gstin := gstin inv; igst := igst inv;
     cgst := cgst inv; sgst := sgst inv; party := party inv;
     head := head inv; amount := amount inv; source := source inv;
     match_id := Some mid; match_type := Some mtype;
     matched_with_row := Some row |}.

(** ** The store of [match_invoices] *)

Record MState := mkMState {
  list1 : list Invoice;
  list2 : list Invoice;
  match_counter : Z
}.

(** The "Link them" block: both records receive the current counter,
    the description and each other's row, then the counter advances. *)
Definition link (st : MState) (i j : nat) (desc : pystr) : MState :=
  match list1 st !! i, list2 st !! j with
  | Some inv1, Some best_match =>
      {| list1 := <[i := set_match inv1 (match_counter st) desc (row_idx best_match)]> (list1 st);
         list2 := <[j := set_match best_match (match_counter st) desc (row_idx inv1)]> (list2 st);
         match_counter := (match_counter st + 1)%Z |}
  | _, _ => st
  end.

(** ** Lookup structures: [defaultdict(list)] keyed by [keyf] *)

Section Index.
Context {K : Type} `{Countable K}.

(** [m[k].append(j)]. *)
Definition dict_append (m : gmap K (list nat)) (k : K) (j : nat) : gmap K (list nat) :=
  <[k := default [] (m !! k) ++ [j]]> m.

(** [for inv in list2: if sel(inv): m[keyf(inv)].append(inv)], with
    the position [j] standing for the object [list2[j]]. *)
Fixpoint index_from (sel : Invoice -> bool) (keyf : Invoice -> K)
    (j : nat) (l : list Invoice) (m : gmap K (list nat)) : gmap K (list nat) :=
  match l with
  | [] => m
  | inv :: rest =>
      index_from sel keyf (S j) rest
        (if sel inv then dict_append m (keyf inv) j else m)
  end.

Definition build_index (sel : Invoice -> bool) (keyf : Invoice -> K)
    (l : list Invoice) : gmap K (list nat) :=
  index_from sel keyf 0 l ∅.

(** [m.get(k, [])]. *)
Definition dict_get (m : gmap K (list nat)) (k : K) : list nat :=
  default [] (m !! k).
End Index.

(** ** Phases 1 and 2: the candidate scan *)

(** The loop [for candidate in candidates: ...] shared, verbatim, by
    Phase 1 and both sub-cases of Phase 2.  [best] is the pair
    [(best_match, best_diff)]. *)
Fixpoint scan_candidates (l2 : list Invoice) (tolerance amt : Q)
    (candidates : list nat) (best : option nat * option Q) : option nat * option Q :=
  match candidates with
  | [] => best
  | j :: rest =>
      match l2 !! j with
      | None => scan_candidates l2 tolerance amt rest best
      | Some candidate =>
          if claimed candidate then scan_candidates l2 tolerance amt rest best
          else
            let diff := Qabs (amt - amount candidate) in
            if Qle_bool diff tolerance && lt_best diff (snd best)
            then scan_candidates l2 tolerance amt rest (Some j, Some diff)
            else scan_candidates l2 tolerance amt rest best
      end
  end.

(** [best_match] once the loop over the candidates has run. *)
Definition best_match_of (cands_of : Invoice -> list nat) (tolerance : Q)
    (l2 : list Invoice) (inv1 : Invoice) : option nat :=
  fst (scan_candidates l2 tolerance (amount inv1) (cands_of inv1) (None, None)).

(** One iteration of [for inv1 in list1] in Phase 1 or Phase 2:
    [skip] is the phase's own guard that [continue]s, after the test
    of [inv1.match_id]; [cands_of] is the lookup in the phase's index
    and [desc] the description written on a link. *)
Definition claim_step (skip : Invoice -> bool) (cands_of : Invoice -> list nat)
    (desc : pystr) (tolerance : Q) (st : MState) (i : nat) : MState :=
  match list1 st !! i with
  | None => st
  | Some inv1 =>
      if claimed inv1 || skip inv1 then st
      else
        match best_match_of cands_of tolerance (list2 st) inv1 with
        | Some j => link st i j desc
        | None => st
        end
  end.

(** [for inv1 in list1: body], by position. *)
Definition for_each (body : MState -> nat -> MState) (st : MState) : MState :=
  fold_left body (seq 0 (length (list1 st))) st.

(** *** Phase 1: same GSTIN, same head *)

Definition key1 (inv : Invoice) : pystr * Head := (gstin inv, head inv).

Definition map2 (st : MState) : gmap (pystr * Head) (list nat) :=
  build_index (fun inv => negb (claimed inv)) key1 (list2 st).

Definition perfect_match : pystr := py "Perfect Match".

Definition phase1_step (m : gmap (pystr * Head) (list nat)) (tolerance : Q) :
    MState -> nat -> MState :=
  claim_step (fun _ => false) (fun inv1 => dict_get m (key1 inv1))
    perfect_match tolerance.

Definition phase1 (tolerance : Q) (st : MState) : MState :=
  for_each (phase1_step (map2 st) tolerance) st.

(** *** Phase 2, sub-case A: list1 has a GSTIN, list2 has none *)

Definition missing_gstin_in (name : pystr) : pystr :=
  py "Match (Missing GSTIN in " ++ name ++ py ")".

Definition map2_no_gstin (st : MState) : gmap Head (list nat) :=
  build_index (fun inv => negb (claimed inv) && negb (nonempty (gstin inv)))
    head (list2 st).

Definition phase2a_step (m : gmap Head (list nat)) (name2 : pystr) (tolerance : Q) :
    MState -> nat -> MState :=
  claim_step (fun inv1 => negb (nonempty (gstin inv1)))
    (fun inv1 => dict_get m (head inv1)) (missing_gstin_in name2) tolerance.

Definition phase2a (tolerance : Q) (name2 : pystr) (st : MState) : MState :=
  for_each (phase2a_step (map2_no_gstin st) name2 tolerance) st.

(** *** Phase 2, sub-case B: list1 has no GSTIN, list2 has one *)

Definition map2_with_gstin (st : MState) : gmap Head (list nat) :=
  build_index (fun inv => negb (claimed inv) && nonempty (gstin inv))
    head (list2 st).

Definition phase2b_step (m : gmap Head (list nat)) (name1 : pystr) (tolerance : Q) :
    MState -> nat -> MState :=
  claim_step (fun inv1 => nonempty (gstin inv1))
    (fun inv1 => dict_get m (head inv1)) (missing_gstin_in name1) tolerance.

Definition phase2b (tolerance : Q) (name1 : pystr) (st : MState) : MState :=
  for_each (phase2b_step (map2_with_gstin st) name1 tolerance) st.

(** ** Phase 3: amount only, over candidates sorted by amount *)

Definition amount_at (l2 : list Invoice) (j : nat) : Q :=
  match l2 !! j with
  | Some inv => amount inv
  | None => 0%Q
  end.

(** [valid_items.sort(key=lambda x: x.amount)].  Python's sort is
    stable; so is this insertion sort, and a stable sort has one
    possible result. *)
Fixpoint insert_by_amount (l2 : list Invoice) (x : nat) (l : list nat) : list nat :=
  match l with
  | [] => [x]
  | y :: r =>
      if Qle_bool (amount_at l2 x) (amount_at l2 y) then x :: y :: r
      else y :: insert_by_amount l2 x r
  end.

Definition sort_by_amount (l2 : list Invoice) (items : list nat) : list nat :=
  foldr (insert_by_amount l2) [] items.

(** [bisect.bisect_left(a, x)]: the loop of the standard library,
    [while lo < hi: mid = (lo + hi) // 2; if a[mid] < x: lo = mid + 1
    else: hi = mid].  The loop runs at most [len(a)] times. *)
Fixpoint bisect_loop (fuel : nat) (a : list Q) (x : Q) (lo hi : nat) : nat :=
  match fuel with
  | O => lo
  | S fuel' =>
      if lo <? hi then
        let mid := (lo + hi) / 2 in
        match a !! mid with
        | Some v =>
            if Qlt_bool v x then bisect_loop fuel' a x (mid + 1) hi
            else bisect_loop fuel' a x lo mid
        | None => lo
        end
      else lo
  end.

Definition bisect_left (a : list Q) (x : Q) : nat :=
  bisect_loop (length a) a x 0 (length a).

Definition map2_any (st : MState) : gmap Head (list nat) :=
  build_index (fun inv => negb (claimed inv)) head (list2 st).

(** [valid_items = [x for x in items if not x.match_id]], sorted. *)
Definition sorted_candidates_map (st : MState) : gmap Head (list nat) :=
  (fun items =>
     sort_by_amount (list2 st)
       (List.filter (fun j => match list2 st !! j with
                              | Some x => negb (claimed x)
                              | None => false
                              end) items)) <$> map2_any st.

Definition candidates_amounts_map (st : MState) : gmap Head (list Q) :=
  (fun valid_items : list nat => amount_at (list2 st) <$> valid_items) <$> sorted_candidates_map st.

(** One direction of the outward scan: [break] as soon as the
    distance exceeds the tolerance, [continue] over claimed records. *)
Fixpoint scan_sorted (l2 : list Invoice) (tolerance amt : Q)
    (cs : list nat) (best : option nat * option Q) : option nat * option Q :=
  match cs with
  | [] => best
  | j :: rest =>
      match l2 !! j with
      | None => scan_sorted l2 tolerance amt rest best
      | Some candidate =>
          let diff := Qabs (amount candidate - amt) in
          if Qlt_bool tolerance diff then best
          else if claimed candidate then scan_sorted l2 tolerance amt rest best
          else if lt_best diff (snd best)
               then scan_sorted l2 tolerance amt rest (Some j, Some diff)
               else scan_sorted l2 tolerance amt rest best
      end
  end.

(** The search for [best_match] of one [inv1]: right side from [idx]
    upwards, then left side from [idx - 1] downwards. *)
Definition phase3_choice (cmap : gmap Head (list nat)) (amap : gmap Head (list Q))
    (tolerance : Q) (l2 : list Invoice) (inv1 : Invoice) : option nat :=
  let candidates := default [] (cmap !! head inv1) in
  let candidate_amounts := default [] (amap !! head inv1) in
  match candidates with
  | [] => None
  | _ :: _ =>
      let idx := bisect_left candidate_amounts (amount inv1) in
      let right := scan_sorted l2 tolerance (amount inv1) (drop idx candidates) (None, None) in
      fst (scan_sorted l2 tolerance (amount inv1) (reverse (take idx candidates)) right)
  end.

Definition probable_match : pystr := py "Probable Match (GSTIN Mismatch)".
Definition match_no_gstins : pystr := py "Match (No GSTINs)".

Definition match_desc (inv1 best_match : Invoice) : pystr :=
  if nonempty (gstin inv1) && nonempty (gstin best_match)
     && negb (bool_decide (gstin inv1 = gstin best_match))
  then probable_match
  else match_no_gstins.

Definition phase3_step (cmap : gmap Head (list nat)) (amap : gmap Head (list Q))
    (tolerance : Q) (st : MState) (i : nat) : MState :=
  match list1 st !! i with
  | None => st
  | Some inv1 =>
      if claimed inv1 then st
      else
        match phase3_choice cmap amap tolerance (list2 st) inv1 with
        | Some j =>
            match list2 st !! j with
            | Some best_match => link st i j (match_desc inv1 best_match)
            | None => st
            end
        | None => st
        end
  end.

Definition phase3 (tolerance : Q) (st : MState) : MState :=
  for_each (phase3_step (sorted_candidates_map st) (candidates_amounts_map st) tolerance) st.

(** ** [match_invoices] *)

Definition initial_state (l1 l2 : list Invoice) : MState :=
  {| list1 := l1; list2 := l2; match_counter := 1 |}.

(** State at the end of Phase 2 (where the three indexes are cleared). *)
Definition phases12 (l1 l2 : list Invoice) (tolerance : Q) (name1 name2 : pystr) : MState :=
  phase2b tolerance name1 (phase2a tolerance name2 (phase1 tolerance (initial_state l1 l2))).

(** The result carries the two lists as the call leaves them and the
    returned [match_counter]. *)
Definition match_invoices (l1 l2 : list Invoice) (tolerance : Q) (name1 name2 : pystr) : MState :=
  phase3 tolerance (phases12 l1 l2 tolerance name1 name2).

(** The states at the head of every iteration of a loop, the state
    the loop ends in included. *)
Definition before (body : MState -> nat -> MState) (st : MState) (k : nat) : MState :=
  fold_left body (seq 0 k) st.

Definition loop_trace (body : MState -> nat -> MState) (st : MState) : list MState :=
  before body st <$> seq 0 (S (length (list1 st))).

(** The states [match_invoices] goes through, loop after loop. *)
Definition match_invoices_trace (l1 l2 : list Invoice) (tolerance : Q)
    (name1 name2 : pystr) : list MState :=
  let s0 := initial_state l1 l2 in
  let s1 := phase1 tolerance s0 in
  let s2a := phase2a tolerance name2 s1 in
  let s2 := phase2b tolerance name1 s2a in
  loop_trace (phase1_step (map2 s0) tolerance) s0
  ++ loop_trace (phase2a_step (map2_no_gstin s1) name2 tolerance) s1
  ++ loop_trace (phase2b_step (map2_with_gstin s2a) name1 tolerance) s2a
  ++ loop_trace (phase3_step (sorted_candidates_map s2) (candidates_amounts_map s2) tolerance) s2.

(** A record as [Invoice.__init__] leaves its match fields. *)
Definition fresh (inv : Invoice) : Prop :=
  match_id inv = None /\ match_type inv = None /\ matched_with_row inv = None.

(** * Values, coercions and the record normaliser *)

(** ** Python values and exceptions *)

(** What a worksheet cell or a form field can hold.  [VStr] also
    stands for a value of any other type (a date, say), given by the
    text [str()] returns for it. *)
Inductive PyVal :=
  | VNone
  | VBool (b : bool)
  | VInt (z : Z)
  | VFloat (q : Q)
  | VStr (s : pystr).

Inductive exn :=
  | ValueError (msg : pystr)
  | OverflowError (msg : pystr).

(** [str(e)]. *)
Definition exn_message (e : exn) : pystr :=
  match e with
  | ValueError msg => msg
  | OverflowError msg => msg
  end.

(** A computation that returns or raises. *)
Inductive result (A : Type) :=
  | Ok (a : A)
  | Raise (e : exn).
Arguments Ok {A} a.
Arguments Raise {A} e.

#[global] Instance result_ret : MRet result := fun A a => Ok a.
#[global] Instance result_bind : MBind result := fun A B f m =>
  match m with
  | Ok a => f a
  | Raise e => Raise e
  end.

#[global] Instance result_fmap : FMap result := fun A B f m =>
  match m with
  | Ok a => Ok (f a)
  | Raise e => Raise e
  end.

(** What the Python runtime supplies and this repository only calls:
    the text of a float, of a list of strings, and the Unicode case
    mappings. *)
Class PyRuntime := {
  float_repr : Q -> pystr;
  list_repr : list pystr -> pystr;
  str_upper : pystr -> pystr;
  str_lower : pystr -> pystr
}.

(** ** String operations *)

(** [str.isspace] of one code point; also the class [\s] of [re]. *)
Definition is_space (c : N) : bool :=
  ((9 <=? c) && (c <=? 13) || (28 <=? c) && (c <=? 32)
   || (c =? 133) || (c =? 160) || (c =? 5760)
   || (8192 <=? c) && (c <=? 8202)
   || (c =? 8232) || (c =? 8233) || (c =? 8239) || (c =? 8287) || (c =? 12288))%N.

Fixpoint lstrip (s : pystr) : pystr :=
  match s with
  | [] => []
  | c :: rest => if is_space c then lstrip rest else s
  end.

Definition strip (s : pystr) : pystr := reverse (lstrip (reverse (lstrip s))).

(** [s.replace(c, "")] for a one-character [c]. *)
Definition remove_char (c : N) (s : pystr) : pystr :=
  List.filter (fun x => negb (x =? c)%N) s.

(** The class [\d], over the ASCII digits.  (Python's class also
    holds the decimal digits of other scripts; a text with such digits
    is outside this model.) *)
Definition is_digit (c : N) : bool := ((48 <=? c) && (c <=? 57))%N.

Fixpoint take_digits (s : pystr) : pystr :=
  match s with
  | c :: rest => if is_digit c then c :: take_digits rest else []
  | [] => []
  end.

Fixpoint drop_digits (s : pystr) : pystr :=
  match s with
  | c :: rest => if is_digit c then drop_digits rest else s
  | [] => []
  end.

(** The text matched by [\d+(\.\d+)?] at the start of [s], which
    starts with a digit. *)
Definition match_number (s : pystr) : pystr :=
  let int_part := take_digits s in
  match drop_digits s with
  | 46%N :: after_dot =>
      match take_digits after_dot with
      | [] => int_part
      | frac => int_part ++ 46%N :: frac
      end
  | _ => int_part
  end.

Definition starts_with_digit (s : pystr) : bool :=
  match s with
  | c :: _ => is_digit c
  | [] => false
  end.

(** [re.search(r"-?\d+(\.\d+)?", s)]: the leftmost match,
    [match.group(0)], or [None]. *)
Fixpoint re_search_number (s : pystr) : option pystr :=
  match s with
  | [] => None
  | c :: rest =>
      if is_digit c then Some (match_number s)
      else if (c =? 45)%N && starts_with_digit rest then Some (c :: match_number rest)
      else re_search_number rest
  end.

Definition digits_value (ds : pystr) : Z :=
  fold_left (fun acc c => (acc * 10 + (Z.of_N c - 48))%Z) ds 0%Z.

(** [float(text)] for a text matched by the pattern above, as the
    exact value of the text.  ([float] rounds that value to the
    nearest double and returns [inf] beyond the largest double, which
    a text of 309 digits or more can reach; the properties that depend
    on it bound the number of digits or the amounts.) *)
Definition parse_decimal (text : pystr) : Q :=
  let negative := match text with 45%N :: _ => true | _ => false end in
  let body := if negative then tail text else text in
  let int_part := take_digits body in
  let frac := match drop_digits body with
              | 46%N :: after_dot => take_digits after_dot
              | _ => []
              end in
  let num := (digits_value int_part * 10 ^ Z.of_nat (length frac) + digits_value frac)%Z in
  let den := Pos.pow 10 (Pos.of_nat (length frac)) in
  let den := match frac with [] => 1%positive | _ => den end in
  if negative then Qmake (- num) den else Qmake num den.

(** [float(n)] for an [int]: it raises [OverflowError] when [n]
    rounds to a magnitude beyond the largest double. *)
Definition float_of_int (z : Z) : result Q :=
  if (Z.abs z <? 2 ^ 1024 - 2 ^ 970)%Z then Ok (inject_Z z)
  else Raise (OverflowError (py "int too large to convert to float")).

Definition to_float (val : PyVal) : result Q :=
  match val with
  | VNone => Ok 0%Q
  | VBool b => Ok (if b then 1%Q else 0%Q)
  | VInt z => float_of_int z
  | VFloat q => Ok q
  | VStr text =>
      let s := strip text in
      match s with
      | [] => Ok 0%Q
      | _ =>
          let s := remove_char 8377 (remove_char 160 (remove_char 44 s)) in
          let s := if bool_decide (s !! 0 = Some 40%N) && bool_decide (last s = Some 41%N)
                   then 45%N :: removelast (tail s)
                   else s in
          match re_search_number s with
          | Some text => Ok (parse_decimal text)
          | None => Ok 0%Q
          end
      end
  end.

(** ** Dictionaries in insertion order *)

Section OrderedDict.
Context {V : Type}.

(** [d.get(k)]. *)
Fixpoint od_get (d : list (pystr * V)) (k : pystr) : option V :=
  match d with
  | [] => None
  | (k', v) :: rest => if bool_decide (k' = k) then Some v else od_get rest k
  end.

(** [d[k] = v]: an existing key keeps its place. *)
Fixpoint od_set (d : list (pystr * V)) (k : pystr) (v : V) : list (pystr * V) :=
  match d with
  | [] => [(k, v)]
  | (k', v') :: rest =>
      if bool_decide (k' = k) then (k', v) :: rest else (k', v') :: od_set rest k v
  end.
End OrderedDict.

(** ** Worksheets *)

(** The cells of a sheet that exist, by (row, column), both from 1. *)
Definition cell_value (ws : gmap (nat * nat) PyVal) (r c : nat) : PyVal :=
  default VNone (ws !! (r, c)).

(** [ws.max_row] and [ws.max_column]: the largest row and column of a
    cell that exists, 1 for an empty sheet. *)
Definition max_row (ws : gmap (nat * nat) PyVal) : nat :=
  map_fold (fun k _ acc => Nat.max (fst k) acc) 1 ws.

Definition max_column (ws : gmap (nat * nat) PyVal) : nat :=
  map_fold (fun k _ acc => Nat.max (snd k) acc) 1 ws.

(** [ws.cell(row=r, column=c, value=v)]: the cell comes to exist, and
    takes the value unless it is [None]. *)
Definition cell_write (ws : gmap (nat * nat) PyVal) (r c : nat) (v : PyVal) :
    gmap (nat * nat) PyVal :=
  match v with
  | VNone => match ws !! (r, c) with
             | Some _ => ws
             | None => <[(r, c) := VNone]> ws
             end
  | _ => <[(r, c) := v]> ws
  end.

(** [k in h] for strings. *)
Fixpoint is_prefix (k h : pystr) : bool :=
  match k, h with
  | [], _ => true
  | _ :: _, [] => false
  | x :: k', y :: h' => (x =? y)%N && is_prefix k' h'
  end.

Fixpoint contains (k h : pystr) : bool :=
  is_prefix k h ||
  match h with
  | [] => false
  | _ :: h' => contains k h'
  end.

(** [re.sub(r"\s+", " ", s)]; [in_run] says that the previous
    character was white space. *)
Fixpoint collapse_spaces (in_run : bool) (s : pystr) : pystr :=
  match s with
  | [] => []
  | c :: rest =>
      if is_space c
      then (if in_run then collapse_spaces true rest else 32%N :: collapse_spaces true rest)
      else c :: collapse_spaces false rest
  end.

Section Normaliser.
Context {rt : PyRuntime}.

(** [str(val)]. *)
Definition py_str (val : PyVal) : pystr :=
  match val with
  | VNone => py "None"
  | VBool b => if b then py "True" else py "False"
  | VInt z => py (NilZero.string_of_int (Z.to_int z))
  | VFloat q => float_repr q
  | VStr s => s
  end.

(** Truth value of a cell value. *)
Definition truthy (val : PyVal) : bool :=
  match val with
  | VNone => false
  | VBool b => b
  | VInt z => negb (z =? 0)%Z
  | VFloat q => negb (Qeq_bool q 0)
  | VStr s => nonempty s
  end.

(** [data.get(key, default)]. *)
Definition data_get (data : list (pystr * PyVal)) (key : string) (default : PyVal) : PyVal :=
  match od_get data (py key) with
  | Some v => v
  | None => default
  end.

(** [str(data.get(key, '') or '').strip()]. *)
Definition text_field (data : list (pystr * PyVal)) (key : string) : pystr :=
  let v := data_get data key (VStr []) in
  strip (py_str (if truthy v then v else VStr [])).

(** [abs(x) > 0.01]. *)
Definition significant (x : Q) : bool := Qlt_bool 0.01 (Qabs x).

(** [Invoice.__init__]: the three [to_float] calls may raise. *)
Definition Invoice_init (row : Z) (data : list (pystr * PyVal)) (source_sheet : pystr) :
    result Invoice :=
  let g := str_upper (text_field data "gstin") in
  let g := if bool_decide (g = py "NONE") || bool_decide (g = py "NAN") then [] else g in
  i ← to_float (data_get data "igst" (VInt 0));
  c ← to_float (data_get data "cgst" (VInt 0));
  s ← to_float (data_get data "sgst" (VInt 0));
  let p := text_field data "party" in
  let h := if significant i then IGST
           else if significant c || significant s then CGST_SGST
           else ZERO in
  let amt := if significant i then i
             else if significant c || significant s
                  then (if significant c then c else s)
                  else 0%Q in
  mret {| row_idx := row; gstin := g; igst := i; cgst := c; sgst := s; party := p;
          head := h; amount := amt; source := source_sheet;
          match_id := None; match_type := None; matched_with_row := None |}.

(** ** [normalize_header] and [get_header_map] *)

Definition normalize_header (h : PyVal) : pystr :=
  match h with
  | VNone => []
  | _ => collapse_spaces false (str_lower (strip (py_str h)))
  end.

(** The dictionary [headers]: normalised text of row 1 to column. *)
Definition header_dict (ws : gmap (nat * nat) PyVal) : list (pystr * nat) :=
  fold_left (fun headers col =>
               let norm := normalize_header (cell_value ws 1 col) in
               if nonempty norm then od_set headers norm col else headers)
            (seq 1 (max_column ws)) [].

(** [find_col]: the first keyword, and for it the first header, with
    the keyword inside the header. *)
Fixpoint find_header (headers : list (pystr * nat)) (k : pystr) : option nat :=
  match headers with
  | [] => None
  | (h, col) :: rest => if contains k h then Some col else find_header rest k
  end.

Fixpoint find_col (headers : list (pystr * nat)) (keywords : list pystr) : option nat :=
  match keywords with
  | [] => None
  | k :: rest =>
      match find_header headers k with
      | Some col => Some col
      | None => find_col headers rest
      end
  end.

Definition get_header_map (ws : gmap (nat * nat) PyVal) : list (pystr * option nat) :=
  let headers := header_dict ws in
  let col := fun keywords => find_col headers (py <$> keywords) in
  [ (py "gstin", col ["gstin"; "gst number"; "gst no"; "tin"]);
    (py "party", col ["party"; "name"; "legal name"; "trade name"; "supplier"; "customer"]);
    (py "igst", col ["igst"; "integrated tax"]);
    (py "cgst", col ["cgst"; "central tax"]);
    (py "sgst", col ["sgst"; "state tax"; "utgst"]);
    (py "inv_no", col ["invoice number"; "inv no"; "bill no"]);
    (py "date", col ["invoice date"; "date"; "inv dt"]) ]%string.

(** Truth value of a mapped column ([None] or a column number). *)
Definition col_truthy (col : option nat) : bool :=
  match col with
  | Some c => negb (c =? 0)
  | None => false
  end.

(** ** [read_invoices] *)

(** The inner loop over [mapping.items()]: the field bag of row [r]
    and whether every mapped cell is blank. *)
Definition read_row (ws : gmap (nat * nat) PyVal) (mapping : list (pystr * option nat))
    (r : nat) : list (pystr * PyVal) * bool :=
  fold_left (fun '(data, is_empty) '(k, col_idx) =>
               match col_idx with
               | Some c =>
                   if negb (c =? 0) then
                     let val := cell_value ws r c in
                     (od_set data k val,
                      match val with
                      | VNone => is_empty
                      | _ => if nonempty (strip (py_str val)) then false else is_empty
                      end)
                   else (od_set data k VNone, is_empty)
               | None => (od_set data k VNone, is_empty)
               end)
            mapping ([], true).

Fixpoint read_rows (ws : gmap (nat * nat) PyVal) (mapping : list (pystr * option nat))
    (sheet_name : pystr) (rows : list nat) (invoices : list Invoice) : result (list Invoice) :=
  match rows with
  | [] => mret invoices
  | r :: rest =>
      let '(data, is_empty) := read_row ws mapping r in
      if is_empty then read_rows ws mapping sheet_name rest invoices
      else
        inv ← Invoice_init (Z.of_nat r) data sheet_name;
        if bool_decide (head inv = ZERO)
        then read_rows ws mapping sheet_name rest invoices
        else read_rows ws mapping sheet_name rest (invoices ++ [inv])
  end.

Definition read_invoices (ws : gmap (nat * nat) PyVal) (mapping : list (pystr * option nat))
    (sheet_name : pystr) : result (list Invoice) :=
  read_rows ws mapping sheet_name (seq 2 (max_row ws - 1)) [].
End Normaliser.

(** * The annotator and the driver *)

(** ** [write_results] *)

Definition opt_int (o : option Z) : PyVal :=
  match o with
  | Some z => VInt z
  | None => VNone
  end.

(** [{inv.row_idx: inv for inv in invoices}]. *)
Definition inv_map_of (invoices : list Invoice) : gmap Z Invoice :=
  fold_left (fun m inv => <[row_idx inv := inv]> m) invoices ∅.

Definition missing_in (other_name : pystr) : pystr := py "Missing in " ++ other_name.
Definition ignored_zero : pystr := py "Ignored/Zero".

(** [inv.match_type if inv.match_type else f"Missing in {other_name}"]. *)
Definition status_of (inv : Invoice) (other_name : pystr) : pystr :=
  match match_type inv with
  | Some t => if nonempty t then t else missing_in other_name
  | None => missing_in other_name
  end.

(** The body of [for r in range(2, ws.max_row + 1)]. *)
Definition annotate_row (inv_map : gmap Z Invoice) (other_name : pystr) (max_col : nat)
    (ws : gmap (nat * nat) PyVal) (r : nat) : gmap (nat * nat) PyVal :=
  match inv_map !! Z.of_nat r with
  | Some inv =>
      let ws := cell_write ws r (max_col + 1) (VStr (status_of inv other_name)) in
      let ws := cell_write ws r (max_col + 2) (opt_int (match_id inv)) in
      cell_write ws r (max_col + 3) (opt_int (matched_with_row inv))
  | None => cell_write ws r (max_col + 1) (VStr ignored_zero)
  end.

Definition write_headers (ws : gmap (nat * nat) PyVal) (max_col : nat) :
    gmap (nat * nat) PyVal :=
  let ws := cell_write ws 1 (max_col + 1) (VStr (py "Match_Status")) in
  let ws := cell_write ws 1 (max_col + 2) (VStr (py "Match_ID")) in
  cell_write ws 1 (max_col + 3) (VStr (py "Matched_Row_Idx")).

Definition write_results (ws : gmap (nat * nat) PyVal) (invoices : list Invoice)
    (this_name other_name : pystr) : gmap (nat * nat) PyVal :=
  let max_col := max_column ws in
  let ws := write_headers ws max_col in
  let inv_map := inv_map_of invoices in
  fold_left (annotate_row inv_map other_name max_col) (seq 2 (max_row ws - 1)) ws.

(** ** [process_reconciliation] *)

Section Driver.
Context {rt : PyRuntime}.

Inductive SheetKind := BOOKS | GSTR2B | GSTR3B | UNKNOWN.

#[global] Instance SheetKind_eq_dec : EqDecision SheetKind.
Proof. solve_decision. Defined.

Definition classify_sheet (name : pystr) : SheetKind :=
  let n := str_lower name in
  if existsb (fun x => contains (py x) n)
       ["book"; "purchase"; "ledger"; "pr"; "register"]%string
  then BOOKS
  else if contains (py "2b") n then GSTR2B
  else if contains (py "3b") n then GSTR3B
  else UNKNOWN.

(** Truth value of a sheet name ([None] or a string). *)
Definition name_given (name : option pystr) : bool :=
  match name with
  | Some s => nonempty s
  | None => false
  end.

Definition sheets_of_kind (kind : SheetKind) (sheets : list pystr) : list pystr :=
  List.filter (fun s => bool_decide (classify_sheet s = kind)) sheets.

(** The names after the auto-detection block. *)
Definition resolve_names (sheets : list pystr) (sheet1 sheet2 : option pystr) :
    option pystr * option pystr :=
  if negb (name_given sheet1) && negb (name_given sheet2) then
    let books_sheets := sheets_of_kind BOOKS sheets in
    let gstr2b_sheets := sheets_of_kind GSTR2B sheets in
    let gstr3b_sheets := sheets_of_kind GSTR3B sheets in
    if nonempty books_sheets && nonempty gstr2b_sheets
    then (books_sheets !! 0, gstr2b_sheets !! 0)
    else if nonempty books_sheets && nonempty gstr3b_sheets
    then (books_sheets !! 0, gstr3b_sheets !! 0)
    else if nonempty gstr3b_sheets && nonempty gstr2b_sheets
    then (gstr3b_sheets !! 0, gstr2b_sheets !! 0)
    else if length sheets =? 2
    then (sheets !! 0, sheets !! 1)
    else (sheet1, sheet2)
  else (sheet1, sheet2).

Definition msg_no_sheets (sheets : list pystr) : pystr :=
  py "Could not auto-detect sheets. and none provided. Available: " ++ list_repr sheets.
Definition msg_same_sheet : pystr := py "Sheet 1 and Sheet 2 must be different.".
Definition msg_not_found (sheets : list pystr) : pystr :=
  py "One of the sheets not found. Available: " ++ list_repr sheets.
Definition msg_missing_gstin (sheet_name : pystr) : pystr :=
  py "Sheet '" ++ sheet_name ++ py "' is missing required columns: gstin".
Definition msg_no_tax (sheet_name : pystr) : pystr :=
  py "Sheet '" ++ sheet_name ++ py "' has no tax columns (IGST, CGST, or SGST found).".

(** [m.get(c)] as a truth value. *)
Definition has_col (m : list (pystr * option nat)) (c : string) : bool :=
  match od_get m (py c) with
  | Some col => col_truthy col
  | None => false
  end.

Definition validate_map (m : list (pystr * option nat)) (sheet_name : pystr) : result unit :=
  if negb (has_col m "gstin") then Raise (ValueError (msg_missing_gstin sheet_name))
  else if negb (has_col m "igst" || has_col m "cgst" || has_col m "sgst")
  then Raise (ValueError (msg_no_tax sheet_name))
  else mret tt.

(** [wb[name]]. *)
Fixpoint wb_get (wb : list (pystr * gmap (nat * nat) PyVal)) (name : pystr) :
    option (gmap (nat * nat) PyVal) :=
  match wb with
  | [] => None
  | (n, ws) :: rest => if bool_decide (n = name) then Some ws else wb_get rest name
  end.

(** The sheet [name] replaced by [ws]. *)
Fixpoint wb_set (wb : list (pystr * gmap (nat * nat) PyVal)) (name : pystr)
    (ws : gmap (nat * nat) PyVal) : list (pystr * gmap (nat * nat) PyVal) :=
  match wb with
  | [] => []
  | (n, ws') :: rest =>
      if bool_decide (n = name) then (n, ws) :: rest else (n, ws') :: wb_set rest name ws
  end.

(** [os.path.splitext(path)[0]] with [/] as the separator. *)
Fixpoint last_index (c : N) (s : pystr) (i : nat) (found : option nat) : option nat :=
  match s with
  | [] => found
  | x :: rest => last_index c rest (S i) (if (x =? c)%N then Some i else found)
  end.

Definition splitext_root (path : pystr) : pystr :=
  let name_start := match last_index 47 path 0 None with
                    | Some i => S i
                    | None => 0
                    end in
  match last_index 46 path 0 None with
  | Some dot =>
      if (name_start <=? dot)
         && existsb (fun x => negb (x =? 46)%N) (take (dot - name_start) (drop name_start path))
      then take dot path
      else path
  | None => path
  end.

(** [process_reconciliation(path, sheet1, sheet2, tolerance)] on the
    workbook that [load_workbook(path)] returned, at the time stamp
    [ts]; the result is the name and the content of the saved file.
    The workbook is the list of its worksheets by name: a chart sheet,
    on which [get_header_map] raises an [AttributeError], is not
    represented. *)
Definition process_reconciliation (path : pystr) (wb : list (pystr * gmap (nat * nat) PyVal))
    (ts : pystr) (sheet1 sheet2 : option pystr) (tolerance : Q) :
    result (pystr * list (pystr * gmap (nat * nat) PyVal)) :=
  let sheets := fst <$> wb in
  let '(name1, name2) := resolve_names sheets sheet1 sheet2 in
  match name1, name2 with
  | Some name1, Some name2 =>
      if negb (nonempty name1) || negb (nonempty name2)
      then Raise (ValueError (msg_no_sheets sheets))
      else if bool_decide (name1 = name2) then Raise (ValueError msg_same_sheet)
      else
        match wb_get wb name1, wb_get wb name2 with
        | Some ws1, Some ws2 =>
            let map1 := get_header_map ws1 in
            let map2 := get_header_map ws2 in
            _ ← validate_map map1 name1;
            _ ← validate_map map2 name2;
            inv1 ← read_invoices ws1 map1 name1;
            inv2 ← read_invoices ws2 map2 name2;
            let st := match_invoices inv1 inv2 tolerance name1 name2 in
            let ws1 := write_results ws1 (list1 st) name1 name2 in
            let ws2 := write_results ws2 (list2 st) name2 name1 in
            let out_file := splitext_root path ++ py "_RECON_" ++ ts ++ py ".xlsx" in
            mret (out_file, wb_set (wb_set wb name1 ws1) name2 ws2)
        | _, _ => Raise (ValueError (msg_not_found sheets))
        end
  | _, _ => Raise (ValueError (msg_no_sheets sheets))
  end.

(** ** The error path of [upload_file] *)

(** [os.path.basename]. *)
Definition basename (path : pystr) : pystr :=
  match last_index 47 path 0 None with
  | Some i => drop (S i) path
  | None => path
  end.

(** The JSON body and the status that [upload_file] answers with
    once [process_reconciliation] has returned or raised (the file it
    names exists once saved). *)
Definition upload_response (r : result (pystr * list (pystr * gmap (nat * nat) PyVal))) :
    list (pystr * pystr) * nat :=
  match r with
  | Ok (output_file, _) =>
      if nonempty output_file
      then ([(py "message", py "Reconciliation successful!");
             (py "download_url", py "/download?file=" ++ basename output_file)], 200)
      else ([(py "error", py "Reconciliation failed to produce an output file.")], 500)
  | Raise e => ([(py "error", exn_message e)], 500)
  end.
End Driver.

(** * The tolerance as the caller passes it

    [app.upload_file] calls [process_reconciliation] with
    [float(request.form.get('tolerance', 1.0))], and [float] accepts
    the texts ['nan'], ['inf'] and ['-inf'] beside the decimal numbers:
    the tolerance that reaches [match_invoices] is any float.  This
    part gives [match_invoices] and [process_reconciliation] again,
    line for line, with such a tolerance.  The amounts stay rationals,
    so every [diff] is finite and the two tests that involve the
    tolerance, [diff <= tolerance] and [diff > tolerance], are the only
    places where an infinity or NaN is met.  On a finite tolerance the
    definitions of this part are those given above
    ([match_invoices_Finite], [process_reconciliation_Finite]). *)

Inductive PyFloat :=
  | Finite (q : Q)
  | PosInf
  | NegInf
  | NaN.

(** [diff <= tolerance] for a finite [diff]: every comparison with NaN
    is false. *)
Definition float_le (diff : Q) (tolerance : PyFloat) : bool :=
  match tolerance with
  | Finite t => Qle_bool diff t
  | PosInf => true
  | NegInf => false
  | NaN => false
  end.

(** [diff > tolerance] for a finite [diff]. *)
Definition float_gt (diff : Q) (tolerance : PyFloat) : bool :=
  match tolerance with
  | Finite t => Qlt_bool t diff
  | PosInf => false
  | NegInf => true
  | NaN => false
  end.

Module Float.


(** The loop [for candidate in candidates: ...] of Phases 1 and 2. *)
Fixpoint scan_candidates (l2 : list Invoice) (tolerance : PyFloat) (amt : Q)
    (candidates : list nat) (best : option nat * option Q) : option nat * option Q :=
  match candidates with
  | [] => best
  | j :: rest =>
      match l2 !! j with
      | None => scan_candidates l2 tolerance amt rest best
      | Some candidate =>
          if claimed candidate then scan_candidates l2 tolerance amt rest best
          else
            let diff := Qabs (amt - amount candidate) in
            if float_le diff tolerance && lt_best diff (snd best)
            then scan_candidates l2 tolerance amt rest (Some j, Some diff)
            else scan_candidates l2 tolerance amt rest best
      end
  end.

Definition best_match_of (cands_of : Invoice -> list nat) (tolerance : PyFloat)
    (l2 : list Invoice) (inv1 : Invoice) : option nat :=
  fst (scan_candidates l2 tolerance (amount inv1) (cands_of inv1) (None, None)).

(** One iteration of [for inv1 in list1] in Phase 1 or Phase 2. *)
Definition claim_step (skip : Invoice -> bool) (cands_of : Invoice -> list nat)
    (desc : pystr) (tolerance : PyFloat) (st : MState) (i : nat) : MState :=
  match list1 st !! i with
  | None => st
  | Some inv1 =>
      if claimed inv1 || skip inv1 then st
      else
        match best_match_of cands_of tolerance (list2 st) inv1 with
        | Some j => link st i j desc
        | None => st
        end
  end.

Definition phase1_step (m : gmap (pystr * Head) (list nat)) (tolerance : PyFloat) :
    MState -> nat -> MState :=
  claim_step (fun _ => false) (fun inv1 => dict_get m (key1 inv1))
    perfect_match tolerance.

Definition phase1 (tolerance : PyFloat) (st : MState) : MState :=
  for_each (phase1_step (map2 st) tolerance) st.

Definition phase2a_step (m : gmap Head (list nat)) (name2 : pystr) (tolerance : PyFloat) :
    MState -> nat -> MState :=
  claim_step (fun inv1 => negb (nonempty (gstin inv1)))
    (fun inv1 => dict_get m (head inv1)) (missing_gstin_in name2) tolerance.

Definition phase2a (tolerance : PyFloat) (name2 : pystr) (st : MState) : MState :=
  for_each (phase2a_step (map2_no_gstin st) name2 tolerance) st.

Definition phase2b_step (m : gmap Head (list nat)) (name1 : pystr) (tolerance : PyFloat) :
    MState -> nat -> MState :=
  claim_step (fun inv1 => nonempty (gstin inv1))
    (fun inv1 => dict_get m (head inv1)) (missing_gstin_in name1) tolerance.

Definition phase2b (tolerance : PyFloat) (name1 : pystr) (st : MState) : MState :=
  for_each (phase2b_step (map2_with_gstin st) name1 tolerance) st.

(** One direction of the outward scan of Phase 3: the [break] is
    taken when [diff > tolerance], which a NaN tolerance never
    satisfies. *)
Fixpoint scan_sorted (l2 : list Invoice) (tolerance : PyFloat) (amt : Q)
    (cs : list nat) (best : option nat * option Q) : option nat * option Q :=
  match cs with
  | [] => best
  | j :: rest =>
      match l2 !! j with
      | None => scan_sorted l2 tolerance amt rest best
      | Some candidate =>
          let diff := Qabs (amount candidate - amt) in
          if float_gt diff tolerance then best
          else if claimed candidate then scan_sorted l2 tolerance amt rest best
          else if lt_best diff (snd best)
               then scan_sorted l2 tolerance amt rest (Some j, Some diff)
               else scan_sorted l2 tolerance amt rest best
      end
  end.

Definition phase3_choice (cmap : gmap Head (list nat)) (amap : gmap Head (list Q))
    (tolerance : PyFloat) (l2 : list Invoice) (inv1 : Invoice) : option nat :=
  let candidates := default [] (cmap !! head inv1) in
  let candidate_amounts := default [] (amap !! head inv1) in
  match candidates with
  | [] => None
  | _ :: _ =>
      let idx := bisect_left candidate_amounts (amount inv1) in
      let right := scan_sorted l2 tolerance (amount inv1) (drop idx candidates) (None, None) in
      fst (scan_sorted l2 tolerance (amount inv1) (reverse (take idx candidates)) right)
  end.

Definition phase3_step (cmap : gmap Head (list nat)) (amap : gmap Head (list Q))
    (tolerance : PyFloat) (st : MState) (i : nat) : MState :=
  match list1 st !! i with
  | None => st
  | Some inv1 =>
      if claimed inv1 then st
      else
        match phase3_choice cmap amap tolerance (list2 st) inv1 with
        | Some j =>
            match list2 st !! j with
            | Some best_match => link st i j (match_desc inv1 best_match)
            | None => st
            end
        | None => st
        end
  end.

Definition phase3 (tolerance : PyFloat) (st : MState) : MState :=
  for_each (phase3_step (sorted_candidates_map st) (candidates_amounts_map st) tolerance) st.

(** State at the end of Phase 2. *)
Definition phases12 (l1 l2 : list Invoice) (tolerance : PyFloat) (name1 name2 : pystr) :
    MState :=
  phase2b tolerance name1 (phase2a tolerance name2 (phase1 tolerance (initial_state l1 l2))).

Definition match_invoices (l1 l2 : list Invoice) (tolerance : PyFloat)
    (name1 name2 : pystr) : MState :=
  phase3 tolerance (phases12 l1 l2 tolerance name1 name2).

Section Driver.
Context {rt : PyRuntime}.

Definition process_reconciliation (path : pystr) (wb : list (pystr * gmap (nat * nat) PyVal))
    (ts : pystr) (sheet1 sheet2 : option pystr) (tolerance : PyFloat) :
    result (pystr * list (pystr * gmap (nat * nat) PyVal)) :=
  let sheets := fst <$> wb in
  let '(name1, name2) := resolve_names sheets sheet1 sheet2 in
  match name1, name2 with
  | Some name1, Some name2 =>
      if negb (nonempty name1) || negb (nonempty name2)
      then Raise (ValueError (msg_no_sheets sheets))
      else if bool_decide (name1 = name2) then Raise (ValueError msg_same_sheet)
      else
        match wb_get wb name1, wb_get wb name2 with
        | Some ws1, Some ws2 =>
            let map1 := get_header_map ws1 in
            let map2 := get_header_map ws2 in
            _ ← validate_map map1 name1;
            _ ← validate_map map2 name2;
            inv1 ← read_invoices ws1 map1 name1;
            inv2 ← read_invoices ws2 map2 name2;
            let st := match_invoices inv1 inv2 tolerance name1 name2 in
            let ws1 := write_results ws1 (list1 st) name1 name2 in
            let ws2 := write_results ws2 (list2 st) name2 name1 in
            let out_file := splitext_root path ++ py "_RECON_" ++ ts ++ py ".xlsx" in
            mret (out_file, wb_set (wb_set wb name1 ws1) name2 ws2)
        | _, _ => Raise (ValueError (msg_not_found sheets))
        end
  | _, _ => Raise (ValueError (msg_no_sheets sheets))
  end.
End Driver.

End Float.

(** ** The download route of [app.py] *)

(** [os.path.join(a, b)] with [/] as the separator: an absolute [b]
    replaces [a]. *)
Definition path_join (a b : pystr) : pystr :=
  match b with
  | 47%N :: _ => b
  | _ => if negb (nonempty a) || bool_decide (last a = Some 47%N)
         then a ++ b
         else a ++ 47%N :: b
  end.

Definition UPLOAD_FOLDER : pystr := py "uploads".

(** What a route answers: a text with a status, or [send_file(path)]. *)
Inductive Response :=
  | Text (body : pystr) (status : nat)
  | SendFile (path : pystr).

Section DownloadRoute.
(** [os.path.exists] and [os.path.abspath], as the file system and the
    working directory of the server have them. *)
Variable path_exists : pystr -> bool.
Variable abspath : pystr -> pystr.

(** [download()], on [request.args.get('file')]. *)
Definition download (file : option pystr) : Response :=
  match file with
  | Some filename =>
      if negb (nonempty filename) then Text (py "File not specified") 400
      else
        let file_path := path_join UPLOAD_FOLDER filename in
        if negb (path_exists file_path) then
          let possible_path := abspath filename in
          if path_exists possible_path then SendFile possible_path
          else Text (py "File not found") 404
        else SendFile file_path
  | None => Text (py "File not specified") 400
  end.
End DownloadRoute.

(** ** Sample runtime and workbooks *)

Module Samples.
(** Case mappings over ASCII letters; a float shown as its numerator
    over its denominator (the text is only ever tested for being
    blank). *)
Definition ascii_upper (c : N) : N := if ((97 <=? c) && (c <=? 122))%N then (c - 32)%N else c.
Definition ascii_lower (c : N) : N := if ((65 <=? c) && (c <=? 90))%N then (c + 32)%N else c.

Definition quoted (s : pystr) : pystr := 39%N :: s ++ [39%N].

Fixpoint join_comma (l : list pystr) : pystr :=
  match l with
  | [] => []
  | [s] => s
  | s :: rest => s ++ py ", " ++ join_comma rest
  end.

#[export] Instance runtime : PyRuntime := {|
  float_repr := fun q =>
    py (NilZero.string_of_int (Z.to_int (Qnum q))) ++ py "/"
    ++ py (NilZero.string_of_uint (Pos.to_uint (Qden q)));
  list_repr := fun l => py "[" ++ join_comma (quoted <$> l) ++ py "]";
  str_upper := fun s => ascii_upper <$> s;
  str_lower := fun s => ascii_lower <$> s
|}.

(** A sheet from its rows, top row first; [VNone] leaves no cell. *)
Definition row_cells (r : nat) (cells : list PyVal) (ws : gmap (nat * nat) PyVal) :
    gmap (nat * nat) PyVal :=
  fold_left (fun ws '(c, v) => match v with
                               | VNone => ws
                               | _ => <[(r, S c) := v]> ws
                               end)
            (imap pair cells) ws.

Definition sheet (rows : list (list PyVal)) : gmap (nat * nat) PyVal :=
  fold_left (fun ws '(r, cells) => row_cells (S r) cells ws) (imap pair rows) ∅.

Definition s (text : string) : PyVal := VStr (py text).

Definition books_sheet : gmap (nat * nat) PyVal :=
  sheet [ [s "GSTIN"; s "Party Name"; s "IGST"; s "CGST"; s "SGST"];
          [s "g1"; s "Acme"; VFloat 100; VNone; VNone];
          [s "g2"; s "Bolt"; VInt 0; s "50.00"; s "50.00"];
          [s "g4"; s "Cord"; VInt 0; VInt 0; VInt 0];
          [s "g3"; s "Dyna"; VStr (8377%N :: py "1,234.56"); VNone; VNone] ].

Definition gstr2b_sheet : gmap (nat * nat) PyVal :=
  sheet [ [s "GSTIN of supplier"; s "Trade Name"; s "Integrated Tax"; s "Central Tax";
           s "State Tax"];
          [s "G1"; s "Acme"; VFloat 100.5; VNone; VNone];
          [VNone; s "Bolt"; VNone; VInt 50; VInt 50];
          [s "G9"; s "Dyna"; VFloat 1234.56; VNone; VNone] ].

Definition workbook : list (pystr * gmap (nat * nat) PyVal) :=
  [(py "Purchase Register", books_sheet); (py "GSTR-2B", gstr2b_sheet)].

(** The same workbook with an integer of 401 digits in a tax cell. *)
Definition huge_workbook : list (pystr * gmap (nat * nat) PyVal) :=
  [(py "Purchase Register", <[(2, 3) := VInt (10 ^ 400)]> books_sheet);
   (py "GSTR-2B", gstr2b_sheet)].

(** A sheet without an identifier column. *)
Definition no_gstin_workbook : list (pystr * gmap (nat * nat) PyVal) :=
  [(py "Purchase Register", sheet [ [s "Party"; s "IGST"]; [s "Acme"; VInt 5] ]);
   (py "GSTR-2B", gstr2b_sheet)].
End Samples.

(** Sample lists of records. *)
Module Scenarios.
Definition rec (row : Z) (g : string) (h : Head) (a : Q) (src : string) : Invoice :=
  {| row_idx := row; gstin := py g; igst := 0; cgst := 0; sgst := 0; party := [];
     head := h; amount := a; source := py src;
     match_id := None; match_type := None; matched_with_row := None |}.

Definition A := py "A".
Definition B := py "B".

(** Same GSTIN, amounts 0.5 apart. *)
Definition exact_l1 := [rec 2 "G1" IGST 100 "A"].
Definition exact_l2 := [rec 2 "G1" IGST 100.5 "B"].

(** One record for each of Phase 1, Phase 2 (sub-case B) and Phase 3. *)
Definition mixed_l1 :=
  [rec 2 "G3" IGST 100 "A"; rec 3 "" IGST 100 "A"; rec 4 "" IGST 100 "A"].
Definition mixed_l2 :=
  [rec 2 "G1" IGST 99 "B"; rec 3 "G2" IGST 101 "B"; rec 4 "" IGST 100.5 "B"].

(** Two candidates at the same distance on either side of the amount. *)
Definition tie_l1 := [rec 2 "G3" IGST 100 "A"].
Definition tie_l2 := [rec 2 "G1" IGST 99 "B"; rec 3 "G2" IGST 101 "B"].
End Scenarios.

(** * Vocabulary of the properties *)

(** The two amounts are no further apart than the tolerance. *)
Definition within (tolerance : Q) (a b : Invoice) : Prop :=
  (Qabs (amount a - amount b) <= tolerance)%Q.

(** Which records of list2 each loop considers for [a]. *)
Definition kind1 (a b : Invoice) : bool := bool_decide (key1 b = key1 a).
Definition kind2a (a b : Invoice) : bool :=
  negb (nonempty (gstin b)) && bool_decide (head b = head a).
Definition kind2b (a b : Invoice) : bool :=
  nonempty (gstin b) && bool_decide (head b = head a).

(** [j] is the position in [l2] of the nearest unclaimed record of
    kind [kind] within tolerance of [a], and the first such position
    when several are equally near. *)
Definition earliest_nearest (kind : Invoice -> Invoice -> bool) (tolerance : Q)
    (l2 : list Invoice) (a : Invoice) (j : nat) : Prop :=
  exists b, l2 !! j = Some b /\ claimed b = false /\ kind a b = true
    /\ within tolerance a b
    /\ forall j' b', l2 !! j' = Some b' -> claimed b' = false -> kind a b' = true ->
         within tolerance a b' ->
         (Qabs (amount a - amount b) < Qabs (amount a - amount b'))%Q
         \/ ((Qabs (amount a - amount b) == Qabs (amount a - amount b'))%Q /\ j <= j').

(** * Comparisons *)

Lemma Qlt_bool_iff (x y : Q) : Qlt_bool x y = true <-> (x < y)%Q.
Proof.
  unfold Qlt_bool. rewrite negb_true_iff.
  destruct (Qle_bool y x) eqn:E.
  - apply Qle_bool_iff in E. split; [discriminate | intros H; lra].
  - split; [intros _ | reflexivity].
    destruct (Qlt_le_dec x y) as [H | H]; [exact H |].
    apply Qle_bool_iff in H. congruence.
Qed.

Lemma Qlt_bool_false (x y : Q) : Qlt_bool x y = false <-> (y <= x)%Q.
Proof.
  unfold Qlt_bool. rewrite negb_false_iff. apply Qle_bool_iff.
Qed.

Lemma Qle_bool_false (x y : Q) : Qle_bool x y = false <-> (y < x)%Q.
Proof.
  rewrite <- Qlt_bool_iff. unfold Qlt_bool.
  destruct (Qle_bool x y); simpl; split; congruence.
Qed.

(** * Properties of the lookup structures *)

Section IndexFacts.
Context {K : Type} `{Countable K}.
Variable sel : Invoice -> bool.
Variable keyf : Invoice -> K.

(** Positions of [l] (numbered from [j]) that the index files under [k]. *)
Fixpoint positions (k : K) (j : nat) (l : list Invoice) : list nat :=
  match l with
  | [] => []
  | inv :: rest =>
      if sel inv && bool_decide (keyf inv = k)
      then j :: positions k (S j) rest
      else positions k (S j) rest
  end.

Lemma dict_get_append_eq (m : gmap K (list nat)) k j :
  dict_get (dict_append m k j) k = dict_get m k ++ [j].
Proof. unfold dict_get, dict_append. by rewrite lookup_insert_eq. Qed.

Lemma dict_get_append_ne (m : gmap K (list nat)) k k' j :
  k ≠ k' -> dict_get (dict_append m k j) k' = dict_get m k'.
Proof. intros Hne. unfold dict_get, dict_append. by rewrite lookup_insert_ne. Qed.

Lemma dict_get_index_from k l : forall j (m : gmap K (list nat)),
  dict_get (index_from sel keyf j l m) k = dict_get m k ++ positions k j l.
Proof.
  induction l as [|inv rest IH]; intros j m; simpl.
  - by rewrite app_nil_r.
  - rewrite IH. destruct (sel inv); simpl; [|done].
    case_bool_decide as Hk.
    + subst k. rewrite dict_get_append_eq, <- app_assoc. done.
    + by rewrite dict_get_append_ne.
Qed.

Lemma dict_get_build_index k l :
  dict_get (build_index sel keyf l) k = positions k 0 l.
Proof.
  unfold build_index. rewrite dict_get_index_from.
  unfold dict_get. by rewrite lookup_empty.
Qed.

Lemma elem_of_positions k l : forall j p,
  p ∈ positions k j l <->
  exists inv, j <= p /\ l !! (p - j) = Some inv /\ sel inv = true /\ keyf inv = k.
Proof.
  induction l as [|inv rest IH]; intros j p; simpl.
  - split; [intros Hin; inversion Hin | intros (? & _ & Hl & _); done].
  - assert (Hrest : p ∈ positions k (S j) rest <->
              exists inv', j < p /\ rest !! (p - S j) = Some inv'
                           /\ sel inv' = true /\ keyf inv' = k).
    { rewrite IH. split; intros (x & ? & ? & ?); exists x; split; auto; lia. }
    assert (Hstep : forall inv', j < p ->
              (inv :: rest) !! (p - j) = Some inv' <-> rest !! (p - S j) = Some inv').
    { intros inv' Hlt. replace (p - j) with (S (p - S j)) by lia. done. }
    destruct (sel inv && bool_decide (keyf inv = k)) eqn:E.
    + apply andb_true_iff in E as [Es Ek]. apply bool_decide_eq_true in Ek.
      rewrite elem_of_cons, Hrest. split.
      * intros [-> | (x & Hlt & Hl & Hx)].
        -- exists inv. rewrite Nat.sub_diag. auto.
        -- exists x. split; [lia|]. split; [by apply Hstep | done].
      * intros (x & Hle & Hl & Hx).
        destruct (decide (p = j)) as [-> | Hne]; [by left | right].
        exists x. split; [lia|]. split; [apply Hstep; [lia | done] | done].
    + rewrite Hrest. split.
      * intros (x & Hlt & Hl & Hx). exists x.
        split; [lia|]. split; [by apply Hstep | done].
      * intros (x & Hle & Hl & Hs & Hk).
        destruct (decide (p = j)) as [-> | Hne].
        -- rewrite Nat.sub_diag in Hl. simpl in Hl. injection Hl as <-.
           rewrite Hs in E. simpl in E. apply bool_decide_eq_false in E. done.
        -- exists x. split; [lia|]. split; [apply Hstep; [lia | done] | done].
Qed.

Lemma positions_sorted k l : forall j, StronglySorted lt (positions k j l).
Proof.
  induction l as [|inv rest IH]; intros j; simpl; [constructor|].
  destruct (sel inv && bool_decide (keyf inv = k)); [|apply IH].
  constructor; [apply IH|].
  apply Forall_forall. intros p Hp.
  apply elem_of_positions in Hp as (? & Hle & _). lia.
Qed.

(** What [m.get(k, [])] returns for an index built over [l]. *)
Lemma elem_of_build_index k l p :
  p ∈ dict_get (build_index sel keyf l) k <->
  exists inv, l !! p = Some inv /\ sel inv = true /\ keyf inv = k.
Proof.
  rewrite dict_get_build_index, elem_of_positions.
  rewrite Nat.sub_0_r. split.
  - intros (x & _ & ?). eauto.
  - intros (x & ?). exists x. split; [lia | done].
Qed.

Lemma build_index_sorted k l :
  StronglySorted lt (dict_get (build_index sel keyf l) k).
Proof. rewrite dict_get_build_index. apply positions_sorted. Qed.
End IndexFacts.

(** * How the store changes *)

(** The fields the matcher never writes. *)
Definition data_of (inv : Invoice) :=
  (row_idx inv, gstin inv, igst inv, cgst inv, sgst inv, party inv,
   head inv, amount inv, source inv).

(** A record either stays as it is, or goes from unclaimed to claimed
    with its data untouched. *)
Definition rec_evolves (a a' : Invoice) : Prop :=
  a' = a \/ (claimed a = false /\ claimed a' = true /\ data_of a' = data_of a).

#[global] Instance rec_evolves_refl : Reflexive rec_evolves.
Proof. intros a. by left. Qed.

#[global] Instance rec_evolves_trans : Transitive rec_evolves.
Proof.
  intros a b c [-> | (Ha & Hb & Hd)] [-> | (Hb' & Hc & Hd')].
  - by left.
  - right. done.
  - right. done.
  - congruence.
Qed.

Lemma rec_evolves_data a a' : rec_evolves a a' -> data_of a' = data_of a.
Proof. intros [-> | (_ & _ & Hd)]; done. Qed.

Lemma rec_evolves_claimed a a' : rec_evolves a a' -> claimed a = true -> a' = a.
Proof. intros [-> | (Hc & _)]; [done | congruence]. Qed.

Lemma rec_evolves_unclaimed a a' : rec_evolves a a' -> claimed a' = false -> a' = a.
Proof. intros [-> | (_ & Hc & _)]; [done | congruence]. Qed.

Lemma data_of_head a b : data_of a = data_of b -> head a = head b.
Proof. unfold data_of. congruence. Qed.

Lemma data_of_amount a b : data_of a = data_of b -> amount a = amount b.
Proof. unfold data_of. congruence. Qed.

Record evolves (st st' : MState) : Prop := mkEvolves {
  ev_list1 : Forall2 rec_evolves (list1 st) (list1 st');
  ev_list2 : Forall2 rec_evolves (list2 st) (list2 st');
  ev_counter : (match_counter st <= match_counter st')%Z
}.

#[global] Instance evolves_refl : Reflexive evolves.
Proof. intros st. split; [reflexivity | reflexivity | lia]. Qed.

#[global] Instance evolves_trans : Transitive evolves.
Proof.
  intros s1 s2 s3 [A1 A2 A3] [B1 B2 B3]. split.
  - by etrans.
  - by etrans.
  - lia.
Qed.

Lemma set_match_data inv m d r : data_of (set_match inv m d r) = data_of inv.
Proof. reflexivity. Qed.

Lemma set_match_claimed inv m d r : m ≠ 0%Z -> claimed (set_match inv m d r) = true.
Proof.
  intros Hm. unfold claimed. simpl. apply negb_true_iff. by apply Z.eqb_neq.
Qed.

Lemma Forall2_rec_evolves_insert (l : list Invoice) i a a' :
  l !! i = Some a -> rec_evolves a a' -> Forall2 rec_evolves l (<[i := a']> l).
Proof.
  intros Hl Hev.
  rewrite <- (list_insert_id l i a Hl) at 1.
  apply Forall2_insert; [reflexivity | done].
Qed.

(** A link of two unclaimed records is a legal change of the store. *)
Lemma link_evolves st i j desc a b :
  (1 <= match_counter st)%Z ->
  list1 st !! i = Some a -> list2 st !! j = Some b ->
  claimed a = false -> claimed b = false ->
  evolves st (link st i j desc).
Proof.
  intros Hc Ha Hb Hca Hcb. unfold link. rewrite Ha, Hb. split; simpl.
  - eapply Forall2_rec_evolves_insert; [done|]. right.
    split; [done|]. split; [apply set_match_claimed; lia | apply set_match_data].
  - eapply Forall2_rec_evolves_insert; [done|]. right.
    split; [done|]. split; [apply set_match_claimed; lia | apply set_match_data].
  - lia.
Qed.

Lemma evolves_lookup1 st st' i a' :
  evolves st st' -> list1 st' !! i = Some a' ->
  exists a, list1 st !! i = Some a /\ rec_evolves a a'.
Proof. intros [E _ _] Hl. eapply Forall2_lookup_r; eauto. Qed.

Lemma evolves_lookup2 st st' j b' :
  evolves st st' -> list2 st' !! j = Some b' ->
  exists b, list2 st !! j = Some b /\ rec_evolves b b'.
Proof. intros [_ E _] Hl. eapply Forall2_lookup_r; eauto. Qed.

Lemma evolves_lookup1_fwd st st' i a :
  evolves st st' -> list1 st !! i = Some a ->
  exists a', list1 st' !! i = Some a' /\ rec_evolves a a'.
Proof. intros [E _ _] Hl. eapply Forall2_lookup_l; eauto. Qed.

Lemma evolves_lookup2_fwd st st' j b :
  evolves st st' -> list2 st !! j = Some b ->
  exists b', list2 st' !! j = Some b' /\ rec_evolves b b'.
Proof. intros [_ E _] Hl. eapply Forall2_lookup_l; eauto. Qed.

Lemma evolves_length1 st st' : evolves st st' -> length (list1 st') = length (list1 st).
Proof. intros [E _ _]. symmetry. by eapply Forall2_length. Qed.

(** ** Loops *)

Lemma fold_left_invariant {A B} (P : A -> Prop) (body : A -> B -> A) (l : list B) :
  (forall s x, P s -> P (body s x)) -> forall s, P s -> P (fold_left body l s).
Proof.
  intros Hstep. induction l as [|x l IH]; intros s Hs; simpl; [done|].
  apply IH. by apply Hstep.
Qed.

Lemma before_S body st k : before body st (S k) = body (before body st k) k.
Proof. unfold before. by rewrite seq_S, fold_left_app. Qed.

Lemma for_each_before body st : for_each body st = before body st (length (list1 st)).
Proof. reflexivity. Qed.

(** ** The candidate scan of Phases 1 and 2 *)

Section Scan.
Variable l2 : list Invoice.
Variable tolerance amt : Q.

Definition diff_at (j : nat) : Q := Qabs (amt - amount_at l2 j).

(** [l2[j]] is unclaimed and within tolerance of [amt]. *)
Definition qualifies (j : nat) : Prop :=
  exists b, l2 !! j = Some b /\ claimed b = false
            /\ (Qabs (amt - amount b) <= tolerance)%Q.

Lemma lt_best_trans d d' o :
  (d < d')%Q -> lt_best d' o = true -> lt_best d o = true.
Proof.
  destruct o as [b|]; simpl; [|done].
  rewrite !Qlt_bool_iff. intros. lra.
Qed.

Lemma lt_best_false_le d d' o :
  lt_best d' o = false -> lt_best d o = true -> (d < d')%Q.
Proof.
  destruct o as [b|]; simpl; [|done].
  rewrite Qlt_bool_false, Qlt_bool_iff. intros. lra.
Qed.

(** Either the scan keeps [best] and nothing in [cs] beats it, or it
    returns the first position of [cs] with the least distance. *)
Lemma scan_candidates_spec cs : forall best,
  let r := scan_candidates l2 tolerance amt cs best in
  (r = best /\ forall j', j' ∈ cs -> qualifies j' -> lt_best (diff_at j') (snd best) = false)
  \/ (exists pre j post,
        cs = pre ++ j :: post /\ r = (Some j, Some (diff_at j)) /\ qualifies j
        /\ lt_best (diff_at j) (snd best) = true
        /\ (forall j', j' ∈ pre -> qualifies j' -> (diff_at j < diff_at j')%Q)
        /\ (forall j', j' ∈ post -> qualifies j' -> (diff_at j <= diff_at j')%Q)).
Proof.
  induction cs as [|c rest IH]; intros best r; subst r; simpl.
  - left. split; [done|]. intros j' Hin. inversion Hin.
  - assert (Hskip :
      (forall j', j' = c -> qualifies j' -> lt_best (diff_at j') (snd best) = false) ->
      (scan_candidates l2 tolerance amt rest best = best /\
       forall j', j' ∈ c :: rest -> qualifies j' -> lt_best (diff_at j') (snd best) = false)
      \/ (exists pre j post,
            c :: rest = pre ++ j :: post
            /\ scan_candidates l2 tolerance amt rest best = (Some j, Some (diff_at j))
            /\ qualifies j /\ lt_best (diff_at j) (snd best) = true
            /\ (forall j', j' ∈ pre -> qualifies j' -> (diff_at j < diff_at j')%Q)
            /\ (forall j', j' ∈ post -> qualifies j' -> (diff_at j <= diff_at j')%Q))).
    { intros Hc. destruct (IH best) as [[Hr Hall] | (pre & j & post & -> & Hr & Hq & Hlt & Hpre & Hpost)].
      - left. split; [done|]. intros j' Hin Hq.
        apply elem_of_cons in Hin as [-> | Hin]; [by apply Hc | by apply Hall].
      - right. exists (c :: pre), j, post. repeat split; try done.
        intros j' Hin Hq'. apply elem_of_cons in Hin as [-> | Hin]; [|by apply Hpre].
        eapply lt_best_false_le; [by apply Hc | done]. }
    destruct (l2 !! c) as [cand|] eqn:Hl.
    2:{ apply Hskip. intros j' -> (b & Hb & _). congruence. }
    destruct (claimed cand) eqn:Hcl.
    { apply Hskip. intros j' -> (b & Hb & Hcb & _). congruence. }
    assert (Hd : diff_at c = Qabs (amt - amount cand)).
    { unfold diff_at, amount_at. by rewrite Hl. }
    cbv zeta. rewrite <- Hd.
    destruct (Qle_bool (diff_at c) tolerance) eqn:Htol; simpl.
    2:{ apply Hskip. intros j' -> (b & Hb & _ & Hw).
        assert (b = cand) as -> by congruence.
        apply Qle_bool_false in Htol. rewrite Hd in Htol. lra. }
    destruct (lt_best (diff_at c) (snd best)) eqn:Hlt.
    2:{ apply Hskip. by intros j' ->. }
    assert (Hqc : qualifies c).
    { exists cand. repeat split; try done. apply Qle_bool_iff in Htol. by rewrite <- Hd. }
    right.
    destruct (IH (Some c, Some (diff_at c)))
      as [[Hr Hall] | (pre & j & post & -> & Hr & Hq & Hlt' & Hpre & Hpost)].
    + exists [], c, rest. repeat split; try done.
      * intros j' Hin. inversion Hin.
      * intros j' Hin Hq'. specialize (Hall j' Hin Hq'). simpl in Hall.
        by apply Qlt_bool_false in Hall.
    + simpl in Hlt'. apply Qlt_bool_iff in Hlt'.
      exists (c :: pre), j, post. repeat split; try done.
      * eapply lt_best_trans; done.
      * intros j' Hin Hq'. apply elem_of_cons in Hin as [-> | Hin]; [done | by apply Hpre].
Qed.

(** From an empty [best]: a result exists exactly when some
    candidate qualifies, and it is the first of the nearest ones. *)
Lemma scan_candidates_found cs j :
  fst (scan_candidates l2 tolerance amt cs (None, None)) = Some j ->
  exists pre post, cs = pre ++ j :: post /\ qualifies j
    /\ (forall j', j' ∈ pre -> qualifies j' -> (diff_at j < diff_at j')%Q)
    /\ (forall j', j' ∈ post -> qualifies j' -> (diff_at j <= diff_at j')%Q).
Proof.
  intros Hr.
  destruct (scan_candidates_spec cs (None, None))
    as [[Hr' _] | (pre & j0 & post & Hcs & Hr' & Hq & _ & Hpre & Hpost)];
    rewrite Hr' in Hr; simpl in Hr; [done|].
  injection Hr as ->. eauto 10.
Qed.

Lemma scan_candidates_none cs :
  fst (scan_candidates l2 tolerance amt cs (None, None)) = None ->
  forall j, j ∈ cs -> ~ qualifies j.
Proof.
  intros Hr j Hin Hq.
  destruct (scan_candidates_spec cs (None, None))
    as [[_ Hall] | (pre & j0 & post & Hcs & Hr' & _)].
  - specialize (Hall j Hin Hq). done.
  - rewrite Hr' in Hr. done.
Qed.
End Scan.

(** ** One iteration of Phase 1 or 2 *)

Lemma claim_step_cases skip cands_of desc tolerance st i :
  claim_step skip cands_of desc tolerance st i = st
  \/ exists a j b,
       list1 st !! i = Some a /\ claimed a = false /\ skip a = false
       /\ list2 st !! j = Some b /\ claimed b = false /\ within tolerance a b
       /\ j ∈ cands_of a
       /\ fst (scan_candidates (list2 st) tolerance (amount a) (cands_of a) (None, None)) = Some j
       /\ claim_step skip cands_of desc tolerance st i = link st i j desc.
Proof.
  unfold claim_step, best_match_of.
  destruct (list1 st !! i) as [a|] eqn:Ha; [|by left].
  destruct (claimed a) eqn:Hca; simpl; [by left|].
  destruct (skip a) eqn:Hsk; [by left|].
  destruct (fst (scan_candidates (list2 st) tolerance (amount a) (cands_of a) (None, None)))
    as [j|] eqn:Hscan; [|by left].
  right.
  destruct (scan_candidates_found _ _ _ _ _ Hscan) as (pre & post & Hcs & (b & Hb & Hcb & Hw) & _).
  exists a, j, b. repeat split; try done.
  rewrite Hcs. apply elem_of_app. right. by left.
Qed.

Lemma claim_step_link skip cands_of desc tolerance st i a j :
  list1 st !! i = Some a -> claimed a = false -> skip a = false ->
  fst (scan_candidates (list2 st) tolerance (amount a) (cands_of a) (None, None)) = Some j ->
  claim_step skip cands_of desc tolerance st i = link st i j desc.
Proof.
  intros Ha Hca Hsk Hscan. unfold claim_step, best_match_of.
  by rewrite Ha, Hca, Hsk, Hscan.
Qed.

Lemma claim_step_evolves skip cands_of desc tolerance st i :
  (1 <= match_counter st)%Z ->
  evolves st (claim_step skip cands_of desc tolerance st i).
Proof.
  intros Hc.
  destruct (claim_step_cases skip cands_of desc tolerance st i)
    as [-> | (a & j & b & Ha & Hca & _ & Hb & Hcb & _ & _ & _ & ->)]; [reflexivity|].
  by eapply link_evolves.
Qed.

(** ** The pairing invariant *)

(** [a] (in list1) and [b] (in list2) are the two ends of match [m]. *)
Definition paired (tolerance : Q) (c : Z) (a b : Invoice) (m : Z) : Prop :=
  match_id a = Some m /\ match_id b = Some m /\ (1 <= m < c)%Z
  /\ matched_with_row a = Some (row_idx b)
  /\ matched_with_row b = Some (row_idx a)
  /\ match_type a = match_type b /\ is_Some (match_type a)
  /\ head a = head b /\ within tolerance a b.

Record wf (tolerance : Q) (st : MState) : Prop := mkWf {
  wf_counter : (1 <= match_counter st)%Z;
  wf_left : forall i a, list1 st !! i = Some a ->
    fresh a \/ exists m j b, list2 st !! j = Some b
                             /\ paired tolerance (match_counter st) a b m;
  wf_right : forall j b, list2 st !! j = Some b ->
    fresh b \/ exists m i a, list1 st !! i = Some a
                             /\ paired tolerance (match_counter st) a b m;
  wf_inj1 : forall i i' a a' m,
    list1 st !! i = Some a -> list1 st !! i' = Some a' ->
    match_id a = Some m -> match_id a' = Some m -> i = i';
  wf_inj2 : forall j j' b b' m,
    list2 st !! j = Some b -> list2 st !! j' = Some b' ->
    match_id b = Some m -> match_id b' = Some m -> j = j'
}.

Lemma fresh_unclaimed a : fresh a -> claimed a = false.
Proof. intros (Hm & _). unfold claimed. by rewrite Hm. Qed.

Lemma claimed_pos a m : match_id a = Some m -> (1 <= m)%Z -> claimed a = true.
Proof.
  intros Hm Hpos. unfold claimed. rewrite Hm.
  apply negb_true_iff, Z.eqb_neq. lia.
Qed.

Section WfFacts.
Variable tolerance : Q.
Variable st : MState.
Hypothesis Hwf : wf tolerance st.

Lemma wf_id_bound1 i a m :
  list1 st !! i = Some a -> match_id a = Some m -> (1 <= m < match_counter st)%Z.
Proof.
  intros Ha Hm. destruct (wf_left _ _ Hwf i a Ha) as [(Hn & _) | (m' & j & b & _ & Hp)].
  - congruence.
  - destruct Hp as (Hm' & _ & Hr & _). congruence.
Qed.

Lemma wf_id_bound2 j b m :
  list2 st !! j = Some b -> match_id b = Some m -> (1 <= m < match_counter st)%Z.
Proof.
  intros Hb Hm. destruct (wf_right _ _ Hwf j b Hb) as [(Hn & _) | (m' & i & a & _ & Hp)].
  - congruence.
  - destruct Hp as (_ & Hm' & Hr & _). congruence.
Qed.

Lemma wf_unclaimed_fresh1 i a :
  list1 st !! i = Some a -> claimed a = false -> fresh a.
Proof.
  intros Ha Hc. destruct (wf_left _ _ Hwf i a Ha) as [Hf | (m & j & b & _ & Hp)]; [done|].
  destruct Hp as (Hm & _ & Hr & _).
  rewrite (claimed_pos a m) in Hc; [done | done | lia].
Qed.

Lemma wf_unclaimed_fresh2 j b :
  list2 st !! j = Some b -> claimed b = false -> fresh b.
Proof.
  intros Hb Hc. destruct (wf_right _ _ Hwf j b Hb) as [Hf | (m & i & a & _ & Hp)]; [done|].
  destruct Hp as (_ & Hm & Hr & _).
  rewrite (claimed_pos b m) in Hc; [done | done | lia].
Qed.
End WfFacts.

Lemma paired_mono tolerance c c' a b m :
  (c <= c')%Z -> paired tolerance c a b m -> paired tolerance c' a b m.
Proof. unfold paired. intros Hc (? & ? & ? & ?). repeat split; try tauto; lia. Qed.

(** Linking two unclaimed records of equal head and close amounts
    keeps the invariant. *)
Lemma link_wf tolerance st i j desc a b :
  wf tolerance st ->
  list1 st !! i = Some a -> list2 st !! j = Some b ->
  claimed a = false -> claimed b = false ->
  head a = head b -> within tolerance a b ->
  wf tolerance (link st i j desc).
Proof.
  intros Hwf Ha Hb Hca Hcb Hh Hw.
  pose proof (wf_unclaimed_fresh1 _ _ Hwf _ _ Ha Hca) as (Hida & _).
  pose proof (wf_unclaimed_fresh2 _ _ Hwf _ _ Hb Hcb) as (Hidb & _).
  pose proof (wf_counter _ _ Hwf) as Hc.
  assert (Hi : i < length (list1 st)) by (by eapply lookup_lt_Some).
  assert (Hj : j < length (list2 st)) by (by eapply lookup_lt_Some).
  set (c := match_counter st) in *.
  set (a' := set_match a c desc (row_idx b)).
  set (b' := set_match b c desc (row_idx a)).
  assert (Hp : paired tolerance (c + 1) a' b' c).
  { unfold paired, a', b', within; simpl. repeat split; try done; try lia; by eexists. }
  assert (Hst : link st i j desc =
                {| list1 := <[i := a']> (list1 st); list2 := <[j := b']> (list2 st);
                   match_counter := (c + 1)%Z |}).
  { unfold link. by rewrite Ha, Hb. }
  rewrite Hst. split; simpl.
  - lia.
  - intros i' x Hx. destruct (decide (i' = i)) as [-> | Hne].
    + rewrite list_lookup_insert_eq in Hx by done. injection Hx as <-.
      right. exists c, j, b'. split; [by rewrite list_lookup_insert_eq | done].
    + rewrite list_lookup_insert_ne in Hx by done.
      destruct (wf_left _ _ Hwf i' x Hx) as [Hf | (m & j0 & b0 & Hb0 & Hp0)]; [by left|].
      right. exists m, j0, b0. split.
      * rewrite list_lookup_insert_ne; [done|]. intros ->.
        destruct Hp0 as (_ & Hm0 & _). congruence.
      * eapply paired_mono; [|done]. fold c. lia.
  - intros j' y Hy. destruct (decide (j' = j)) as [-> | Hne].
    + rewrite list_lookup_insert_eq in Hy by done. injection Hy as <-.
      right. exists c, i, a'. split; [by rewrite list_lookup_insert_eq | done].
    + rewrite list_lookup_insert_ne in Hy by done.
      destruct (wf_right _ _ Hwf j' y Hy) as [Hf | (m & i0 & a0 & Ha0 & Hp0)]; [by left|].
      right. exists m, i0, a0. split.
      * rewrite list_lookup_insert_ne; [done|]. intros ->.
        destruct Hp0 as (Hm0 & _). congruence.
      * eapply paired_mono; [|done]. fold c. lia.
  - intros i1 i2 x1 x2 m H1 H2 Hm1 Hm2.
    destruct (decide (i1 = i)) as [-> | Hne1]; destruct (decide (i2 = i)) as [-> | Hne2];
      [done | | |].
    + rewrite list_lookup_insert_eq in H1 by done. injection H1 as <-.
      rewrite list_lookup_insert_ne in H2 by done.
      simpl in Hm1. injection Hm1 as <-.
      pose proof (wf_id_bound1 _ _ Hwf _ _ _ H2 Hm2). fold c in H. lia.
    + rewrite list_lookup_insert_eq in H2 by done. injection H2 as <-.
      rewrite list_lookup_insert_ne in H1 by done.
      simpl in Hm2. injection Hm2 as <-.
      pose proof (wf_id_bound1 _ _ Hwf _ _ _ H1 Hm1). fold c in H. lia.
    + rewrite list_lookup_insert_ne in H1, H2 by done.
      by eapply (wf_inj1 _ _ Hwf).
  - intros j1 j2 y1 y2 m H1 H2 Hm1 Hm2.
    destruct (decide (j1 = j)) as [-> | Hne1]; destruct (decide (j2 = j)) as [-> | Hne2];
      [done | | |].
    + rewrite list_lookup_insert_eq in H1 by done. injection H1 as <-.
      rewrite list_lookup_insert_ne in H2 by done.
      simpl in Hm1. injection Hm1 as <-.
      pose proof (wf_id_bound2 _ _ Hwf _ _ _ H2 Hm2). fold c in H. lia.
    + rewrite list_lookup_insert_eq in H2 by done. injection H2 as <-.
      rewrite list_lookup_insert_ne in H1 by done.
      simpl in Hm2. injection Hm2 as <-.
      pose proof (wf_id_bound2 _ _ Hwf _ _ _ H1 Hm1). fold c in H. lia.
    + rewrite list_lookup_insert_ne in H1, H2 by done.
      by eapply (wf_inj2 _ _ Hwf).
Qed.

Lemma initial_wf tolerance l1 l2 :
  Forall fresh l1 -> Forall fresh l2 -> wf tolerance (initial_state l1 l2).
Proof.
  intros H1 H2. split; simpl.
  - lia.
  - intros i a Ha. left. exact (Forall_lookup_1 _ _ _ _ H1 Ha).
  - intros j b Hb. left. exact (Forall_lookup_1 _ _ _ _ H2 Hb).
  - intros i i' a a' m Ha _ Hm.
    pose proof (Forall_lookup_1 _ _ _ _ H1 Ha) as (Hn & _). congruence.
  - intros j j' b b' m Hb _ Hm.
    pose proof (Forall_lookup_1 _ _ _ _ H2 Hb) as (Hn & _). congruence.
Qed.

(** ** A whole loop of Phase 1 or 2 *)

Section ClaimLoop.
(** [kind a b]: record [b] of list2 is filed in the index under the
    key looked up for [a]. *)
Variable skip : Invoice -> bool.
Variable kind : Invoice -> Invoice -> bool.
Variable cands_of : Invoice -> list nat.
Variable desc : pystr.
Variable tolerance : Q.
Variable s0 : MState.

Hypothesis kind_head : forall a b, kind a b = true -> head a = head b.
Hypothesis cands_elem : forall a j,
  j ∈ cands_of a <->
  exists b0, list2 s0 !! j = Some b0 /\ claimed b0 = false /\ kind a b0 = true.
Hypothesis cands_sorted : forall a, StronglySorted lt (cands_of a).
Hypothesis counter_pos : (1 <= match_counter s0)%Z.

Let body := claim_step skip cands_of desc tolerance.

Lemma loop_evolves k :
  evolves s0 (before body s0 k) /\ (1 <= match_counter (before body s0 k))%Z.
Proof.
  induction k as [|k [IH1 IH2]].
  - split; [reflexivity | done].
  - rewrite before_S.
    pose proof (claim_step_evolves skip cands_of desc tolerance _ k IH2) as Hev.
    split; [by etrans|]. destruct Hev as [_ _ Hc]. fold body in Hc. lia.
Qed.

(** A record of list2 unclaimed now was unclaimed, and the same,
    when the index was built. *)
Lemma unclaimed_since st j b :
  evolves s0 st -> list2 st !! j = Some b -> claimed b = false ->
  list2 s0 !! j = Some b.
Proof.
  intros Hev Hb Hcb.
  destruct (evolves_lookup2 _ _ _ _ Hev Hb) as (b0 & Hb0 & Hr).
  by rewrite (rec_evolves_unclaimed _ _ Hr Hcb).
Qed.

Lemma candidate_head st a j b :
  evolves s0 st -> j ∈ cands_of a -> list2 st !! j = Some b -> head a = head b.
Proof.
  intros Hev Hin Hb.
  apply cands_elem in Hin as (b0 & Hb0 & _ & Hk).
  destruct (evolves_lookup2 _ _ _ _ Hev Hb) as (b0' & Hb0' & Hr).
  assert (b0' = b0) as -> by congruence.
  rewrite (kind_head _ _ Hk).
  symmetry. by apply data_of_head, rec_evolves_data.
Qed.

Lemma loop_wf k : wf tolerance s0 -> wf tolerance (before body s0 k).
Proof.
  intros Hwf0. induction k as [|k IH]; [done|].
  rewrite before_S.
  destruct (claim_step_cases skip cands_of desc tolerance (before body s0 k) k)
    as [Heq | (a & j & b & Ha & Hca & _ & Hb & Hcb & Hw & Hin & _ & Heq)];
    fold body in Heq; rewrite Heq; [done|].
  eapply link_wf; try done.
  eapply candidate_head; [apply loop_evolves | done | done].
Qed.

(** Every unclaimed record of list2 of the right kind is among the
    candidates looked up for [a]. *)
Lemma unclaimed_is_candidate st a j b :
  evolves s0 st -> list2 st !! j = Some b -> claimed b = false ->
  kind a b = true -> j ∈ cands_of a.
Proof.
  intros Hev Hb Hcb Hk. apply cands_elem. exists b.
  split; [by eapply unclaimed_since | done].
Qed.

(** [a], still unclaimed, has no unclaimed partner of its kind within
    tolerance. *)
Definition exhausted (st : MState) (a : Invoice) : Prop :=
  forall j b, list2 st !! j = Some b -> claimed b = false ->
    kind a b = true -> ~ within tolerance a b.

Lemma exhausted_evolves st st' a :
  evolves st st' -> exhausted st a -> exhausted st' a.
Proof.
  intros Hev Hex j b' Hb' Hcb Hk.
  destruct (evolves_lookup2 _ _ _ _ Hev Hb') as (b & Hb & Hr).
  pose proof (rec_evolves_unclaimed _ _ Hr Hcb) as ->.
  by eapply Hex.
Qed.

(** After iteration [k], the records before [k] that the loop looks
    at and leaves unclaimed are exhausted. *)
Lemma loop_saturated k i a :
  i < k -> list1 (before body s0 k) !! i = Some a ->
  claimed a = false -> skip a = false ->
  exhausted (before body s0 k) a.
Proof.
  revert i a. induction k as [|k IH]; intros i a Hlt Ha Hca Hsk; [lia|].
  rewrite before_S in *.
  destruct (loop_evolves k) as [Hev0 Hpos].
  pose proof (claim_step_evolves skip cands_of desc tolerance _ k Hpos) as Hev.
  fold body in Hev.
  destruct (evolves_lookup1 _ _ _ _ Hev Ha) as (a0 & Ha0 & Hr).
  pose proof (rec_evolves_unclaimed _ _ Hr Hca) as ->. clear Hr.
  eapply exhausted_evolves; [exact Hev|].
  destruct (decide (i = k)) as [-> | Hne]; [|apply (IH i); [lia | done..]].
  (* the record of this very iteration: the step did nothing *)
  intros j b Hb Hcb Hk Hw.
  assert (Hin : j ∈ cands_of a0) by (by eapply unclaimed_is_candidate).
  assert (Hq : qualifies (list2 (before body s0 k)) tolerance (amount a0) j).
  { exists b. done. }
  destruct (fst (scan_candidates (list2 (before body s0 k)) tolerance (amount a0)
                   (cands_of a0) (None, None))) as [j0|] eqn:Hscan.
  - (* a link was made, so the record is claimed afterwards *)
    destruct (scan_candidates_found _ _ _ _ _ Hscan)
      as (_ & _ & _ & (b0 & Hb0 & _) & _).
    assert (Hstep : body (before body s0 k) k = link (before body s0 k) k j0 desc).
    { by apply claim_step_link with (a := a0). }
    rewrite Hstep in Ha. unfold link in Ha. rewrite Ha0, Hb0 in Ha. simpl in Ha.
    rewrite list_lookup_insert_eq in Ha by (by eapply lookup_lt_Some).
    injection Ha as Ha. rewrite <- Ha in Hca.
    rewrite set_match_claimed in Hca; [done | lia].
  - by eapply scan_candidates_none.
Qed.

(** The choice made for [a] against the state before iteration [k]:
    the nearest qualifying candidate, the earliest of list2 on a tie. *)
Lemma loop_choice k a j :
  list1 (before body s0 k) !! k = Some a ->
  fst (scan_candidates (list2 (before body s0 k)) tolerance (amount a)
         (cands_of a) (None, None)) = Some j ->
  (exists b, list2 (before body s0 k) !! j = Some b /\ claimed b = false
             /\ kind a b = true /\ within tolerance a b)
  /\ forall j' b', list2 (before body s0 k) !! j' = Some b' -> claimed b' = false ->
       kind a b' = true -> within tolerance a b' ->
       (diff_at (list2 (before body s0 k)) (amount a) j
        < diff_at (list2 (before body s0 k)) (amount a) j')%Q
       \/ ((diff_at (list2 (before body s0 k)) (amount a) j
            == diff_at (list2 (before body s0 k)) (amount a) j')%Q /\ j <= j').
Proof.
  intros Ha Hscan.
  destruct (loop_evolves k) as [Hev _].
  destruct (scan_candidates_found _ _ _ _ _ Hscan)
    as (pre & post & Hcs & (b & Hb & Hcb & Hw) & Hpre & Hpost).
  split.
  - exists b. repeat split; try done.
    assert (Hin : j ∈ cands_of a).
    { rewrite Hcs. apply elem_of_app. right. by left. }
    apply cands_elem in Hin as (b0 & Hb0 & _ & Hk).
    by rewrite (unclaimed_since _ _ _ Hev Hb Hcb) in Hb0; injection Hb0 as <-.
  - intros j' b' Hb' Hcb' Hk' Hw'.
    assert (Hq' : qualifies (list2 (before body s0 k)) tolerance (amount a) j').
    { exists b'. done. }
    assert (Hin : j' ∈ cands_of a) by (by eapply unclaimed_is_candidate).
    pose proof (cands_sorted a) as Hs. rewrite Hcs in Hs, Hin.
    apply elem_of_app in Hin as [Hin | Hin].
    + left. by apply Hpre.
    + apply elem_of_cons in Hin as [-> | Hin].
      * right. split; [reflexivity | lia].
      * pose proof (Hpost j' Hin Hq') as Hle.
        apply StronglySorted_app_1_r in Hs.
        apply StronglySorted_inv in Hs as [_ Hall].
        pose proof (proj1 (Forall_forall _ _) Hall j' Hin) as Hjj.
        destruct (Qlt_le_dec (diff_at (list2 (before body s0 k)) (amount a) j)
                    (diff_at (list2 (before body s0 k)) (amount a) j')) as [Hl | Hg].
        -- by left.
        -- right. split; [lra | lia].
Qed.
End ClaimLoop.

(** ** The three loops of Phases 1 and 2 *)

Lemma kind1_head a b : kind1 a b = true -> head a = head b.
Proof. unfold kind1, key1. intros Hk. apply bool_decide_eq_true in Hk. congruence. Qed.

Lemma kind2a_head a b : kind2a a b = true -> head a = head b.
Proof.
  unfold kind2a. intros Hk. apply andb_true_iff in Hk as [_ Hk].
  by apply bool_decide_eq_true in Hk.
Qed.

Lemma kind2b_head a b : kind2b a b = true -> head a = head b.
Proof.
  unfold kind2b. intros Hk. apply andb_true_iff in Hk as [_ Hk].
  by apply bool_decide_eq_true in Hk.
Qed.

Lemma map2_elem s0 a j :
  j ∈ dict_get (map2 s0) (key1 a) <->
  exists b0, list2 s0 !! j = Some b0 /\ claimed b0 = false /\ kind1 a b0 = true.
Proof.
  unfold map2. rewrite elem_of_build_index. unfold kind1.
  split; intros (b0 & Hb & H1 & H2); exists b0; (split; [done|]).
  - split; [by apply negb_true_iff | by apply bool_decide_eq_true].
  - split; [by apply negb_true_iff | by apply bool_decide_eq_true in H2].
Qed.

Lemma map2_no_gstin_elem s0 a j :
  j ∈ dict_get (map2_no_gstin s0) (head a) <->
  exists b0, list2 s0 !! j = Some b0 /\ claimed b0 = false /\ kind2a a b0 = true.
Proof.
  unfold map2_no_gstin. rewrite elem_of_build_index. unfold kind2a.
  split; intros (b0 & Hb & H1 & H2); exists b0; (split; [done|]).
  - apply andb_true_iff in H1 as [H1 H3]. apply negb_true_iff in H1.
    split; [done|]. rewrite H3. simpl. by apply bool_decide_eq_true.
  - apply andb_true_iff in H2 as [H2 H3]. apply bool_decide_eq_true in H3.
    rewrite H1, H2. done.
Qed.

Lemma map2_with_gstin_elem s0 a j :
  j ∈ dict_get (map2_with_gstin s0) (head a) <->
  exists b0, list2 s0 !! j = Some b0 /\ claimed b0 = false /\ kind2b a b0 = true.
Proof.
  unfold map2_with_gstin. rewrite elem_of_build_index. unfold kind2b.
  split; intros (b0 & Hb & H1 & H2); exists b0; (split; [done|]).
  - apply andb_true_iff in H1 as [H1 H3]. apply negb_true_iff in H1.
    split; [done|]. rewrite H3. simpl. by apply bool_decide_eq_true.
  - apply andb_true_iff in H2 as [H2 H3]. apply bool_decide_eq_true in H3.
    rewrite H1, H2. done.
Qed.

Section Phases12.
Variable tolerance : Q.
Variables name1 name2 : pystr.
Variable s0 : MState.
Hypothesis counter_pos : (1 <= match_counter s0)%Z.

Lemma phase1_evolves :
  evolves s0 (phase1 tolerance s0) /\ (1 <= match_counter (phase1 tolerance s0))%Z.
Proof. unfold phase1. rewrite for_each_before. by apply loop_evolves. Qed.

Lemma phase2a_evolves :
  evolves s0 (phase2a tolerance name2 s0)
  /\ (1 <= match_counter (phase2a tolerance name2 s0))%Z.
Proof. unfold phase2a. rewrite for_each_before. by apply loop_evolves. Qed.

Lemma phase2b_evolves :
  evolves s0 (phase2b tolerance name1 s0)
  /\ (1 <= match_counter (phase2b tolerance name1 s0))%Z.
Proof. unfold phase2b. rewrite for_each_before. by apply loop_evolves. Qed.

Lemma phase1_wf : wf tolerance s0 -> wf tolerance (phase1 tolerance s0).
Proof.
  unfold phase1. rewrite for_each_before.
  apply (loop_wf _ kind1); [apply kind1_head | apply map2_elem | done].
Qed.

Lemma phase2a_wf : wf tolerance s0 -> wf tolerance (phase2a tolerance name2 s0).
Proof.
  unfold phase2a. rewrite for_each_before.
  apply (loop_wf _ kind2a); [apply kind2a_head | apply map2_no_gstin_elem | done].
Qed.

Lemma phase2b_wf : wf tolerance s0 -> wf tolerance (phase2b tolerance name1 s0).
Proof.
  unfold phase2b. rewrite for_each_before.
  apply (loop_wf _ kind2b); [apply kind2b_head | apply map2_with_gstin_elem | done].
Qed.

(** What each loop leaves behind. *)
Lemma phase1_saturated i a :
  list1 (phase1 tolerance s0) !! i = Some a -> claimed a = false ->
  exhausted kind1 tolerance (phase1 tolerance s0) a.
Proof.
  unfold phase1. rewrite for_each_before. intros Ha Hca.
  eapply (loop_saturated _ kind1); [apply map2_elem | done | | exact Ha | done | done].
  apply lookup_lt_Some in Ha.
  destruct (loop_evolves (fun _ => false) (fun inv1 => dict_get (map2 s0) (key1 inv1))
              perfect_match tolerance s0 counter_pos (length (list1 s0))) as [Hev _].
  apply evolves_length1 in Hev. unfold phase1_step in Ha. lia.
Qed.

Lemma phase2a_saturated i a :
  list1 (phase2a tolerance name2 s0) !! i = Some a -> claimed a = false ->
  nonempty (gstin a) = true ->
  exhausted kind2a tolerance (phase2a tolerance name2 s0) a.
Proof.
  unfold phase2a. rewrite for_each_before. intros Ha Hca Hg.
  eapply (loop_saturated _ kind2a);
    [apply map2_no_gstin_elem | done | | exact Ha | done | by rewrite Hg].
  apply lookup_lt_Some in Ha.
  destruct (loop_evolves (fun inv1 => negb (nonempty (gstin inv1)))
              (fun inv1 => dict_get (map2_no_gstin s0) (head inv1))
              (missing_gstin_in name2) tolerance s0 counter_pos (length (list1 s0)))
    as [Hev _].
  apply evolves_length1 in Hev. unfold phase2a_step in Ha. lia.
Qed.

Lemma phase2b_saturated i a :
  list1 (phase2b tolerance name1 s0) !! i = Some a -> claimed a = false ->
  nonempty (gstin a) = false ->
  exhausted kind2b tolerance (phase2b tolerance name1 s0) a.
Proof.
  unfold phase2b. rewrite for_each_before. intros Ha Hca Hg.
  eapply (loop_saturated _ kind2b);
    [apply map2_with_gstin_elem | done | | exact Ha | done | done].
  apply lookup_lt_Some in Ha.
  destruct (loop_evolves (fun inv1 => nonempty (gstin inv1))
              (fun inv1 => dict_get (map2_with_gstin s0) (head inv1))
              (missing_gstin_in name1) tolerance s0 counter_pos (length (list1 s0)))
    as [Hev _].
  apply evolves_length1 in Hev. unfold phase2b_step in Ha. lia.
Qed.
End Phases12.

(** * Phase 3: sorting, bisection and the outward scan *)

Section Sorting.
Variable l2 : list Invoice.

Definition amount_le (x y : nat) : Prop := (amount_at l2 x <= amount_at l2 y)%Q.

Lemma elem_of_insert_by_amount x l y :
  y ∈ insert_by_amount l2 x l <-> y = x \/ y ∈ l.
Proof.
  induction l as [|z r IH]; simpl.
  - rewrite list_elem_of_singleton. split; [by left | intros [?|Hin]; [done | inversion Hin]].
  - destruct (Qle_bool (amount_at l2 x) (amount_at l2 z)).
    + by rewrite elem_of_cons.
    + rewrite !elem_of_cons, IH. tauto.
Qed.

Lemma insert_by_amount_sorted x l :
  StronglySorted amount_le l -> StronglySorted amount_le (insert_by_amount l2 x l).
Proof.
  induction 1 as [|z r Hs IH Hall]; simpl.
  - repeat constructor.
  - destruct (Qle_bool (amount_at l2 x) (amount_at l2 z)) eqn:E.
    + apply Qle_bool_iff in E. constructor; [by constructor|].
      constructor; [done|].
      eapply Forall_impl; [exact Hall|]. unfold amount_le. intros y Hy. simpl in *. lra.
    + apply Qle_bool_false in E. constructor; [done|].
      apply Forall_forall. intros y Hy.
      apply elem_of_insert_by_amount in Hy as [-> | Hy].
      * unfold amount_le. lra.
      * by apply (proj1 (Forall_forall _ _) Hall).
Qed.

Lemma elem_of_sort_by_amount items y : y ∈ sort_by_amount l2 items <-> y ∈ items.
Proof.
  induction items as [|x r IH]; simpl; [done|].
  rewrite elem_of_insert_by_amount, elem_of_cons, IH. done.
Qed.

Lemma sort_by_amount_sorted items : StronglySorted amount_le (sort_by_amount l2 items).
Proof.
  induction items as [|x r IH]; simpl; [constructor|].
  by apply insert_by_amount_sorted.
Qed.
End Sorting.

(** [bisect_left] on a sorted list: everything before the result is
    below [x], everything from the result on is at least [x]. *)
Section Bisect.
Variable a : list Q.
Variable x : Q.
Hypothesis a_sorted : forall p q vp vq,
  p <= q -> a !! p = Some vp -> a !! q = Some vq -> (vp <= vq)%Q.

Lemma bisect_loop_spec fuel : forall lo hi,
  lo <= hi <= length a -> hi - lo <= fuel ->
  (forall p v, p < lo -> a !! p = Some v -> (v < x)%Q) ->
  (forall p v, hi <= p -> a !! p = Some v -> (x <= v)%Q) ->
  let r := bisect_loop fuel a x lo hi in
  r <= length a
  /\ (forall p v, p < r -> a !! p = Some v -> (v < x)%Q)
  /\ (forall p v, r <= p -> a !! p = Some v -> (x <= v)%Q).
Proof.
  induction fuel as [|fuel IH]; intros lo hi Hb Hf Hlo Hhi; cbn [bisect_loop].
  - assert (lo = hi) as -> by lia. split; [lia|]. split; done.
  - destruct (lo <? hi) eqn:E.
    2:{ apply Nat.ltb_ge in E. assert (lo = hi) as -> by lia.
        split; [lia|]. split; done. }
    apply Nat.ltb_lt in E.
    assert (Hmid : lo <= (lo + hi) / 2 < hi).
    { split; [apply Nat.div_le_lower_bound; lia | apply Nat.Div0.div_lt_upper_bound; lia]. }
    destruct (lookup_lt_is_Some_2 a ((lo + hi) / 2)) as [v Hv]; [lia|].
    rewrite Hv. destruct (Qlt_bool v x) eqn:Hc.
    + apply Qlt_bool_iff in Hc. apply IH; [lia | lia | | done].
      intros p vp Hp Hvp.
      assert (vp <= v)%Q by (apply (a_sorted p ((lo + hi) / 2)); [lia | done | done]).
      lra.
    + apply Qlt_bool_false in Hc. apply IH; [lia | lia | done |].
      intros p vp Hp Hvp.
      assert (v <= vp)%Q by (apply (a_sorted ((lo + hi) / 2) p); [lia | done | done]).
      lra.
Qed.

Lemma bisect_left_spec :
  bisect_left a x <= length a
  /\ (forall p v, p < bisect_left a x -> a !! p = Some v -> (v < x)%Q)
  /\ (forall p v, bisect_left a x <= p -> a !! p = Some v -> (x <= v)%Q).
Proof.
  unfold bisect_left. apply bisect_loop_spec; [lia | lia | intros; lia |].
  intros p v Hp Hv. apply lookup_lt_Some in Hv. lia.
Qed.
End Bisect.

Section ScanSorted.
Variable l2 : list Invoice.
Variable tolerance amt : Q.

(** The distance as Phase 3 computes it. *)
Definition dist_at (j : nat) : Q := Qabs (amount_at l2 j - amt).

Definition qualifies3 (j : nat) : Prop :=
  exists b, l2 !! j = Some b /\ claimed b = false
            /\ (Qabs (amount b - amt) <= tolerance)%Q.

Definition dist_le (x y : nat) : Prop := (dist_at x <= dist_at y)%Q.

(** On candidates in order of growing distance the early [break]
    loses nothing. *)
Lemma scan_sorted_spec cs : forall best,
  StronglySorted dist_le cs ->
  let r := scan_sorted l2 tolerance amt cs best in
  (r = best /\ forall j', j' ∈ cs -> qualifies3 j' -> lt_best (dist_at j') (snd best) = false)
  \/ (exists j, j ∈ cs /\ r = (Some j, Some (dist_at j)) /\ qualifies3 j
                /\ lt_best (dist_at j) (snd best) = true
                /\ forall j', j' ∈ cs -> qualifies3 j' -> (dist_at j <= dist_at j')%Q).
Proof.
  induction cs as [|c rest IH]; intros best Hs r; subst r; simpl.
  - left. split; [done|]. intros j' Hin. inversion Hin.
  - apply StronglySorted_inv in Hs as [Hs Hall].
    assert (Hskip :
      (forall j', j' = c -> qualifies3 j' -> lt_best (dist_at j') (snd best) = false) ->
      (scan_sorted l2 tolerance amt rest best = best /\
       forall j', j' ∈ c :: rest -> qualifies3 j' -> lt_best (dist_at j') (snd best) = false)
      \/ (exists j, j ∈ c :: rest
            /\ scan_sorted l2 tolerance amt rest best = (Some j, Some (dist_at j))
            /\ qualifies3 j /\ lt_best (dist_at j) (snd best) = true
            /\ forall j', j' ∈ c :: rest -> qualifies3 j' -> (dist_at j <= dist_at j')%Q)).
    { intros Hc. destruct (IH best Hs) as [[Hr Hno] | (j & Hin & Hr & Hq & Hlt & Hmin)].
      - left. split; [done|]. intros j' Hin Hq.
        apply elem_of_cons in Hin as [-> | Hin]; [by apply Hc | by apply Hno].
      - right. exists j. split; [by right|]. repeat split; try done.
        intros j' Hin' Hq'. apply elem_of_cons in Hin' as [-> | Hin']; [|by apply Hmin].
        apply Qlt_le_weak. eapply lt_best_false_le; [by apply Hc | done]. }
    destruct (l2 !! c) as [cand|] eqn:Hl.
    2:{ apply Hskip. intros j' -> (b & Hb & _). congruence. }
    assert (Hd : dist_at c = Qabs (amount cand - amt)).
    { unfold dist_at, amount_at. by rewrite Hl. }
    cbv zeta. rewrite <- Hd.
    destruct (Qlt_bool tolerance (dist_at c)) eqn:Hbrk.
    { (* break: nothing from here on is within tolerance *)
      apply Qlt_bool_iff in Hbrk. left. split; [done|].
      intros j' Hin (b & Hb & _ & Hw).
      assert (dist_at c <= dist_at j')%Q.
      { apply elem_of_cons in Hin as [-> | Hin]; [lra|].
        by apply (proj1 (Forall_forall _ _) Hall). }
      assert (dist_at j' = Qabs (amount b - amt)) as Hd'.
      { unfold dist_at, amount_at. by rewrite Hb. }
      rewrite Hd' in *. lra. }
    apply Qlt_bool_false in Hbrk.
    destruct (claimed cand) eqn:Hcl.
    { apply Hskip. intros j' -> (b & Hb & Hcb & _). congruence. }
    destruct (lt_best (dist_at c) (snd best)) eqn:Hlt.
    2:{ apply Hskip. by intros j' ->. }
    assert (Hqc : qualifies3 c).
    { exists cand. repeat split; try done. by rewrite <- Hd. }
    right.
    destruct (IH (Some c, Some (dist_at c)) Hs)
      as [[Hr Hno] | (j & Hin & Hr & Hq & Hlt' & Hmin)].
    + exists c. split; [by left|]. repeat split; try done.
      intros j' Hin Hq'. apply elem_of_cons in Hin as [-> | Hin]; [lra|].
      specialize (Hno j' Hin Hq'). simpl in Hno. by apply Qlt_bool_false in Hno.
    + simpl in Hlt'. apply Qlt_bool_iff in Hlt'.
      exists j. split; [by right|]. repeat split; try done.
      * eapply lt_best_trans; done.
      * intros j' Hin' Hq'. apply elem_of_cons in Hin' as [-> | Hin']; [lra | by apply Hmin].
Qed.
End ScanSorted.

Lemma StronglySorted_impl_elem {A} (R R' : A -> A -> Prop) (l : list A) :
  (forall x y, x ∈ l -> y ∈ l -> R x y -> R' x y) ->
  StronglySorted R l -> StronglySorted R' l.
Proof.
  intros Himp Hs. induction Hs as [|x l Hs IH Hall]; constructor.
  - apply IH. intros y z Hy Hz. apply Himp; by right.
  - apply Forall_forall. intros y Hy.
    apply Himp; [by left | by right | by apply (proj1 (Forall_forall _ _) Hall)].
Qed.

Lemma StronglySorted_reverse {A} (R : A -> A -> Prop) (l : list A) :
  StronglySorted R l -> StronglySorted (flip R) (reverse l).
Proof.
  induction 1 as [|x l Hs IH Hall]; [constructor|].
  rewrite reverse_cons. apply StronglySorted_app_2.
  - intros y z Hy Hz. apply list_elem_of_singleton in Hz as ->.
    rewrite elem_of_reverse in Hy. unfold flip.
    by apply (proj1 (Forall_forall _ _) Hall).
  - done.
  - repeat constructor.
Qed.

Lemma StronglySorted_lookup_lt {A} (R : A -> A -> Prop) (l : list A) p q x y :
  StronglySorted R l -> p < q -> l !! p = Some x -> l !! q = Some y -> R x y.
Proof.
  intros Hs. revert p q. induction Hs as [|z l Hs IH Hall]; intros p q Hlt Hp Hq; [done|].
  destruct q as [|q]; [lia|]. simpl in Hq.
  destruct p as [|p]; simpl in Hp.
  - injection Hp as ->. apply (proj1 (Forall_forall _ _) Hall).
    by eapply list_elem_of_lookup_2.
  - eapply (IH p q); [lia | done | done].
Qed.

Lemma evolves_amount_at s2 st j :
  evolves s2 st -> amount_at (list2 st) j = amount_at (list2 s2) j.
Proof.
  intros Hev. unfold amount_at.
  destruct (list2 st !! j) as [b|] eqn:Hb.
  - destruct (evolves_lookup2 _ _ _ _ Hev Hb) as (b0 & -> & Hr).
    by apply data_of_amount, rec_evolves_data.
  - destruct (list2 s2 !! j) as [b0|] eqn:Hb0; [|done].
    destruct (evolves_lookup2_fwd _ _ _ _ Hev Hb0) as (b & Hb' & _). congruence.
Qed.

(** ** The search of Phase 3 for one record *)

Section Phase3Choice.
Variable tolerance : Q.
Variable s2 st : MState.
Hypothesis Hev : evolves s2 st.

Lemma sorted_candidates_lookup h :
  default [] (sorted_candidates_map s2 !! h) =
  sort_by_amount (list2 s2)
    (List.filter (fun j => match list2 s2 !! j with
                           | Some x => negb (claimed x)
                           | None => false
                           end) (dict_get (map2_any s2) h)).
Proof.
  unfold sorted_candidates_map, dict_get. rewrite lookup_fmap.
  by destruct (map2_any s2 !! h).
Qed.

Lemma candidates_amounts_lookup h :
  default [] (candidates_amounts_map s2 !! h) =
  amount_at (list2 s2) <$> default [] (sorted_candidates_map s2 !! h).
Proof.
  unfold candidates_amounts_map. rewrite lookup_fmap.
  by destruct (sorted_candidates_map s2 !! h).
Qed.

(** The sorted list for head [h]: the records of list2 that were
    unclaimed, with that head, when Phase 3 started. *)
Lemma elem_of_sorted_candidates h j :
  j ∈ default [] (sorted_candidates_map s2 !! h) <->
  exists b0, list2 s2 !! j = Some b0 /\ claimed b0 = false /\ head b0 = h.
Proof.
  rewrite sorted_candidates_lookup, elem_of_sort_by_amount.
  rewrite list_elem_of_In, filter_In, <- list_elem_of_In.
  unfold map2_any. rewrite elem_of_build_index. split.
  - intros [(b0 & Hb & Hc & Hh) _]. exists b0.
    split; [done|]. split; [by apply negb_true_iff | done].
  - intros (b0 & Hb & Hc & Hh). split.
    + exists b0. split; [done|]. split; [by apply negb_true_iff | done].
    + rewrite Hb. by apply negb_true_iff.
Qed.

Lemma sorted_candidates_sorted h :
  StronglySorted (amount_le (list2 s2)) (default [] (sorted_candidates_map s2 !! h)).
Proof. rewrite sorted_candidates_lookup. apply sort_by_amount_sorted. Qed.

(** A record of list2 that Phase 3 may still give to [a]. *)
Definition open_for (a : Invoice) (j : nat) : Prop :=
  exists b, list2 st !! j = Some b /\ claimed b = false /\ head b = head a
            /\ (Qabs (amount b - amount a) <= tolerance)%Q.

Lemma open_for_candidate a j :
  open_for a j <->
  j ∈ default [] (sorted_candidates_map s2 !! head a)
  /\ qualifies3 (list2 st) tolerance (amount a) j.
Proof.
  split.
  - intros (b & Hb & Hcb & Hh & Hw). split; [|by exists b].
    apply elem_of_sorted_candidates. exists b. split; [|done].
    destruct (evolves_lookup2 _ _ _ _ Hev Hb) as (b0 & Hb0 & Hr).
    by rewrite (rec_evolves_unclaimed _ _ Hr Hcb).
  - intros [Hin (b & Hb & Hcb & Hw)]. exists b. repeat split; try done.
    apply elem_of_sorted_candidates in Hin as (b0 & Hb0 & _ & Hh).
    destruct (evolves_lookup2 _ _ _ _ Hev Hb) as (b0' & Hb0' & Hr).
    assert (b0' = b0) as -> by congruence.
    rewrite <- Hh. by apply data_of_head, rec_evolves_data.
Qed.

Lemma phase3_choice_spec a :
  match phase3_choice (sorted_candidates_map s2) (candidates_amounts_map s2)
          tolerance (list2 st) a with
  | Some j => open_for a j
              /\ forall j', open_for a j' ->
                   (dist_at (list2 st) (amount a) j <= dist_at (list2 st) (amount a) j')%Q
  | None => forall j', ~ open_for a j'
  end.
Proof.
  unfold phase3_choice. rewrite candidates_amounts_lookup.
  set (cs := default [] (sorted_candidates_map s2 !! head a)).
  assert (Hcs : forall j', open_for a j' <->
                  j' ∈ cs /\ qualifies3 (list2 st) tolerance (amount a) j')
    by apply open_for_candidate.
  pose proof (sorted_candidates_sorted (head a)) as Hsorted. fold cs in Hsorted.
  destruct cs as [|c0 cs0] eqn:Ecs.
  { intros j' Ho. apply Hcs in Ho as [Hin _]. inversion Hin. }
  rewrite <- Ecs in *. clear Ecs c0 cs0.
  set (amts := amount_at (list2 s2) <$> cs).
  destruct (bisect_left_spec amts (amount a)) as (Hlen & Hlow & Hhigh).
  { intros p q vp vq Hpq Hp Hq. unfold amts in Hp, Hq.
    apply list_lookup_fmap_Some_1 in Hp as (x & -> & Hx).
    apply list_lookup_fmap_Some_1 in Hq as (y & -> & Hy).
    destruct (decide (p = q)) as [-> | Hne].
    - assert (x = y) as -> by congruence. apply Qle_refl.
    - apply (StronglySorted_lookup_lt _ cs p q x y Hsorted); [lia | done | done]. }
  set (idx := bisect_left amts (amount a)) in *.
  assert (Hleft : forall j, j ∈ take idx cs -> (amount_at (list2 st) j < amount a)%Q).
  { intros j Hj. apply elem_of_take in Hj as (p & Hp & Hlt).
    rewrite (evolves_amount_at _ _ _ Hev).
    apply (Hlow p); [done|]. unfold amts. by apply list_lookup_fmap_Some_2. }
  assert (Hright : forall j, j ∈ drop idx cs -> (amount a <= amount_at (list2 st) j)%Q).
  { intros j Hj. apply list_elem_of_lookup in Hj as (p & Hp).
    rewrite lookup_drop in Hp.
    rewrite (evolves_amount_at _ _ _ Hev).
    apply (Hhigh (idx + p)); [lia|]. unfold amts. by apply list_lookup_fmap_Some_2. }
  rewrite <- (take_drop idx cs) in Hsorted.
  apply StronglySorted_app in Hsorted as (_ & Hs_left & Hs_right).
  assert (Hsr : StronglySorted (dist_le (list2 st) (amount a)) (drop idx cs)).
  { eapply StronglySorted_impl_elem; [|exact Hs_right].
    intros x y Hx Hy Hxy. unfold dist_le, dist_at, amount_le in *.
    rewrite <- !(evolves_amount_at _ _ _ Hev) in Hxy.
    pose proof (Hright x Hx). pose proof (Hright y Hy).
    rewrite !Qabs_pos by lra. lra. }
  assert (Hsl : StronglySorted (dist_le (list2 st) (amount a)) (reverse (take idx cs))).
  { eapply StronglySorted_impl_elem; [|apply StronglySorted_reverse; exact Hs_left].
    intros x y Hx Hy Hxy. rewrite elem_of_reverse in Hx, Hy.
    unfold flip, dist_le, dist_at, amount_le in *.
    rewrite <- !(evolves_amount_at _ _ _ Hev) in Hxy.
    pose proof (Hleft x Hx). pose proof (Hleft y Hy).
    rewrite !Qabs_neg by lra. lra. }
  assert (Hsplit : forall j', j' ∈ cs <-> j' ∈ reverse (take idx cs) \/ j' ∈ drop idx cs).
  { intros j'. rewrite elem_of_reverse, <- elem_of_app, take_drop. done. }
  destruct (scan_sorted_spec (list2 st) tolerance (amount a) (drop idx cs) (None, None) Hsr)
    as [[Hr Hnor] | (jr & Hinr & Hr & Hqr & _ & Hminr)]; rewrite Hr.
  - destruct (scan_sorted_spec (list2 st) tolerance (amount a) (reverse (take idx cs))
                (None, None) Hsl)
      as [[Hl Hnol] | (jl & Hinl & Hl & Hql & _ & Hminl)]; rewrite Hl; simpl.
    + intros j' Ho. apply Hcs in Ho as [Hin Hq].
      apply Hsplit in Hin as [Hin | Hin].
      * by specialize (Hnol j' Hin Hq).
      * by specialize (Hnor j' Hin Hq).
    + split.
      * apply Hcs. split; [|done]. apply Hsplit. by left.
      * intros j' Ho. apply Hcs in Ho as [Hin Hq].
        apply Hsplit in Hin as [Hin | Hin]; [by apply Hminl|].
        by specialize (Hnor j' Hin Hq).
  - destruct (scan_sorted_spec (list2 st) tolerance (amount a) (reverse (take idx cs))
                (Some jr, Some (dist_at (list2 st) (amount a) jr)) Hsl)
      as [[Hl Hnol] | (jl & Hinl & Hl & Hql & Hltl & Hminl)]; rewrite Hl; simpl.
    + split.
      * apply Hcs. split; [|done]. apply Hsplit. by right.
      * intros j' Ho. apply Hcs in Ho as [Hin Hq].
        apply Hsplit in Hin as [Hin | Hin]; [|by apply Hminr].
        specialize (Hnol j' Hin Hq). simpl in Hnol. by apply Qlt_bool_false in Hnol.
    + simpl in Hltl. apply Qlt_bool_iff in Hltl. split.
      * apply Hcs. split; [|done]. apply Hsplit. by left.
      * intros j' Ho. apply Hcs in Ho as [Hin Hq].
        apply Hsplit in Hin as [Hin | Hin]; [by apply Hminl|].
        specialize (Hminr j' Hin Hq). lra.
Qed.
End Phase3Choice.

(** ** The loop of Phase 3 *)

Lemma within_sym_dist tolerance a b :
  (Qabs (amount b - amount a) <= tolerance)%Q -> within tolerance a b.
Proof. unfold within. by rewrite (Qabs_Qminus (amount a) (amount b)). Qed.

Section Phase3Loop.
Variable tolerance : Q.
Variable s2 : MState.
Hypothesis counter_pos : (1 <= match_counter s2)%Z.

Let body := phase3_step (sorted_candidates_map s2) (candidates_amounts_map s2) tolerance.

Lemma phase3_step_cases st i :
  evolves s2 st ->
  body st i = st
  \/ exists a j b,
       list1 st !! i = Some a /\ claimed a = false
       /\ list2 st !! j = Some b /\ claimed b = false
       /\ head b = head a /\ within tolerance a b
       /\ phase3_choice (sorted_candidates_map s2) (candidates_amounts_map s2)
            tolerance (list2 st) a = Some j
       /\ body st i = link st i j (match_desc a b).
Proof.
  intros Hev. unfold body, phase3_step.
  destruct (list1 st !! i) as [a|] eqn:Ha; [|by left].
  destruct (claimed a) eqn:Hca; [by left|].
  pose proof (phase3_choice_spec tolerance s2 st Hev a) as Hspec.
  destruct (phase3_choice _ _ tolerance (list2 st) a) as [j|] eqn:Hch; [|by left].
  destruct Hspec as [(b & Hb & Hcb & Hh & Hw) _]. rewrite Hb.
  right. exists a, j, b. repeat split; try done. by apply within_sym_dist.
Qed.

Lemma phase3_step_evolves st i :
  evolves s2 st -> (1 <= match_counter st)%Z -> evolves st (body st i).
Proof.
  intros Hev Hc.
  destruct (phase3_step_cases st i Hev)
    as [-> | (a & j & b & Ha & Hca & Hb & Hcb & _ & _ & _ & ->)]; [reflexivity|].
  by eapply link_evolves.
Qed.

Lemma phase3_loop_evolves k :
  evolves s2 (before body s2 k) /\ (1 <= match_counter (before body s2 k))%Z.
Proof.
  induction k as [|k [IH1 IH2]].
  - split; [reflexivity | done].
  - rewrite before_S.
    destruct (phase3_step_cases (before body s2 k) k IH1)
      as [-> | (a & j & b & Ha & Hca & Hb & Hcb & _ & _ & _ & ->)]; [done|].
    pose proof (link_evolves _ k j (match_desc a b) a b IH2 Ha Hb Hca Hcb) as Hl.
    split; [by etrans|]. destruct Hl as [_ _ Hc]. lia.
Qed.

Lemma phase3_loop_wf k : wf tolerance s2 -> wf tolerance (before body s2 k).
Proof.
  intros Hwf. induction k as [|k IH]; [done|].
  rewrite before_S.
  destruct (phase3_step_cases (before body s2 k) k (proj1 (phase3_loop_evolves k)))
    as [-> | (a & j & b & Ha & Hca & Hb & Hcb & Hh & Hw & _ & ->)]; [done|].
  by eapply link_wf.
Qed.

Lemma phase3_evolves :
  evolves s2 (phase3 tolerance s2) /\ (1 <= match_counter (phase3 tolerance s2))%Z.
Proof. unfold phase3. rewrite for_each_before. apply phase3_loop_evolves. Qed.

Lemma phase3_wf : wf tolerance s2 -> wf tolerance (phase3 tolerance s2).
Proof. unfold phase3. rewrite for_each_before. apply phase3_loop_wf. Qed.
End Phase3Loop.

(** ** The whole run *)

Section Run.
Variables l1 l2 : list Invoice.
Variable tolerance : Q.
Variables name1 name2 : pystr.

Let s0 := initial_state l1 l2.
Let s1 := phase1 tolerance s0.
Let s2a := phase2a tolerance name2 s1.
Let s2 := phases12 l1 l2 tolerance name1 name2.
Let s3 := match_invoices l1 l2 tolerance name1 name2.

Lemma run_counters :
  (1 <= match_counter s1)%Z /\ (1 <= match_counter s2a)%Z
  /\ (1 <= match_counter s2)%Z /\ (1 <= match_counter s3)%Z.
Proof.
  assert (H0 : (1 <= match_counter s0)%Z) by (simpl; lia).
  pose proof (proj2 (phase1_evolves tolerance s0 H0)) as H1.
  pose proof (proj2 (phase2a_evolves tolerance name2 s1 H1)) as H2.
  pose proof (proj2 (phase2b_evolves tolerance name1 s2a H2)) as H3.
  pose proof (proj2 (phase3_evolves tolerance _ H3)) as H4.
  done.
Qed.

Lemma run_evolves :
  evolves s0 s1 /\ evolves s1 s2a /\ evolves s2a s2 /\ evolves s2 s3.
Proof.
  destruct run_counters as (H1 & H2 & H3 & _).
  assert (H0 : (1 <= match_counter s0)%Z) by (simpl; lia).
  split; [apply (phase1_evolves tolerance s0 H0)|].
  split; [apply (phase2a_evolves tolerance name2 s1 H1)|].
  split; [apply (phase2b_evolves tolerance name1 s2a H2)|].
  apply (phase3_evolves tolerance _ H3).
Qed.

Lemma run_wf :
  Forall fresh l1 -> Forall fresh l2 ->
  wf tolerance s1 /\ wf tolerance s2a /\ wf tolerance s2 /\ wf tolerance s3.
Proof.
  intros F1 F2.
  destruct run_counters as (H1 & H2 & H3 & _).
  assert (H0 : (1 <= match_counter s0)%Z) by (simpl; lia).
  pose proof (initial_wf tolerance l1 l2 F1 F2) as W0.
  pose proof (phase1_wf tolerance s0 H0 W0) as W1.
  pose proof (phase2a_wf tolerance name2 s1 H1 W1) as W2.
  pose proof (phase2b_wf tolerance name1 s2a H2 W2) as W3.
  pose proof (phase3_wf tolerance _ H3 W3) as W4.
  done.
Qed.
End Run.

(** ** Traces *)

Lemma StronglySorted_lookup_intro {A} (R : A -> A -> Prop) (l : list A) :
  (forall p q x y, p < q -> l !! p = Some x -> l !! q = Some y -> R x y) ->
  StronglySorted R l.
Proof.
  induction l as [|z l IH]; intros Hl; constructor.
  - apply IH. intros p q x y Hlt Hp Hq. apply (Hl (S p) (S q)); [lia | done | done].
  - apply Forall_forall. intros y Hy.
    apply list_elem_of_lookup in Hy as (q & Hq).
    apply (Hl 0 (S q)); [lia | done | done].
Qed.

Section LoopTrace.
Variable body : MState -> nat -> MState.
Variable st : MState.
Hypothesis Hstep : forall k, evolves (before body st k) (before body st (S k)).

Lemma before_evolves_le k k' :
  k <= k' -> evolves (before body st k) (before body st k').
Proof.
  induction 1 as [|k' _ IH]; [reflexivity|]. etrans; [exact IH | apply Hstep].
Qed.

Lemma loop_trace_lookup p s :
  loop_trace body st !! p = Some s ->
  s = before body st p /\ p <= length (list1 st).
Proof.
  unfold loop_trace. rewrite list_lookup_fmap. intros Hs.
  destruct (seq 0 (S (length (list1 st))) !! p) as [k|] eqn:Hk; [|done].
  apply lookup_seq in Hk as [-> Hlt]. simpl in Hs. injection Hs as <-.
  split; [done | lia].
Qed.

Lemma loop_trace_elem x :
  x ∈ loop_trace body st ->
  exists k, x = before body st k /\ evolves st x /\ evolves x (for_each body st).
Proof.
  intros Hx. apply list_elem_of_lookup in Hx as (p & Hp).
  apply loop_trace_lookup in Hp as [-> Hle]. exists p.
  split; [done|]. split.
  - apply (before_evolves_le 0 p). lia.
  - rewrite for_each_before. by apply before_evolves_le.
Qed.

Lemma loop_trace_sorted : StronglySorted evolves (loop_trace body st).
Proof.
  apply StronglySorted_lookup_intro. intros p q x y Hlt Hp Hq.
  apply loop_trace_lookup in Hp as [-> _].
  apply loop_trace_lookup in Hq as [-> _].
  apply before_evolves_le. lia.
Qed.

Lemma loop_trace_last : last (loop_trace body st) = Some (for_each body st).
Proof.
  unfold loop_trace. rewrite seq_S, fmap_app.
  change (before body st <$> [0 + length (list1 st)])
    with [before body st (length (list1 st))].
  by rewrite last_snoc.
Qed.
End LoopTrace.

Section RunTrace.
Variables l1 l2 : list Invoice.
Variable tolerance : Q.
Variables name1 name2 : pystr.

Let s0 := initial_state l1 l2.
Let s1 := phase1 tolerance s0.
Let s2a := phase2a tolerance name2 s1.
Let s2 := phase2b tolerance name1 s2a.
Let b1 := phase1_step (map2 s0) tolerance.
Let b2a := phase2a_step (map2_no_gstin s1) name2 tolerance.
Let b2b := phase2b_step (map2_with_gstin s2a) name1 tolerance.
Let b3 := phase3_step (sorted_candidates_map s2) (candidates_amounts_map s2) tolerance.

Lemma trace_steps :
  (forall k, evolves (before b1 s0 k) (before b1 s0 (S k)))
  /\ (forall k, evolves (before b2a s1 k) (before b2a s1 (S k)))
  /\ (forall k, evolves (before b2b s2a k) (before b2b s2a (S k)))
  /\ (forall k, evolves (before b3 s2 k) (before b3 s2 (S k))).
Proof.
  destruct (run_counters l1 l2 tolerance name1 name2) as (H1 & H2 & H3 & _).
  assert (H0 : (1 <= match_counter s0)%Z) by (simpl; lia).
  split; [|split; [|split]]; intros k; rewrite before_S.
  - apply claim_step_evolves. by apply loop_evolves.
  - apply claim_step_evolves. by apply loop_evolves.
  - apply claim_step_evolves. by apply loop_evolves.
  - destruct (phase3_loop_evolves tolerance s2 H3 k) as [Hev Hc].
    by apply phase3_step_evolves.
Qed.

Lemma match_invoices_trace_sorted :
  StronglySorted evolves (match_invoices_trace l1 l2 tolerance name1 name2).
Proof.
  destruct trace_steps as (T1 & T2 & T3 & T4).
  destruct (run_evolves l1 l2 tolerance name1 name2) as (E1 & E2 & E3 & E4).
  unfold match_invoices_trace. fold s0 s1 s2a s2 b1 b2a b2b b3.
  pose proof (loop_trace_elem b1 s0 T1) as L1.
  pose proof (loop_trace_elem b2a s1 T2) as L2.
  pose proof (loop_trace_elem b2b s2a T3) as L3.
  pose proof (loop_trace_elem b3 s2 T4) as L4.
  assert (X34 : forall x y, x ∈ loop_trace b2b s2a -> y ∈ loop_trace b3 s2 -> evolves x y).
  { intros x y Hx Hy. destruct (L3 x Hx) as (_ & _ & _ & Hx').
    destruct (L4 y Hy) as (_ & _ & Hy' & _). by etrans. }
  assert (X2 : forall x y, x ∈ loop_trace b2a s1 ->
             y ∈ loop_trace b2b s2a ++ loop_trace b3 s2 -> evolves x y).
  { intros x y Hx Hy. destruct (L2 x Hx) as (_ & _ & _ & Hx').
    apply elem_of_app in Hy as [Hy | Hy].
    - destruct (L3 y Hy) as (_ & _ & Hy' & _). by etrans.
    - destruct (L4 y Hy) as (_ & _ & Hy' & _).
      etrans; [exact Hx' |]. etrans; [exact E3 | exact Hy']. }
  assert (X1 : forall x y, x ∈ loop_trace b1 s0 ->
             y ∈ loop_trace b2a s1 ++ loop_trace b2b s2a ++ loop_trace b3 s2 ->
             evolves x y).
  { intros x y Hx Hy. destruct (L1 x Hx) as (_ & _ & _ & Hx').
    apply elem_of_app in Hy as [Hy | Hy].
    - destruct (L2 y Hy) as (_ & _ & Hy' & _). by etrans.
    - etrans; [exact Hx' |]. etrans; [exact E2 |].
      apply elem_of_app in Hy as [Hy | Hy].
      + by destruct (L3 y Hy) as (_ & _ & Hy' & _).
      + destruct (L4 y Hy) as (_ & _ & Hy' & _). by etrans. }
  apply StronglySorted_app_2; [exact X1 | by apply loop_trace_sorted |].
  apply StronglySorted_app_2; [exact X2 | by apply loop_trace_sorted |].
  apply StronglySorted_app_2; [exact X34 | by apply loop_trace_sorted..].
Qed.

Lemma match_invoices_trace_last :
  last (match_invoices_trace l1 l2 tolerance name1 name2)
  = Some (match_invoices l1 l2 tolerance name1 name2).
Proof.
  unfold match_invoices_trace. fold s0 s1 s2a s2 b1 b2a b2b b3.
  rewrite !app_assoc, last_app.
  rewrite (loop_trace_last b3 s2). done.
Qed.

Lemma match_invoices_trace_wf s :
  Forall fresh l1 -> Forall fresh l2 ->
  s ∈ match_invoices_trace l1 l2 tolerance name1 name2 -> wf tolerance s.
Proof.
  intros F1 F2 Hs.
  destruct trace_steps as (T1 & T2 & T3 & T4).
  destruct (run_counters l1 l2 tolerance name1 name2) as (H1 & H2 & H3 & _).
  destruct (run_wf l1 l2 tolerance name1 name2 F1 F2) as (W1 & W2 & W3 & _).
  assert (H0 : (1 <= match_counter s0)%Z) by (simpl; lia).
  pose proof (initial_wf tolerance l1 l2 F1 F2) as W0.
  unfold match_invoices_trace in Hs. fold s0 s1 s2a s2 b1 b2a b2b b3 in Hs.
  apply elem_of_app in Hs as [Hs | Hs].
  { destruct (loop_trace_elem b1 s0 T1 s Hs) as (k & -> & _).
    apply (loop_wf _ kind1); [apply kind1_head | apply map2_elem | done | done]. }
  apply elem_of_app in Hs as [Hs | Hs].
  { destruct (loop_trace_elem b2a s1 T2 s Hs) as (k & -> & _).
    apply (loop_wf _ kind2a); [apply kind2a_head | apply map2_no_gstin_elem | done | done]. }
  apply elem_of_app in Hs as [Hs | Hs].
  { destruct (loop_trace_elem b2b s2a T3 s Hs) as (k & -> & _).
    apply (loop_wf _ kind2b); [apply kind2b_head | apply map2_with_gstin_elem | done | done]. }
  destruct (loop_trace_elem b3 s2 T4 s Hs) as (k & -> & _).
  by apply phase3_loop_wf.
Qed.
End RunTrace.

(** * The matching engine: the stated properties *)

(** C1.  With records fresh from the normaliser, any two records that
    [match_invoices] leaves holding the same match id (a pair linked
    by Phase 1, 2 or 3) have amounts no further apart than the
    tolerance; the bound holds for every tolerance, the non-negative
    ones in particular. *)
Theorem tolerance_bound (l1 l2 : list Invoice) (tolerance : Q) (name1 name2 : pystr)
    (i j : nat) (a b : Invoice) (m : Z) :
  Forall fresh l1 -> Forall fresh l2 ->
  list1 (match_invoices l1 l2 tolerance name1 name2) !! i = Some a ->
  list2 (match_invoices l1 l2 tolerance name1 name2) !! j = Some b ->
  match_id a = Some m -> match_id b = Some m ->
  (Qabs (amount a - amount b) <= tolerance)%Q.
Proof.
  intros F1 F2 Ha Hb Hma Hmb.
  destruct (run_wf l1 l2 tolerance name1 name2 F1 F2) as (_ & _ & _ & W).
  destruct (wf_left _ _ W i a Ha) as [(Hn & _) | (m' & j' & b' & Hb' & Hp)]; [congruence|].
  destruct Hp as (Hma' & Hmb' & _ & _ & _ & _ & _ & _ & Hw).
  assert (m' = m) as -> by congruence.
  assert (j' = j) as -> by (by eapply (wf_inj2 _ _ W)).
  assert (b' = b) as -> by congruence.
  exact Hw.
Qed.

(** C2.  After [match_invoices] on fresh records, every record that
    holds a match id [m] holds a positive one, and [m] is held by
    exactly one record of list1 and exactly one of list2, which name
    each other's row. *)
Theorem symmetry_and_ids (l1 l2 : list Invoice) (tolerance : Q) (name1 name2 : pystr) :
  Forall fresh l1 -> Forall fresh l2 ->
  let st := match_invoices l1 l2 tolerance name1 name2 in
  (forall i a m, list1 st !! i = Some a -> match_id a = Some m ->
     (0 < m)%Z
     /\ exists j b, list2 st !! j = Some b /\ match_id b = Some m
          /\ matched_with_row a = Some (row_idx b)
          /\ matched_with_row b = Some (row_idx a)
          /\ (forall i' a', list1 st !! i' = Some a' -> match_id a' = Some m -> i' = i)
          /\ (forall j' b', list2 st !! j' = Some b' -> match_id b' = Some m -> j' = j))
  /\ (forall j b m, list2 st !! j = Some b -> match_id b = Some m ->
     (0 < m)%Z
     /\ exists i a, list1 st !! i = Some a /\ match_id a = Some m
          /\ matched_with_row a = Some (row_idx b)
          /\ matched_with_row b = Some (row_idx a)
          /\ (forall i' a', list1 st !! i' = Some a' -> match_id a' = Some m -> i' = i)
          /\ (forall j' b', list2 st !! j' = Some b' -> match_id b' = Some m -> j' = j)).
Proof.
  intros F1 F2 st.
  destruct (run_wf l1 l2 tolerance name1 name2 F1 F2) as (_ & _ & _ & W).
  fold st in W. split.
  - intros i a m Ha Hm.
    destruct (wf_left _ _ W i a Ha) as [(Hn & _) | (m' & j & b & Hb & Hp)]; [congruence|].
    destruct Hp as (Hma & Hmb & Hr & Hra & Hrb & _).
    assert (m' = m) as -> by congruence.
    split; [lia|]. exists j, b. repeat split; try done.
    + intros i' a' Ha' Hm'. by eapply (wf_inj1 _ _ W).
    + intros j' b' Hb' Hm'. by eapply (wf_inj2 _ _ W).
  - intros j b m Hb Hm.
    destruct (wf_right _ _ W j b Hb) as [(Hn & _) | (m' & i & a & Ha & Hp)]; [congruence|].
    destruct Hp as (Hma & Hmb & Hr & Hra & Hrb & _).
    assert (m' = m) as -> by congruence.
    split; [lia|]. exists i, a. repeat split; try done.
    + intros i' a' Ha' Hm'. by eapply (wf_inj1 _ _ W).
    + intros j' b' Hb' Hm'. by eapply (wf_inj2 _ _ W).
Qed.

(** C3.  Along the states [match_invoices] goes through (every
    iteration of every phase, in order), a record once claimed stays
    exactly as it is in every later state, so its match fields are
    written at most once; and in no state do two records of one list
    hold the same match id, so no record is in two matches. *)
Theorem claimed_once (l1 l2 : list Invoice) (tolerance : Q) (name1 name2 : pystr) :
  Forall fresh l1 -> Forall fresh l2 ->
  let tr := match_invoices_trace l1 l2 tolerance name1 name2 in
  last tr = Some (match_invoices l1 l2 tolerance name1 name2)
  /\ (forall p q sp sq, p <= q -> tr !! p = Some sp -> tr !! q = Some sq ->
        (forall i a, list1 sp !! i = Some a -> claimed a = true -> list1 sq !! i = Some a)
        /\ (forall j b, list2 sp !! j = Some b -> claimed b = true -> list2 sq !! j = Some b))
  /\ (forall p sp, tr !! p = Some sp ->
        (forall i i' a a' m, list1 sp !! i = Some a -> list1 sp !! i' = Some a' ->
           match_id a = Some m -> match_id a' = Some m -> i = i')
        /\ (forall j j' b b' m, list2 sp !! j = Some b -> list2 sp !! j' = Some b' ->
           match_id b = Some m -> match_id b' = Some m -> j = j')).
Proof.
  intros F1 F2 tr. split; [apply match_invoices_trace_last|]. split.
  - intros p q sp sq Hpq Hp Hq.
    assert (Hev : evolves sp sq).
    { destruct (decide (p = q)) as [-> | Hne].
      - assert (sp = sq) as -> by congruence. reflexivity.
      - eapply (StronglySorted_lookup_lt evolves tr p q);
          [apply match_invoices_trace_sorted | lia | done | done]. }
    split.
    + intros i a Ha Hc.
      destruct (evolves_lookup1_fwd _ _ _ _ Hev Ha) as (a' & Ha' & Hr).
      by rewrite (rec_evolves_claimed _ _ Hr Hc) in Ha'.
    + intros j b Hb Hc.
      destruct (evolves_lookup2_fwd _ _ _ _ Hev Hb) as (b' & Hb' & Hr).
      by rewrite (rec_evolves_claimed _ _ Hr Hc) in Hb'.
  - intros p sp Hp.
    assert (W : wf tolerance sp).
    { apply (match_invoices_trace_wf l1 l2 tolerance name1 name2 sp F1 F2).
      apply list_elem_of_lookup. by exists p. }
    split; [apply (wf_inj1 _ _ W) | apply (wf_inj2 _ _ W)].
Qed.

Lemma tolerance_bound_witness :
  Forall fresh Scenarios.exact_l1 /\ Forall fresh Scenarios.exact_l2
  /\ exists a b,
       list1 (match_invoices Scenarios.exact_l1 Scenarios.exact_l2 1
                Scenarios.A Scenarios.B) !! 0 = Some a
       /\ list2 (match_invoices Scenarios.exact_l1 Scenarios.exact_l2 1
                   Scenarios.A Scenarios.B) !! 0 = Some b
       /\ match_id a = Some 1%Z /\ match_id b = Some 1%Z
       /\ (Qabs (amount a - amount b) <= 1)%Q.
Proof.
  assert (F1 : Forall fresh Scenarios.exact_l1) by (repeat constructor).
  assert (F2 : Forall fresh Scenarios.exact_l2) by (repeat constructor).
  split; [exact F1|]. split; [exact F2|].
  exists (set_match (Scenarios.rec 2 "G1" IGST 100 "A") 1 perfect_match 2),
         (set_match (Scenarios.rec 2 "G1" IGST 100.5 "B") 1 perfect_match 2).
  assert (Ha : list1 (match_invoices Scenarios.exact_l1 Scenarios.exact_l2 1
                        Scenarios.A Scenarios.B) !! 0
               = Some (set_match (Scenarios.rec 2 "G1" IGST 100 "A") 1 perfect_match 2))
    by (vm_compute; reflexivity).
  assert (Hb : list2 (match_invoices Scenarios.exact_l1 Scenarios.exact_l2 1
                        Scenarios.A Scenarios.B) !! 0
               = Some (set_match (Scenarios.rec 2 "G1" IGST 100.5 "B") 1 perfect_match 2))
    by (vm_compute; reflexivity).
  split; [exact Ha|]. split; [exact Hb|]. split; [reflexivity|]. split; [reflexivity|].
  exact (tolerance_bound Scenarios.exact_l1 Scenarios.exact_l2 1 Scenarios.A Scenarios.B
           0 0 _ _ 1%Z F1 F2 Ha Hb eq_refl eq_refl).
Defined.

Lemma symmetry_and_ids_witness :
  Forall fresh Scenarios.mixed_l1 /\ Forall fresh Scenarios.mixed_l2
  /\ exists j b,
       list2 (match_invoices Scenarios.mixed_l1 Scenarios.mixed_l2 1
                Scenarios.A Scenarios.B) !! j = Some b
       /\ match_id b = Some 3%Z
       /\ matched_with_row b = Some 2%Z.
Proof.
  assert (F1 : Forall fresh Scenarios.mixed_l1) by (repeat constructor).
  assert (F2 : Forall fresh Scenarios.mixed_l2) by (repeat constructor).
  split; [exact F1|]. split; [exact F2|].
  destruct (symmetry_and_ids Scenarios.mixed_l1 Scenarios.mixed_l2 1
              Scenarios.A Scenarios.B F1 F2) as [H _].
  destruct (H 0 (set_match (Scenarios.rec 2 "G3" IGST 100 "A") 3 probable_match 3) 3%Z)
    as (_ & j & b & Hb & Hm & _ & Hr & _).
  - vm_compute. reflexivity.
  - reflexivity.
  - exists j, b. auto.
Defined.

Lemma claimed_once_witness :
  Forall fresh Scenarios.mixed_l1 /\ Forall fresh Scenarios.mixed_l2
  /\ last (match_invoices_trace Scenarios.mixed_l1 Scenarios.mixed_l2 1
             Scenarios.A Scenarios.B)
     = Some (match_invoices Scenarios.mixed_l1 Scenarios.mixed_l2 1
               Scenarios.A Scenarios.B).
Proof.
  assert (F1 : Forall fresh Scenarios.mixed_l1) by (repeat constructor).
  assert (F2 : Forall fresh Scenarios.mixed_l2) by (repeat constructor).
  split; [exact F1|]. split; [exact F2|].
  exact (proj1 (claimed_once Scenarios.mixed_l1 Scenarios.mixed_l2 1
                  Scenarios.A Scenarios.B F1 F2)).
Defined.

(** ** Phase 3 finds the nearest open candidate *)


Lemma open_for_within tolerance st a j :
  open_for tolerance st a j <->
  exists b, list2 st !! j = Some b /\ claimed b = false /\ head b = head a
            /\ within tolerance a b.
Proof.
  unfold open_for, within.
  split; intros (b & Hb & Hc & Hh & Hw); exists b; repeat split; try done.
  - by rewrite (Qabs_Qminus (amount a) (amount b)).
  - by rewrite (Qabs_Qminus (amount b) (amount a)).
Qed.


(** ** What Phases 1 and 2 leave for Phase 3 *)

(** No unclaimed record of list1 has, among the unclaimed records of
    list2, a partner that Phase 1 or Phase 2 would have taken. *)
Definition settled12 (tolerance : Q) (st : MState) : Prop :=
  forall i a, list1 st !! i = Some a -> claimed a = false ->
    exhausted kind1 tolerance st a
    /\ (nonempty (gstin a) = true -> exhausted kind2a tolerance st a)
    /\ (nonempty (gstin a) = false -> exhausted kind2b tolerance st a).

Lemma settled12_evolves tolerance st st' :
  evolves st st' -> settled12 tolerance st -> settled12 tolerance st'.
Proof.
  intros Hev Hs i a' Ha' Hca'.
  destruct (evolves_lookup1 _ _ _ _ Hev Ha') as (a & Ha & Hr).
  pose proof (rec_evolves_unclaimed _ _ Hr Hca') as ->.
  destruct (Hs i a Ha Hca') as (E1 & E2 & E3).
  split; [by eapply exhausted_evolves|].
  split; intros Hg; eapply exhausted_evolves; eauto.
Qed.

Lemma phases12_settled l1 l2 tolerance name1 name2 :
  settled12 tolerance (phases12 l1 l2 tolerance name1 name2).
Proof.
  destruct (run_counters l1 l2 tolerance name1 name2) as (H1 & H2 & _ & _).
  destruct (run_evolves l1 l2 tolerance name1 name2) as (_ & E2 & E3 & _).
  assert (H0 : (1 <= match_counter (initial_state l1 l2))%Z) by (simpl; lia).
  set (s1 := phase1 tolerance (initial_state l1 l2)) in *.
  set (s2a := phase2a tolerance name2 s1) in *.
  intros i a Ha Hca. fold s1 s2a in Ha. unfold phases12. fold s1 s2a.
  destruct (evolves_lookup1 _ _ _ _ E3 Ha) as (a2 & Ha2 & Hr2).
  pose proof (rec_evolves_unclaimed _ _ Hr2 Hca) as ->.
  destruct (evolves_lookup1 _ _ _ _ E2 Ha2) as (a1 & Ha1 & Hr1).
  pose proof (rec_evolves_unclaimed _ _ Hr1 Hca) as ->.
  split; [|split].
  - eapply exhausted_evolves; [exact E3|].
    eapply exhausted_evolves; [exact E2|].
    by eapply phase1_saturated.
  - intros Hg. eapply exhausted_evolves; [exact E3|].
    by eapply phase2a_saturated.
  - intros Hg. by eapply phase2b_saturated.
Qed.

(** Every record of list1 that Phase 3 has claimed so far sits in a
    pair with two different, non-empty GSTINs. *)
Definition phase3_pairs (s2 st : MState) : Prop :=
  forall i a a2, list1 st !! i = Some a -> claimed a = true ->
    list1 s2 !! i = Some a2 -> claimed a2 = false ->
    exists j b, list2 st !! j = Some b /\ match_id b = match_id a
      /\ gstin a <> [] /\ gstin b <> [] /\ gstin a <> gstin b
      /\ match_type a = Some probable_match /\ match_type b = Some probable_match.

Lemma nonempty_true {A} (s : list A) : nonempty s = true <-> s <> [].
Proof. destruct s; simpl; split; congruence. Qed.

Lemma nonempty_false {A} (s : list A) : nonempty s = false <-> s = [].
Proof. destruct s; simpl; split; congruence. Qed.

(** An open pair of equal head within tolerance, in a settled state,
    has two different non-empty GSTINs. *)
Lemma settled_pair_gstins tolerance st i j a b :
  settled12 tolerance st ->
  list1 st !! i = Some a -> claimed a = false ->
  list2 st !! j = Some b -> claimed b = false ->
  head b = head a -> within tolerance a b ->
  gstin a <> [] /\ gstin b <> [] /\ gstin a <> gstin b.
Proof.
  intros Hs Ha Hca Hb Hcb Hh Hw.
  destruct (Hs i a Ha Hca) as (E1 & E2 & E3).
  assert (Hne : gstin a <> gstin b).
  { intros Heq. apply (E1 j b Hb Hcb); [|done].
    unfold kind1, key1. apply bool_decide_eq_true. congruence. }
  destruct (nonempty (gstin a)) eqn:Hga.
  - destruct (nonempty (gstin b)) eqn:Hgb.
    + apply nonempty_true in Hga, Hgb. done.
    + exfalso. apply (E2 eq_refl j b Hb Hcb); [|done].
      unfold kind2a. rewrite Hgb. simpl. by apply bool_decide_eq_true.
  - destruct (nonempty (gstin b)) eqn:Hgb.
    + exfalso. apply (E3 eq_refl j b Hb Hcb); [|done].
      unfold kind2b. rewrite Hgb. simpl. by apply bool_decide_eq_true.
    + apply nonempty_false in Hga, Hgb. congruence.
Qed.

Lemma match_desc_probable a b :
  gstin a <> [] -> gstin b <> [] -> gstin a <> gstin b ->
  match_desc a b = probable_match.
Proof.
  intros Ha Hb Hne. unfold match_desc.
  apply nonempty_true in Ha, Hb. rewrite Ha, Hb. simpl.
  by rewrite bool_decide_eq_false_2.
Qed.

Section Phase3Pairs.
Variable tolerance : Q.
Variable s2 : MState.
Hypothesis counter_pos : (1 <= match_counter s2)%Z.
Hypothesis Hsettled : settled12 tolerance s2.

Let body := phase3_step (sorted_candidates_map s2) (candidates_amounts_map s2) tolerance.

Lemma phase3_loop_pairs k : phase3_pairs s2 (before body s2 k).
Proof.
  induction k as [|k IH].
  - intros i a a2 Ha Hca Ha2 Hca2. simpl in Ha. unfold before in Ha. simpl in Ha.
    congruence.
  - rewrite before_S.
    destruct (phase3_loop_evolves tolerance s2 counter_pos k) as [Hev Hc].
    fold body in Hev, Hc.
    destruct (phase3_step_cases tolerance s2 (before body s2 k) k Hev)
      as [Heq | (a & j & b & Ha & Hca & Hb & Hcb & Hh & Hw & _ & Heq)];
      fold body in Heq; rewrite Heq; [exact IH|].
    pose proof (settled12_evolves _ _ _ Hev Hsettled) as Hs.
    destruct (settled_pair_gstins _ _ _ _ _ _ Hs Ha Hca Hb Hcb Hh Hw) as (Ga & Gb & Gne).
    rewrite (match_desc_probable a b Ga Gb Gne).
    set (st := before body s2 k) in *.
    assert (Hlink : link st k j probable_match =
              {| list1 := <[k := set_match a (match_counter st) probable_match (row_idx b)]>
                            (list1 st);
                 list2 := <[j := set_match b (match_counter st) probable_match (row_idx a)]>
                            (list2 st);
                 match_counter := (match_counter st + 1)%Z |}).
    { unfold link. by rewrite Ha, Hb. }
    rewrite Hlink. intros i x x2 Hx Hcx Hx2 Hcx2. simpl in Hx.
    destruct (decide (i = k)) as [-> | Hne].
    + rewrite list_lookup_insert_eq in Hx by (by eapply lookup_lt_Some).
      injection Hx as <-.
      exists j, (set_match b (match_counter st) probable_match (row_idx a)).
      simpl. split; [|done].
      rewrite list_lookup_insert_eq; [done | by eapply lookup_lt_Some].
    + rewrite list_lookup_insert_ne in Hx by done.
      destruct (IH i x x2 Hx Hcx Hx2 Hcx2) as (j0 & b0 & Hb0 & Hm0 & Hrest).
      exists j0, b0. split; [|done]. simpl.
      rewrite list_lookup_insert_ne; [done|]. intros ->.
      assert (b0 = b) as -> by congruence.
      unfold claimed in Hcx, Hcb. rewrite Hm0 in Hcb. congruence.
Qed.
End Phase3Pairs.


(** With a rational tolerance the tag "Match (No GSTINs)" is never
    written: a pair with two empty GSTINs and equal heads is a Phase 1
    pair, so every Phase 3 pair is a "Probable Match (GSTIN
    Mismatch)". *)
Lemma phase3_probable_rational (l1 l2 : list Invoice) (tolerance : Q) (name1 name2 : pystr)
    (i : nat) (a2 a : Invoice) :
  list1 (phases12 l1 l2 tolerance name1 name2) !! i = Some a2 -> claimed a2 = false ->
  list1 (match_invoices l1 l2 tolerance name1 name2) !! i = Some a ->
  claimed a = true ->
  match_type a = Some probable_match.
Proof.
  intros Ha2 Hca2 Ha Hca.
  destruct (run_counters l1 l2 tolerance name1 name2) as (_ & _ & H2 & _).
  pose proof (phase3_loop_pairs tolerance _ H2
                (phases12_settled l1 l2 tolerance name1 name2)
                (length (list1 (phases12 l1 l2 tolerance name1 name2)))) as Hp.
  change (before _ _ _) with (match_invoices l1 l2 tolerance name1 name2) in Hp.
  by destruct (Hp i a a2 Ha Hca Ha2 Hca2) as (_ & _ & _ & _ & _ & _ & _ & Ta & _).
Qed.

(** ** Ties *)

Lemma diff_at_lookup l2 amt j b :
  l2 !! j = Some b -> diff_at l2 amt j = Qabs (amt - amount b).
Proof. intros Hb. unfold diff_at, amount_at. by rewrite Hb. Qed.

Lemma loop_choice_earliest skip kind cands_of desc tolerance s0 k a j :
  (forall a j, j ∈ cands_of a <->
     exists b0, list2 s0 !! j = Some b0 /\ claimed b0 = false /\ kind a b0 = true) ->
  (forall a, StronglySorted lt (cands_of a)) ->
  (1 <= match_counter s0)%Z ->
  list1 (before (claim_step skip cands_of desc tolerance) s0 k) !! k = Some a ->
  best_match_of cands_of tolerance
    (list2 (before (claim_step skip cands_of desc tolerance) s0 k)) a = Some j ->
  earliest_nearest kind tolerance
    (list2 (before (claim_step skip cands_of desc tolerance) s0 k)) a j.
Proof.
  intros Helem Hsorted Hpos Ha Hbest.
  destruct (loop_choice skip kind cands_of desc tolerance s0 Helem Hsorted Hpos k a j Ha Hbest)
    as [(b & Hb & Hcb & Hk & Hw) Hmin].
  exists b. repeat split; try done.
  intros j' b' Hb' Hcb' Hk' Hw'.
  specialize (Hmin j' b' Hb' Hcb' Hk' Hw').
  by rewrite (diff_at_lookup _ _ _ _ Hb), (diff_at_lookup _ _ _ _ Hb') in Hmin.
Qed.

(** C4, as the code has it.  In Phase 1 and in both sub-cases of
    Phase 2, the [best_match] found for a record of list1 is the
    nearest unclaimed candidate within tolerance, and among equally
    near candidates the one that comes first in list2.  (Phase 3
    scans a list sorted by amount and is not covered.) *)
Theorem tie_break_phases12 (l1 l2 : list Invoice) (tolerance : Q) (name1 name2 : pystr)
    (k : nat) (a : Invoice) (j : nat) :
  let s0 := initial_state l1 l2 in
  let s1 := phase1 tolerance s0 in
  let s2a := phase2a tolerance name2 s1 in
  (let st := before (phase1_step (map2 s0) tolerance) s0 k in
   list1 st !! k = Some a ->
   best_match_of (fun inv1 => dict_get (map2 s0) (key1 inv1)) tolerance (list2 st) a = Some j ->
   earliest_nearest kind1 tolerance (list2 st) a j)
  /\ (let st := before (phase2a_step (map2_no_gstin s1) name2 tolerance) s1 k in
      list1 st !! k = Some a ->
      best_match_of (fun inv1 => dict_get (map2_no_gstin s1) (head inv1)) tolerance
        (list2 st) a = Some j ->
      earliest_nearest kind2a tolerance (list2 st) a j)
  /\ (let st := before (phase2b_step (map2_with_gstin s2a) name1 tolerance) s2a k in
      list1 st !! k = Some a ->
      best_match_of (fun inv1 => dict_get (map2_with_gstin s2a) (head inv1)) tolerance
        (list2 st) a = Some j ->
      earliest_nearest kind2b tolerance (list2 st) a j).
Proof.
  intros s0 s1 s2a.
  destruct (run_counters l1 l2 tolerance name1 name2) as (H1 & H2 & _ & _).
  assert (H0 : (1 <= match_counter s0)%Z) by (simpl; lia).
  split; [|split]; intros st Ha Hbest.
  - apply (loop_choice_earliest (fun _ => false) kind1 _ perfect_match); try done.
    + apply map2_elem.
    + intros x. apply build_index_sorted.
  - apply (loop_choice_earliest (fun inv1 => negb (nonempty (gstin inv1))) kind2a _
             (missing_gstin_in name2)); try done.
    + apply map2_no_gstin_elem.
    + intros x. apply build_index_sorted.
  - apply (loop_choice_earliest (fun inv1 => nonempty (gstin inv1)) kind2b _
             (missing_gstin_in name1)); try done.
    + apply map2_with_gstin_elem.
    + intros x. apply build_index_sorted.
Qed.

(** The tie of sub-case B in the mixed sample: rows 2 and 3 of list2
    are both 1 away, and row 2 is taken. *)
Example tie_break_phase2b_example :
  let s2a := phase2a 1 Scenarios.B
               (phase1 1 (initial_state Scenarios.mixed_l1 Scenarios.mixed_l2)) in
  best_match_of (fun inv1 => dict_get (map2_with_gstin s2a) (head inv1)) 1
    (list2 (before (phase2b_step (map2_with_gstin s2a) Scenarios.A 1) s2a 2))
    (Scenarios.rec 4 "" IGST 100 "A") = Some 0.
Proof. vm_compute. reflexivity. Qed.

(** C4 as stated fails in Phase 3: rows 2 and 3 of list2 are both
    open, of the same head and exactly 1 away from the record of
    list1, and Phase 3 links row 3, the later one (it looks at the
    amounts not below 100 first). *)
Lemma tie_break_phase3_counterexample :
  exists a b b',
    list1 (phases12 Scenarios.tie_l1 Scenarios.tie_l2 1 Scenarios.A Scenarios.B) !! 0 = Some a
    /\ list2 (phases12 Scenarios.tie_l1 Scenarios.tie_l2 1 Scenarios.A Scenarios.B) !! 0 = Some b
    /\ list2 (phases12 Scenarios.tie_l1 Scenarios.tie_l2 1 Scenarios.A Scenarios.B) !! 1 = Some b'
    /\ claimed a = false /\ claimed b = false /\ claimed b' = false
    /\ head b = head a /\ head b' = head a
    /\ within 1 a b /\ within 1 a b'
    /\ (Qabs (amount a - amount b) == Qabs (amount a - amount b'))%Q
    /\ (row_idx b < row_idx b')%Z
    /\ (matched_with_row <$>
          list1 (match_invoices Scenarios.tie_l1 Scenarios.tie_l2 1 Scenarios.A Scenarios.B) !! 0)
       = Some (Some (row_idx b'))
    /\ (match_id <$>
          list2 (match_invoices Scenarios.tie_l1 Scenarios.tie_l2 1 Scenarios.A Scenarios.B) !! 0)
       = Some None.
Proof.
  exists (Scenarios.rec 2 "G3" IGST 100 "A"), (Scenarios.rec 2 "G1" IGST 99 "B"),
         (Scenarios.rec 3 "G2" IGST 101 "B").
  repeat split; try (vm_compute; reflexivity); try (vm_compute; discriminate).
Qed.

(** * The normaliser: classification and the matching universe *)

Section NormaliserFacts.
Context {rt : PyRuntime}.

Lemma significant_iff x : significant x = true <-> (0.01 < Qabs x)%Q.
Proof. unfold significant. apply Qlt_bool_iff. Qed.

Lemma significant_not x : significant x = false <-> ~ (0.01 < Qabs x)%Q.
Proof.
  unfold significant. rewrite Qlt_bool_false. split; intros H; [lra|].
  destruct (Qlt_le_dec 0.01 (Qabs x)); [done | lra].
Qed.

Lemma Invoice_init_ok row data src i c s :
  to_float (data_get data "igst" (VInt 0)) = Ok i ->
  to_float (data_get data "cgst" (VInt 0)) = Ok c ->
  to_float (data_get data "sgst" (VInt 0)) = Ok s ->
  exists inv, Invoice_init row data src = Ok inv
    /\ row_idx inv = row /\ igst inv = i /\ cgst inv = c /\ sgst inv = s
    /\ source inv = src /\ fresh inv
    /\ head inv = (if significant i then IGST
                   else if significant c || significant s then CGST_SGST else ZERO)
    /\ amount inv = (if significant i then i
                     else if significant c || significant s
                          then (if significant c then c else s) else 0%Q).
Proof.
  intros Hi Hc Hs. unfold Invoice_init. rewrite Hi, Hc, Hs. simpl.
  eexists. split; [reflexivity|]. simpl. repeat split; reflexivity.
Qed.

Lemma Invoice_init_fresh row data src inv :
  Invoice_init row data src = Ok inv -> fresh inv /\ row_idx inv = row.
Proof.
  unfold Invoice_init.
  destruct (to_float (data_get data "igst" (VInt 0))) as [i|]; [|done].
  destruct (to_float (data_get data "cgst" (VInt 0))) as [c|]; [|done].
  destruct (to_float (data_get data "sgst" (VInt 0))) as [s|]; [|done].
  simpl. intros [= <-]. simpl. repeat split; reflexivity.
Qed.

(** What [read_invoices] returns: fresh records, none of head
    [ZERO], each carrying the number of the row it was read from. *)
Lemma read_rows_spec ws mapping sheet_name rows : forall acc invs,
  read_rows ws mapping sheet_name rows acc = Ok invs ->
  Forall (fun inv => head inv <> ZERO /\ fresh inv) acc ->
  Forall (fun inv => head inv <> ZERO /\ fresh inv) invs.
Proof.
  induction rows as [|r rest IH]; intros acc invs; simpl.
  - by intros [= <-].
  - destruct (read_row ws mapping r) as [data is_empty].
    destruct is_empty; [apply IH|].
    destruct (Invoice_init (Z.of_nat r) data sheet_name) as [inv|] eqn:Hinit; [|done].
    simpl. case_bool_decide as Hz; [apply IH|].
    intros Hr Hacc. apply (IH _ _ Hr).
    apply Forall_app. split; [done|].
    constructor; [|constructor].
    split; [done|]. by apply (Invoice_init_fresh _ _ _ _ Hinit).
Qed.

Lemma read_invoices_spec ws mapping sheet_name invs :
  read_invoices ws mapping sheet_name = Ok invs ->
  Forall (fun inv => head inv <> ZERO /\ fresh inv) invs.
Proof. intros Hr. by eapply read_rows_spec. Qed.

(** A successful run matched exactly the two lists that
    [read_invoices] returned. *)
Lemma process_reconciliation_ok path wb ts sheet1 sheet2 tolerance out_file wb' :
  process_reconciliation path wb ts sheet1 sheet2 tolerance = Ok (out_file, wb') ->
  exists name1 name2 ws1 ws2 inv1 inv2,
    resolve_names (fst <$> wb) sheet1 sheet2 = (Some name1, Some name2)
    /\ name1 <> name2
    /\ wb_get wb name1 = Some ws1 /\ wb_get wb name2 = Some ws2
    /\ read_invoices ws1 (get_header_map ws1) name1 = Ok inv1
    /\ read_invoices ws2 (get_header_map ws2) name2 = Ok inv2
    /\ wb' = wb_set
               (wb_set wb name1
                  (write_results ws1
                     (list1 (match_invoices inv1 inv2 tolerance name1 name2)) name1 name2))
               name2
               (write_results ws2
                  (list2 (match_invoices inv1 inv2 tolerance name1 name2)) name2 name1).
Proof.
  unfold process_reconciliation.
  destruct (resolve_names (fst <$> wb) sheet1 sheet2) as [[name1|] [name2|]]; try done.
  destruct (negb (nonempty name1) || negb (nonempty name2)); [done|].
  case_bool_decide as Hne; [done|].
  destruct (wb_get wb name1) as [ws1|] eqn:H1; [|done].
  destruct (wb_get wb name2) as [ws2|] eqn:H2; [|done].
  destruct (validate_map (get_header_map ws1) name1); [|done]. simpl.
  destruct (validate_map (get_header_map ws2) name2); [|done]. simpl.
  destruct (read_invoices ws1 (get_header_map ws1) name1) as [inv1|] eqn:R1; [|done]. simpl.
  destruct (read_invoices ws2 (get_header_map ws2) name2) as [inv2|] eqn:R2; [|done]. simpl.
  intros [= <- <-]. exists name1, name2, ws1, ws2, inv1, inv2. done.
Qed.

(** A successful run hands [match_invoices] records with empty match
    fields and no [ZERO] head: the properties of the matching engine
    apply to it. *)
Theorem pipeline_lists_fresh (path : pystr) (wb : list (pystr * gmap (nat * nat) PyVal))
    (ts : pystr) (sheet1 sheet2 : option pystr) (tolerance : Q)
    (out_file : pystr) (wb' : list (pystr * gmap (nat * nat) PyVal)) :
  process_reconciliation path wb ts sheet1 sheet2 tolerance = Ok (out_file, wb') ->
  exists name1 name2 ws1 ws2 inv1 inv2,
    wb_get wb name1 = Some ws1 /\ wb_get wb name2 = Some ws2
    /\ read_invoices ws1 (get_header_map ws1) name1 = Ok inv1
    /\ read_invoices ws2 (get_header_map ws2) name2 = Ok inv2
    /\ Forall fresh inv1 /\ Forall fresh inv2
    /\ wb' = wb_set
               (wb_set wb name1
                  (write_results ws1
                     (list1 (match_invoices inv1 inv2 tolerance name1 name2)) name1 name2))
               name2
               (write_results ws2
                  (list2 (match_invoices inv1 inv2 tolerance name1 name2)) name2 name1).
Proof.
  intros Hp.
  destruct (process_reconciliation_ok _ _ _ _ _ _ _ _ Hp)
    as (name1 & name2 & ws1 & ws2 & inv1 & inv2 & _ & _ & H1 & H2 & R1 & R2 & ->).
  exists name1, name2, ws1, ws2, inv1, inv2. repeat split; try done.
  - eapply Forall_impl; [by eapply read_invoices_spec|]. by intros inv [_ ?].
  - eapply Forall_impl; [by eapply read_invoices_spec|]. by intros inv [_ ?].
Qed.

(** C7.  [Invoice.__init__], when its three [to_float] calls return
    [i], [c] and [s], builds a record classified exactly as stated;
    [read_invoices] returns no record of head [ZERO]; and the lists a
    successful [process_reconciliation] hands to [match_invoices] are
    the lists [read_invoices] returned. *)
Theorem classification (row : Z) (data : list (pystr * PyVal)) (src : pystr) (i c s : Q)
    (path : pystr) (wb : list (pystr * gmap (nat * nat) PyVal)) (ts : pystr)
    (sheet1 sheet2 : option pystr) (tolerance : Q) :
  (to_float (data_get data "igst" (VInt 0)) = Ok i ->
   to_float (data_get data "cgst" (VInt 0)) = Ok c ->
   to_float (data_get data "sgst" (VInt 0)) = Ok s ->
   exists inv, Invoice_init row data src = Ok inv
     /\ ((0.01 < Qabs i)%Q -> head inv = IGST /\ amount inv = i)
     /\ (~ (0.01 < Qabs i)%Q -> (0.01 < Qabs c)%Q ->
         head inv = CGST_SGST /\ amount inv = c)
     /\ (~ (0.01 < Qabs i)%Q -> ~ (0.01 < Qabs c)%Q -> (0.01 < Qabs s)%Q ->
         head inv = CGST_SGST /\ amount inv = s)
     /\ (~ (0.01 < Qabs i)%Q -> ~ (0.01 < Qabs c)%Q -> ~ (0.01 < Qabs s)%Q ->
         head inv = ZERO))
  /\ (forall ws mapping sheet_name invs,
        read_invoices ws mapping sheet_name = Ok invs ->
        Forall (fun inv => head inv <> ZERO) invs)
  /\ (forall out_file wb',
        process_reconciliation path wb ts sheet1 sheet2 tolerance = Ok (out_file, wb') ->
        exists name1 name2 ws1 ws2 inv1 inv2,
          wb_get wb name1 = Some ws1 /\ wb_get wb name2 = Some ws2
          /\ read_invoices ws1 (get_header_map ws1) name1 = Ok inv1
          /\ read_invoices ws2 (get_header_map ws2) name2 = Ok inv2
          /\ Forall (fun inv => head inv <> ZERO) inv1
          /\ Forall (fun inv => head inv <> ZERO) inv2
          /\ wb' = wb_set
                     (wb_set wb name1
                        (write_results ws1
                           (list1 (match_invoices inv1 inv2 tolerance name1 name2))
                           name1 name2))
                     name2
                     (write_results ws2
                        (list2 (match_invoices inv1 inv2 tolerance name1 name2))
                        name2 name1)).
Proof.
  split; [|split].
  - intros Hi Hc Hs.
    destruct (Invoice_init_ok row data src i c s Hi Hc Hs)
      as (inv & Hinit & _ & _ & _ & _ & _ & _ & Hh & Ha).
    exists inv. split; [done|]. rewrite Hh, Ha.
    split; [|split; [|split]].
    + intros H1. apply significant_iff in H1. by rewrite H1.
    + intros H1 H2. apply significant_not in H1. apply significant_iff in H2.
      by rewrite H1, H2.
    + intros H1 H2 H3. apply significant_not in H1, H2. apply significant_iff in H3.
      by rewrite H1, H2, H3.
    + intros H1 H2 H3. apply significant_not in H1, H2, H3.
      by rewrite H1, H2, H3.
  - intros ws mapping sheet_name invs Hr.
    eapply Forall_impl; [by eapply read_invoices_spec|]. by intros inv [? _].
  - intros out_file wb' Hp.
    destruct (process_reconciliation_ok _ _ _ _ _ _ _ _ Hp)
      as (name1 & name2 & ws1 & ws2 & inv1 & inv2 & _ & _ & H1 & H2 & R1 & R2 & ->).
    exists name1, name2, ws1, ws2, inv1, inv2. repeat split; try done.
    + eapply Forall_impl; [by eapply read_invoices_spec|]. by intros inv [? _].
    + eapply Forall_impl; [by eapply read_invoices_spec|]. by intros inv [? _].
Qed.
End NormaliserFacts.

Example classification_examples :
  (head <$> Invoice_init (rt := Samples.runtime) 2
              [(py "igst", VInt 0); (py "cgst", VStr (py "50.00")); (py "sgst", VInt 7)] [])
  = Ok CGST_SGST
  /\ (amount <$> Invoice_init (rt := Samples.runtime) 2
                   [(py "igst", VInt 0); (py "cgst", VStr (py "50.00")); (py "sgst", VInt 7)] [])
     = Ok 50.00%Q
  /\ (amount <$> Invoice_init (rt := Samples.runtime) 2
                   [(py "igst", VFloat 0.01); (py "cgst", VFloat 0.004); (py "sgst", VInt 7)] [])
     = Ok (inject_Z 7)
  /\ (head <$> Invoice_init (rt := Samples.runtime) 2
                 [(py "igst", VInt 0); (py "cgst", VInt 0); (py "sgst", VInt 0)] [])
     = Ok ZERO.
Proof. repeat split; vm_compute; reflexivity. Qed.

(** * The annotator *)

Section WorksheetFacts.
Implicit Types ws : gmap (nat * nat) PyVal.

Lemma max_row_spec ws :
  1 <= max_row ws
  /\ (forall r c v, ws !! (r, c) = Some v -> r <= max_row ws)
  /\ (max_row ws = 1 \/ exists c v, ws !! (max_row ws, c) = Some v).
Proof.
  unfold max_row.
  apply (map_fold_weak_ind
           (fun b (m : gmap (nat * nat) PyVal) =>
              1 <= b /\ (forall r c v, m !! (r, c) = Some v -> r <= b)
              /\ (b = 1 \/ exists c v, m !! (b, c) = Some v))).
  - split; [lia|]. split; [|by left]. intros r c v Hl. by rewrite lookup_empty in Hl.
  - intros [r0 c0] x m b Hnone (Hb & Hup & Hatt). simpl. split; [lia|]. split.
    + intros r c v Hl. destruct (decide ((r0, c0) = (r, c))) as [[= -> ->] | Hne].
      * lia.
      * rewrite lookup_insert_ne in Hl by done. specialize (Hup r c v Hl). lia.
    + destruct (Nat.max_spec r0 b) as [[Hlt ->] | [Hle ->]].
      * destruct Hatt as [-> | (c & v & Hl)]; [by left | right].
        exists c, v. rewrite lookup_insert_ne; [done|]. intros [= -> ->]. congruence.
      * right. exists c0, x. by rewrite lookup_insert_eq.
Qed.

Lemma max_column_spec ws :
  1 <= max_column ws
  /\ (forall r c v, ws !! (r, c) = Some v -> c <= max_column ws).
Proof.
  unfold max_column.
  apply (map_fold_weak_ind
           (fun b (m : gmap (nat * nat) PyVal) =>
              1 <= b /\ (forall r c v, m !! (r, c) = Some v -> c <= b))).
  - split; [lia|]. intros r c v Hl. by rewrite lookup_empty in Hl.
  - intros [r0 c0] x m b Hnone (Hb & Hup). simpl. split; [lia|].
    intros r c v Hl. destruct (decide ((r0, c0) = (r, c))) as [[= -> ->] | Hne].
    + lia.
    + rewrite lookup_insert_ne in Hl by done. specialize (Hup r c v Hl). lia.
Qed.

(** No cell exists to the right of [max_column]. *)
Lemma beyond_max_column ws r c : max_column ws < c -> ws !! (r, c) = None.
Proof.
  intros Hlt. destruct (ws !! (r, c)) as [v|] eqn:Hl; [|done].
  apply (proj2 (max_column_spec ws)) in Hl. lia.
Qed.

(** A cell that comes to exist in a row the sheet already has does
    not change [max_row]. *)
Lemma max_row_cell_write ws r c v :
  r <= max_row ws -> max_row (cell_write ws r c v) = max_row ws.
Proof.
  intros Hr.
  destruct (max_row_spec ws) as (H1 & Hup & Hatt).
  destruct (max_row_spec (cell_write ws r c v)) as (H1' & Hup' & Hatt').
  assert (Hsub : forall k x, ws !! k = Some x -> exists y, cell_write ws r c v !! k = Some y).
  { intros k x Hk. unfold cell_write.
    destruct (decide (k = (r, c))) as [-> | Hne].
    - destruct v; rewrite ?Hk, ?lookup_insert_eq; eauto.
    - destruct v; try (rewrite lookup_insert_ne by done; eauto).
      destruct (ws !! (r, c)); [eauto|]. rewrite lookup_insert_ne by done. eauto. }
  assert (Hsup : forall r' c' y, cell_write ws r c v !! (r', c') = Some y ->
                   (r', c') = (r, c) \/ exists x, ws !! (r', c') = Some x).
  { intros r' c' y Hk. destruct (decide ((r', c') = (r, c))) as [? | Hne]; [by left | right].
    unfold cell_write in Hk.
    destruct v; try (rewrite lookup_insert_ne in Hk by done; eauto).
    destruct (ws !! (r, c)); [eauto|]. rewrite lookup_insert_ne in Hk by done. eauto. }
  apply Nat.le_antisymm.
  - destruct Hatt' as [-> | (c' & y & Hk)]; [done|].
    destruct (Hsup _ _ _ Hk) as [[= -> _] | (x & Hx)]; [lia | by eapply Hup].
  - destruct Hatt as [-> | (c' & x & Hk)]; [done|].
    destruct (Hsub _ _ Hk) as (y & Hy). by eapply Hup'.
Qed.

Lemma cell_write_other ws r c v r' c' :
  (r', c') <> (r, c) -> cell_write ws r c v !! (r', c') = ws !! (r', c').
Proof.
  intros Hne. unfold cell_write.
  destruct v; try (by rewrite lookup_insert_ne).
  destruct (ws !! (r, c)); [done|]. by rewrite lookup_insert_ne.
Qed.

(** Writing to a cell that did not exist leaves it holding the value. *)
Lemma cell_write_new ws r c v :
  ws !! (r, c) = None -> cell_value (cell_write ws r c v) r c = v.
Proof.
  intros Hn. unfold cell_value, cell_write.
  destruct v; rewrite ?Hn, lookup_insert_eq; done.
Qed.

Lemma cell_value_other ws r c v r' c' :
  (r', c') <> (r, c) -> cell_value (cell_write ws r c v) r' c' = cell_value ws r' c'.
Proof. intros Hne. unfold cell_value. by rewrite cell_write_other. Qed.
End WorksheetFacts.

Section WriteResults.
Variable inv_map : gmap Z Invoice.
Variable other_name : pystr.
Variable max_col : nat.
Implicit Types ws : gmap (nat * nat) PyVal.

Lemma annotate_row_other ws r r' col :
  r' <> r -> annotate_row inv_map other_name max_col ws r !! (r', col) = ws !! (r', col).
Proof.
  intros Hne. unfold annotate_row.
  destruct (inv_map !! Z.of_nat r); rewrite !cell_write_other; congruence.
Qed.

Lemma annotate_row_left ws r r' col :
  col <= max_col -> annotate_row inv_map other_name max_col ws r !! (r', col) = ws !! (r', col).
Proof.
  intros Hle. unfold annotate_row.
  destruct (inv_map !! Z.of_nat r); rewrite !cell_write_other; try done;
    intros [= _ ->]; lia.
Qed.

Lemma fold_annotate_other rows : forall ws r col,
  r ∉ rows ->
  fold_left (annotate_row inv_map other_name max_col) rows ws !! (r, col) = ws !! (r, col).
Proof.
  induction rows as [|r0 rows IH]; intros ws r col Hnin; simpl; [done|].
  apply not_elem_of_cons in Hnin as [Hne Hnin].
  rewrite IH by done. by apply annotate_row_other.
Qed.

Lemma fold_annotate_left rows : forall ws r col,
  col <= max_col ->
  fold_left (annotate_row inv_map other_name max_col) rows ws !! (r, col) = ws !! (r, col).
Proof.
  induction rows as [|r0 rows IH]; intros ws r col Hle; simpl; [done|].
  rewrite IH by done. by apply annotate_row_left.
Qed.

(** The three cells of row [r] once its iteration has run, when they
    did not exist before. *)
Lemma annotate_row_cells ws r :
  ws !! (r, max_col + 1) = None -> ws !! (r, max_col + 2) = None ->
  ws !! (r, max_col + 3) = None ->
  let ws' := annotate_row inv_map other_name max_col ws r in
  match inv_map !! Z.of_nat r with
  | Some inv =>
      cell_value ws' r (max_col + 1) = VStr (status_of inv other_name)
      /\ cell_value ws' r (max_col + 2) = opt_int (match_id inv)
      /\ cell_value ws' r (max_col + 3) = opt_int (matched_with_row inv)
  | None =>
      cell_value ws' r (max_col + 1) = VStr ignored_zero
      /\ cell_value ws' r (max_col + 2) = VNone
      /\ cell_value ws' r (max_col + 3) = VNone
  end.
Proof.
  intros H1 H2 H3 ws'. unfold ws', annotate_row.
  destruct (inv_map !! Z.of_nat r) as [inv|].
  - split; [|split].
    + rewrite !cell_value_other by (intros [= ?]; lia). by apply cell_write_new.
    + rewrite cell_value_other by (intros [= ?]; lia).
      apply cell_write_new. rewrite cell_write_other; [done | intros [= ?]; lia].
    + apply cell_write_new.
      rewrite !cell_write_other; [done | intros [= ?]; lia | intros [= ?]; lia].
  - split; [|split].
    + by apply cell_write_new.
    + unfold cell_value. rewrite cell_write_other; [by rewrite H2 | intros [= ?]; lia].
    + unfold cell_value. rewrite cell_write_other; [by rewrite H3 | intros [= ?]; lia].
Qed.
End WriteResults.

Lemma write_headers_max_row (ws : gmap (nat * nat) PyVal) c :
  max_row (write_headers ws c) = max_row ws.
Proof.
  unfold write_headers.
  pose proof (proj1 (max_row_spec ws)) as H1.
  rewrite !max_row_cell_write; [done | lia | | ].
  - rewrite max_row_cell_write; lia.
  - rewrite !max_row_cell_write; [lia | lia |]. rewrite max_row_cell_write; lia.
Qed.

Lemma write_headers_other (ws : gmap (nat * nat) PyVal) c r col :
  r <> 1 -> write_headers ws c !! (r, col) = ws !! (r, col).
Proof.
  intros Hne. unfold write_headers. rewrite !cell_write_other; congruence.
Qed.

Lemma write_headers_left (ws : gmap (nat * nat) PyVal) c r col :
  col <= c -> write_headers ws c !! (r, col) = ws !! (r, col).
Proof.
  intros Hle. unfold write_headers.
  rewrite !cell_write_other; try done; intros [= _ ->]; lia.
Qed.


(** The record [write_results] looks up for a row, when rows are not
    repeated in the list (as in a list [read_invoices] returns). *)
Lemma inv_map_of_lookup (invoices : list Invoice) (inv : Invoice) :
  NoDup (row_idx <$> invoices) -> inv ∈ invoices ->
  inv_map_of invoices !! row_idx inv = Some inv.
Proof.
  unfold inv_map_of.
  assert (Hgen : forall l (m : gmap Z Invoice),
            NoDup (row_idx <$> l) ->
            (inv ∈ l \/ (m !! row_idx inv = Some inv /\ row_idx inv ∉ row_idx <$> l)) ->
            fold_left (fun m x => <[row_idx x := x]> m) l m !! row_idx inv = Some inv).
  { induction l as [|x l IH]; intros m Hnd Hin; simpl.
    - destruct Hin as [Hin | [Hm _]]; [inversion Hin | done].
    - rewrite fmap_cons in Hnd. apply NoDup_cons in Hnd as [Hx Hnd].
      apply IH; [done|].
      destruct Hin as [Hin | [Hm Hnin]].
      + apply elem_of_cons in Hin as [-> | Hin]; [|by left].
        right. by rewrite lookup_insert_eq.
      + rewrite fmap_cons in Hnin. apply not_elem_of_cons in Hnin as [Hne Hnin].
        right. by rewrite lookup_insert_ne. }
  intros Hnd Hin. apply Hgen; [done | by left].
Qed.


(** * The driver: configuration errors *)

Section DriverFacts.
Context {rt : PyRuntime}.

Lemma to_float_raises val e :
  to_float val = Raise e -> exists msg, e = OverflowError msg.
Proof.
  destruct val as [| b | z | q | text]; simpl; try done.
  - unfold float_of_int. destruct (Z.abs z <? 2 ^ 1024 - 2 ^ 970)%Z; [done|].
    intros [= <-]. by eexists.
  - destruct (strip text); [done|].
    by destruct (re_search_number _).
Qed.

Lemma Invoice_init_raises row data src e :
  Invoice_init row data src = Raise e -> exists msg, e = OverflowError msg.
Proof.
  unfold Invoice_init.
  destruct (to_float (data_get data "igst" (VInt 0))) as [i|e1] eqn:H1; simpl.
  2:{ intros [= <-]. by eapply to_float_raises. }
  destruct (to_float (data_get data "cgst" (VInt 0))) as [c|e2] eqn:H2; simpl.
  2:{ intros [= <-]. by eapply to_float_raises. }
  destruct (to_float (data_get data "sgst" (VInt 0))) as [s|e3] eqn:H3; simpl.
  2:{ intros [= <-]. by eapply to_float_raises. }
  done.
Qed.

Lemma read_rows_raises ws mapping sheet_name rows : forall acc e,
  read_rows ws mapping sheet_name rows acc = Raise e -> exists msg, e = OverflowError msg.
Proof.
  induction rows as [|r rest IH]; intros acc e; simpl; [done|].
  destruct (read_row ws mapping r) as [data is_empty].
  destruct is_empty; [apply IH|].
  destruct (Invoice_init (Z.of_nat r) data sheet_name) as [inv|e1] eqn:Hinit; simpl.
  - case_bool_decide; apply IH.
  - intros [= <-]. by eapply Invoice_init_raises.
Qed.

Lemma read_invoices_raises ws mapping sheet_name e :
  read_invoices ws mapping sheet_name = Raise e -> exists msg, e = OverflowError msg.
Proof. apply read_rows_raises. Qed.

Lemma wb_get_Some wb name :
  is_Some (wb_get wb name) <-> name ∈ (fst <$> wb).
Proof.
  induction wb as [|[n ws] wb IH]; simpl.
  - split; [intros [? ?]; done | intros Hin; inversion Hin].
  - rewrite elem_of_cons. case_bool_decide as Hn.
    + split; [intros _; by left | intros _; by eexists].
    + rewrite IH. split; [by right | intros [-> | ?]; done].
Qed.

(** The sheet has no identifier column, or none of the tax columns. *)
Definition lacks_columns (ws : gmap (nat * nat) PyVal) : Prop :=
  has_col (get_header_map ws) "gstin" = false
  \/ (has_col (get_header_map ws) "igst" = false
      /\ has_col (get_header_map ws) "cgst" = false
      /\ has_col (get_header_map ws) "sgst" = false).

(** The configuration is invalid: the names do not resolve to two
    sheets of the workbook, or they are the same, or one of the two
    sheets lacks the columns. *)
Definition config_invalid (wb : list (pystr * gmap (nat * nat) PyVal))
    (sheet1 sheet2 : option pystr) : Prop :=
  (forall name1 name2, resolve_names (fst <$> wb) sheet1 sheet2 = (Some name1, Some name2) ->
     name1 = [] \/ name2 = [] \/ name1 ∉ (fst <$> wb) \/ name2 ∉ (fst <$> wb))
  \/ (exists name, resolve_names (fst <$> wb) sheet1 sheet2 = (Some name, Some name))
  \/ (exists name1 name2 ws,
        resolve_names (fst <$> wb) sheet1 sheet2 = (Some name1, Some name2)
        /\ (wb_get wb name1 = Some ws \/ wb_get wb name2 = Some ws)
        /\ lacks_columns ws).

Lemma validate_map_ok m sheet_name :
  validate_map m sheet_name = Ok tt
  <-> has_col m "gstin" = true
      /\ (has_col m "igst" = true \/ has_col m "cgst" = true \/ has_col m "sgst" = true).
Proof.
  unfold validate_map.
  destruct (has_col m "gstin"); simpl; [|split; [done | intros [? _]; done]].
  destruct (has_col m "igst"); simpl; [split; [intros _; auto | done]|].
  destruct (has_col m "cgst"); simpl; [split; [intros _; auto | done]|].
  destruct (has_col m "sgst"); simpl; [split; [intros _; auto | done]|].
  split; [done | intros [_ [? | [? | ?]]]; done].
Qed.

Lemma validate_map_cases m sheet_name :
  validate_map m sheet_name = Ok tt
  \/ exists msg, validate_map m sheet_name = Raise (ValueError msg).
Proof.
  unfold validate_map.
  destruct (has_col m "gstin"); simpl; [|right; by eexists].
  destruct (has_col m "igst" || has_col m "cgst" || has_col m "sgst"); simpl;
    [by left | right; by eexists].
Qed.

Lemma lacks_columns_iff ws sheet_name :
  lacks_columns ws <-> validate_map (get_header_map ws) sheet_name <> Ok tt.
Proof.
  rewrite validate_map_ok. unfold lacks_columns.
  destruct (has_col (get_header_map ws) "gstin"),
           (has_col (get_header_map ws) "igst"),
           (has_col (get_header_map ws) "cgst"),
           (has_col (get_header_map ws) "sgst"); intuition congruence.
Qed.

(** The runs of [process_reconciliation] that raise a [ValueError],
    branch by branch. *)
Lemma value_error_invalid (path : pystr) (wb : list (pystr * gmap (nat * nat) PyVal))
    (ts : pystr) (sheet1 sheet2 : option pystr) (tolerance : Q) :
  (exists msg, process_reconciliation path wb ts sheet1 sheet2 tolerance
               = Raise (ValueError msg))
  <-> config_invalid wb sheet1 sheet2.
Proof.
  unfold process_reconciliation, config_invalid.
  destruct (resolve_names (fst <$> wb) sheet1 sheet2) as [o1 o2].
  destruct o1 as [name1|]; [|split; [intros _; by left | intros _; by eexists]].
  destruct o2 as [name2|]; [|split; [intros _; by left | intros _; by eexists]].
  destruct (nonempty name1) eqn:E1; simpl.
  2:{ apply nonempty_false in E1.
      split; [intros _; left; intros ? ? [= <- <-]; auto | intros _; by eexists]. }
  destruct (nonempty name2) eqn:E2; simpl.
  2:{ apply nonempty_false in E2.
      split; [intros _; left; intros ? ? [= <- <-]; auto | intros _; by eexists]. }
  apply nonempty_true in E1, E2.
  case_bool_decide as Hsame.
  { subst name2. split; [intros _; right; left; by eexists | intros _; by eexists]. }
  destruct (wb_get wb name1) as [ws1|] eqn:G1.
  2:{ split; [|intros _; by eexists]. intros _. left. intros ? ? [= <- <-].
      right. right. left. rewrite <- wb_get_Some, G1. by intros [? ?]. }
  destruct (wb_get wb name2) as [ws2|] eqn:G2.
  2:{ split; [|intros _; by eexists]. intros _. left. intros ? ? [= <- <-].
      right. right. right. rewrite <- wb_get_Some, G2. by intros [? ?]. }
  assert (In1 : name1 ∈ (fst <$> wb)) by (apply wb_get_Some; by rewrite G1).
  assert (In2 : name2 ∈ (fst <$> wb)) by (apply wb_get_Some; by rewrite G2).
  destruct (validate_map_cases (get_header_map ws1) name1) as [V1 | (msg1 & V1)];
    rewrite V1; simpl.
  2:{ split; [|intros _; by eexists]. intros _. right. right.
      exists name1, name2, ws1. split; [done|]. split; [by left|].
      apply (lacks_columns_iff ws1 name1). congruence. }
  destruct (validate_map_cases (get_header_map ws2) name2) as [V2 | (msg2 & V2)];
    rewrite V2; simpl.
  2:{ split; [|intros _; by eexists]. intros _. right. right.
      exists name1, name2, ws2. split; [done|]. split; [by right|].
      apply (lacks_columns_iff ws2 name2). congruence. }
  split.
  - intros (msg & Hraise). exfalso.
    destruct (read_invoices ws1 (get_header_map ws1) name1) as [inv1|e1] eqn:R1; simpl in Hraise.
    2:{ injection Hraise as ->. by destruct (read_invoices_raises _ _ _ _ R1). }
    destruct (read_invoices ws2 (get_header_map ws2) name2) as [inv2|e2] eqn:R2; simpl in Hraise.
    2:{ injection Hraise as ->. by destruct (read_invoices_raises _ _ _ _ R2). }
    done.
  - intros [Hun | [(name & [= -> ->]) | (n1 & n2 & ws & [= <- <-] & Hws & Hlack)]].
    + destruct (Hun name1 name2 eq_refl) as [? | [? | [? | ?]]]; done.
    + done.
    + exfalso. destruct Hws as [Hws | Hws].
      * assert (ws = ws1) as -> by congruence.
        by apply (lacks_columns_iff ws1 name1) in Hlack.
      * assert (ws = ws2) as -> by congruence.
        by apply (lacks_columns_iff ws2 name2) in Hlack.
Qed.

(** On a workbook whose sheets are all worksheets,
    [process_reconciliation] raises a [ValueError] exactly when the
    configuration is invalid. *)
Theorem config_error_iff (path : pystr) (wb : list (pystr * gmap (nat * nat) PyVal))
    (ts : pystr) (sheet1 sheet2 : option pystr) (tolerance : Q) :
  (exists msg, process_reconciliation path wb ts sheet1 sheet2 tolerance
               = Raise (ValueError msg))
  <-> config_invalid wb sheet1 sheet2.
Proof.
  split.
  - intros Hraise. by apply (value_error_invalid path wb ts sheet1 sheet2 tolerance).
  - intros Hinvalid. by apply value_error_invalid.
Qed.

End DriverFacts.

(** * [to_float] *)

(** C6 fails on the code: an [int] beyond the range of a double makes
    [float(val)] raise, and the numeric branch of [to_float] has no
    [try] around it (the text branch has one). *)
Theorem to_float_overflow :
  to_float (VInt (10 ^ 400))
  = Raise (OverflowError (py "int too large to convert to float")).
Proof. vm_compute. reflexivity. Qed.

(** Everything else returns: the one way for [to_float] to raise is
    an [int] of magnitude at least 2^1024 - 2^970. *)
Theorem to_float_total_but_for_huge_int (val : PyVal) :
  (exists q, to_float val = Ok q)
  \/ (exists z, val = VInt z /\ (2 ^ 1024 - 2 ^ 970 <= Z.abs z)%Z
               /\ exists msg, to_float val = Raise (OverflowError msg)).
Proof.
  destruct val as [| b | z | q | text]; simpl; try (left; by eexists).
  - unfold float_of_int. destruct (Z.abs z <? 2 ^ 1024 - 2 ^ 970)%Z eqn:E.
    + left. by eexists.
    + right. exists z. apply Z.ltb_ge in E. split; [done|]. split; [done | by eexists].
  - left. destruct (strip text); [by eexists|].
    destruct (re_search_number _); by eexists.
Qed.

(** The values of the specification's examples; white space, commas,
    non-breaking spaces and the rupee sign are dropped, a text in
    parentheses is negated, and the first number of a mixed text is
    the one read. *)
Theorem to_float_examples :
  to_float (VStr (8377%N :: py "1,234.56")) = Ok 1234.56%Q
  /\ to_float (VStr (py "(50.00)")) = Ok (-50.00)%Q
  /\ to_float (VStr (py "1" ++ 160%N :: py "234" ++ 160%N :: py "567.5")) = Ok 1234567.5%Q
  /\ to_float (VStr (py "  Rs. -12.5 or 99 ")) = Ok (-12.5)%Q
  /\ to_float (VStr (py "7.")) = Ok 7%Q
  /\ to_float VNone = Ok 0%Q
  /\ to_float (VStr []) = Ok 0%Q
  /\ to_float (VStr (py "   ")) = Ok 0%Q
  /\ to_float (VStr (py "n/a")) = Ok 0%Q
  /\ to_float (VInt 42) = Ok 42%Q
  /\ to_float (VFloat 0.5) = Ok 0.5%Q.
Proof. repeat split; vm_compute; reflexivity. Qed.

Lemma Forall_lstrip (P : N -> Prop) s : Forall P s -> Forall P (lstrip s).
Proof.
  induction 1 as [|c s Hc Hs IH]; simpl; [constructor|].
  destruct (is_space c); [done | by constructor].
Qed.

Lemma Forall_strip (P : N -> Prop) s : Forall P s -> Forall P (strip s).
Proof.
  intros H. unfold strip.
  apply Forall_reverse, Forall_lstrip, Forall_reverse, Forall_lstrip, H.
Qed.

Lemma Forall_remove_char (P : N -> Prop) c s : Forall P s -> Forall P (remove_char c s).
Proof.
  intros H. unfold remove_char. apply Forall_forall. intros x Hx.
  apply list_elem_of_In, filter_In in Hx as [Hx _].
  apply (proj1 (Forall_forall P s) H). by apply list_elem_of_In.
Qed.

Lemma Forall_removelast (P : N -> Prop) s : Forall P s -> Forall P (removelast s).
Proof.
  induction 1 as [|c s Hc Hs IH]; simpl; [constructor|].
  destruct s; [constructor | by constructor].
Qed.

Lemma re_search_number_none s :
  Forall (fun c => is_digit c = false) s -> re_search_number s = None.
Proof.
  induction 1 as [|c s Hc Hs IH]; simpl; [done|].
  assert (Hd : starts_with_digit s = false) by (by destruct Hs).
  by rewrite Hc, Hd, andb_false_r.
Qed.

(** A text without any of the digits 0 to 9 (the empty text included)
    gives 0. *)
Lemma to_float_digit_free (text : pystr) :
  Forall (fun c => is_digit c = false) text -> to_float (VStr text) = Ok 0%Q.
Proof.
  intros H. simpl.
  destruct (strip text) as [|c0 s0] eqn:Es; [done|].
  rewrite <- Es.
  set (s1 := remove_char 8377 (remove_char 160 (remove_char 44 (strip text)))).
  assert (H1 : Forall (fun c => is_digit c = false) s1).
  { unfold s1. by apply Forall_remove_char, Forall_remove_char, Forall_remove_char, Forall_strip. }
  rewrite re_search_number_none; [done|].
  destruct (bool_decide (s1 !! 0 = Some 40%N) && bool_decide (last s1 = Some 41%N)); [|done].
  constructor; [done|]. apply Forall_removelast.
  destruct H1; [constructor | done].
Qed.

(** * The failing run *)

(** C9 fails on the code through the defect of C6: the workbook below
    has two resolvable, different sheets with all the columns, and
    [process_reconciliation] raises all the same, before matching,
    because a tax cell holds an integer too large for a double. *)
Theorem reconciliation_overflow :
  resolve_names (rt := Samples.runtime) (fst <$> Samples.huge_workbook) None None
  = (Some (py "Purchase Register"), Some (py "GSTR-2B"))
  /\ (exists ws1 ws2,
        wb_get Samples.huge_workbook (py "Purchase Register") = Some ws1
        /\ wb_get Samples.huge_workbook (py "GSTR-2B") = Some ws2
        /\ validate_map (get_header_map (rt := Samples.runtime) ws1) (py "Purchase Register")
           = Ok tt
        /\ validate_map (get_header_map (rt := Samples.runtime) ws2) (py "GSTR-2B") = Ok tt)
  /\ process_reconciliation (rt := Samples.runtime) (py "/uploads/books.xlsx")
       Samples.huge_workbook (py "20240101_000000") None None 1
     = Raise (OverflowError (py "int too large to convert to float")).
Proof.
  split; [vm_compute; reflexivity|]. split.
  - eexists _, _. repeat split; vm_compute; reflexivity.
  - vm_compute. reflexivity.
Qed.

Lemma pipeline_lists_fresh_witness :
  exists out_file wb' name1 name2 ws1 ws2 inv1 inv2,
    process_reconciliation (rt := Samples.runtime) (py "/uploads/books.xlsx")
      Samples.workbook (py "20240101_000000") None None 1 = Ok (out_file, wb')
    /\ wb_get Samples.workbook name1 = Some ws1
    /\ wb_get Samples.workbook name2 = Some ws2
    /\ read_invoices (rt := Samples.runtime) ws1
         (get_header_map (rt := Samples.runtime) ws1) name1 = Ok inv1
    /\ read_invoices (rt := Samples.runtime) ws2
         (get_header_map (rt := Samples.runtime) ws2) name2 = Ok inv2
    /\ Forall fresh inv1 /\ Forall fresh inv2.
Proof.
  destruct (process_reconciliation (rt := Samples.runtime) (py "/uploads/books.xlsx")
              Samples.workbook (py "20240101_000000") None None 1)
    as [[out_file wb']|e] eqn:Hp; [|vm_compute in Hp; discriminate].
  destruct (pipeline_lists_fresh (rt := Samples.runtime) _ _ _ _ _ _ _ _ Hp)
    as (name1 & name2 & ws1 & ws2 & inv1 & inv2 & G1 & G2 & R1 & R2 & F1 & F2 & _).
  exists out_file, wb', name1, name2, ws1, ws2, inv1, inv2. auto 10.
Defined.

(** ** Vocabulary of the further properties of the engine *)

(** The number of records of a list that hold a match id. *)
Definition matched_count (l : list Invoice) : nat := length (List.filter claimed l).

(** The description that goes with two GSTINs: equal, absent on the
    side of list2, absent on the side of list1, or present and
    different. *)
Definition tag_of (name1 name2 : pystr) (a b : Invoice) : pystr :=
  if bool_decide (gstin a = gstin b) then perfect_match
  else if negb (nonempty (gstin b)) then missing_gstin_in name2
  else if negb (nonempty (gstin a)) then missing_gstin_in name1
  else probable_match.

(** What the phase that links [a] and [b] knows about the two GSTINs,
    with the description it writes. *)
Definition justified (name1 name2 : pystr) (a b : Invoice) (desc : pystr) : Prop :=
  (gstin b = gstin a /\ desc = perfect_match)
  \/ (gstin a <> [] /\ gstin b = [] /\ desc = missing_gstin_in name2)
  \/ (gstin a = [] /\ gstin b <> [] /\ desc = missing_gstin_in name1)
  \/ (gstin a <> [] /\ gstin b <> [] /\ gstin a <> gstin b /\ desc = probable_match).

(** No two unclaimed records of equal head, one in each list, are
    within tolerance of each other. *)
Definition saturated (tolerance : Q) (st : MState) : Prop :=
  forall i j a b, list1 st !! i = Some a -> list2 st !! j = Some b ->
    claimed a = false -> claimed b = false -> head a = head b ->
    ~ within tolerance a b.

(** * Further properties of the matching engine *)

(** ** Invariants carried through the four loops *)

Section ClaimLoopInvariant.
Variable skip : Invoice -> bool.
Variable kind : Invoice -> Invoice -> bool.
Variable cands_of : Invoice -> list nat.
Variable desc : pystr.
Variable tolerance : Q.
Variable s0 : MState.
Variable I : MState -> Prop.

Hypothesis cands_elem : forall a j,
  j ∈ cands_of a <->
  exists b0, list2 s0 !! j = Some b0 /\ claimed b0 = false /\ kind a b0 = true.
Hypothesis counter_pos : (1 <= match_counter s0)%Z.
Hypothesis I_link : forall st i j a b,
  I st -> (1 <= match_counter st)%Z ->
  list1 st !! i = Some a -> list2 st !! j = Some b ->
  claimed a = false -> claimed b = false ->
  skip a = false -> kind a b = true -> within tolerance a b ->
  I (link st i j desc).

Lemma claim_loop_invariant k :
  I s0 -> I (before (claim_step skip cands_of desc tolerance) s0 k).
Proof.
  intros H0. induction k as [|k IH]; [done|].
  rewrite before_S.
  destruct (loop_evolves skip cands_of desc tolerance s0 counter_pos k) as [Hev Hpos].
  destruct (claim_step_cases skip cands_of desc tolerance
              (before (claim_step skip cands_of desc tolerance) s0 k) k)
    as [-> | (a & j & b & Ha & Hca & Hsk & Hb & Hcb & Hw & Hin & _ & ->)]; [done|].
  apply cands_elem in Hin as (b0 & Hb0 & _ & Hk).
  pose proof (unclaimed_since s0 _ j b Hev Hb Hcb) as Hb0'.
  assert (b0 = b) as -> by congruence.
  by eapply I_link.
Qed.
End ClaimLoopInvariant.

Section Phase3Invariant.
Variable tolerance : Q.
Variable s2 : MState.
Variable I : MState -> Prop.

Hypothesis counter_pos : (1 <= match_counter s2)%Z.
Hypothesis Hsettled : settled12 tolerance s2.
Hypothesis I_link : forall st i j a b,
  I st -> (1 <= match_counter st)%Z ->
  list1 st !! i = Some a -> list2 st !! j = Some b ->
  claimed a = false -> claimed b = false ->
  head a = head b -> within tolerance a b ->
  gstin a <> [] -> gstin b <> [] -> gstin a <> gstin b ->
  I (link st i j probable_match).

Lemma phase3_loop_invariant k :
  I s2 ->
  I (before (phase3_step (sorted_candidates_map s2) (candidates_amounts_map s2) tolerance)
       s2 k).
Proof.
  intros H0. induction k as [|k IH]; [done|].
  rewrite before_S.
  destruct (phase3_loop_evolves tolerance s2 counter_pos k) as [Hev Hpos].
  destruct (phase3_step_cases tolerance s2 _ k Hev)
    as [-> | (a & j & b & Ha & Hca & Hb & Hcb & Hh & Hw & _ & ->)]; [done|].
  destruct (settled_pair_gstins tolerance _ k j a b
              (settled12_evolves _ _ _ Hev Hsettled) Ha Hca Hb Hcb Hh Hw)
    as (Ga & Gb & Gab).
  rewrite (match_desc_probable a b Ga Gb Gab).
  by eapply I_link.
Qed.
End Phase3Invariant.

Section RunInvariant.
Variables l1 l2 : list Invoice.
Variable tolerance : Q.
Variables name1 name2 : pystr.
Variable I : MState -> Prop.

Hypothesis I_link : forall st i j desc a b,
  I st -> (1 <= match_counter st)%Z ->
  list1 st !! i = Some a -> list2 st !! j = Some b ->
  claimed a = false -> claimed b = false ->
  head a = head b -> within tolerance a b ->
  justified name1 name2 a b desc ->
  I (link st i j desc).

(** A property that holds of the two lists as they are passed in, and
    that every link keeps, holds when [match_invoices] returns. *)
Lemma run_invariant :
  I (initial_state l1 l2) -> I (match_invoices l1 l2 tolerance name1 name2).
Proof.
  intros H0.
  destruct (run_counters l1 l2 tolerance name1 name2) as (C1 & C2 & C3 & _).
  assert (C0 : (1 <= match_counter (initial_state l1 l2))%Z) by (simpl; lia).
  assert (H1 : I (phase1 tolerance (initial_state l1 l2))).
  { unfold phase1, phase1_step. rewrite for_each_before.
    apply (claim_loop_invariant _ kind1); [apply map2_elem | done | | done].
    intros st i j a b Hst Hc Ha Hb Hca Hcb _ Hk Hw.
    apply (I_link st i j _ a b); try done; [by apply kind1_head|].
    left. split; [|done]. unfold kind1, key1 in Hk.
    apply bool_decide_eq_true in Hk. congruence. }
  assert (H2 : I (phase2a tolerance name2 (phase1 tolerance (initial_state l1 l2)))).
  { unfold phase2a, phase2a_step. rewrite for_each_before.
    apply (claim_loop_invariant _ kind2a); [apply map2_no_gstin_elem | done | | done].
    intros st i j a b Hst Hc Ha Hb Hca Hcb Hsk Hk Hw.
    apply (I_link st i j _ a b); try done; [by apply kind2a_head|].
    right; left. unfold kind2a in Hk. apply andb_true_iff in Hk as [Hg _].
    apply negb_false_iff in Hsk. apply negb_true_iff in Hg.
    split; [by apply nonempty_true|]. split; [by apply nonempty_false | done]. }
  assert (H3 : I (phases12 l1 l2 tolerance name1 name2)).
  { unfold phases12, phase2b, phase2b_step. rewrite for_each_before.
    apply (claim_loop_invariant _ kind2b); [apply map2_with_gstin_elem | done | | done].
    intros st i j a b Hst Hc Ha Hb Hca Hcb Hsk Hk Hw.
    apply (I_link st i j _ a b); try done; [by apply kind2b_head|].
    right; right; left. unfold kind2b in Hk. apply andb_true_iff in Hk as [Hg _].
    split; [by apply nonempty_false|]. split; [by apply nonempty_true | done]. }
  unfold match_invoices, phase3. rewrite for_each_before.
  apply phase3_loop_invariant; [done | apply phases12_settled | | done].
  intros st i j a b Hst Hc Ha Hb Hca Hcb Hh Hw Ga Gb Gab.
  apply (I_link st i j _ a b); try done.
  right; right; right. done.
Qed.
End RunInvariant.

(** ** The lists keep their records *)

Lemma run_evolves_total l1 l2 tolerance name1 name2 :
  evolves (initial_state l1 l2) (match_invoices l1 l2 tolerance name1 name2).
Proof.
  destruct (run_evolves l1 l2 tolerance name1 name2) as (E1 & E2 & E3 & E4).
  etrans; [exact E1|]. etrans; [exact E2|]. etrans; [exact E3|]. exact E4.
Qed.

(** [match_invoices] creates, drops and reorders nothing: both lists
    keep their length, every record keeps the fields the normaliser
    gave it, and a record passed in with a match id is returned as it
    was. *)
Theorem matching_keeps_data (l1 l2 : list Invoice) (tolerance : Q) (name1 name2 : pystr) :
  let st := match_invoices l1 l2 tolerance name1 name2 in
  length (list1 st) = length l1 /\ length (list2 st) = length l2
  /\ (forall i a, l1 !! i = Some a ->
        exists a', list1 st !! i = Some a' /\ data_of a' = data_of a
                   /\ (claimed a = true -> a' = a))
  /\ (forall j b, l2 !! j = Some b ->
        exists b', list2 st !! j = Some b' /\ data_of b' = data_of b
                   /\ (claimed b = true -> b' = b)).
Proof.
  intros st. pose proof (run_evolves_total l1 l2 tolerance name1 name2) as Hev.
  fold st in Hev. destruct Hev as [E1 E2 _]. simpl in E1, E2.
  split; [symmetry; by eapply Forall2_length|].
  split; [symmetry; by eapply Forall2_length|].
  split.
  - intros i a Ha. destruct (Forall2_lookup_l _ _ _ _ _ E1 Ha) as (a' & Ha' & Hr).
    exists a'. split; [done|]. split; [by apply rec_evolves_data|].
    by apply rec_evolves_claimed.
  - intros j b Hb. destruct (Forall2_lookup_l _ _ _ _ _ E2 Hb) as (b' & Hb' & Hr).
    exists b'. split; [done|]. split; [by apply rec_evolves_data|].
    by apply rec_evolves_claimed.
Qed.

(** ** Nothing that could be matched is left *)

Lemma open_for_evolves tolerance st st' a j :
  evolves st st' -> open_for tolerance st' a j -> open_for tolerance st a j.
Proof.
  intros Hev (b' & Hb' & Hcb & Hh & Hw).
  destruct (evolves_lookup2 _ _ _ _ Hev Hb') as (b & Hb & Hr).
  pose proof (rec_evolves_unclaimed _ _ Hr Hcb) as ->.
  by exists b.
Qed.

Section Phase3Saturated.
Variable tolerance : Q.
Variable s2 : MState.
Hypothesis counter_pos : (1 <= match_counter s2)%Z.

(** After iteration [k] of Phase 3, a record before [k] that is still
    unclaimed has no open candidate. *)
Lemma phase3_loop_saturated k : forall i a,
  i < k ->
  list1 (before (phase3_step (sorted_candidates_map s2) (candidates_amounts_map s2)
                   tolerance) s2 k) !! i = Some a ->
  claimed a = false ->
  forall j,
    ~ open_for tolerance
        (before (phase3_step (sorted_candidates_map s2) (candidates_amounts_map s2)
                   tolerance) s2 k) a j.
Proof.
  set (body := phase3_step (sorted_candidates_map s2) (candidates_amounts_map s2) tolerance).
  induction k as [|k IH]; intros i a Hlt Ha Hca j Hopen; [lia|].
  rewrite before_S in *.
  destruct (phase3_loop_evolves tolerance s2 counter_pos k) as [Hev0 Hpos].
  fold body in Hev0, Hpos.
  pose proof (phase3_step_evolves tolerance s2 _ k Hev0 Hpos) as Hev. fold body in Hev.
  destruct (evolves_lookup1 _ _ _ _ Hev Ha) as (a0 & Ha0 & Hr).
  pose proof (rec_evolves_unclaimed _ _ Hr Hca) as ->. clear Hr.
  apply (open_for_evolves _ _ _ _ _ Hev) in Hopen.
  destruct (decide (i = k)) as [-> | Hne]; [|apply (IH i a0) with (j := j); [lia | done..]].
  pose proof (phase3_choice_spec tolerance s2 _ Hev0 a0) as Hspec. fold body in Hspec.
  destruct (phase3_choice (sorted_candidates_map s2) (candidates_amounts_map s2) tolerance
              (list2 (before body s2 k)) a0) as [j0|] eqn:Hch.
  - destruct Hspec as [(b0 & Hb0 & _) _].
    assert (Hstep : body (before body s2 k) k
                    = link (before body s2 k) k j0 (match_desc a0 b0)).
    { unfold body at 1. unfold phase3_step. fold body. by rewrite Ha0, Hca, Hch, Hb0. }
    rewrite Hstep in Ha. unfold link in Ha. rewrite Ha0, Hb0 in Ha. simpl in Ha.
    rewrite list_lookup_insert_eq in Ha by (by eapply lookup_lt_Some).
    injection Ha as Ha. rewrite <- Ha in Hca.
    rewrite set_match_claimed in Hca; [done | lia].
  - by apply (Hspec j).
Qed.
End Phase3Saturated.

Lemma match_invoices_saturated l1 l2 tolerance name1 name2 :
  saturated tolerance (match_invoices l1 l2 tolerance name1 name2).
Proof.
  intros i j a b Ha Hb Hca Hcb Hh Hw.
  destruct (run_counters l1 l2 tolerance name1 name2) as (_ & _ & C3 & _).
  unfold match_invoices, phase3 in Ha, Hb. rewrite for_each_before in Ha, Hb.
  apply (phase3_loop_saturated tolerance _ C3
           (length (list1 (phases12 l1 l2 tolerance name1 name2))) i a) with (j := j);
    [|done|done|].
  - apply lookup_lt_Some in Ha.
    destruct (phase3_loop_evolves tolerance _ C3
                (length (list1 (phases12 l1 l2 tolerance name1 name2)))) as [Hev _].
    apply evolves_length1 in Hev. lia.
  - apply open_for_within. by exists b.
Qed.

(** When [match_invoices] returns, no record of list1 without a match
    and record of list2 without a match have the same head and amounts
    within tolerance: every pair left over is too far apart. *)
Lemma no_missed_pair_rational (l1 l2 : list Invoice) (tolerance : Q) (name1 name2 : pystr)
    (i j : nat) (a b : Invoice) :
  list1 (match_invoices l1 l2 tolerance name1 name2) !! i = Some a ->
  list2 (match_invoices l1 l2 tolerance name1 name2) !! j = Some b ->
  claimed a = false -> claimed b = false -> head a = head b ->
  (tolerance < Qabs (amount a - amount b))%Q.
Proof.
  intros Ha Hb Hca Hcb Hh. apply Qnot_le_lt.
  by apply (match_invoices_saturated l1 l2 tolerance name1 name2 i j a b).
Qed.

(** ** Running the matcher where nothing can be matched *)

Lemma fold_left_fixed {A B} (body : A -> B -> A) (s : A) (l : list B) :
  (forall x, body s x = s) -> fold_left body l s = s.
Proof. intros H. induction l as [|x l IH]; [done|]. simpl. by rewrite H. Qed.

Lemma claim_step_saturated skip cands_of desc tolerance st i :
  saturated tolerance st ->
  (forall a j b, j ∈ cands_of a -> list2 st !! j = Some b -> head a = head b) ->
  claim_step skip cands_of desc tolerance st i = st.
Proof.
  intros Hsat Hhead.
  destruct (claim_step_cases skip cands_of desc tolerance st i)
    as [-> | (a & j & b & Ha & Hca & _ & Hb & Hcb & Hw & Hin & _ & _)]; [done|].
  exfalso. apply (Hsat i j a b); try done. by eapply Hhead.
Qed.

Lemma phase1_saturated_fix tolerance st :
  saturated tolerance st -> phase1 tolerance st = st.
Proof.
  intros Hsat. unfold phase1, for_each. apply fold_left_fixed. intros i.
  apply claim_step_saturated; [done|].
  intros a j b Hin Hb. apply map2_elem in Hin as (b0 & Hb0 & _ & Hk).
  assert (b0 = b) as -> by congruence. by apply kind1_head.
Qed.

Lemma phase2a_saturated_fix tolerance name2 st :
  saturated tolerance st -> phase2a tolerance name2 st = st.
Proof.
  intros Hsat. unfold phase2a, for_each. apply fold_left_fixed. intros i.
  apply claim_step_saturated; [done|].
  intros a j b Hin Hb. apply map2_no_gstin_elem in Hin as (b0 & Hb0 & _ & Hk).
  assert (b0 = b) as -> by congruence. by apply kind2a_head.
Qed.

Lemma phase2b_saturated_fix tolerance name1 st :
  saturated tolerance st -> phase2b tolerance name1 st = st.
Proof.
  intros Hsat. unfold phase2b, for_each. apply fold_left_fixed. intros i.
  apply claim_step_saturated; [done|].
  intros a j b Hin Hb. apply map2_with_gstin_elem in Hin as (b0 & Hb0 & _ & Hk).
  assert (b0 = b) as -> by congruence. by apply kind2b_head.
Qed.

Lemma phase3_saturated_fix tolerance st :
  saturated tolerance st -> phase3 tolerance st = st.
Proof.
  intros Hsat. unfold phase3, for_each. apply fold_left_fixed. intros i.
  destruct (phase3_step_cases tolerance st st i)
    as [-> | (a & j & b & Ha & Hca & Hb & Hcb & Hh & Hw & _ & _)]; [reflexivity | done |].
  exfalso. by apply (Hsat i j a b).
Qed.

Lemma match_invoices_saturated_fix l1 l2 tolerance name1 name2 :
  saturated tolerance (initial_state l1 l2) ->
  match_invoices l1 l2 tolerance name1 name2 = initial_state l1 l2.
Proof.
  intros Hsat. unfold match_invoices, phases12.
  rewrite (phase1_saturated_fix _ _ Hsat), (phase2a_saturated_fix _ _ _ Hsat),
    (phase2b_saturated_fix _ _ _ Hsat).
  by apply phase3_saturated_fix.
Qed.

(** Matching the two lists a second time, as the first call left
    them, changes no record and returns 1: every record with a match
    is skipped, and no pair of the others can be linked.  The
    tolerance is the same; the two names may differ. *)
Theorem rerun_changes_nothing (l1 l2 : list Invoice) (tolerance : Q)
    (name1 name2 name1' name2' : pystr) :
  let st := match_invoices l1 l2 tolerance name1 name2 in
  let st' := match_invoices (list1 st) (list2 st) tolerance name1' name2' in
  list1 st' = list1 st /\ list2 st' = list2 st /\ match_counter st' = 1%Z.
Proof.
  intros st st'. unfold st'.
  rewrite match_invoices_saturated_fix; [done|].
  exact (match_invoices_saturated l1 l2 tolerance name1 name2).
Qed.

(** With a negative tolerance, or with one of the two lists empty,
    [match_invoices] changes no record and returns 1. *)
Theorem nothing_to_match (l1 l2 : list Invoice) (tolerance : Q) (name1 name2 : pystr) :
  (tolerance < 0)%Q \/ l1 = [] \/ l2 = [] ->
  match_invoices l1 l2 tolerance name1 name2
  = {| list1 := l1; list2 := l2; match_counter := 1 |}.
Proof.
  intros H. apply match_invoices_saturated_fix.
  intros i j a b Ha Hb _ _ _ Hw. simpl in Ha, Hb.
  destruct H as [Hneg | [-> | ->]]; [|done..].
  unfold within in Hw. pose proof (Qabs_nonneg (amount a - amount b)). lra.
Qed.

(** ** What a link does to the two lists *)

Lemma link_lists st i j desc a b :
  list1 st !! i = Some a -> list2 st !! j = Some b ->
  list1 (link st i j desc)
  = <[i := set_match a (match_counter st) desc (row_idx b)]> (list1 st)
  /\ list2 (link st i j desc)
     = <[j := set_match b (match_counter st) desc (row_idx a)]> (list2 st)
  /\ match_counter (link st i j desc) = (match_counter st + 1)%Z.
Proof. intros Ha Hb. unfold link. by rewrite Ha, Hb. Qed.

(** ** The returned counter *)

Lemma matched_count_insert (l : list Invoice) i x x' :
  l !! i = Some x -> claimed x = false -> claimed x' = true ->
  matched_count (<[i := x']> l) = S (matched_count l).
Proof.
  unfold matched_count. revert i. induction l as [|y l IH]; intros i Hi Hx Hx'; [done|].
  destruct i as [|i]; simpl in *.
  - injection Hi as ->. by rewrite Hx, Hx'.
  - specialize (IH i Hi Hx Hx'). destruct (claimed y); simpl; lia.
Qed.

(** The counter [match_invoices] returns is 1 plus the number of
    records of list1 that the call has claimed, which is the number of
    records of list2 that it has claimed ([main] prints the counter
    less one as the number of matches). *)
Theorem match_count (l1 l2 : list Invoice) (tolerance : Q) (name1 name2 : pystr) :
  let st := match_invoices l1 l2 tolerance name1 name2 in
  (match_counter st - 1 = Z.of_nat (matched_count (list1 st)) - Z.of_nat (matched_count l1))%Z
  /\ (match_counter st - 1
      = Z.of_nat (matched_count (list2 st)) - Z.of_nat (matched_count l2))%Z.
Proof.
  intros st. unfold st.
  apply (run_invariant l1 l2 tolerance name1 name2
           (fun s =>
              (match_counter s - 1
               = Z.of_nat (matched_count (list1 s)) - Z.of_nat (matched_count l1))%Z
              /\ (match_counter s - 1
                  = Z.of_nat (matched_count (list2 s)) - Z.of_nat (matched_count l2))%Z));
    [|simpl; lia].
  intros s i j desc a b [H1 H2] Hc Ha Hb Hca Hcb _ _ _.
  destruct (link_lists s i j desc a b Ha Hb) as (-> & -> & ->).
  rewrite (matched_count_insert _ i a) by (try done; apply set_match_claimed; lia).
  rewrite (matched_count_insert _ j b) by (try done; apply set_match_claimed; lia).
  lia.
Qed.

(** ** Match ids are used without gaps *)

Lemma ids_contiguous l1 l2 tolerance name1 name2 :
  (forall i a, l1 !! i = Some a -> match_id a = None) ->
  let st := match_invoices l1 l2 tolerance name1 name2 in
  forall m, (1 <= m < match_counter st)%Z ->
    exists i a, list1 st !! i = Some a /\ match_id a = Some m.
Proof.
  intros F st. unfold st.
  apply (run_invariant l1 l2 tolerance name1 name2
           (fun s => forall m, (1 <= m < match_counter s)%Z ->
                       exists i a, list1 s !! i = Some a /\ match_id a = Some m));
    [|simpl; intros; lia].
  intros s i j desc a b IH Hc Ha Hb Hca Hcb _ _ _ m Hm.
  destruct (link_lists s i j desc a b Ha Hb) as (-> & _ & Hcount).
  rewrite Hcount in Hm.
  destruct (decide (m = match_counter s)) as [-> | Hne].
  - exists i, (set_match a (match_counter s) desc (row_idx b)).
    split; [|done]. apply list_lookup_insert_eq. by eapply lookup_lt_Some.
  - destruct (IH m ltac:(lia)) as (i0 & a0 & Ha0 & Hm0).
    exists i0, a0. split; [|done].
    rewrite list_lookup_insert_ne; [done|]. intros <-.
    assert (a0 = a) as -> by congruence.
    rewrite (claimed_pos a m Hm0) in Hca; [done | lia].
Qed.

(** On fresh records the match ids in use are exactly 1, 2, ..., up to
    the returned counter less one: none is skipped. *)
Theorem match_ids_contiguous (l1 l2 : list Invoice) (tolerance : Q) (name1 name2 : pystr)
    (m : Z) :
  Forall fresh l1 -> Forall fresh l2 ->
  let st := match_invoices l1 l2 tolerance name1 name2 in
  (1 <= m < match_counter st)%Z
  <-> exists i a, list1 st !! i = Some a /\ match_id a = Some m.
Proof.
  intros F1 F2 st. split.
  - apply (ids_contiguous l1 l2 tolerance name1 name2).
    intros i a Ha. by destruct (Forall_lookup_1 _ _ _ _ F1 Ha).
  - intros (i & a & Ha & Hm).
    destruct (run_wf l1 l2 tolerance name1 name2 F1 F2) as (_ & _ & _ & W).
    by eapply wf_id_bound1.
Qed.

(** ** The description of a pair follows from its two GSTINs *)

Definition tagged (name1 name2 : pystr) (st : MState) : Prop :=
  forall i j a b m, list1 st !! i = Some a -> list2 st !! j = Some b ->
    match_id a = Some m -> match_id b = Some m ->
    match_type a = Some (tag_of name1 name2 a b)
    /\ match_type b = Some (tag_of name1 name2 a b).

Lemma justified_tag name1 name2 a b desc :
  justified name1 name2 a b desc -> desc = tag_of name1 name2 a b.
Proof.
  unfold tag_of.
  intros [(Hg & ->) | [(Ga & Gb & ->) | [(Ga & Gb & ->) | (Ga & Gb & Gab & ->)]]].
  - by rewrite bool_decide_eq_true_2.
  - rewrite bool_decide_eq_false_2 by congruence. by rewrite Gb.
  - rewrite bool_decide_eq_false_2 by congruence.
    apply nonempty_true in Gb. rewrite Gb. simpl. by rewrite Ga.
  - rewrite bool_decide_eq_false_2 by done.
    apply nonempty_true in Ga, Gb. by rewrite Ga, Gb.
Qed.

Lemma tag_of_set_match name1 name2 a b m d r m' d' r' :
  tag_of name1 name2 (set_match a m d r) (set_match b m' d' r') = tag_of name1 name2 a b.
Proof. done. Qed.

Lemma run_tagged l1 l2 tolerance name1 name2 :
  Forall fresh l1 -> Forall fresh l2 ->
  wf tolerance (match_invoices l1 l2 tolerance name1 name2)
  /\ tagged name1 name2 (match_invoices l1 l2 tolerance name1 name2).
Proof.
  intros F1 F2.
  apply (run_invariant l1 l2 tolerance name1 name2
           (fun s => wf tolerance s /\ tagged name1 name2 s)).
  - intros s i j desc a b [W T] Hc Ha Hb Hca Hcb Hh Hw Hj.
    split; [by eapply link_wf|].
    apply justified_tag in Hj. subst desc.
    intros i' j' a' b' m Ha' Hb' Hma Hmb.
    destruct (link_lists s i j (tag_of name1 name2 a b) a b Ha Hb) as (E1 & E2 & _).
    rewrite E1 in Ha'. rewrite E2 in Hb'. clear E1 E2.
    destruct (decide (i' = i)) as [-> | Hi].
    + rewrite list_lookup_insert_eq in Ha' by (by eapply lookup_lt_Some).
      injection Ha' as <-. simpl in Hma. injection Hma as <-.
      destruct (decide (j' = j)) as [-> | Hjne].
      * rewrite list_lookup_insert_eq in Hb' by (by eapply lookup_lt_Some).
        injection Hb' as <-. by rewrite tag_of_set_match.
      * rewrite list_lookup_insert_ne in Hb' by done.
        pose proof (wf_id_bound2 _ _ W _ _ _ Hb' Hmb). lia.
    + rewrite list_lookup_insert_ne in Ha' by done.
      destruct (decide (j' = j)) as [-> | Hjne].
      * rewrite list_lookup_insert_eq in Hb' by (by eapply lookup_lt_Some).
        injection Hb' as <-. simpl in Hmb. injection Hmb as <-.
        pose proof (wf_id_bound1 _ _ W _ _ _ Ha' Hma). lia.
      * rewrite list_lookup_insert_ne in Hb' by done. by eapply T.
  - split; [by apply initial_wf|].
    intros i j a b m Ha _ Hma _. simpl in Ha.
    destruct (Forall_lookup_1 _ _ _ _ F1 Ha) as (Hn & _). congruence.
Qed.

(** On fresh records, two records that share a match id have the same
    head and carry the same description, and the description is the
    one that goes with their two GSTINs: "Perfect Match" when the
    GSTINs are equal, "Match (Missing GSTIN in <name2>)" when only the
    record of list2 has none, "Match (Missing GSTIN in <name1>)" when
    only the record of list1 has none, "Probable Match (GSTIN
    Mismatch)" when both have one and they differ. *)
Lemma match_type_rational (l1 l2 : list Invoice) (tolerance : Q) (name1 name2 : pystr)
    (i j : nat) (a b : Invoice) (m : Z) :
  Forall fresh l1 -> Forall fresh l2 ->
  list1 (match_invoices l1 l2 tolerance name1 name2) !! i = Some a ->
  list2 (match_invoices l1 l2 tolerance name1 name2) !! j = Some b ->
  match_id a = Some m -> match_id b = Some m ->
  head a = head b
  /\ match_type a = Some (tag_of name1 name2 a b)
  /\ match_type b = Some (tag_of name1 name2 a b).
Proof.
  intros F1 F2 Ha Hb Hma Hmb.
  destruct (run_tagged l1 l2 tolerance name1 name2 F1 F2) as [W T].
  split; [|by eapply T].
  destruct (wf_left _ _ W i a Ha) as [(Hn & _) | (m' & j' & b' & Hb' & Hp)]; [congruence|].
  destruct Hp as (Hma' & Hmb' & _ & _ & _ & _ & _ & Hh & _).
  assert (m' = m) as -> by congruence.
  assert (j' = j) as -> by (by eapply (wf_inj2 _ _ W)).
  congruence.
Qed.

(** ** The match fields are set together *)

Definition match_tags (name1 name2 : pystr) : list pystr :=
  [perfect_match; missing_gstin_in name2; missing_gstin_in name1; probable_match].

Lemma tag_of_in name1 name2 a b : tag_of name1 name2 a b ∈ match_tags name1 name2.
Proof.
  unfold tag_of, match_tags.
  repeat case_match; set_solver.
Qed.

(** On fresh records, every record of either list comes back with its
    three match fields all empty or all set: a match id of at least 1,
    one of the four descriptions the phases write, and a row. *)
Lemma match_fields_rational (l1 l2 : list Invoice) (tolerance : Q)
    (name1 name2 : pystr) (x : Invoice) :
  Forall fresh l1 -> Forall fresh l2 ->
  x ∈ list1 (match_invoices l1 l2 tolerance name1 name2)
  \/ x ∈ list2 (match_invoices l1 l2 tolerance name1 name2) ->
  (match_id x = None /\ match_type x = None /\ matched_with_row x = None)
  \/ exists m t r,
       match_id x = Some m /\ (1 <= m)%Z
       /\ match_type x = Some t /\ t ∈ match_tags name1 name2
       /\ matched_with_row x = Some r.
Proof.
  intros F1 F2 Hx.
  destruct (run_tagged l1 l2 tolerance name1 name2 F1 F2) as [W T].
  destruct Hx as [Hx | Hx]; apply list_elem_of_lookup in Hx as [p Hp].
  - destruct (wf_left _ _ W p x Hp) as [Hf | (m & j & b & Hb & Hpair)]; [by left|].
    right. destruct (T p j x b m Hp Hb) as [Ht _]; [apply Hpair.. |].
    destruct Hpair as (Hm & _ & Hr & Hrow & _).
    exists m, (tag_of name1 name2 x b), (row_idx b).
    repeat split; try done; [lia | apply tag_of_in].
  - destruct (wf_right _ _ W p x Hp) as [Hf | (m & i & a & Ha & Hpair)]; [by left|].
    right. destruct (T i p a x m Ha Hp) as [_ Ht]; [apply Hpair.. |].
    destruct Hpair as (_ & Hm & Hr & _ & Hrow & _).
    exists m, (tag_of name1 name2 a x), (row_idx a).
    repeat split; try done; [lia | apply tag_of_in].
Qed.

(** ** The further properties on the sample lists *)

Lemma nothing_to_match_witness :
  ((-1 < 0)%Q \/ Scenarios.exact_l1 = [] \/ Scenarios.exact_l2 = [])
  /\ match_invoices Scenarios.exact_l1 Scenarios.exact_l2 (-1) Scenarios.A Scenarios.B
     = {| list1 := Scenarios.exact_l1; list2 := Scenarios.exact_l2; match_counter := 1 |}.
Proof.
  assert (H : (-1 < 0)%Q \/ Scenarios.exact_l1 = [] \/ Scenarios.exact_l2 = [])
    by (left; reflexivity).
  split; [exact H|].
  exact (nothing_to_match Scenarios.exact_l1 Scenarios.exact_l2 (-1)
           Scenarios.A Scenarios.B H).
Defined.

Lemma match_ids_contiguous_witness :
  Forall fresh Scenarios.mixed_l1 /\ Forall fresh Scenarios.mixed_l2
  /\ (1 <= 2 < match_counter (match_invoices Scenarios.mixed_l1 Scenarios.mixed_l2 1
                                Scenarios.A Scenarios.B))%Z
  /\ exists i a,
       list1 (match_invoices Scenarios.mixed_l1 Scenarios.mixed_l2 1
                Scenarios.A Scenarios.B) !! i = Some a
       /\ match_id a = Some 2%Z.
Proof.
  assert (F1 : Forall fresh Scenarios.mixed_l1) by (repeat constructor).
  assert (F2 : Forall fresh Scenarios.mixed_l2) by (repeat constructor).
  assert (Hm : (1 <= 2 < match_counter (match_invoices Scenarios.mixed_l1 Scenarios.mixed_l2 1
                                          Scenarios.A Scenarios.B))%Z)
    by (vm_compute; split; [discriminate | reflexivity]).
  split; [exact F1|]. split; [exact F2|]. split; [exact Hm|].
  exact (proj1 (match_ids_contiguous Scenarios.mixed_l1 Scenarios.mixed_l2 1
                  Scenarios.A Scenarios.B 2%Z F1 F2) Hm).
Defined.

(** ** Vocabulary of the properties of the normaliser *)

Section RowVocabulary.
Context {rt : PyRuntime}.

(** The test [val is not None and str(val).strip() != ""] of
    [read_invoices] fails: the cell counts as blank. *)
Definition blank_cell (val : PyVal) : bool :=
  match val with
  | VNone => true
  | _ => negb (nonempty (strip (py_str val)))
  end.

(** The value [read_invoices] files under a key of the mapping:
    [None] for a key without a column. *)
Definition field_cell (ws : gmap (nat * nat) PyVal) (r : nat) (col_idx : option nat) : PyVal :=
  match col_idx with
  | Some c => if c =? 0 then VNone else cell_value ws r c
  | None => VNone
  end.

(** The field bag of row [r] and whether all its mapped cells are
    blank, key by key. *)
Definition row_data (ws : gmap (nat * nat) PyVal) (mapping : list (pystr * option nat))
    (r : nat) : list (pystr * PyVal) :=
  (fun '(k, col_idx) => (k, field_cell ws r col_idx)) <$> mapping.

Definition row_blank (ws : gmap (nat * nat) PyVal) (mapping : list (pystr * option nat))
    (r : nat) : bool :=
  forallb (fun '(_, col_idx) => blank_cell (field_cell ws r col_idx)) mapping.

(** Row [r] is not blank, and its record [inv] has a head other than
    [ZERO]. *)
Definition row_record (ws : gmap (nat * nat) PyVal) (mapping : list (pystr * option nat))
    (sheet_name : pystr) (r : nat) (inv : Invoice) : Prop :=
  row_blank ws mapping r = false
  /\ Invoice_init (Z.of_nat r) (row_data ws mapping r) sheet_name = Ok inv
  /\ head inv <> ZERO.
End RowVocabulary.

(** The keywords [get_header_map] looks for, field by field. *)
Definition header_keywords : list (pystr * list pystr) :=
  (fun kw : string * list string => (py (fst kw), py <$> snd kw)) <$>
  [ ("gstin", ["gstin"; "gst number"; "gst no"; "tin"]);
    ("party", ["party"; "name"; "legal name"; "trade name"; "supplier"; "customer"]);
    ("igst", ["igst"; "integrated tax"]);
    ("cgst", ["cgst"; "central tax"]);
    ("sgst", ["sgst"; "state tax"; "utgst"]);
    ("inv_no", ["invoice number"; "inv no"; "bill no"]);
    ("date", ["invoice date"; "date"; "inv dt"]) ]%string.

(** * Further properties of the normaliser *)

(** ** Insertion-ordered dictionaries *)

Section OrderedDictFacts.
Context {V : Type}.
Implicit Types d : list (pystr * V).

Lemma od_set_new d k v : k ∉ (fst <$> d) -> od_set d k v = d ++ [(k, v)].
Proof.
  induction d as [|[k' v'] d IH]; intros Hk; [done|]. simpl in *.
  apply not_elem_of_cons in Hk as [Hne Hk].
  rewrite bool_decide_eq_false_2 by done. by rewrite IH.
Qed.

Lemma elem_of_od_set d k v h c :
  (h, c) ∈ od_set d k v -> (h, c) ∈ d \/ (h, c) = (k, v).
Proof.
  induction d as [|[k' v'] d IH]; simpl.
  - intros ->%list_elem_of_singleton. by right.
  - case_bool_decide as Hk.
    + intros [->|Hin]%elem_of_cons; [subst; by right|]. left. by right.
    + intros [->|Hin]%elem_of_cons; [left; by left|].
      destruct (IH Hin) as [?|?]; [left; by right | by right].
Qed.

Lemma od_set_keys d k v h :
  h ∈ (fst <$> od_set d k v) <-> h ∈ (fst <$> d) \/ h = k.
Proof.
  induction d as [|[k' v'] d IH]; simpl.
  - rewrite list_elem_of_singleton. split; [by right|].
    by intros [?%elem_of_nil|?].
  - case_bool_decide as Hk; simpl.
    + subst. rewrite !elem_of_cons. tauto.
    + rewrite !elem_of_cons, IH. tauto.
Qed.
End OrderedDictFacts.

(** ** Reading one row *)

Section ReadFacts.
Context {rt : PyRuntime}.
Implicit Types ws : gmap (nat * nat) PyVal.

Lemma read_row_fold ws r mapping : forall data is_empty,
  NoDup ((fst <$> data) ++ (fst <$> mapping)) ->
  fold_left (fun '(data, is_empty) '(k, col_idx) =>
               match col_idx with
               | Some c =>
                   if negb (c =? 0) then
                     let val := cell_value ws r c in
                     (od_set data k val,
                      match val with
                      | VNone => is_empty
                      | _ => if nonempty (strip (py_str val)) then false else is_empty
                      end)
                   else (od_set data k VNone, is_empty)
               | None => (od_set data k VNone, is_empty)
               end)
            mapping (data, is_empty)
  = (data ++ row_data ws mapping r, is_empty && row_blank ws mapping r).
Proof.
  induction mapping as [|[k col_idx] mapping IH]; intros data is_empty Hnd.
  - simpl. by rewrite app_nil_r, andb_true_r.
  - assert (Hk : k ∉ (fst <$> data)).
    { apply NoDup_app in Hnd as (_ & Hd & _). intros Hin. apply (Hd k Hin). by left. }
    assert (Hnd' : forall v, NoDup ((fst <$> data ++ [(k, v)]) ++ (fst <$> mapping))).
    { intros v. rewrite fmap_app. simpl. by rewrite <- app_assoc. }
    unfold row_data, row_blank. cbn [fold_left fmap list_fmap forallb field_cell].
    destruct col_idx as [c|]; [destruct (c =? 0) eqn:Hc0|]; cbn [negb].
    + rewrite od_set_new, IH by done. unfold row_data, row_blank.
      rewrite <- app_assoc. change (field_cell ws r (Some c)) with (if c =? 0 then VNone else cell_value ws r c).
      by rewrite Hc0.
    + cbv zeta. rewrite od_set_new, IH by done. unfold row_data, row_blank.
      rewrite <- app_assoc. change (field_cell ws r (Some c)) with (if c =? 0 then VNone else cell_value ws r c).
      rewrite Hc0.
      f_equal. rewrite andb_assoc. f_equal.
      destruct (cell_value ws r c); simpl; rewrite ?andb_true_r; try done;
        by destruct (nonempty (strip _)); rewrite ?andb_true_r, ?andb_false_r.
    + rewrite od_set_new, IH by done. unfold row_data, row_blank.
      by rewrite <- app_assoc.
Qed.

(** With a mapping that names every key once (as [get_header_map]
    builds it), the inner loop of [read_invoices] files each key's
    cell in the order of the mapping, and finds the row blank when
    every mapped cell is. *)
Lemma read_row_spec ws mapping r :
  NoDup (fst <$> mapping) ->
  read_row ws mapping r = (row_data ws mapping r, row_blank ws mapping r).
Proof. intros Hnd. unfold read_row. by rewrite read_row_fold. Qed.

(** ** The records of a sheet *)

Lemma Invoice_init_fields row data src inv :
  Invoice_init row data src = Ok inv ->
  row_idx inv = row /\ source inv = src
  /\ (head inv <> ZERO -> (0.01 < Qabs (amount inv))%Q).
Proof.
  unfold Invoice_init.
  destruct (to_float (data_get data "igst" (VInt 0))) as [i|]; [|done].
  destruct (to_float (data_get data "cgst" (VInt 0))) as [c|]; [|done].
  destruct (to_float (data_get data "sgst" (VInt 0))) as [s|]; [|done].
  simpl. intros [= <-]. simpl. split; [done|]. split; [done|].
  destruct (significant i) eqn:Hi; [intros _; by apply significant_iff|].
  destruct (significant c) eqn:Hc; simpl; [intros _; by apply significant_iff|].
  destruct (significant s) eqn:Hs; simpl; [intros _; by apply significant_iff | done].
Qed.

(** The records [read_rows] appends: one for each row, in order, that
    is not blank and whose record has a head other than [ZERO]. *)
Lemma read_rows_char ws mapping sheet_name rows : forall acc invs,
  read_rows ws mapping sheet_name rows acc = Ok invs ->
  exists new, invs = acc ++ new
    /\ (forall inv, inv ∈ new <->
          exists r, r ∈ rows /\ snd (read_row ws mapping r) = false
            /\ Invoice_init (Z.of_nat r) (fst (read_row ws mapping r)) sheet_name = Ok inv
            /\ head inv <> ZERO)
    /\ (row_idx <$> new) `sublist_of` (Z.of_nat <$> rows).
Proof.
  induction rows as [|r rest IH]; intros acc invs; simpl.
  - intros [= <-]. exists []. rewrite app_nil_r. split; [done|].
    split; [|constructor]. intros inv. split; [by intros ?%elem_of_nil|].
    by intros (r & ?%elem_of_nil & _).
  - destruct (read_row ws mapping r) as [data is_empty] eqn:Hrow.
    destruct is_empty.
    { intros Hr. destruct (IH _ _ Hr) as (new & -> & Hin & Hsub).
      exists new. split; [done|]. split; [|by apply sublist_cons].
      intros inv. rewrite Hin. split.
      - intros (r' & Hr' & H). exists r'. split; [by right | done].
      - intros (r' & [->|Hr']%elem_of_cons & He & H); [by rewrite Hrow in He|].
        by exists r'. }
    destruct (Invoice_init (Z.of_nat r) data sheet_name) as [inv0|] eqn:Hinit; [|done].
    simpl. case_bool_decide as Hz.
    { intros Hr. destruct (IH _ _ Hr) as (new & -> & Hin & Hsub).
      exists new. split; [done|]. split; [|by apply sublist_cons].
      intros inv. rewrite Hin. split.
      - intros (r' & Hr' & H). exists r'. split; [by right | done].
      - intros (r' & [->|Hr']%elem_of_cons & He & Hi & Hh).
        + rewrite Hrow in Hi. simpl in Hi. congruence.
        + by exists r'. }
    intros Hr. destruct (IH _ _ Hr) as (new & -> & Hin & Hsub).
    exists (inv0 :: new). split; [by rewrite <- app_assoc|]. split.
    + intros inv. rewrite elem_of_cons, Hin. split.
      * intros [-> | (r' & Hr' & H)].
        -- exists r. rewrite Hrow. split; [by left | done].
        -- exists r'. split; [by right | done].
      * intros (r' & [->|Hr']%elem_of_cons & He & Hi & Hh).
        -- left. rewrite Hrow in Hi. simpl in Hi. congruence.
        -- right. by exists r'.
    + simpl. destruct (Invoice_init_fields _ _ _ _ Hinit) as (-> & _).
      by apply sublist_skip.
Qed.
End ReadFacts.

Section ReadInvoicesFacts.
Context {rt : PyRuntime}.
Implicit Types ws : gmap (nat * nat) PyVal.

Lemma StronglySorted_sublist {A} (R : A -> A -> Prop) (l k : list A) :
  l `sublist_of` k -> StronglySorted R k -> StronglySorted R l.
Proof.
  induction 1 as [|x l k Hs IH|x l k Hs IH]; intros Hk; [done|..].
  - apply StronglySorted_inv in Hk as [Hk Hx]. constructor; [by apply IH|].
    apply Forall_forall. intros y Hy.
    apply (proj1 (Forall_forall _ _) Hx). by eapply sublist_subseteq.
  - apply StronglySorted_inv in Hk as [Hk _]. by apply IH.
Qed.

Lemma rows_sorted (a n : nat) : StronglySorted Z.lt (Z.of_nat <$> seq a n).
Proof.
  apply StronglySorted_lookup_intro. intros p q x y Hpq Hp Hq.
  apply list_lookup_fmap_Some in Hp as (x' & -> & Hp).
  apply list_lookup_fmap_Some in Hq as (y' & -> & Hq).
  apply lookup_seq in Hp as [-> _]. apply lookup_seq in Hq as [-> _]. lia.
Qed.

(** The records [read_invoices] returns come in the order of their
    rows, no row twice, all from rows 2 to [max_row]; each carries the
    sheet's name, a head other than [ZERO] and an amount beyond 0.01
    in absolute value, and has empty match fields. *)
Theorem read_invoices_records (ws : gmap (nat * nat) PyVal)
    (mapping : list (pystr * option nat)) (sheet_name : pystr) (invs : list Invoice) :
  read_invoices ws mapping sheet_name = Ok invs ->
  StronglySorted Z.lt (row_idx <$> invs)
  /\ Forall (fun inv =>
               (2 <= row_idx inv <= Z.of_nat (max_row ws))%Z
               /\ source inv = sheet_name
               /\ head inv <> ZERO
               /\ (0.01 < Qabs (amount inv))%Q
               /\ fresh inv) invs.
Proof.
  intros Hr. unfold read_invoices in Hr.
  destruct (read_rows_char ws mapping sheet_name _ _ _ Hr) as (new & -> & Hin & Hsub).
  simpl. split.
  - eapply StronglySorted_sublist; [exact Hsub | apply rows_sorted].
  - apply Forall_forall. intros inv Hinv.
    apply Hin in Hinv as (r & Hrow & _ & Hinit & Hh).
    destruct (Invoice_init_fields _ _ _ _ Hinit) as (Hri & Hsrc & Hamt).
    apply elem_of_seq in Hrow.
    repeat split; try done; [lia | lia | by apply Hamt | apply (Invoice_init_fresh _ _ _ _ Hinit)..].
Qed.

(** With a mapping that names every key once, [read_invoices]
    returns exactly the records of the rows from 2 to [max_row] that
    are not blank in the mapped columns and whose head is not [ZERO]:
    no other row is dropped. *)
Theorem read_invoices_complete (ws : gmap (nat * nat) PyVal)
    (mapping : list (pystr * option nat)) (sheet_name : pystr) (invs : list Invoice)
    (inv : Invoice) :
  NoDup (fst <$> mapping) ->
  read_invoices ws mapping sheet_name = Ok invs ->
  inv ∈ invs <->
  exists r, 2 <= r <= max_row ws /\ row_record ws mapping sheet_name r inv.
Proof.
  intros Hnd Hr. unfold read_invoices in Hr.
  destruct (read_rows_char ws mapping sheet_name _ _ _ Hr) as (new & -> & Hin & _).
  simpl. rewrite Hin. unfold row_record.
  pose proof (max_row_spec ws) as [Hmax _].
  split; intros (r & Hrow & H); exists r; rewrite (read_row_spec ws mapping r Hnd) in *;
    simpl in *; (split; [|done]).
  - apply elem_of_seq in Hrow. lia.
  - apply elem_of_seq. lia.
Qed.
End ReadInvoicesFacts.

(** ** The header map *)

Section HeaderFacts.
Context {rt : PyRuntime}.
Implicit Types ws : gmap (nat * nat) PyVal.

Lemma header_fold ws cols : forall hs,
  let hs' := fold_left (fun headers col =>
                          let norm := normalize_header (cell_value ws 1 col) in
                          if nonempty norm then od_set headers norm col else headers)
                       cols hs in
  (forall h c, (h, c) ∈ hs' ->
     (h, c) ∈ hs
     \/ (c ∈ cols /\ h = normalize_header (cell_value ws 1 c) /\ h <> []))
  /\ (forall h, h ∈ (fst <$> hs) -> h ∈ (fst <$> hs'))
  /\ (forall c, c ∈ cols -> normalize_header (cell_value ws 1 c) <> [] ->
        normalize_header (cell_value ws 1 c) ∈ (fst <$> hs')).
Proof.
  induction cols as [|col cols IH]; intros hs; cbn [fold_left].
  - split; [by left|]. split; [done|]. by intros c ?%elem_of_nil.
  - cbv zeta.
    destruct (nonempty (normalize_header (cell_value ws 1 col))) eqn:Hn.
    + destruct (IH (od_set hs (normalize_header (cell_value ws 1 col)) col))
        as (H1 & H2 & H3).
      split; [|split].
      * intros h c Hin. destruct (H1 h c Hin) as [Hin' | (Hc & Hh & Hne)].
        -- apply elem_of_od_set in Hin' as [? | [= -> ->]]; [by left|].
           right. split; [by left|]. split; [done|]. by apply nonempty_true.
        -- right. split; [by right | done].
      * intros h Hh. apply H2. apply od_set_keys. by left.
      * intros c [->|Hc]%elem_of_cons Hne; [|by apply H3].
        apply H2. apply od_set_keys. by right.
    + destruct (IH hs) as (H1 & H2 & H3).
      split; [|split].
      * intros h c Hin. destruct (H1 h c Hin) as [? | (Hc & Hh & Hne)]; [by left|].
        right. split; [by right | done].
      * done.
      * intros c [->|Hc]%elem_of_cons Hne; [|by apply H3].
        apply nonempty_false in Hn. done.
Qed.

Lemma header_dict_sound ws h c :
  (h, c) ∈ header_dict ws ->
  1 <= c <= max_column ws /\ h = normalize_header (cell_value ws 1 c) /\ h <> [].
Proof.
  intros Hin. destruct (header_fold ws (seq 1 (max_column ws)) []) as (H1 & _).
  destruct (H1 h c Hin) as [?%elem_of_nil | (Hc & Hh & Hne)]; [done|].
  apply elem_of_seq in Hc. split; [lia | done].
Qed.

Lemma header_dict_complete ws c :
  1 <= c <= max_column ws -> normalize_header (cell_value ws 1 c) <> [] ->
  normalize_header (cell_value ws 1 c) ∈ (fst <$> header_dict ws).
Proof.
  intros Hc Hne. destruct (header_fold ws (seq 1 (max_column ws)) []) as (_ & _ & H3).
  apply H3; [|done]. apply elem_of_seq. lia.
Qed.

Lemma find_header_Some (headers : list (pystr * nat)) k col :
  find_header headers k = Some col ->
  exists h, (h, col) ∈ headers /\ contains k h = true.
Proof.
  induction headers as [|[h c] headers IH]; simpl; [done|].
  destruct (contains k h) eqn:Hc.
  - intros [= ->]. exists h. split; [by left | done].
  - intros Hf. destruct (IH Hf) as (h' & Hin & Hc'). exists h'. split; [by right | done].
Qed.

Lemma find_header_None (headers : list (pystr * nat)) k :
  find_header headers k = None ->
  forall h c, (h, c) ∈ headers -> contains k h = false.
Proof.
  induction headers as [|[h0 c0] headers IH]; simpl; intros Hf h c Hin.
  - by apply elem_of_nil in Hin.
  - destruct (contains k h0) eqn:Hc; [done|].
    apply elem_of_cons in Hin as [[= -> ->] | Hin]; [done|]. by eapply IH.
Qed.

Lemma find_col_Some (headers : list (pystr * nat)) keywords col :
  find_col headers keywords = Some col ->
  exists k h, k ∈ keywords /\ (h, col) ∈ headers /\ contains k h = true.
Proof.
  induction keywords as [|k keywords IH]; simpl; [done|].
  destruct (find_header headers k) as [c|] eqn:Hf.
  - intros [= ->]. destruct (find_header_Some _ _ _ Hf) as (h & Hin & Hc).
    exists k, h. split; [by left | done].
  - intros Hc. destruct (IH Hc) as (k' & h & Hk & Hin & Hc').
    exists k', h. split; [by right | done].
Qed.

Lemma find_col_None (headers : list (pystr * nat)) keywords :
  find_col headers keywords = None ->
  forall k h c, k ∈ keywords -> (h, c) ∈ headers -> contains k h = false.
Proof.
  induction keywords as [|k0 keywords IH]; simpl; intros Hf k h c Hk Hin.
  - by apply elem_of_nil in Hk.
  - destruct (find_header headers k0) as [c0|] eqn:Hf0; [done|].
    apply elem_of_cons in Hk as [-> | Hk]; [by eapply find_header_None | by eapply IH].
Qed.

Lemma contains_nil k : k <> [] -> contains k [] = false.
Proof. by destruct k. Qed.

Lemma header_keywords_nonempty key keywords k :
  (key, keywords) ∈ header_keywords -> k ∈ keywords -> k <> [].
Proof.
  intros Hin Hk.
  assert (H : forallb (fun kw => forallb nonempty (snd kw)) header_keywords = true)
    by reflexivity.
  rewrite forallb_forall in H. apply list_elem_of_In in Hin. specialize (H _ Hin).
  simpl in H. rewrite forallb_forall in H. apply list_elem_of_In in Hk.
  apply nonempty_true. by apply H.
Qed.

(** [get_header_map] looks each field up by its keywords.  A column
    it returns for a field exists in the sheet, and the normalised
    text of its header cell contains one of the field's keywords; when
    it returns [None], no header cell of the sheet contains any of
    them. *)
Theorem header_map_sound (ws : gmap (nat * nat) PyVal) :
  get_header_map ws
  = (fun kw => (fst kw, find_col (header_dict ws) (snd kw))) <$> header_keywords
  /\ forall key keywords, (key, keywords) ∈ header_keywords ->
       match find_col (header_dict ws) keywords with
       | Some col =>
           1 <= col <= max_column ws
           /\ exists k, k ∈ keywords
                /\ contains k (normalize_header (cell_value ws 1 col)) = true
       | None =>
           forall col k, 1 <= col <= max_column ws -> k ∈ keywords ->
             contains k (normalize_header (cell_value ws 1 col)) = false
       end.
Proof.
  split; [reflexivity|]. intros key keywords Hkw.
  destruct (find_col (header_dict ws) keywords) as [col|] eqn:Hf.
  - destruct (find_col_Some _ _ _ Hf) as (k & h & Hk & Hin & Hc).
    destruct (header_dict_sound ws h col Hin) as (Hcol & -> & _).
    split; [done|]. by exists k.
  - intros col k Hcol Hk.
    destruct (decide (normalize_header (cell_value ws 1 col) = [])) as [-> | Hne].
    + apply contains_nil. by eapply header_keywords_nonempty.
    + pose proof (header_dict_complete ws col Hcol Hne) as Hin.
      apply list_elem_of_fmap in Hin as ([h c] & Hh & Hin). simpl in Hh. subst h.
      by eapply find_col_None.
Qed.
End HeaderFacts.

Lemma get_header_map_keys {rt : PyRuntime} (ws : gmap (nat * nat) PyVal) :
  NoDup (fst <$> get_header_map ws).
Proof.
  change (fst <$> get_header_map ws) with (fst <$> header_keywords).
  by apply (bool_decide_unpack _).
Qed.

Lemma read_invoices_records_witness :
  exists invs,
    read_invoices (rt := Samples.runtime) Samples.books_sheet
      (get_header_map (rt := Samples.runtime) Samples.books_sheet) (py "Purchase Register")
    = Ok invs
    /\ row_idx <$> invs = [2; 3; 5]%Z
    /\ StronglySorted Z.lt (row_idx <$> invs)
    /\ Forall (fun inv =>
                 (2 <= row_idx inv <= Z.of_nat (max_row Samples.books_sheet))%Z
                 /\ source inv = py "Purchase Register"
                 /\ head inv <> ZERO
                 /\ (0.01 < Qabs (amount inv))%Q
                 /\ fresh inv) invs.
Proof.
  destruct (read_invoices (rt := Samples.runtime) Samples.books_sheet
              (get_header_map (rt := Samples.runtime) Samples.books_sheet)
              (py "Purchase Register")) as [invs|e] eqn:Hr;
    [|vm_compute in Hr; discriminate].
  exists invs. split; [reflexivity|].
  split; [pose proof Hr as Hv; vm_compute in Hv; injection Hv as <-; reflexivity|].
  exact (read_invoices_records (rt := Samples.runtime) _ _ _ _ Hr).
Defined.

Lemma read_invoices_complete_witness :
  NoDup (fst <$> get_header_map (rt := Samples.runtime) Samples.books_sheet)
  /\ exists invs inv,
       read_invoices (rt := Samples.runtime) Samples.books_sheet
         (get_header_map (rt := Samples.runtime) Samples.books_sheet) (py "Purchase Register")
       = Ok invs
       /\ invs !! 2 = Some inv
       /\ row_idx inv = 5%Z
       /\ exists r, 2 <= r <= max_row Samples.books_sheet
            /\ row_record (rt := Samples.runtime) Samples.books_sheet
                 (get_header_map (rt := Samples.runtime) Samples.books_sheet)
                 (py "Purchase Register") r inv.
Proof.
  pose proof (get_header_map_keys (rt := Samples.runtime) Samples.books_sheet) as Hnd.
  split; [exact Hnd|].
  destruct (read_invoices (rt := Samples.runtime) Samples.books_sheet
              (get_header_map (rt := Samples.runtime) Samples.books_sheet)
              (py "Purchase Register")) as [invs|e] eqn:Hr;
    [|vm_compute in Hr; discriminate].
  destruct (invs !! 2) as [inv|] eqn:Hi;
    [|pose proof Hr as Hv; vm_compute in Hv; injection Hv as <-; discriminate].
  exists invs, inv. split; [reflexivity|]. split; [exact Hi|].
  split; [pose proof Hr as Hv; vm_compute in Hv; injection Hv as <-;
          vm_compute in Hi; injection Hi as <-; reflexivity|].
  apply (proj1 (read_invoices_complete (rt := Samples.runtime) _ _ _ _ inv Hnd Hr)).
  apply list_elem_of_lookup. by exists 2.
Defined.

(** ** Vocabulary of the properties of [to_float] *)

(** The text of a decimal number, from the digits of its integer part
    and those of its fraction: [int_part], then a point and [frac]
    when there is a fraction. *)
Definition decimal_text (int_part frac : pystr) : pystr :=
  match frac with
  | [] => int_part
  | _ => int_part ++ 46%N :: frac
  end.

(** The number that text denotes. *)
Definition decimal_value (int_part frac : pystr) : Q :=
  (inject_Z (digits_value int_part)
   + inject_Z (digits_value frac) / inject_Z (10 ^ Z.of_nat (length frac)))%Q.

(** * [to_float] on well-formed numbers *)

Lemma digit_cases c :
  is_digit c = true ->
  (c = 48 \/ c = 49 \/ c = 50 \/ c = 51 \/ c = 52 \/ c = 53 \/ c = 54 \/ c = 55
   \/ c = 56 \/ c = 57)%N.
Proof.
  unfold is_digit. intros [H1 H2]%andb_true_iff.
  apply N.leb_le in H1, H2. lia.
Qed.

Lemma digit_not_space c : is_digit c = true -> is_space c = false.
Proof. intros H. by destruct (digit_cases c H) as [->|[->|[->|[->|[->|[->|[->|[->|[->| ->]]]]]]]]]. Qed.

Lemma digit_not c d :
  is_digit c = true -> is_digit d = false -> c <> d.
Proof. intros Hc Hd ->. congruence. Qed.

Lemma lstrip_cons c t : is_space c = false -> lstrip (c :: t) = c :: t.
Proof. intros H. simpl. by rewrite H. Qed.

(** A text that neither starts nor ends with white space is left as
    it is by [strip]. *)
Lemma strip_id c t u d :
  c :: t = u ++ [d] -> is_space c = false -> is_space d = false ->
  strip (c :: t) = c :: t.
Proof.
  intros He Hc Hd. unfold strip. rewrite (lstrip_cons c t Hc), He, reverse_snoc.
  rewrite (lstrip_cons d _ Hd), reverse_cons. by rewrite reverse_involutive.
Qed.

Lemma remove_char_id c s : Forall (fun x => x <> c) s -> remove_char c s = s.
Proof.
  unfold remove_char. induction 1 as [|x s Hx Hs IH]; [done|]. simpl.
  rewrite (proj2 (N.eqb_neq x c) Hx). simpl. by rewrite IH.
Qed.

Lemma take_digits_app ds rest :
  Forall (fun c => is_digit c = true) ds -> take_digits (ds ++ rest) = ds ++ take_digits rest.
Proof. induction 1 as [|c ds Hc _ IH]; [done|]. simpl. by rewrite Hc, IH. Qed.

Lemma drop_digits_app ds rest :
  Forall (fun c => is_digit c = true) ds -> drop_digits (ds ++ rest) = drop_digits rest.
Proof. induction 1 as [|c ds Hc _ IH]; [done|]. simpl. by rewrite Hc, IH. Qed.

Lemma take_digits_all ds : Forall (fun c => is_digit c = true) ds -> take_digits ds = ds.
Proof.
  intros H. rewrite <- (app_nil_r ds) at 1. rewrite take_digits_app by done.
  by rewrite app_nil_r.
Qed.

Lemma drop_digits_all ds : Forall (fun c => is_digit c = true) ds -> drop_digits ds = [].
Proof. intros H. rewrite <- (app_nil_r ds). by rewrite drop_digits_app. Qed.

Section DecimalText.
Variables int_part frac : pystr.
Hypothesis int_nonempty : int_part <> [].
Hypothesis int_digits : Forall (fun c => is_digit c = true) int_part.
Hypothesis frac_digits : Forall (fun c => is_digit c = true) frac.

Lemma decimal_text_chars :
  Forall (fun c => is_digit c = true \/ c = 46%N) (decimal_text int_part frac).
Proof.
  unfold decimal_text. destruct frac as [|f fs] eqn:Hf.
  - eapply Forall_impl; [exact int_digits|]. by left.
  - rewrite <- Hf in *. apply Forall_app. split.
    + eapply Forall_impl; [exact int_digits|]. by left.
    + constructor; [by right|]. eapply Forall_impl; [exact frac_digits|]. by left.
Qed.

Lemma decimal_text_ends :
  exists c t u d, decimal_text int_part frac = c :: t
    /\ decimal_text int_part frac = u ++ [d]
    /\ is_digit c = true /\ is_digit d = true.
Proof.
  assert (Hhead : exists c t, int_part = c :: t /\ is_digit c = true).
  { pose proof int_digits as Hd. destruct int_part as [|c t]; [done|].
    exists c, t. split; [done|]. by apply Forall_inv in Hd. }
  destruct Hhead as (c & t & Hi & Hc).
  assert (Hlast : forall ds, ds <> [] -> Forall (fun c => is_digit c = true) ds ->
                    exists u d, ds = u ++ [d] /\ is_digit d = true).
  { intros ds Hne Hd. destruct (exists_last Hne) as (u & d & ->).
    exists u, d. split; [done|]. apply Forall_app in Hd as [_ Hd].
    by apply Forall_inv in Hd. }
  unfold decimal_text. destruct (decide (frac = [])) as [-> | Hfne].
  - destruct (Hlast int_part int_nonempty int_digits) as (u & d & Hu & Hd).
    exists c, t, u, d. done.
  - destruct (Hlast frac Hfne frac_digits) as (u & d & Hu & Hd).
    exists c, (t ++ 46%N :: frac), (int_part ++ 46%N :: u), d.
    destruct frac as [|f fs] eqn:Hf; [done|]. rewrite <- Hf in *.
    split; [by rewrite Hi|]. split; [|done].
    rewrite Hu at 1. by rewrite <- app_assoc.
Qed.
End DecimalText.

Lemma not_minus c t :
  c <> 45%N -> match c :: t with 45%N :: _ => true | _ => false end = false.
Proof.
  intros Hc. destruct c as [|p]; [done|].
  repeat (destruct p as [p|p|]; try done).
Qed.

Lemma pow10_pos (n : nat) :
  n <> 0 -> Z.pos (10 ^ Pos.of_nat n) = (10 ^ Z.of_nat n)%Z.
Proof.
  intros Hn. rewrite Pos2Z.inj_pow. f_equal.
  destruct n as [|n]; [done|]. rewrite <- Pos.of_nat_succ. lia.
Qed.

(** The branch of [to_float] for a text that is not blank. *)
Lemma to_float_str text :
  strip text <> [] ->
  to_float (VStr text)
  = let s := remove_char 8377 (remove_char 160 (remove_char 44 (strip text))) in
    let s := if bool_decide (s !! 0 = Some 40%N) && bool_decide (last s = Some 41%N)
             then 45%N :: removelast (tail s)
             else s in
    match re_search_number s with
    | Some m => Ok (parse_decimal m)
    | None => Ok 0%Q
    end.
Proof. intros H. unfold to_float. by destruct (strip text). Qed.

Section DecimalParse.
Variables int_part frac : pystr.
Hypothesis int_nonempty : int_part <> [].
Hypothesis int_digits : Forall (fun c => is_digit c = true) int_part.
Hypothesis frac_digits : Forall (fun c => is_digit c = true) frac.

Let text := decimal_text int_part frac.

Lemma take_digits_text : take_digits text = int_part.
Proof.
  unfold text, decimal_text. destruct frac as [|f fs]; [by apply take_digits_all|].
  rewrite take_digits_app by done. simpl. by rewrite app_nil_r.
Qed.

Lemma drop_digits_text :
  drop_digits text = match frac with [] => [] | _ => 46%N :: frac end.
Proof.
  unfold text, decimal_text. destruct frac as [|f fs]; [by apply drop_digits_all|].
  by rewrite drop_digits_app.
Qed.

Lemma match_number_text : match_number text = text.
Proof.
  unfold match_number. rewrite take_digits_text, drop_digits_text.
  unfold text, decimal_text. destruct frac as [|f fs] eqn:Hf; [done|].
  rewrite <- Hf in *. rewrite (take_digits_all frac frac_digits).
  by rewrite Hf.
Qed.

Lemma re_search_number_text : re_search_number text = Some text.
Proof.
  destruct (decimal_text_ends int_part frac int_nonempty int_digits frac_digits)
    as (c & t & _ & _ & Ht & _ & Hc & _).
  fold text in Ht. rewrite <- match_number_text at 2. rewrite Ht. simpl. by rewrite Hc.
Qed.

Lemma re_search_number_minus : re_search_number (45%N :: text) = Some (45%N :: text).
Proof.
  destruct (decimal_text_ends int_part frac int_nonempty int_digits frac_digits)
    as (c & t & _ & _ & Ht & _ & Hc & _).
  fold text in Ht. rewrite <- match_number_text at 2.
  cbn [re_search_number]. rewrite Ht. cbn [is_digit starts_with_digit].
  change (is_digit 45) with false. cbv iota. rewrite Hc. done.
Qed.

Lemma parse_decimal_text :
  (parse_decimal text == decimal_value int_part frac)%Q
  /\ parse_decimal (45%N :: text) = (- parse_decimal text)%Q.
Proof.
  destruct (decimal_text_ends int_part frac int_nonempty int_digits frac_digits)
    as (c & t & _ & _ & Ht & _ & Hc & _).
  fold text in Ht.
  assert (Hneg : match text with 45%N :: _ => true | _ => false end = false).
  { rewrite Ht. apply (not_minus c t). by apply (digit_not c 45%N). }
  unfold parse_decimal. rewrite Hneg. cbn [tail].
  rewrite take_digits_text, drop_digits_text.
  assert (Hfrac : match match frac with [] => [] | _ => 46%N :: frac end with
                  | 46%N :: after_dot => take_digits after_dot
                  | _ => []
                  end = frac).
  { destruct frac as [|f fs] eqn:Hf; [done|]. rewrite <- Hf in *.
    by apply take_digits_all. }
  rewrite Hfrac. split; [|reflexivity].
  unfold decimal_value.
  set (a := digits_value int_part). set (b := digits_value frac).
  destruct frac as [|f fs] eqn:Hf.
  - subst b. simpl. unfold Qeq, Qdiv, Qmult, Qplus, Qinv, inject_Z. simpl. lia.
  - rewrite <- Hf in *.
    assert (Hlen : length frac <> 0) by (by rewrite Hf).
    rewrite Hf at 3. rewrite <- Hf.
    rewrite <- (pow10_pos _ Hlen).
    rewrite (Qmake_Qdiv (a * Z.pos (10 ^ Pos.of_nat (length frac)) + b)).
    rewrite inject_Z_plus, inject_Z_mult. field.
    unfold Qeq. simpl. lia.
Qed.
End DecimalParse.

(** A text made of digits, or of digits, a point and digits, is read
    as the number it denotes; the same text after a minus sign or
    between parentheses is read as the opposite number, and a rupee
    sign in front of it changes nothing. *)
Lemma to_float_decimal_exact (int_part frac : pystr) :
  int_part <> [] ->
  Forall (fun c => is_digit c = true) int_part ->
  Forall (fun c => is_digit c = true) frac ->
  exists q,
    (q == decimal_value int_part frac)%Q
    /\ to_float (VStr (decimal_text int_part frac)) = Ok q
    /\ to_float (VStr (45%N :: decimal_text int_part frac)) = Ok (- q)%Q
    /\ to_float (VStr (40%N :: decimal_text int_part frac ++ [41%N])) = Ok (- q)%Q
    /\ to_float (VStr (8377%N :: decimal_text int_part frac)) = Ok q.
Proof.
  intros Hne Hi Hf.
  set (text := decimal_text int_part frac).
  destruct (decimal_text_ends int_part frac Hne Hi Hf) as (c & t & u & d & Hc & Hu & Dc & Dd).
  fold text in Hc, Hu.
  pose proof (decimal_text_chars int_part frac Hi Hf) as Hchars. fold text in Hchars.
  destruct (parse_decimal_text int_part frac Hne Hi Hf) as [Hval Hopp].
  fold text in Hval, Hopp.
  pose proof (re_search_number_text int_part frac Hne Hi Hf) as Hre. fold text in Hre.
  pose proof (re_search_number_minus int_part frac Hne Hi Hf) as Hrem. fold text in Hrem.
  assert (Hclean : forall x, x <> 46%N -> is_digit x = false ->
                     remove_char x text = text).
  { intros x Hx Hd. apply remove_char_id.
    eapply Forall_impl; [exact Hchars|]. intros y [Hy | ->]; [|done].
    by apply (digit_not y x). }
  assert (Hs : strip text = text).
  { rewrite Hc. apply (strip_id c t u d); [by rewrite <- Hc | by apply digit_not_space..]. }
  assert (Hfirst : text !! 0 = Some c) by (by rewrite Hc).
  assert (Hc40 : c <> 40%N) by (by apply (digit_not c 40%N)).
  exists (parse_decimal text). split; [exact Hval|]. split; [|split; [|split]].
  - rewrite to_float_str by (rewrite Hs, Hc; done). cbv zeta.
    rewrite Hs, !Hclean by done.
    rewrite (bool_decide_eq_false_2 (text !! 0 = Some 40%N)) by (rewrite Hfirst; congruence).
    cbn [andb]. by rewrite Hre.
  - assert (Hs' : strip (45%N :: text) = 45%N :: text).
    { apply (strip_id 45%N text (45%N :: u) d); [by rewrite Hu | done | by apply digit_not_space]. }
    rewrite to_float_str by (by rewrite Hs'). cbv zeta. rewrite Hs'.
    assert (Hrm : forall x, x <> 46%N -> x <> 45%N -> is_digit x = false ->
                    remove_char x (45%N :: text) = 45%N :: text).
    { intros x H46 H45 Hd. apply remove_char_id. constructor; [done|].
      eapply Forall_impl; [exact Hchars|]. intros y [Hy | ->]; [|done].
      by apply (digit_not y x). }
    rewrite !Hrm by done.
    rewrite (bool_decide_eq_false_2 ((45%N :: text) !! 0 = Some 40%N)) by done.
    cbn [andb]. by rewrite Hrem, Hopp.
  - assert (Hs' : strip (40%N :: text ++ [41%N]) = 40%N :: text ++ [41%N]).
    { apply (strip_id 40%N (text ++ [41%N]) (40%N :: text) 41%N); done. }
    rewrite to_float_str by (by rewrite Hs'). cbv zeta. rewrite Hs'.
    assert (Hrm : forall x, x <> 46%N -> x <> 40%N -> x <> 41%N -> is_digit x = false ->
                    remove_char x (40%N :: text ++ [41%N]) = 40%N :: text ++ [41%N]).
    { intros x H46 H40 H41 Hd. apply remove_char_id. constructor; [done|].
      apply Forall_app. split; [|by constructor].
      eapply Forall_impl; [exact Hchars|]. intros y [Hy | ->]; [|done].
      by apply (digit_not y x). }
    rewrite !Hrm by done.
    rewrite (bool_decide_eq_true_2 ((40%N :: text ++ [41%N]) !! 0 = Some 40%N)) by done.
    rewrite (bool_decide_eq_true_2 (last (40%N :: text ++ [41%N]) = Some 41%N))
      by (rewrite app_comm_cons; apply last_snoc).
    cbn [andb tail]. rewrite removelast_last. by rewrite Hrem, Hopp.
  - assert (Hs' : strip (8377%N :: text) = 8377%N :: text).
    { apply (strip_id 8377%N text (8377%N :: u) d); [by rewrite Hu | done | by apply digit_not_space]. }
    rewrite to_float_str by (by rewrite Hs'). cbv zeta. rewrite Hs'.
    assert (H1 : remove_char 44 (8377%N :: text) = 8377%N :: text).
    { apply remove_char_id. constructor; [done|].
      eapply Forall_impl; [exact Hchars|]. intros y [Hy | ->]; [|done].
      by apply (digit_not y 44%N). }
    assert (H2 : remove_char 160 (8377%N :: text) = 8377%N :: text).
    { apply remove_char_id. constructor; [done|].
      eapply Forall_impl; [exact Hchars|]. intros y [Hy | ->]; [|done].
      by apply (digit_not y 160%N). }
    assert (H3 : remove_char 8377 (8377%N :: text) = text).
    { unfold remove_char. cbn [List.filter]. change (negb (8377 =? 8377)%N) with false.
      cbv iota. by apply (Hclean 8377%N). }
    rewrite H1, H2, H3.
    rewrite (bool_decide_eq_false_2 (text !! 0 = Some 40%N)) by (rewrite Hfirst; congruence).
    cbn [andb]. by rewrite Hre.
Qed.

(** * Further properties of the annotator *)

Section WorksheetShape.
Implicit Types ws : gmap (nat * nat) PyVal.

Lemma max_column_attained ws :
  max_column ws = 1 \/ exists r v, ws !! (r, max_column ws) = Some v.
Proof.
  unfold max_column.
  apply (map_fold_weak_ind
           (fun b (m : gmap (nat * nat) PyVal) =>
              b = 1 \/ exists r v, m !! (r, b) = Some v)).
  - by left.
  - intros [r0 c0] x m b Hnone Hatt. simpl.
    destruct (Nat.max_spec c0 b) as [[Hlt ->] | [Hle ->]].
    + destruct Hatt as [-> | (r & v & Hl)]; [by left | right].
      exists r, v. rewrite lookup_insert_ne; [done|]. intros [= -> ->]. congruence.
    + right. exists r0, x. by rewrite lookup_insert_eq.
Qed.

Lemma cell_write_exists ws r c v : is_Some (cell_write ws r c v !! (r, c)).
Proof.
  unfold cell_write.
  destruct v; rewrite ?lookup_insert_eq; try done.
  destruct (ws !! (r, c)) eqn:Hk; [by rewrite Hk | by rewrite lookup_insert_eq].
Qed.

Lemma cell_write_keeps ws r c v k x :
  ws !! k = Some x -> is_Some (cell_write ws r c v !! k).
Proof.
  intros Hk. destruct (decide (k = (r, c))) as [-> | Hne]; [apply cell_write_exists|].
  destruct k as [r' c']. by rewrite cell_write_other, Hk.
Qed.

(** [max_column] after a cell has come to exist. *)
Lemma max_column_cell_write ws r c v :
  max_column (cell_write ws r c v) = Nat.max (max_column ws) c.
Proof.
  destruct (max_column_spec ws) as (H1 & Hup).
  destruct (max_column_spec (cell_write ws r c v)) as (H1' & Hup').
  apply Nat.le_antisymm.
  - destruct (max_column_attained (cell_write ws r c v)) as [-> | (r' & y & Hk)]; [lia|].
    destruct (decide ((r', max_column (cell_write ws r c v)) = (r, c))) as [[= _ ->] | Hne];
      [lia|].
    rewrite cell_write_other in Hk by done. apply Hup in Hk. lia.
  - apply Nat.max_lub.
    + destruct (max_column_attained ws) as [-> | (r' & x & Hk)]; [done|].
      destruct (cell_write_keeps ws r c v _ _ Hk) as [y Hy]. by eapply Hup'.
    + destruct (cell_write_exists ws r c v) as [y Hy]. by eapply Hup'.
Qed.

Lemma cell_write_text ws r c s : cell_value (cell_write ws r c (VStr s)) r c = VStr s.
Proof. unfold cell_value, cell_write. by rewrite lookup_insert_eq. Qed.

Lemma write_headers_max_column ws c :
  max_column ws <= c -> max_column (write_headers ws c) = c + 3.
Proof.
  intros Hc. unfold write_headers. rewrite !max_column_cell_write. lia.
Qed.

Lemma write_headers_cells ws c :
  cell_value (write_headers ws c) 1 (c + 1) = VStr (py "Match_Status")
  /\ cell_value (write_headers ws c) 1 (c + 2) = VStr (py "Match_ID")
  /\ cell_value (write_headers ws c) 1 (c + 3) = VStr (py "Matched_Row_Idx").
Proof.
  unfold write_headers. split; [|split].
  - rewrite !cell_value_other by (intros [=]; lia). apply cell_write_text.
  - rewrite cell_value_other by (intros [=]; lia). apply cell_write_text.
  - apply cell_write_text.
Qed.

Lemma cell_write_max ws r c v :
  r <= max_row ws -> c <= max_column ws ->
  max_row (cell_write ws r c v) = max_row ws
  /\ max_column (cell_write ws r c v) = max_column ws.
Proof.
  intros Hr Hc. split; [by apply max_row_cell_write|].
  rewrite max_column_cell_write. lia.
Qed.

Lemma annotate_row_max inv_map other_name max_col ws r :
  r <= max_row ws -> max_col + 3 <= max_column ws ->
  max_row (annotate_row inv_map other_name max_col ws r) = max_row ws
  /\ max_column (annotate_row inv_map other_name max_col ws r) = max_column ws.
Proof.
  intros Hr Hc. unfold annotate_row.
  destruct (inv_map !! Z.of_nat r) as [inv|]; cbv zeta.
  - destruct (cell_write_max ws r (max_col + 1) (VStr (status_of inv other_name)))
      as [A1 A2]; [done | lia |].
    destruct (cell_write_max
                (cell_write ws r (max_col + 1) (VStr (status_of inv other_name)))
                r (max_col + 2) (opt_int (match_id inv))) as [B1 B2]; [lia | lia |].
    destruct (cell_write_max
                (cell_write
                   (cell_write ws r (max_col + 1) (VStr (status_of inv other_name)))
                   r (max_col + 2) (opt_int (match_id inv)))
                r (max_col + 3) (opt_int (matched_with_row inv))) as [C1 C2]; [lia | lia |].
    split; congruence.
  - apply cell_write_max; [done | lia].
Qed.

Lemma fold_annotate_max inv_map other_name max_col rows : forall ws,
  Forall (fun r => r <= max_row ws) rows -> max_col + 3 <= max_column ws ->
  max_row (fold_left (annotate_row inv_map other_name max_col) rows ws) = max_row ws
  /\ max_column (fold_left (annotate_row inv_map other_name max_col) rows ws)
     = max_column ws.
Proof.
  induction rows as [|r rows IH]; intros ws Hrows Hc; [done|].
  apply Forall_cons in Hrows as [Hr Hrows]. simpl.
  destruct (annotate_row_max inv_map other_name max_col ws r Hr Hc) as [E1 E2].
  destruct (IH (annotate_row inv_map other_name max_col ws r)) as [E3 E4].
  - by rewrite E1.
  - by rewrite E2.
  - by rewrite E3, E4, E1, E2.
Qed.

(** [write_results] appends exactly three columns, headed
    "Match_Status", "Match_ID" and "Matched_Row_Idx"; it adds no row
    and leaves every cell the sheet had as it was. *)
Theorem write_results_shape (ws : gmap (nat * nat) PyVal) (invoices : list Invoice)
    (this_name other_name : pystr) :
  let ws' := write_results ws invoices this_name other_name in
  let c := max_column ws in
  max_row ws' = max_row ws
  /\ max_column ws' = c + 3
  /\ cell_value ws' 1 (c + 1) = VStr (py "Match_Status")
  /\ cell_value ws' 1 (c + 2) = VStr (py "Match_ID")
  /\ cell_value ws' 1 (c + 3) = VStr (py "Matched_Row_Idx")
  /\ forall r col, col <= c -> ws' !! (r, col) = ws !! (r, col).
Proof.
  intros ws' c. unfold ws', write_results. fold c.
  set (wsh := write_headers ws c).
  assert (Hmr : max_row wsh = max_row ws) by apply write_headers_max_row.
  assert (Hmc : max_column wsh = c + 3) by (by apply write_headers_max_column).
  destruct (fold_annotate_max (inv_map_of invoices) other_name c
              (seq 2 (max_row wsh - 1)) wsh) as [E1 E2].
  { apply Forall_forall. intros r Hr%elem_of_seq. lia. }
  { lia. }
  destruct (write_headers_cells ws c) as (C1 & C2 & C3). fold wsh in C1, C2, C3.
  assert (Hrow1 : forall col,
            cell_value (fold_left (annotate_row (inv_map_of invoices) other_name c)
                          (seq 2 (max_row wsh - 1)) wsh) 1 col
            = cell_value wsh 1 col).
  { intros col. unfold cell_value. rewrite fold_annotate_other; [done|].
    rewrite elem_of_seq. lia. }
  split; [by rewrite E1|]. split; [by rewrite E2|].
  rewrite !Hrow1. split; [done|]. split; [done|]. split; [done|].
  intros r col Hcol. rewrite fold_annotate_left by done.
  unfold wsh. by rewrite write_headers_left.
Qed.

(** The three cells [write_results] appends to a data row. *)
Lemma write_results_row (ws : gmap (nat * nat) PyVal) (invoices : list Invoice)
    (this_name other_name : pystr) (r : nat) :
  2 <= r <= max_row ws ->
  let ws' := write_results ws invoices this_name other_name in
  let c := max_column ws in
  match inv_map_of invoices !! Z.of_nat r with
  | Some inv =>
      cell_value ws' r (c + 1) = VStr (status_of inv other_name)
      /\ cell_value ws' r (c + 2) = opt_int (match_id inv)
      /\ cell_value ws' r (c + 3) = opt_int (matched_with_row inv)
  | None =>
      cell_value ws' r (c + 1) = VStr ignored_zero
      /\ cell_value ws' r (c + 2) = VNone
      /\ cell_value ws' r (c + 3) = VNone
  end.
Proof.
  intros [Hlo Hhi] ws' c.
  set (inv_map := inv_map_of invoices).
  set (f := annotate_row inv_map other_name c).
  set (wsh := write_headers ws c).
  assert (Hws' : ws' = fold_left f (seq 2 (max_row ws - 1)) wsh).
  { unfold ws', write_results. by rewrite write_headers_max_row. }
  assert (Hsplit : seq 2 (max_row ws - 1)
                   = seq 2 (r - 2) ++ r :: seq (S r) (max_row ws - r)).
  { replace (max_row ws - 1) with ((r - 2) + S (max_row ws - r)) by lia.
    rewrite seq_app. simpl. repeat f_equal; lia. }
  rewrite Hsplit, fold_left_app in Hws'. simpl in Hws'.
  set (pre := fold_left f (seq 2 (r - 2)) wsh) in *.
  assert (Hpre : forall col, pre !! (r, col) = ws !! (r, col)).
  { intros col. unfold pre, f. rewrite fold_annotate_other.
    - apply write_headers_other. lia.
    - rewrite elem_of_seq. lia. }
  assert (Hpost : forall col, ws' !! (r, col) = f pre r !! (r, col)).
  { intros col. rewrite Hws'. unfold f. apply fold_annotate_other.
    rewrite elem_of_seq. lia. }
  assert (Hval : forall col, cell_value ws' r col = cell_value (f pre r) r col).
  { intros col. unfold cell_value. by rewrite Hpost. }
  pose proof (annotate_row_cells inv_map other_name c pre r) as Hcells.
  rewrite !Hpre in Hcells.
  specialize (Hcells (beyond_max_column ws r (c + 1) ltac:(lia))
                     (beyond_max_column ws r (c + 2) ltac:(lia))
                     (beyond_max_column ws r (c + 3) ltac:(lia))).
  simpl in Hcells. fold f in Hcells. rewrite <- !Hval in Hcells.
  exact Hcells.
Qed.
End WorksheetShape.

(** ** Vocabulary of the properties of a whole run *)

(** The three cells that [write_results] appends to row [r] of a sheet
    that had [c] columns: status, match id and matched row. *)
Definition annotation (ws : gmap (nat * nat) PyVal) (c r : nat) : PyVal * PyVal * PyVal :=
  (cell_value ws r (c + 1), cell_value ws r (c + 2), cell_value ws r (c + 3)).

(** The two sheets that a run has reconciled, as they were in the
    workbook [wb] and as they are in the saved workbook [wb']. *)
Definition run_sheets {rt : PyRuntime} (wb wb' : list (pystr * gmap (nat * nat) PyVal))
    (sheet1 sheet2 : option pystr) (name1 name2 : pystr)
    (ws1 ws2 out1 out2 : gmap (nat * nat) PyVal) : Prop :=
  resolve_names (fst <$> wb) sheet1 sheet2 = (Some name1, Some name2)
  /\ wb_get wb name1 = Some ws1 /\ wb_get wb name2 = Some ws2
  /\ wb_get wb' name1 = Some out1 /\ wb_get wb' name2 = Some out2.

(** What a data row of a reconciled sheet ends up with: nothing was
    read from it and it is marked as ignored; or a record was read and
    found no partner; or a record was read and is matched, under one
    of the descriptions [tags], with a match id from 1 and a data row
    of the other sheet. *)
Definition row_outcome (tags : list pystr) (other : pystr) (other_rows : nat)
    (has_record : Prop) (cells : PyVal * PyVal * PyVal) : Prop :=
  (~ has_record /\ cells = (VStr ignored_zero, VNone, VNone))
  \/ (has_record /\ cells = (VStr (missing_in other), VNone, VNone))
  \/ (has_record
      /\ exists t m r', t ∈ tags /\ (1 <= m)%Z /\ 2 <= r' <= other_rows
           /\ cells = (VStr t, VInt m, VInt (Z.of_nat r'))).

(** * A whole run of [process_reconciliation] *)

(** ** Workbooks *)

Section WorkbookFacts.
Implicit Types wb : list (pystr * gmap (nat * nat) PyVal).

Lemma wb_set_names wb name ws : (fst <$> wb_set wb name ws) = (fst <$> wb).
Proof.
  induction wb as [|[n w] wb IH]; [done|]. cbn [wb_set].
  case_bool_decide; [done|]. rewrite !fmap_cons. by rewrite IH.
Qed.

Lemma wb_get_set_eq wb name ws :
  is_Some (wb_get wb name) -> wb_get (wb_set wb name ws) name = Some ws.
Proof.
  induction wb as [|[n w] wb IH]; simpl; [by intros [? ?]|].
  case_bool_decide as Hn; simpl.
  - intros _. by rewrite bool_decide_true.
  - intros Hs. rewrite bool_decide_false by done. by apply IH.
Qed.

Lemma wb_get_set_ne wb name name' ws :
  name <> name' -> wb_get (wb_set wb name ws) name' = wb_get wb name'.
Proof.
  intros Hne. induction wb as [|[n w] wb IH]; [done|]. simpl.
  case_bool_decide as Hn; simpl.
  - subst n. by rewrite !bool_decide_false.
  - case_bool_decide; [done | apply IH].
Qed.
End WorkbookFacts.

(** ** The map from rows to records *)

Lemma inv_map_fold_Some (l : list Invoice) : forall (acc : gmap Z Invoice) k inv,
  fold_left (fun m inv => <[row_idx inv := inv]> m) l acc !! k = Some inv ->
  (inv ∈ l /\ row_idx inv = k) \/ acc !! k = Some inv.
Proof.
  induction l as [|x l IH]; intros acc k inv H; simpl in H; [by right|].
  destruct (IH _ _ _ H) as [[Hin Hk] | Hacc].
  - left. split; [by right | done].
  - destruct (decide (row_idx x = k)) as [<- | Hne].
    + rewrite lookup_insert_eq in Hacc. injection Hacc as ->. left. split; [by left | done].
    + rewrite lookup_insert_ne in Hacc by done. by right.
Qed.

Lemma inv_map_of_Some (l : list Invoice) k inv :
  inv_map_of l !! k = Some inv -> inv ∈ l /\ row_idx inv = k.
Proof.
  intros H. destruct (inv_map_fold_Some l ∅ k inv H) as [? | Hempty]; [done|].
  by rewrite lookup_empty in Hempty.
Qed.

Lemma inv_map_fold_None (l : list Invoice) : forall (acc : gmap Z Invoice) k,
  fold_left (fun m inv => <[row_idx inv := inv]> m) l acc !! k = None ->
  acc !! k = None /\ forall inv, inv ∈ l -> row_idx inv <> k.
Proof.
  induction l as [|x l IH]; intros acc k H; simpl in H.
  - split; [done|]. intros inv Hin. by apply elem_of_nil in Hin.
  - destruct (IH _ _ H) as [Hacc Hl].
    destruct (decide (row_idx x = k)) as [<- | Hne].
    + by rewrite lookup_insert_eq in Hacc.
    + rewrite lookup_insert_ne in Hacc by done. split; [done|].
      intros inv [-> | Hin]%elem_of_cons; [done | by apply Hl].
Qed.

Lemma inv_map_of_None (l : list Invoice) k inv :
  inv_map_of l !! k = None -> inv ∈ l -> row_idx inv <> k.
Proof. intros H. by apply (inv_map_fold_None l ∅ k H). Qed.

Lemma data_of_row_idx a b : data_of a = data_of b -> row_idx a = row_idx b.
Proof. unfold data_of. congruence. Qed.

Lemma data_of_gstin a b : data_of a = data_of b -> gstin a = gstin b.
Proof. unfold data_of. congruence. Qed.

Lemma evolved_rows (l l' : list Invoice) :
  Forall2 rec_evolves l l' -> row_idx <$> l' = row_idx <$> l.
Proof.
  induction 1 as [|a a' l l' Ha _ IH]; [done|]. rewrite !fmap_cons.
  by rewrite IH, (data_of_row_idx _ _ (rec_evolves_data _ _ Ha)).
Qed.

(** The status of a record that holds one of the four descriptions. *)
Lemma status_of_tag name1 name2 x y inv other :
  match_type inv = Some (tag_of name1 name2 x y) ->
  status_of inv other = tag_of name1 name2 x y.
Proof.
  intros Ht. unfold status_of. rewrite Ht. unfold tag_of.
  case_bool_decide; [done|].
  destruct (negb (nonempty (gstin y))); [done|].
  by destruct (negb (nonempty (gstin x))).
Qed.

Lemma status_of_fresh inv other : fresh inv -> status_of inv other = missing_in other.
Proof. intros (_ & Ht & _). unfold status_of. by rewrite Ht. Qed.

Lemma tag_of_data name1 name2 a b a0 b0 :
  data_of a = data_of a0 -> data_of b = data_of b0 ->
  tag_of name1 name2 a b = tag_of name1 name2 a0 b0.
Proof.
  intros Ha%data_of_gstin Hb%data_of_gstin. unfold tag_of. by rewrite Ha, Hb.
Qed.

(** ** One sheet, from its rows to its annotations *)

Section SheetFacts.
Context {rt : PyRuntime}.
Implicit Types ws : gmap (nat * nat) PyVal.

Lemma row_record_unique ws mapping name r a b :
  row_record ws mapping name r a -> row_record ws mapping name r b -> a = b.
Proof. intros (_ & Ha & _) (_ & Hb & _). congruence. Qed.

(** The records of a sheet after matching, against the rows they were
    read from. *)
Lemma rows_of_final ws name invs l' :
  read_invoices ws (get_header_map ws) name = Ok invs ->
  Forall2 rec_evolves invs l' ->
  NoDup (row_idx <$> l')
  /\ (forall a', a' ∈ l' ->
        exists r a0, 2 <= r <= max_row ws /\ row_idx a' = Z.of_nat r
          /\ row_record ws (get_header_map ws) name r a0 /\ data_of a' = data_of a0)
  /\ (forall r a0, 2 <= r <= max_row ws ->
        row_record ws (get_header_map ws) name r a0 ->
        exists a', a' ∈ l' /\ row_idx a' = Z.of_nat r /\ data_of a' = data_of a0).
Proof.
  intros Hr Hev. unfold read_invoices in Hr.
  destruct (read_rows_char ws _ name _ _ _ Hr) as (new & -> & Hin & Hsub).
  simpl in *.
  pose proof (get_header_map_keys ws) as Hnd.
  assert (Hrec : forall a0, a0 ∈ new <->
            exists r, 2 <= r <= max_row ws /\ row_record ws (get_header_map ws) name r a0).
  { intros a0. rewrite Hin. unfold row_record.
    pose proof (max_row_spec ws) as [Hmax _].
    split; intros (r & Hrow & H); exists r;
      rewrite (read_row_spec ws _ r Hnd) in *; simpl in *; (split; [|done]).
    - apply elem_of_seq in Hrow. lia.
    - apply elem_of_seq. lia. }
  split; [|split].
  - rewrite (evolved_rows _ _ Hev).
    eapply sublist_NoDup; [|exact Hsub].
    apply (NoDup_fmap_2 _). apply NoDup_seq.
  - intros a' [i Hi]%list_elem_of_lookup.
    destruct (Forall2_lookup_r _ _ _ _ _ Hev Hi) as (a0 & Ha0 & Hre).
    assert (Hel : a0 ∈ new) by (by eapply list_elem_of_lookup_2).
    apply Hrec in Hel as (r & Hrange & Hrow).
    exists r, a0. split; [done|].
    pose proof (rec_evolves_data _ _ Hre) as Hd. split; [|done].
    rewrite (data_of_row_idx _ _ Hd).
    destruct Hrow as (_ & Hinit & _). by apply Invoice_init_fields in Hinit as (? & _).
  - intros r a0 Hrange Hrow.
    assert (Hel : a0 ∈ new) by (apply Hrec; by exists r).
    apply list_elem_of_lookup in Hel as [i Hi].
    destruct (Forall2_lookup_l _ _ _ _ _ Hev Hi) as (a' & Ha' & Hre).
    exists a'. split; [by eapply list_elem_of_lookup_2|].
    pose proof (rec_evolves_data _ _ Hre) as Hd. split; [|done].
    rewrite (data_of_row_idx _ _ Hd).
    destruct Hrow as (_ & Hinit & _). by apply Invoice_init_fields in Hinit as (? & _).
Qed.

(** What [write_results] puts beside a record of the list. *)
Lemma annotation_of_record ws name other invs l' a' :
  read_invoices ws (get_header_map ws) name = Ok invs ->
  Forall2 rec_evolves invs l' ->
  a' ∈ l' ->
  exists r a0, 2 <= r <= max_row ws /\ row_idx a' = Z.of_nat r
    /\ row_record ws (get_header_map ws) name r a0 /\ data_of a' = data_of a0
    /\ annotation (write_results ws l' name other) (max_column ws) r
       = (VStr (status_of a' other), opt_int (match_id a'),
          opt_int (matched_with_row a')).
Proof.
  intros Hr Hev Hin.
  destruct (rows_of_final ws name invs l' Hr Hev) as (Hnd & Hback & _).
  destruct (Hback a' Hin) as (r & a0 & Hrange & Hrow & Hrec & Hd).
  exists r, a0. repeat (split; [done|]).
  pose proof (write_results_row ws l' name other r Hrange) as Hcells.
  simpl in Hcells. rewrite <- Hrow, (inv_map_of_lookup l' a' Hnd Hin) in Hcells.
  unfold annotation. destruct Hcells as (-> & -> & ->). done.
Qed.

(** What [write_results] puts beside a row. *)
Lemma annotation_of_row ws name other invs l' r :
  read_invoices ws (get_header_map ws) name = Ok invs ->
  Forall2 rec_evolves invs l' ->
  2 <= r <= max_row ws ->
  (exists a' a0, a' ∈ l' /\ row_idx a' = Z.of_nat r
     /\ row_record ws (get_header_map ws) name r a0 /\ data_of a' = data_of a0
     /\ annotation (write_results ws l' name other) (max_column ws) r
        = (VStr (status_of a' other), opt_int (match_id a'),
           opt_int (matched_with_row a')))
  \/ ((forall a0, ~ row_record ws (get_header_map ws) name r a0)
      /\ annotation (write_results ws l' name other) (max_column ws) r
         = (VStr ignored_zero, VNone, VNone)).
Proof.
  intros Hr Hev Hrange.
  destruct (rows_of_final ws name invs l' Hr Hev) as (Hnd & Hback & Hforth).
  pose proof (write_results_row ws l' name other r Hrange) as Hcells.
  simpl in Hcells.
  destruct (inv_map_of l' !! Z.of_nat r) as [a'|] eqn:Hmap.
  - apply inv_map_of_Some in Hmap as [Hin Hrow]. left.
    destruct (Hback a' Hin) as (r0 & a0 & _ & Hrow0 & Hrec & Hd).
    assert (r0 = r) as -> by lia.
    exists a', a0. repeat (split; [done|]).
    unfold annotation. destruct Hcells as (-> & -> & ->). done.
  - right. split.
    + intros a0 Hrec. destruct (Hforth r a0 Hrange Hrec) as (a' & Hin & Hrow & _).
      by apply (inv_map_of_None l' _ a' Hmap).
    + unfold annotation. destruct Hcells as (-> & -> & ->). done.
Qed.
End SheetFacts.

(** ** The run *)

Section PipelineFacts.
Context {rt : PyRuntime}.

(** What a successful run has done. *)
Lemma pipeline_view path wb ts sheet1 sheet2 tolerance out_file wb' :
  process_reconciliation path wb ts sheet1 sheet2 tolerance = Ok (out_file, wb') ->
  exists name1 name2 ws1 ws2 inv1 inv2,
    resolve_names (fst <$> wb) sheet1 sheet2 = (Some name1, Some name2)
    /\ name1 <> name2
    /\ wb_get wb name1 = Some ws1 /\ wb_get wb name2 = Some ws2
    /\ read_invoices ws1 (get_header_map ws1) name1 = Ok inv1
    /\ read_invoices ws2 (get_header_map ws2) name2 = Ok inv2
    /\ wb_get wb' name1
       = Some (write_results ws1
                 (list1 (match_invoices inv1 inv2 tolerance name1 name2)) name1 name2)
    /\ wb_get wb' name2
       = Some (write_results ws2
                 (list2 (match_invoices inv1 inv2 tolerance name1 name2)) name2 name1)
    /\ (forall n, n <> name1 -> n <> name2 -> wb_get wb' n = wb_get wb n)
    /\ (fst <$> wb') = (fst <$> wb)
    /\ out_file = splitext_root path ++ py "_RECON_" ++ ts ++ py ".xlsx".
Proof.
  unfold process_reconciliation.
  destruct (resolve_names (fst <$> wb) sheet1 sheet2) as [[name1|] [name2|]]; try done.
  destruct (negb (nonempty name1) || negb (nonempty name2)); [done|].
  case_bool_decide as Hne; [done|].
  destruct (wb_get wb name1) as [ws1|] eqn:H1; [|done].
  destruct (wb_get wb name2) as [ws2|] eqn:H2; [|done].
  destruct (validate_map (get_header_map ws1) name1); [|done]. simpl.
  destruct (validate_map (get_header_map ws2) name2); [|done]. simpl.
  destruct (read_invoices ws1 (get_header_map ws1) name1) as [inv1|] eqn:R1; [|done]. simpl.
  destruct (read_invoices ws2 (get_header_map ws2) name2) as [inv2|] eqn:R2; [|done]. simpl.
  intros [= <- <-]. exists name1, name2, ws1, ws2, inv1, inv2.
  repeat (split; [done|]).
  split; [|split; [|split; [|split]]].
  - rewrite wb_get_set_ne by congruence. apply wb_get_set_eq. by rewrite H1.
  - apply wb_get_set_eq. rewrite wb_get_set_ne by done. by rewrite H2.
  - intros n Hn1 Hn2. by rewrite !wb_get_set_ne by congruence.
  - by rewrite !wb_set_names.
  - done.
Qed.

(** The records of the two sheets when [match_invoices] has returned. *)
Lemma pipeline_engine ws1 ws2 name1 name2 inv1 inv2 tolerance :
  read_invoices ws1 (get_header_map ws1) name1 = Ok inv1 ->
  read_invoices ws2 (get_header_map ws2) name2 = Ok inv2 ->
  let st := match_invoices inv1 inv2 tolerance name1 name2 in
  Forall2 rec_evolves inv1 (list1 st) /\ Forall2 rec_evolves inv2 (list2 st)
  /\ wf tolerance st /\ tagged name1 name2 st /\ saturated tolerance st.
Proof.
  intros R1 R2 st.
  assert (F1 : Forall fresh inv1).
  { eapply Forall_impl; [exact (read_invoices_spec _ _ _ _ R1)|]. by intros ? [_ ?]. }
  assert (F2 : Forall fresh inv2).
  { eapply Forall_impl; [exact (read_invoices_spec _ _ _ _ R2)|]. by intros ? [_ ?]. }
  destruct (run_evolves_total inv1 inv2 tolerance name1 name2) as [E1 E2 _].
  destruct (run_tagged inv1 inv2 tolerance name1 name2 F1 F2) as [Hwf Htag].
  split; [exact E1|]. split; [exact E2|]. split; [exact Hwf|]. split; [exact Htag|].
  apply match_invoices_saturated.
Qed.
End PipelineFacts.

(** ** Rows that carry a match id *)

Section IdCells.
Context {rt : PyRuntime}.
Implicit Types ws : gmap (nat * nat) PyVal.

Lemma opt_int_VInt (o : option Z) m : opt_int o = VInt m -> o = Some m.
Proof. destruct o; simpl; congruence. Qed.

Lemma opt_int_VNone (o : option Z) : opt_int o = VNone -> o = None.
Proof. by destruct o. Qed.

(** The record behind a row whose Match_ID cell holds a number. *)
Lemma id_cell_record ws name other invs l' r m :
  read_invoices ws (get_header_map ws) name = Ok invs ->
  Forall2 rec_evolves invs l' ->
  2 <= r <= max_row ws ->
  cell_value (write_results ws l' name other) r (max_column ws + 2) = VInt m ->
  exists a' a0, a' ∈ l' /\ row_idx a' = Z.of_nat r /\ match_id a' = Some m
    /\ row_record ws (get_header_map ws) name r a0 /\ data_of a' = data_of a0
    /\ annotation (write_results ws l' name other) (max_column ws) r
       = (VStr (status_of a' other), VInt m, opt_int (matched_with_row a')).
Proof.
  intros Hr Hev Hrange Hcell.
  destruct (annotation_of_row ws name other invs l' r Hr Hev Hrange)
    as [(a' & a0 & Hin & Hrow & Hrec & Hd & Hann) | [_ Hann]];
    unfold annotation in Hann; injection Hann as H1 H2 H3.
  - rewrite H2 in Hcell. apply opt_int_VInt in Hcell.
    exists a', a0. repeat (split; [done|]).
    unfold annotation. by rewrite H1, H2, H3, Hcell.
  - rewrite H2 in Hcell. discriminate.
Qed.

(** The record behind a row that was read and whose Match_ID cell is
    empty. *)
Lemma none_cell_record ws name other invs l' r a0 :
  read_invoices ws (get_header_map ws) name = Ok invs ->
  Forall2 rec_evolves invs l' ->
  2 <= r <= max_row ws ->
  row_record ws (get_header_map ws) name r a0 ->
  cell_value (write_results ws l' name other) r (max_column ws + 2) = VNone ->
  exists a', a' ∈ l' /\ row_idx a' = Z.of_nat r /\ match_id a' = None
    /\ data_of a' = data_of a0.
Proof.
  intros Hr Hev Hrange Hrec Hcell.
  destruct (annotation_of_row ws name other invs l' r Hr Hev Hrange)
    as [(a' & a1 & Hin & Hrow & Hrec1 & Hd & Hann) | [Hno _]].
  - unfold annotation in Hann. injection Hann as H1 H2 H3.
    rewrite H2 in Hcell. apply opt_int_VNone in Hcell.
    rewrite (row_record_unique _ _ _ _ _ _ Hrec Hrec1).
    by exists a'.
  - by destruct (Hno a0).
Qed.
End IdCells.

Section Linked.
Context {rt : PyRuntime}.
Variables (ws1 ws2 : gmap (nat * nat) PyVal) (name1 name2 : pystr).
Variables (inv1 inv2 : list Invoice) (tolerance : Q).
Hypothesis R1 : read_invoices ws1 (get_header_map ws1) name1 = Ok inv1.
Hypothesis R2 : read_invoices ws2 (get_header_map ws2) name2 = Ok inv2.

Let st := match_invoices inv1 inv2 tolerance name1 name2.
Let out1 := write_results ws1 (list1 st) name1 name2.
Let out2 := write_results ws2 (list2 st) name2 name1.
Let c1 := max_column ws1.
Let c2 := max_column ws2.

(** A row of the first sheet with a match id, its partner in the
    second, and the two records behind them. *)
Lemma link_of_row1 r m :
  2 <= r <= max_row ws1 -> cell_value out1 r (c1 + 2) = VInt m ->
  exists i j a b a0 b0 r',
    list1 st !! i = Some a /\ list2 st !! j = Some b
    /\ paired tolerance (match_counter st) a b m
    /\ 2 <= r' <= max_row ws2
    /\ row_idx a = Z.of_nat r /\ row_idx b = Z.of_nat r'
    /\ row_record ws1 (get_header_map ws1) name1 r a0 /\ data_of a = data_of a0
    /\ row_record ws2 (get_header_map ws2) name2 r' b0 /\ data_of b = data_of b0
    /\ annotation out1 c1 r
       = (VStr (tag_of name1 name2 a b), VInt m, VInt (Z.of_nat r'))
    /\ annotation out2 c2 r'
       = (VStr (tag_of name1 name2 a b), VInt m, VInt (Z.of_nat r)).
Proof.
  intros Hrange Hcell.
  destruct (pipeline_engine ws1 ws2 name1 name2 inv1 inv2 tolerance R1 R2)
    as (E1 & E2 & Hwf & Htag & _). fold st in E1, E2, Hwf, Htag.
  destruct (id_cell_record ws1 name1 name2 inv1 (list1 st) r m R1 E1 Hrange Hcell)
    as (a & a0 & Hain & Harow & Hma & Harec & Had & Hann).
  apply list_elem_of_lookup in Hain as [i Hi].
  destruct (wf_left _ _ Hwf i a Hi) as [(Hnone & _) | (m' & j & b & Hj & Hp)];
    [congruence|].
  assert (m' = m) as -> by (destruct Hp as (Hma' & _); congruence).
  pose proof Hp as (_ & Hmb & _ & Hra & Hrb & _).
  destruct (Htag i j a b m Hi Hj Hma Hmb) as (Hta & Htb).
  destruct (annotation_of_record ws2 name2 name1 inv2 (list2 st) b R2 E2)
    as (r' & b0 & Hr' & Hbrow & Hbrec & Hbd & Hannb);
    [by eapply list_elem_of_lookup_2|].
  exists i, j, a, b, a0, b0, r'. repeat (split; [done|]). split.
  - unfold out1, c1. rewrite Hann, (status_of_tag _ _ _ _ _ _ Hta), Hra, Hbrow. done.
  - unfold out2, c2. rewrite Hannb, (status_of_tag _ _ _ _ _ _ Htb), Hmb, Hrb, Harow. done.
Qed.

(** A row of the second sheet with a match id is the partner of a row
    of the first. *)
Lemma link_of_row2 r' m :
  2 <= r' <= max_row ws2 -> cell_value out2 r' (c2 + 2) = VInt m ->
  exists r, 2 <= r <= max_row ws1 /\ cell_value out1 r (c1 + 2) = VInt m
    /\ cell_value out1 r (c1 + 3) = VInt (Z.of_nat r').
Proof.
  intros Hrange Hcell.
  destruct (pipeline_engine ws1 ws2 name1 name2 inv1 inv2 tolerance R1 R2)
    as (E1 & E2 & Hwf & Htag & _). fold st in E1, E2, Hwf, Htag.
  destruct (id_cell_record ws2 name2 name1 inv2 (list2 st) r' m R2 E2 Hrange Hcell)
    as (b & b0 & Hbin & Hbrow & Hmb & _).
  apply list_elem_of_lookup in Hbin as [j Hj].
  destruct (wf_right _ _ Hwf j b Hj) as [(Hnone & _) | (m' & i & a & Hi & Hp)];
    [congruence|].
  assert (m' = m) as -> by (destruct Hp as (_ & Hmb' & _); congruence).
  pose proof Hp as (Hma & _ & _ & Hra & _).
  destruct (annotation_of_record ws1 name1 name2 inv1 (list1 st) a R1 E1)
    as (r & a0 & Hr & Harow & _ & _ & Hann);
    [by eapply list_elem_of_lookup_2|].
  exists r. split; [done|]. fold out1 c1 in Hann.
  unfold annotation in Hann. injection Hann as _ H2 H3.
  rewrite H2, H3, Hma, Hra, Hbrow. done.
Qed.

Lemma same_id_same_row1 r r0 m :
  2 <= r <= max_row ws1 -> 2 <= r0 <= max_row ws1 ->
  cell_value out1 r (c1 + 2) = VInt m -> cell_value out1 r0 (c1 + 2) = VInt m ->
  r = r0.
Proof.
  intros Hr Hr0 Hc Hc0.
  destruct (link_of_row1 r m Hr Hc)
    as (i & _ & a & _ & _ & _ & _ & Hi & _ & (Hma & _) & _ & Hrow & _).
  destruct (link_of_row1 r0 m Hr0 Hc0)
    as (i0 & _ & a' & _ & _ & _ & _ & Hi0 & _ & (Hma' & _) & _ & Hrow0 & _).
  destruct (pipeline_engine ws1 ws2 name1 name2 inv1 inv2 tolerance R1 R2)
    as (_ & _ & Hwf & _). fold st in Hwf.
  assert (i = i0) as -> by (by eapply (wf_inj1 _ _ Hwf)).
  assert (a = a') as -> by congruence. lia.
Qed.

Lemma same_id_same_row2 r' r0' m :
  2 <= r' <= max_row ws2 -> 2 <= r0' <= max_row ws2 ->
  cell_value out2 r' (c2 + 2) = VInt m -> cell_value out2 r0' (c2 + 2) = VInt m ->
  r' = r0'.
Proof.
  intros Hr Hr0 Hc Hc0.
  destruct (link_of_row2 r' m Hr Hc) as (r & Hrr & Hid & Hidx).
  destruct (link_of_row2 r0' m Hr0 Hc0) as (r0 & Hrr0 & Hid0 & Hidx0).
  assert (r = r0) as <- by (by eapply same_id_same_row1).
  rewrite Hidx in Hidx0. injection Hidx0. lia.
Qed.
End Linked.

(** ** From the workbook read to the workbook saved *)

Section PipelineProperties.
Context {rt : PyRuntime}.
Implicit Types wb : list (pystr * gmap (nat * nat) PyVal).

Lemma pipeline_sheets path wb ts sheet1 sheet2 tolerance out_file wb' :
  process_reconciliation path wb ts sheet1 sheet2 tolerance = Ok (out_file, wb') ->
  exists name1 name2 ws1 ws2 inv1 inv2,
    read_invoices ws1 (get_header_map ws1) name1 = Ok inv1
    /\ read_invoices ws2 (get_header_map ws2) name2 = Ok inv2
    /\ run_sheets wb wb' sheet1 sheet2 name1 name2 ws1 ws2
         (write_results ws1
            (list1 (match_invoices inv1 inv2 tolerance name1 name2)) name1 name2)
         (write_results ws2
            (list2 (match_invoices inv1 inv2 tolerance name1 name2)) name2 name1).
Proof.
  intros Hrun.
  destruct (pipeline_view _ _ _ _ _ _ _ _ Hrun)
    as (name1 & name2 & ws1 & ws2 & inv1 & inv2 & Hres & _ & G1 & G2 & R1 & R2
        & O1 & O2 & _).
  exists name1, name2, ws1, ws2, inv1, inv2. by repeat split.
Qed.

(** In the saved workbook, the rows with a match id pair up across the
    two sheets: a row of one sheet with id [m] names, in its
    Matched_Row_Idx cell, a row of the other sheet that carries the
    same id and the same status and names it back; and no two rows of
    a sheet carry the same id. *)
Theorem pipeline_cross_reference (path : pystr) (wb : list (pystr * gmap (nat * nat) PyVal))
    (ts : pystr) (sheet1 sheet2 : option pystr) (tolerance : Q)
    (out_file : pystr) (wb' : list (pystr * gmap (nat * nat) PyVal)) :
  process_reconciliation path wb ts sheet1 sheet2 tolerance = Ok (out_file, wb') ->
  exists name1 name2 ws1 ws2 out1 out2,
    run_sheets wb wb' sheet1 sheet2 name1 name2 ws1 ws2 out1 out2
    /\ (forall r m, 2 <= r <= max_row ws1 ->
          cell_value out1 r (max_column ws1 + 2) = VInt m ->
          exists r' t, 2 <= r' <= max_row ws2
            /\ annotation out1 (max_column ws1) r = (VStr t, VInt m, VInt (Z.of_nat r'))
            /\ annotation out2 (max_column ws2) r' = (VStr t, VInt m, VInt (Z.of_nat r)))
    /\ (forall r' m, 2 <= r' <= max_row ws2 ->
          cell_value out2 r' (max_column ws2 + 2) = VInt m ->
          exists r t, 2 <= r <= max_row ws1
            /\ annotation out1 (max_column ws1) r = (VStr t, VInt m, VInt (Z.of_nat r'))
            /\ annotation out2 (max_column ws2) r' = (VStr t, VInt m, VInt (Z.of_nat r)))
    /\ (forall r r0 m, 2 <= r <= max_row ws1 -> 2 <= r0 <= max_row ws1 ->
          cell_value out1 r (max_column ws1 + 2) = VInt m ->
          cell_value out1 r0 (max_column ws1 + 2) = VInt m -> r = r0)
    /\ (forall r' r0' m, 2 <= r' <= max_row ws2 -> 2 <= r0' <= max_row ws2 ->
          cell_value out2 r' (max_column ws2 + 2) = VInt m ->
          cell_value out2 r0' (max_column ws2 + 2) = VInt m -> r' = r0').
Proof.
  intros Hrun.
  destruct (pipeline_sheets _ _ _ _ _ _ _ _ Hrun)
    as (name1 & name2 & ws1 & ws2 & inv1 & inv2 & R1 & R2 & Hsheets).
  eexists name1, name2, ws1, ws2, _, _. split; [exact Hsheets|].
  split; [|split; [|split]].
  - intros r m Hr Hcell.
    destruct (link_of_row1 ws1 ws2 name1 name2 inv1 inv2 tolerance R1 R2 r m Hr Hcell)
      as (_ & _ & a & b & _ & _ & r' & _ & _ & _ & Hr' & _ & _ & _ & _ & _ & _ & A1 & A2).
    by exists r', (tag_of name1 name2 a b).
  - intros r' m Hr' Hcell.
    destruct (link_of_row2 ws1 ws2 name1 name2 inv1 inv2 tolerance R1 R2 r' m Hr' Hcell)
      as (r & Hr & Hid & Hidx).
    destruct (link_of_row1 ws1 ws2 name1 name2 inv1 inv2 tolerance R1 R2 r m Hr Hid)
      as (_ & _ & a & b & _ & _ & r1 & _ & _ & _ & _ & _ & _ & _ & _ & _ & _ & A1 & A2).
    assert (r1 = r') as ->.
    { unfold annotation in A1. injection A1 as _ _ H3. rewrite H3 in Hidx.
      injection Hidx. lia. }
    by exists r, (tag_of name1 name2 a b).
  - intros r r0 m. apply (same_id_same_row1 ws1 ws2 name1 name2 inv1 inv2 tolerance R1 R2).
  - intros r r0 m. apply (same_id_same_row2 ws1 ws2 name1 name2 inv1 inv2 tolerance R1 R2).
Qed.

(** Two rows of the saved workbook, one in each sheet, that carry the
    same match id were read as records with the same head and with
    amounts within the tolerance, and the status written beside both
    is the description that goes with the two GSTINs. *)
Lemma pipeline_match_rational (path : pystr) (wb : list (pystr * gmap (nat * nat) PyVal))
    (ts : pystr) (sheet1 sheet2 : option pystr) (tolerance : Q)
    (out_file : pystr) (wb' : list (pystr * gmap (nat * nat) PyVal)) :
  process_reconciliation path wb ts sheet1 sheet2 tolerance = Ok (out_file, wb') ->
  exists name1 name2 ws1 ws2 out1 out2,
    run_sheets wb wb' sheet1 sheet2 name1 name2 ws1 ws2 out1 out2
    /\ forall r r' m, 2 <= r <= max_row ws1 -> 2 <= r' <= max_row ws2 ->
         cell_value out1 r (max_column ws1 + 2) = VInt m ->
         cell_value out2 r' (max_column ws2 + 2) = VInt m ->
         exists a b,
           row_record ws1 (get_header_map ws1) name1 r a
           /\ row_record ws2 (get_header_map ws2) name2 r' b
           /\ head a = head b /\ within tolerance a b
           /\ cell_value out1 r (max_column ws1 + 1) = VStr (tag_of name1 name2 a b)
           /\ cell_value out2 r' (max_column ws2 + 1) = VStr (tag_of name1 name2 a b).
Proof.
  intros Hrun.
  destruct (pipeline_sheets _ _ _ _ _ _ _ _ Hrun)
    as (name1 & name2 & ws1 & ws2 & inv1 & inv2 & R1 & R2 & Hsheets).
  eexists name1, name2, ws1, ws2, _, _. split; [exact Hsheets|].
  intros r r' m Hr Hr' Hc1 Hc2.
  destruct (link_of_row1 ws1 ws2 name1 name2 inv1 inv2 tolerance R1 R2 r m Hr Hc1)
    as (_ & _ & a & b & a0 & b0 & r1 & _ & _ & Hp & Hr1 & _ & _ & Harec & Had
        & Hbrec & Hbd & A1 & A2).
  assert (r1 = r') as ->.
  { apply (same_id_same_row2 ws1 ws2 name1 name2 inv1 inv2 tolerance R1 R2 r1 r' m);
      try done.
    unfold annotation in A2. by injection A2. }
  destruct Hp as (_ & _ & _ & _ & _ & _ & _ & Hhead & Hwithin).
  exists a0, b0. split; [done|]. split; [done|]. split; [|split; [|split]].
  - by rewrite <- (data_of_head _ _ Had), <- (data_of_head _ _ Hbd).
  - unfold within in *.
    by rewrite <- (data_of_amount _ _ Had), <- (data_of_amount _ _ Hbd).
  - unfold annotation in A1. injection A1 as H1 _ _.
    by rewrite H1, (tag_of_data _ _ _ _ _ _ Had Hbd).
  - unfold annotation in A2. injection A2 as H1 _ _.
    by rewrite H1, (tag_of_data _ _ _ _ _ _ Had Hbd).
Qed.

(** A row of the first sheet and a row of the second that were both
    read as records and are both left without a match id either have
    different heads, or have amounts further apart than the tolerance:
    the run leaves no pair that it could have matched. *)
Lemma pipeline_unmatched_rational (path : pystr) (wb : list (pystr * gmap (nat * nat) PyVal))
    (ts : pystr) (sheet1 sheet2 : option pystr) (tolerance : Q)
    (out_file : pystr) (wb' : list (pystr * gmap (nat * nat) PyVal)) :
  process_reconciliation path wb ts sheet1 sheet2 tolerance = Ok (out_file, wb') ->
  exists name1 name2 ws1 ws2 out1 out2,
    run_sheets wb wb' sheet1 sheet2 name1 name2 ws1 ws2 out1 out2
    /\ forall r r' a b, 2 <= r <= max_row ws1 -> 2 <= r' <= max_row ws2 ->
         row_record ws1 (get_header_map ws1) name1 r a ->
         row_record ws2 (get_header_map ws2) name2 r' b ->
         cell_value out1 r (max_column ws1 + 2) = VNone ->
         cell_value out2 r' (max_column ws2 + 2) = VNone ->
         head a = head b ->
         (tolerance < Qabs (amount a - amount b))%Q.
Proof.
  intros Hrun.
  destruct (pipeline_sheets _ _ _ _ _ _ _ _ Hrun)
    as (name1 & name2 & ws1 & ws2 & inv1 & inv2 & R1 & R2 & Hsheets).
  eexists name1, name2, ws1, ws2, _, _. split; [exact Hsheets|].
  intros r r' a0 b0 Hr Hr' Harec Hbrec Hc1 Hc2 Hhead.
  destruct (pipeline_engine ws1 ws2 name1 name2 inv1 inv2 tolerance R1 R2)
    as (E1 & E2 & _ & _ & Hsat).
  destruct (none_cell_record ws1 name1 name2 inv1 _ r a0 R1 E1 Hr Harec Hc1)
    as (a & [i Hi]%list_elem_of_lookup & _ & Hma & Had).
  destruct (none_cell_record ws2 name2 name1 inv2 _ r' b0 R2 E2 Hr' Hbrec Hc2)
    as (b & [j Hj]%list_elem_of_lookup & _ & Hmb & Hbd).
  apply Qnot_le_lt. intros Hle.
  apply (Hsat i j a b Hi Hj).
  - unfold claimed. by rewrite Hma.
  - unfold claimed. by rewrite Hmb.
  - by rewrite (data_of_head _ _ Had), (data_of_head _ _ Hbd).
  - unfold within. by rewrite (data_of_amount _ _ Had), (data_of_amount _ _ Hbd).
Qed.

(** Every data row of the two reconciled sheets is accounted for: it
    is marked "Ignored/Zero" when no record was read from it, "Missing
    in <other sheet>" when its record found no partner, and otherwise
    it carries one of the four match descriptions, a match id from 1
    and a data row of the other sheet. *)
Lemma pipeline_rows_rational (path : pystr) (wb : list (pystr * gmap (nat * nat) PyVal))
    (ts : pystr) (sheet1 sheet2 : option pystr) (tolerance : Q)
    (out_file : pystr) (wb' : list (pystr * gmap (nat * nat) PyVal)) :
  process_reconciliation path wb ts sheet1 sheet2 tolerance = Ok (out_file, wb') ->
  exists name1 name2 ws1 ws2 out1 out2,
    run_sheets wb wb' sheet1 sheet2 name1 name2 ws1 ws2 out1 out2
    /\ (forall r, 2 <= r <= max_row ws1 ->
          row_outcome (match_tags name1 name2) name2 (max_row ws2)
            (exists a, row_record ws1 (get_header_map ws1) name1 r a)
            (annotation out1 (max_column ws1) r))
    /\ (forall r', 2 <= r' <= max_row ws2 ->
          row_outcome (match_tags name1 name2) name1 (max_row ws1)
            (exists b, row_record ws2 (get_header_map ws2) name2 r' b)
            (annotation out2 (max_column ws2) r')).
Proof.
  intros Hrun.
  destruct (pipeline_sheets _ _ _ _ _ _ _ _ Hrun)
    as (name1 & name2 & ws1 & ws2 & inv1 & inv2 & R1 & R2 & Hsheets).
  eexists name1, name2, ws1, ws2, _, _. split; [exact Hsheets|].
  destruct (pipeline_engine ws1 ws2 name1 name2 inv1 inv2 tolerance R1 R2)
    as (E1 & E2 & Hwf & _ & _).
  split.
  - intros r Hr.
    destruct (annotation_of_row ws1 name1 name2 inv1 _ r R1 E1 Hr)
      as [(a & a0 & [i Hi]%list_elem_of_lookup & Hrow & Hrec & Hd & Hann) | [Hno Hann]].
    2:{ left. split; [|done]. intros [a0 Ha0]. by apply (Hno a0). }
    right. destruct (match_id a) as [m|] eqn:Hm.
    + right. split; [by exists a0|].
      assert (Hcell : cell_value
                (write_results ws1
                   (list1 (match_invoices inv1 inv2 tolerance name1 name2)) name1 name2)
                r (max_column ws1 + 2) = VInt m).
      { unfold annotation in Hann. by injection Hann as _ -> _. }
      destruct (link_of_row1 ws1 ws2 name1 name2 inv1 inv2 tolerance R1 R2 r m Hr Hcell)
        as (_ & _ & x & y & _ & _ & r' & _ & _ & Hp & Hr' & _ & _ & _ & _ & _ & _ & A1 & _).
      exists (tag_of name1 name2 x y), m, r'.
      split; [apply tag_of_in|]. split; [|done].
      destruct Hp as (_ & _ & Hm1 & _). lia.
    + left. split; [by exists a0|].
      destruct (wf_left _ _ Hwf i a Hi) as [Hfresh | (m' & j & b & _ & Hp)].
      * rewrite Hann, (status_of_fresh _ _ Hfresh).
        destruct Hfresh as (_ & _ & ->). done.
      * destruct Hp as (Hma & _). congruence.
  - intros r' Hr'.
    destruct (annotation_of_row ws2 name2 name1 inv2 _ r' R2 E2 Hr')
      as [(b & b0 & [j Hj]%list_elem_of_lookup & Hrow & Hrec & Hd & Hann) | [Hno Hann]].
    2:{ left. split; [|done]. intros [b0 Hb0]. by apply (Hno b0). }
    right. destruct (match_id b) as [m|] eqn:Hm.
    + right. split; [by exists b0|].
      assert (Hcell : cell_value
                (write_results ws2
                   (list2 (match_invoices inv1 inv2 tolerance name1 name2)) name2 name1)
                r' (max_column ws2 + 2) = VInt m).
      { unfold annotation in Hann. by injection Hann as _ -> _. }
      destruct (link_of_row2 ws1 ws2 name1 name2 inv1 inv2 tolerance R1 R2 r' m Hr' Hcell)
        as (r & Hr & Hid & Hidx).
      destruct (link_of_row1 ws1 ws2 name1 name2 inv1 inv2 tolerance R1 R2 r m Hr Hid)
        as (_ & _ & x & y & _ & _ & r1 & _ & _ & Hp & _ & _ & _ & _ & _ & _ & _ & A1 & A2).
      assert (r1 = r') as ->.
      { unfold annotation in A1. injection A1 as _ _ H3. rewrite H3 in Hidx.
        injection Hidx. lia. }
      exists (tag_of name1 name2 x y), m, r.
      split; [apply tag_of_in|]. split; [|done].
      destruct Hp as (_ & _ & Hm1 & _). lia.
    + left. split; [by exists b0|].
      destruct (wf_right _ _ Hwf j b Hj) as [Hfresh | (m' & i & a & _ & Hp)].
      * rewrite Hann, (status_of_fresh _ _ Hfresh).
        destruct Hfresh as (_ & _ & ->). done.
      * destruct Hp as (_ & Hmb & _). congruence.
Qed.

(** What [write_results] leaves as it was. *)
Lemma write_results_frame (ws : gmap (nat * nat) PyVal) (invoices : list Invoice)
    (this_name other_name : pystr) :
  max_row (write_results ws invoices this_name other_name) = max_row ws
  /\ max_column (write_results ws invoices this_name other_name) = max_column ws + 3
  /\ forall r col, col <= max_column ws ->
       cell_value (write_results ws invoices this_name other_name) r col
       = cell_value ws r col.
Proof.
  unfold write_results.
  set (c := max_column ws). set (wsh := write_headers ws c).
  assert (Hmr : max_row wsh = max_row ws) by apply write_headers_max_row.
  assert (Hmc : max_column wsh = c + 3) by (by apply write_headers_max_column).
  destruct (fold_annotate_max (inv_map_of invoices) other_name c
              (seq 2 (max_row wsh - 1)) wsh) as [E1 E2].
  { apply Forall_forall. intros r Hr%elem_of_seq. lia. }
  { lia. }
  split; [by rewrite E1|]. split; [by rewrite E2|].
  intros r col Hcol. unfold cell_value. rewrite fold_annotate_left by done.
  unfold wsh. by rewrite write_headers_left.
Qed.

(** A run keeps the workbook it was given: the saved workbook has the
    same sheets in the same order, the sheets other than the two
    reconciled are untouched, and each of the two keeps its rows and
    every cell of its columns, with three columns added to the right.
    The file is named after the input, without its extension, with
    "_RECON_", the time stamp and ".xlsx" appended. *)
Theorem pipeline_preserves_data (path : pystr) (wb : list (pystr * gmap (nat * nat) PyVal))
    (ts : pystr) (sheet1 sheet2 : option pystr) (tolerance : Q)
    (out_file : pystr) (wb' : list (pystr * gmap (nat * nat) PyVal)) :
  process_reconciliation path wb ts sheet1 sheet2 tolerance = Ok (out_file, wb') ->
  exists name1 name2 ws1 ws2 out1 out2,
    run_sheets wb wb' sheet1 sheet2 name1 name2 ws1 ws2 out1 out2
    /\ (fst <$> wb') = (fst <$> wb)
    /\ (forall n, n <> name1 -> n <> name2 -> wb_get wb' n = wb_get wb n)
    /\ (max_row out1 = max_row ws1 /\ max_column out1 = max_column ws1 + 3
        /\ forall r col, col <= max_column ws1 ->
             cell_value out1 r col = cell_value ws1 r col)
    /\ (max_row out2 = max_row ws2 /\ max_column out2 = max_column ws2 + 3
        /\ forall r col, col <= max_column ws2 ->
             cell_value out2 r col = cell_value ws2 r col)
    /\ out_file = splitext_root path ++ py "_RECON_" ++ ts ++ py ".xlsx".
Proof.
  intros Hrun.
  destruct (pipeline_view _ _ _ _ _ _ _ _ Hrun)
    as (name1 & name2 & ws1 & ws2 & inv1 & inv2 & Hres & _ & G1 & G2 & _ & _
        & O1 & O2 & Hothers & Hnames & Hout).
  eexists name1, name2, ws1, ws2, _, _. split; [by repeat split|].
  split; [done|]. split; [done|].
  split; [apply write_results_frame|]. split; [apply write_results_frame|]. done.
Qed.
End PipelineProperties.

(** ** The sample workbook, reconciled *)

Lemma sample_run :
  exists out_file wb',
    process_reconciliation (rt := Samples.runtime) (py "/uploads/books.xlsx")
      Samples.workbook (py "20240101_000000") None None 1 = Ok (out_file, wb').
Proof.
  destruct (process_reconciliation (rt := Samples.runtime) (py "/uploads/books.xlsx")
              Samples.workbook (py "20240101_000000") None None 1)
    as [[out_file wb']|e] eqn:Hp; [by exists out_file, wb'|].
  vm_compute in Hp. discriminate.
Qed.

Lemma pipeline_cross_reference_witness :
  exists out_file wb',
    process_reconciliation (rt := Samples.runtime) (py "/uploads/books.xlsx")
      Samples.workbook (py "20240101_000000") None None 1 = Ok (out_file, wb')
    /\
    exists name1 name2 ws1 ws2 out1 out2,
      run_sheets (rt := Samples.runtime) Samples.workbook wb' None None name1 name2
        ws1 ws2 out1 out2
      /\ (forall r m, 2 <= r <= max_row ws1 ->
            cell_value out1 r (max_column ws1 + 2) = VInt m ->
            exists r' t, 2 <= r' <= max_row ws2
              /\ annotation out1 (max_column ws1) r = (VStr t, VInt m, VInt (Z.of_nat r'))
              /\ annotation out2 (max_column ws2) r' = (VStr t, VInt m, VInt (Z.of_nat r)))
      /\ (forall r' m, 2 <= r' <= max_row ws2 ->
            cell_value out2 r' (max_column ws2 + 2) = VInt m ->
            exists r t, 2 <= r <= max_row ws1
              /\ annotation out1 (max_column ws1) r = (VStr t, VInt m, VInt (Z.of_nat r'))
              /\ annotation out2 (max_column ws2) r' = (VStr t, VInt m, VInt (Z.of_nat r)))
      /\ (forall r r0 m, 2 <= r <= max_row ws1 -> 2 <= r0 <= max_row ws1 ->
            cell_value out1 r (max_column ws1 + 2) = VInt m ->
            cell_value out1 r0 (max_column ws1 + 2) = VInt m -> r = r0)
      /\ (forall r' r0' m, 2 <= r' <= max_row ws2 -> 2 <= r0' <= max_row ws2 ->
            cell_value out2 r' (max_column ws2 + 2) = VInt m ->
            cell_value out2 r0' (max_column ws2 + 2) = VInt m -> r' = r0').
Proof.
  destruct sample_run as (out_file & wb' & Hp).
  exists out_file, wb'. split; [exact Hp|].
  exact (pipeline_cross_reference (rt := Samples.runtime) _ _ _ _ _ _ _ _ Hp).
Defined.

Lemma pipeline_preserves_data_witness :
  exists out_file wb',
    process_reconciliation (rt := Samples.runtime) (py "/uploads/books.xlsx")
      Samples.workbook (py "20240101_000000") None None 1 = Ok (out_file, wb')
    /\
    exists name1 name2 ws1 ws2 out1 out2,
      run_sheets (rt := Samples.runtime) Samples.workbook wb' None None name1 name2
        ws1 ws2 out1 out2
      /\ (fst <$> wb') = (fst <$> Samples.workbook)
      /\ (forall n, n <> name1 -> n <> name2 -> wb_get wb' n = wb_get Samples.workbook n)
      /\ (max_row out1 = max_row ws1 /\ max_column out1 = max_column ws1 + 3
          /\ forall r col, col <= max_column ws1 ->
               cell_value out1 r col = cell_value ws1 r col)
      /\ (max_row out2 = max_row ws2 /\ max_column out2 = max_column ws2 + 3
          /\ forall r col, col <= max_column ws2 ->
               cell_value out2 r col = cell_value ws2 r col)
      /\ out_file = splitext_root (py "/uploads/books.xlsx") ++ py "_RECON_"
                   ++ py "20240101_000000" ++ py ".xlsx".
Proof.
  destruct sample_run as (out_file & wb' & Hp).
  exists out_file, wb'. split; [exact Hp|].
  exact (pipeline_preserves_data (rt := Samples.runtime) _ _ _ _ _ _ _ _ Hp).
Defined.

(** ** Vocabulary of the order of the phases *)

(** Two GSTINs that do not contradict each other: they are equal, or
    one of them is absent. *)
Definition compatible (a b : Invoice) : Prop :=
  gstin a = gstin b \/ gstin a = [] \/ gstin b = [].

(** Every two records that share a match id are related by [good]. *)
Definition pairs_are (good : Invoice -> Invoice -> Prop) (st : MState) : Prop :=
  forall i j a b m, list1 st !! i = Some a -> list2 st !! j = Some b ->
    match_id a = Some m -> match_id b = Some m -> good a b.

(** * The order of the phases *)

Section LinkPairs.
Variable good : Invoice -> Invoice -> Prop.
Hypothesis good_set : forall a b m d r m' d' r',
  good a b -> good (set_match a m d r) (set_match b m' d' r').

Lemma link_pairs tolerance st i j desc a b :
  wf tolerance st -> pairs_are good st ->
  list1 st !! i = Some a -> list2 st !! j = Some b ->
  good a b -> pairs_are good (link st i j desc).
Proof.
  intros W P Ha Hb Hgood i' j' a' b' m Ha' Hb' Hma Hmb.
  destruct (link_lists st i j desc a b Ha Hb) as (E1 & E2 & _).
  rewrite E1 in Ha'. rewrite E2 in Hb'. clear E1 E2.
  destruct (decide (i' = i)) as [-> | Hi].
  - rewrite list_lookup_insert_eq in Ha' by (by eapply lookup_lt_Some).
    injection Ha' as <-. simpl in Hma. injection Hma as <-.
    destruct (decide (j' = j)) as [-> | Hjne].
    + rewrite list_lookup_insert_eq in Hb' by (by eapply lookup_lt_Some).
      injection Hb' as <-. by apply good_set.
    + rewrite list_lookup_insert_ne in Hb' by done.
      pose proof (wf_id_bound2 _ _ W _ _ _ Hb' Hmb). lia.
  - rewrite list_lookup_insert_ne in Ha' by done.
    destruct (decide (j' = j)) as [-> | Hjne].
    + rewrite list_lookup_insert_eq in Hb' by (by eapply lookup_lt_Some).
      injection Hb' as <-. simpl in Hmb. injection Hmb as <-.
      pose proof (wf_id_bound1 _ _ W _ _ _ Ha' Hma). lia.
    + rewrite list_lookup_insert_ne in Hb' by done. by eapply P.
Qed.
End LinkPairs.

Section Stages.
Variables l1 l2 : list Invoice.
Variable tolerance : Q.
Variables name1 name2 : pystr.
Hypothesis F1 : Forall fresh l1.
Hypothesis F2 : Forall fresh l2.

Let s0 := initial_state l1 l2.
Let s1 := phase1 tolerance s0.
Let s2a := phase2a tolerance name2 s1.
Let s2 := phases12 l1 l2 tolerance name1 name2.
Let st := match_invoices l1 l2 tolerance name1 name2.

Lemma initial_pairs good : pairs_are good s0.
Proof.
  intros i j a b m Ha _ Hma _. simpl in Ha.
  destruct (Forall_lookup_1 _ _ _ _ F1 Ha) as (Hn & _). congruence.
Qed.

(** Phase 1 links records of equal GSTIN only. *)
Lemma phase1_pairs :
  wf tolerance s1 /\ pairs_are (fun a b => gstin a = gstin b) s1.
Proof.
  assert (C0 : (1 <= match_counter s0)%Z) by (simpl; lia).
  unfold s1, phase1, phase1_step. rewrite for_each_before.
  apply (claim_loop_invariant _ kind1 _ _ _ _
           (fun s => wf tolerance s /\ pairs_are (fun a b => gstin a = gstin b) s));
    [apply map2_elem | done | | split; [by apply initial_wf | apply initial_pairs]].
  intros s i j a b [W P] Hc Ha Hb Hca Hcb _ Hk Hw.
  split; [eapply link_wf; eauto; by apply kind1_head|].
  eapply link_pairs; eauto.
  unfold kind1, key1 in Hk. apply bool_decide_eq_true in Hk. congruence.
Qed.

(** Phases 1 and 2 link records of compatible GSTINs only. *)
Lemma phases12_pairs : wf tolerance s2 /\ pairs_are compatible s2.
Proof.
  destruct (run_counters l1 l2 tolerance name1 name2) as (C1 & C2 & C3 & _).
  assert (C0 : (1 <= match_counter s0)%Z) by (simpl; lia).
  assert (Hset : forall a b m d r m' d' r',
            compatible a b -> compatible (set_match a m d r) (set_match b m' d' r'))
    by done.
  assert (H1 : wf tolerance s1 /\ pairs_are compatible s1).
  { unfold s1, phase1, phase1_step. rewrite for_each_before.
    apply (claim_loop_invariant _ kind1 _ _ _ _
             (fun s => wf tolerance s /\ pairs_are compatible s));
      [apply map2_elem | done | | split; [by apply initial_wf | apply initial_pairs]].
    intros s i j a b [W P] Hc Ha Hb Hca Hcb _ Hk Hw.
    split; [eapply link_wf; eauto; by apply kind1_head|].
    eapply link_pairs; eauto. left.
    unfold kind1, key1 in Hk. apply bool_decide_eq_true in Hk. congruence. }
  assert (H2 : wf tolerance s2a /\ pairs_are compatible s2a).
  { unfold s2a, phase2a, phase2a_step. rewrite for_each_before.
    apply (claim_loop_invariant _ kind2a _ _ _ _
             (fun s => wf tolerance s /\ pairs_are compatible s));
      [apply map2_no_gstin_elem | done | | done].
    intros s i j a b [W P] Hc Ha Hb Hca Hcb Hsk Hk Hw.
    split; [eapply link_wf; eauto; by apply kind2a_head|].
    eapply link_pairs; eauto. right; right.
    unfold kind2a in Hk. apply andb_true_iff in Hk as [Hg _].
    apply negb_true_iff in Hg. by apply nonempty_false. }
  unfold s2, phases12, phase2b, phase2b_step. rewrite for_each_before.
  apply (claim_loop_invariant _ kind2b _ _ _ _
           (fun s => wf tolerance s /\ pairs_are compatible s));
    [apply map2_with_gstin_elem | done | | done].
  intros s i j a b [W P] Hc Ha Hb Hca Hcb Hsk Hk Hw.
  split; [eapply link_wf; eauto; by apply kind2b_head|].
  eapply link_pairs; eauto. right; left.
  by apply nonempty_false.
Qed.
End Stages.

Section StagePriority.
Variable tolerance : Q.
Variable good : Invoice -> Invoice -> Prop.
Variables s st : MState.
Hypothesis Hev : evolves s st.
Hypothesis Hwf : wf tolerance s.
Hypothesis Hpairs : pairs_are good s.
Hypothesis good_data : forall a a' b b',
  data_of a = data_of a' -> data_of b = data_of b' -> good a b -> good a' b'.
Hypothesis Hsat : forall i j a b,
  list1 s !! i = Some a -> list2 s !! j = Some b ->
  claimed a = false -> claimed b = false ->
  head a = head b -> within tolerance a b -> ~ good a b.

Lemma claimed_stays a a' : rec_evolves a a' -> claimed a = true -> a' = a.
Proof. intros [-> | (Hc & _)] H; [done | congruence]. Qed.

(** Of two records that the phases up to [s] could have linked, one
    at least was linked by them, to a partner of the same sort. *)
Lemma stage_priority i j a b :
  list1 st !! i = Some a -> list2 st !! j = Some b ->
  head a = head b -> within tolerance a b -> good a b ->
  (exists j' b' m, list2 st !! j' = Some b'
      /\ match_id a = Some m /\ match_id b' = Some m /\ good a b')
  \/ (exists i' a' m, list1 st !! i' = Some a'
      /\ match_id a' = Some m /\ match_id b = Some m /\ good a' b).
Proof.
  intros Ha Hb Hh Hw Hg.
  destruct (evolves_lookup1 _ _ _ _ Hev Ha) as (a2 & Ha2 & Hra).
  destruct (evolves_lookup2 _ _ _ _ Hev Hb) as (b2 & Hb2 & Hrb).
  destruct (claimed a2) eqn:Hca; [|destruct (claimed b2) eqn:Hcb].
  - left. rewrite (claimed_stays _ _ Hra Hca) in *. clear Hra.
    destruct (wf_left _ _ Hwf i a2 Ha2) as [Hf | (m & j' & b' & Hj' & Hp)].
    { apply fresh_unclaimed in Hf. congruence. }
    pose proof Hp as (Hma & Hmb & Hm & _).
    destruct (evolves_lookup2_fwd _ _ _ _ Hev Hj') as (b'' & Hb'' & Hrb').
    rewrite (claimed_stays _ _ Hrb') in Hb'' by (apply (claimed_pos b' m Hmb); lia).
    exists j', b', m. repeat (split; [done|]). by eapply Hpairs.
  - right. rewrite (claimed_stays _ _ Hrb Hcb) in *. clear Hrb.
    destruct (wf_right _ _ Hwf j b2 Hb2) as [Hf | (m & i' & a' & Hi' & Hp)].
    { apply fresh_unclaimed in Hf. congruence. }
    pose proof Hp as (Hma & Hmb & Hm & _).
    destruct (evolves_lookup1_fwd _ _ _ _ Hev Hi') as (a'' & Ha'' & Hra').
    rewrite (claimed_stays _ _ Hra') in Ha'' by (apply (claimed_pos a' m Hma); lia).
    exists i', a', m. repeat (split; [done|]). by eapply Hpairs.
  - exfalso.
    pose proof (rec_evolves_data _ _ Hra) as Hda.
    pose proof (rec_evolves_data _ _ Hrb) as Hdb.
    apply (Hsat i j a2 b2 Ha2 Hb2 Hca Hcb).
    + by rewrite <- (data_of_head _ _ Hda), <- (data_of_head _ _ Hdb).
    + unfold within in *.
      by rewrite <- (data_of_amount _ _ Hda), <- (data_of_amount _ _ Hdb).
    + by apply (good_data a a2 b b2).
Qed.
End StagePriority.

Lemma tag_of_equal name1 name2 a b :
  gstin a = gstin b -> tag_of name1 name2 a b = perfect_match.
Proof. intros H. unfold tag_of. by rewrite bool_decide_true. Qed.

Lemma tag_of_compatible name1 name2 a b :
  compatible a b ->
  tag_of name1 name2 a b ∈ [perfect_match; missing_gstin_in name2; missing_gstin_in name1].
Proof.
  intros Hc. unfold tag_of. case_bool_decide as He; [by left|].
  destruct (nonempty (gstin b)) eqn:Hb; simpl; [|right; by left].
  destruct (nonempty (gstin a)) eqn:Ha; simpl; [|right; right; by left].
  apply nonempty_true in Ha, Hb. by destruct Hc as [? | [? | ?]].
Qed.

(** The phases run from the strongest kind of match to the weakest,
    and a stronger match is never given up for a weaker one.  Of two
    records of equal head and amounts within tolerance, one in each
    list: when their GSTINs are equal, one at least ends as a "Perfect
    Match"; when their GSTINs are equal or one of them is absent, one
    at least ends with one of the descriptions of Phases 1 and 2,
    "Perfect Match" or "Match (Missing GSTIN in ...)". *)
Lemma match_priority_rational (l1 l2 : list Invoice) (tolerance : Q) (name1 name2 : pystr)
    (i j : nat) (a b : Invoice) :
  Forall fresh l1 -> Forall fresh l2 ->
  list1 (match_invoices l1 l2 tolerance name1 name2) !! i = Some a ->
  list2 (match_invoices l1 l2 tolerance name1 name2) !! j = Some b ->
  head a = head b -> within tolerance a b ->
  (gstin a = gstin b ->
     match_type a = Some perfect_match \/ match_type b = Some perfect_match)
  /\ (compatible a b ->
        exists t, t ∈ [perfect_match; missing_gstin_in name2; missing_gstin_in name1]
          /\ (match_type a = Some t \/ match_type b = Some t)).
Proof.
  intros F1 F2 Ha Hb Hh Hw.
  destruct (run_tagged l1 l2 tolerance name1 name2 F1 F2) as [_ Htag].
  destruct (run_evolves l1 l2 tolerance name1 name2) as (E01 & E12 & E23 & E34).
  assert (C0 : (1 <= match_counter (initial_state l1 l2))%Z) by (simpl; lia).
  split.
  - intros Hg.
    destruct (phase1_pairs l1 l2 tolerance F1 F2) as [W1 P1].
    destruct (stage_priority tolerance (fun a b => gstin a = gstin b)
                (phase1 tolerance (initial_state l1 l2))
                (match_invoices l1 l2 tolerance name1 name2)) with (i := i) (j := j)
                (a := a) (b := b)
      as [(j' & b' & m & Hb' & Hma & Hmb & Hgood) | (i' & a' & m & Ha' & Hma & Hmb & Hgood)];
      try done.
    + by repeat (etrans; [eassumption|]).
    + intros x x' y y' Hx%data_of_gstin Hy%data_of_gstin. congruence.
    + intros i0 j0 x y Hx Hy Hcx Hcy Hhead Hwithin Hsame.
      apply (phase1_saturated tolerance _ C0 i0 x Hx Hcx j0 y Hy Hcy); [|done].
      unfold kind1, key1. apply bool_decide_eq_true. congruence.
    + left. destruct (Htag i j' a b' m Ha Hb' Hma Hmb) as [-> _].
      by rewrite tag_of_equal.
    + right. destruct (Htag i' j a' b m Ha' Hb Hma Hmb) as [_ ->].
      by rewrite tag_of_equal.
  - intros Hg.
    destruct (phases12_pairs l1 l2 tolerance name1 name2 F1 F2) as [W2 P2].
    destruct (stage_priority tolerance compatible
                (phases12 l1 l2 tolerance name1 name2)
                (match_invoices l1 l2 tolerance name1 name2)) with (i := i) (j := j)
                (a := a) (b := b)
      as [(j' & b' & m & Hb' & Hma & Hmb & Hgood) | (i' & a' & m & Ha' & Hma & Hmb & Hgood)];
      try done.
    + intros x x' y y' Hx%data_of_gstin Hy%data_of_gstin. unfold compatible. by rewrite Hx, Hy.
    + intros i0 j0 x y Hx Hy Hcx Hcy Hhead Hwithin Hcomp.
      destruct (settled_pair_gstins tolerance _ i0 j0 x y
                  (phases12_settled l1 l2 tolerance name1 name2) Hx Hcx Hy Hcy)
        as (Gx & Gy & Gxy); [done | done |].
      by destruct Hcomp as [? | [? | ?]].
    + exists (tag_of name1 name2 a b'). split; [by apply tag_of_compatible|].
      left. by destruct (Htag i j' a b' m Ha Hb' Hma Hmb) as [-> _].
    + exists (tag_of name1 name2 a' b). split; [by apply tag_of_compatible|].
      right. by destruct (Htag i' j a' b m Ha' Hb Hma Hmb) as [_ ->].
Qed.

(** ** Vocabulary of the detection of the two sheets *)

Section DetectionVocabulary.
Context {rt : PyRuntime}.

(** Some sheet is of kind [k]. *)
Definition has_kind (k : SheetKind) (sheets : list pystr) : Prop :=
  exists s, s ∈ sheets /\ classify_sheet s = k.

(** [n] is the first sheet of kind [k], in the order of the workbook. *)
Definition first_of_kind (k : SheetKind) (sheets : list pystr) (n : pystr) : Prop :=
  exists pre post, sheets = pre ++ n :: post /\ classify_sheet n = k
    /\ Forall (fun s => classify_sheet s <> k) pre.

(** Two of the three kinds that the detection pairs are present. *)
Definition two_kinds (sheets : list pystr) : Prop :=
  (has_kind BOOKS sheets /\ has_kind GSTR2B sheets)
  \/ (has_kind BOOKS sheets /\ has_kind GSTR3B sheets)
  \/ (has_kind GSTR3B sheets /\ has_kind GSTR2B sheets).
End DetectionVocabulary.

(** * The detection of the two sheets *)

Section DetectionFacts.
Context {rt : PyRuntime}.

Lemma sheets_of_kind_first k sheets n :
  sheets_of_kind k sheets !! 0 = Some n -> first_of_kind k sheets n.
Proof.
  unfold sheets_of_kind, first_of_kind.
  induction sheets as [|s sheets IH]; [done|]. simpl.
  case_bool_decide as Hs; simpl.
  - intros [= ->]. exists [], sheets. by repeat split.
  - intros H. destruct (IH H) as (pre & post & -> & Hn & Hpre).
    exists (s :: pre), post. repeat split; [done|]. by constructor.
Qed.

Lemma sheets_of_kind_nonempty k sheets :
  nonempty (sheets_of_kind k sheets) = true <-> has_kind k sheets.
Proof.
  unfold sheets_of_kind, has_kind.
  induction sheets as [|s sheets IH]; simpl.
  - split; [done|]. intros (s & Hs%elem_of_nil & _). done.
  - case_bool_decide as Hs; simpl.
    + split; [|done]. intros _. exists s. split; [by left | done].
    + rewrite IH. split.
      * intros (x & Hx & Hk). exists x. split; [by right | done].
      * intros (x & [-> | Hx]%elem_of_cons & Hk); [done|]. by exists x.
Qed.

Lemma sheets_of_kind_empty k sheets :
  nonempty (sheets_of_kind k sheets) = false <-> ~ has_kind k sheets.
Proof.
  rewrite <- sheets_of_kind_nonempty. by destruct (nonempty (sheets_of_kind k sheets)).
Qed.

Lemma first_of_kind_elem k sheets n : first_of_kind k sheets n -> n ∈ sheets.
Proof.
  intros (pre & post & -> & _). apply elem_of_app. right. by left.
Qed.

Lemma first_of_kind_kind k sheets n : first_of_kind k sheets n -> classify_sheet n = k.
Proof. by intros (pre & post & _ & ? & _). Qed.

Lemma not_given_name (sheet : option pystr) n :
  name_given sheet = false -> sheet = Some n -> n = [].
Proof. intros H ->. simpl in H. by apply nonempty_false. Qed.

(** The names that the detection block leaves, when the caller gave
    none and two names were found. *)
Lemma detected_names sheets sheet1 sheet2 n1 n2 :
  name_given sheet1 = false -> name_given sheet2 = false ->
  resolve_names sheets sheet1 sheet2 = (Some n1, Some n2) ->
  n1 <> [] -> n2 <> [] ->
  (first_of_kind BOOKS sheets n1 /\ first_of_kind GSTR2B sheets n2)
  \/ (first_of_kind BOOKS sheets n1 /\ first_of_kind GSTR3B sheets n2
      /\ ~ has_kind GSTR2B sheets)
  \/ (first_of_kind GSTR3B sheets n1 /\ first_of_kind GSTR2B sheets n2
      /\ ~ has_kind BOOKS sheets)
  \/ (sheets = [n1; n2] /\ ~ two_kinds sheets).
Proof.
  intros G1 G2 Hres N1 N2. unfold resolve_names in Hres.
  rewrite G1, G2 in Hres. simpl in Hres.
  destruct (nonempty (sheets_of_kind BOOKS sheets)) eqn:HB;
    destruct (nonempty (sheets_of_kind GSTR2B sheets)) eqn:HT;
    destruct (nonempty (sheets_of_kind GSTR3B sheets)) eqn:HR; simpl in Hres;
    try (apply sheets_of_kind_empty in HB); try (apply sheets_of_kind_empty in HT);
    try (apply sheets_of_kind_empty in HR).
  1,2: left; injection Hres as H1 H2; split; by apply sheets_of_kind_first.
  1: right; left; injection Hres as H1 H2;
     (split; [by apply sheets_of_kind_first|]); split; [by apply sheets_of_kind_first | done].
  2: right; right; left; injection Hres as H1 H2;
     (split; [by apply sheets_of_kind_first|]); split; [by apply sheets_of_kind_first | done].
  all: right; right; right.
  all: destruct (length sheets =? 2) eqn:Hlen;
    [|injection Hres as H1 H2; destruct N1; exact (not_given_name sheet1 n1 G1 H1)].
  all: apply Nat.eqb_eq in Hlen; destruct sheets as [|x [|y [|z sheets]]]; try done.
  all: injection Hres as -> ->; split; [done|].
  all: unfold two_kinds; tauto.
Qed.
End DetectionFacts.

Section Detection.
Context {rt : PyRuntime}.

Lemma kinds_differ (n1 n2 : pystr) :
  classify_sheet n1 <> classify_sheet n2 -> n1 <> n2.
Proof. intros H ->. done. Qed.

(** When the caller names no sheet, the two sheets are found by kind:
    a books sheet against a 2B sheet, else a books sheet against a 3B
    sheet, else a 3B sheet against a 2B sheet, each the first of its
    kind in the workbook; failing that, a workbook of exactly two
    sheets gives its two sheets in order.  The names found are sheets
    of the workbook, and two sheets found by kind are different.
    Nothing is found only when fewer than two kinds are present and
    the workbook does not have exactly two sheets. *)
Theorem auto_detection (sheets : list pystr) (sheet1 sheet2 : option pystr) :
  name_given sheet1 = false -> name_given sheet2 = false ->
  (forall n1 n2,
     resolve_names sheets sheet1 sheet2 = (Some n1, Some n2) -> n1 <> [] -> n2 <> [] ->
     n1 ∈ sheets /\ n2 ∈ sheets /\ (two_kinds sheets -> n1 <> n2)
     /\ ((first_of_kind BOOKS sheets n1 /\ first_of_kind GSTR2B sheets n2)
         \/ (first_of_kind BOOKS sheets n1 /\ first_of_kind GSTR3B sheets n2
             /\ ~ has_kind GSTR2B sheets)
         \/ (first_of_kind GSTR3B sheets n1 /\ first_of_kind GSTR2B sheets n2
             /\ ~ has_kind BOOKS sheets)
         \/ (sheets = [n1; n2] /\ ~ two_kinds sheets)))
  /\ (two_kinds sheets \/ length sheets = 2 ->
        exists n1 n2, resolve_names sheets sheet1 sheet2 = (Some n1, Some n2)
          /\ n1 ∈ sheets /\ n2 ∈ sheets)
  /\ (~ two_kinds sheets -> length sheets <> 2 ->
        resolve_names sheets sheet1 sheet2 = (sheet1, sheet2)).
Proof.
  intros G1 G2. split; [|split].
  - intros n1 n2 Hres N1 N2.
    destruct (detected_names sheets sheet1 sheet2 n1 n2 G1 G2 Hres N1 N2)
      as [(F1 & F2) | [(F1 & F2 & Hno) | [(F1 & F2 & Hno) | (Hs & Hno)]]].
    + split; [by eapply first_of_kind_elem|]. split; [by eapply first_of_kind_elem|].
      split; [|by left]. intros _. apply kinds_differ.
      by rewrite (first_of_kind_kind _ _ _ F1), (first_of_kind_kind _ _ _ F2).
    + split; [by eapply first_of_kind_elem|]. split; [by eapply first_of_kind_elem|].
      split; [|right; by left]. intros _. apply kinds_differ.
      by rewrite (first_of_kind_kind _ _ _ F1), (first_of_kind_kind _ _ _ F2).
    + split; [by eapply first_of_kind_elem|]. split; [by eapply first_of_kind_elem|].
      split; [|right; right; by left]. intros _. apply kinds_differ.
      by rewrite (first_of_kind_kind _ _ _ F1), (first_of_kind_kind _ _ _ F2).
    + subst sheets. split; [by left|]. split; [right; by left|].
      split; [done|]. right; right; right. done.
  - intros Hfound. unfold resolve_names. rewrite G1, G2. simpl.
    destruct (nonempty (sheets_of_kind BOOKS sheets)) eqn:HB;
      destruct (nonempty (sheets_of_kind GSTR2B sheets)) eqn:HT;
      destruct (nonempty (sheets_of_kind GSTR3B sheets)) eqn:HR; simpl.
    1,2: destruct (sheets_of_kind BOOKS sheets !! 0) as [n1|] eqn:E1;
      [|by destruct (sheets_of_kind BOOKS sheets)];
      destruct (sheets_of_kind GSTR2B sheets !! 0) as [n2|] eqn:E2;
      [|by destruct (sheets_of_kind GSTR2B sheets)];
      exists n1, n2; split; [done|];
      split; eapply first_of_kind_elem; by apply sheets_of_kind_first.
    1: destruct (sheets_of_kind BOOKS sheets !! 0) as [n1|] eqn:E1;
      [|by destruct (sheets_of_kind BOOKS sheets)];
      destruct (sheets_of_kind GSTR3B sheets !! 0) as [n2|] eqn:E2;
      [|by destruct (sheets_of_kind GSTR3B sheets)];
      exists n1, n2; split; [done|];
      split; eapply first_of_kind_elem; by apply sheets_of_kind_first.
    2: destruct (sheets_of_kind GSTR3B sheets !! 0) as [n1|] eqn:E1;
      [|by destruct (sheets_of_kind GSTR3B sheets)];
      destruct (sheets_of_kind GSTR2B sheets !! 0) as [n2|] eqn:E2;
      [|by destruct (sheets_of_kind GSTR2B sheets)];
      exists n1, n2; split; [done|];
      split; eapply first_of_kind_elem; by apply sheets_of_kind_first.
    all: try (apply sheets_of_kind_empty in HB); try (apply sheets_of_kind_empty in HT);
      try (apply sheets_of_kind_empty in HR).
    all: destruct Hfound as [Htwo | Hlen]; [unfold two_kinds in Htwo; tauto|].
    all: rewrite Hlen; simpl; destruct sheets as [|x [|y [|z sheets]]]; try done.
    all: exists x, y; split; [done|]; split; [by left | right; by left].
  - intros Hno Hlen. unfold resolve_names. rewrite G1, G2. simpl.
    assert (HB : nonempty (sheets_of_kind BOOKS sheets)
                 && nonempty (sheets_of_kind GSTR2B sheets) = false).
    { apply not_true_is_false. intros [H1 H2]%andb_true_iff.
      apply sheets_of_kind_nonempty in H1, H2. apply Hno. by left. }
    assert (HR : nonempty (sheets_of_kind BOOKS sheets)
                 && nonempty (sheets_of_kind GSTR3B sheets) = false).
    { apply not_true_is_false. intros [H1 H2]%andb_true_iff.
      apply sheets_of_kind_nonempty in H1, H2. apply Hno. right. by left. }
    assert (HT : nonempty (sheets_of_kind GSTR3B sheets)
                 && nonempty (sheets_of_kind GSTR2B sheets) = false).
    { apply not_true_is_false. intros [H1 H2]%andb_true_iff.
      apply sheets_of_kind_nonempty in H1, H2. apply Hno. right. by right. }
    rewrite HB, HR, HT. by rewrite (proj2 (Nat.eqb_neq _ _) Hlen).
Qed.
End Detection.

Lemma auto_detection_witness :
  name_given (None : option pystr) = false
  /\ exists n1 n2,
       resolve_names (rt := Samples.runtime) (fst <$> Samples.workbook) None None
       = (Some n1, Some n2)
       /\ n1 ∈ (fst <$> Samples.workbook) /\ n2 ∈ (fst <$> Samples.workbook).
Proof.
  split; [reflexivity|].
  destruct (auto_detection (rt := Samples.runtime) (fst <$> Samples.workbook) None None
              eq_refl eq_refl) as (_ & Hfound & _).
  apply Hfound. right. reflexivity.
Defined.

Section DetectionErrors.
Context {rt : PyRuntime}.

Lemma detected_distinct sheets sheet1 sheet2 n1 n2 :
  name_given sheet1 = false -> name_given sheet2 = false ->
  resolve_names sheets sheet1 sheet2 = (Some n1, Some n2) ->
  n1 <> [] -> n2 <> [] ->
  n1 ∈ sheets /\ n2 ∈ sheets /\ (NoDup sheets -> n1 <> n2).
Proof.
  intros G1 G2 Hres N1 N2.
  destruct (detected_names sheets sheet1 sheet2 n1 n2 G1 G2 Hres N1 N2)
    as [(F1 & F2) | [(F1 & F2 & _) | [(F1 & F2 & _) | (Hs & _)]]].
  1-3: split; [by eapply first_of_kind_elem|]; split; [by eapply first_of_kind_elem|];
    intros _; apply kinds_differ;
    by rewrite (first_of_kind_kind _ _ _ F1), (first_of_kind_kind _ _ _ F2).
  subst sheets. split; [by left|]. split; [right; by left|].
  intros [Hnot _]%NoDup_cons Heq. apply Hnot. rewrite Heq. by left.
Qed.

Lemma validate_map_message m sheet_name msg :
  validate_map m sheet_name = Raise (ValueError msg) ->
  msg = msg_missing_gstin sheet_name \/ msg = msg_no_tax sheet_name.
Proof.
  unfold validate_map.
  destruct (negb (has_col m "gstin")); [intros [= <-]; by left|].
  destruct (negb (has_col m "igst" || has_col m "cgst" || has_col m "sgst"));
    [intros [= <-]; by right | done].
Qed.

(** When the caller names no sheet and the workbook's sheet names are
    distinct, a run that fails on its configuration fails either
    because no two sheets were found or because one of the two sheets
    found lacks its columns: the two sheets found are always different
    sheets of the workbook. *)
Theorem auto_detection_errors (path : pystr) (wb : list (pystr * gmap (nat * nat) PyVal))
    (ts : pystr) (sheet1 sheet2 : option pystr) (tolerance : Q) (msg : pystr) :
  name_given sheet1 = false -> name_given sheet2 = false ->
  NoDup (fst <$> wb) ->
  process_reconciliation path wb ts sheet1 sheet2 tolerance = Raise (ValueError msg) ->
  msg = msg_no_sheets (fst <$> wb)
  \/ exists n, n ∈ (fst <$> wb) /\ (msg = msg_missing_gstin n \/ msg = msg_no_tax n).
Proof.
  intros G1 G2 Hnd. unfold process_reconciliation.
  destruct (resolve_names (fst <$> wb) sheet1 sheet2) as [[n1|] [n2|]] eqn:Hres;
    try (intros [= <-]; by left).
  destruct (nonempty n1) eqn:N1; simpl; [|intros [= <-]; by left].
  destruct (nonempty n2) eqn:N2; simpl; [|intros [= <-]; by left].
  apply nonempty_true in N1, N2.
  destruct (detected_distinct (fst <$> wb) sheet1 sheet2 n1 n2 G1 G2 Hres N1 N2)
    as (In1 & In2 & Hne).
  specialize (Hne Hnd).
  rewrite bool_decide_false by done.
  destruct (proj2 (wb_get_Some wb n1) In1) as [ws1 ->].
  destruct (proj2 (wb_get_Some wb n2) In2) as [ws2 ->].
  destruct (validate_map (get_header_map ws1) n1) as [[]|e1] eqn:V1; simpl.
  2:{ intros [= ->]. right. exists n1. split; [done|]. by eapply validate_map_message. }
  destruct (validate_map (get_header_map ws2) n2) as [[]|e2] eqn:V2; simpl.
  2:{ intros [= ->]. right. exists n2. split; [done|]. by eapply validate_map_message. }
  destruct (read_invoices ws1 (get_header_map ws1) n1) as [inv1|e1] eqn:R1; simpl.
  2:{ intros [= ->]. by destruct (read_invoices_raises _ _ _ _ R1). }
  destruct (read_invoices ws2 (get_header_map ws2) n2) as [inv2|e2] eqn:R2; simpl.
  2:{ intros [= ->]. by destruct (read_invoices_raises _ _ _ _ R2). }
  done.
Qed.
End DetectionErrors.

Lemma auto_detection_errors_witness :
  exists msg,
    process_reconciliation (rt := Samples.runtime) (py "/uploads/books.xlsx")
      Samples.no_gstin_workbook (py "20240101_000000") None None 1
    = Raise (ValueError msg)
    /\ (msg = msg_no_sheets (rt := Samples.runtime) (fst <$> Samples.no_gstin_workbook)
        \/ exists n, n ∈ (fst <$> Samples.no_gstin_workbook)
             /\ (msg = msg_missing_gstin n \/ msg = msg_no_tax n)).
Proof.
  exists (msg_missing_gstin (py "Purchase Register")).
  assert (Hrun : process_reconciliation (rt := Samples.runtime) (py "/uploads/books.xlsx")
                   Samples.no_gstin_workbook (py "20240101_000000") None None 1
                 = Raise (ValueError (msg_missing_gstin (py "Purchase Register"))))
    by (vm_compute; reflexivity).
  assert (Hnd : NoDup (fst <$> Samples.no_gstin_workbook))
    by (apply (bool_decide_unpack _); vm_compute; exact I).
  split; [exact Hrun|].
  exact (auto_detection_errors (rt := Samples.runtime) (py "/uploads/books.xlsx")
           Samples.no_gstin_workbook (py "20240101_000000") None None 1 _
           eq_refl eq_refl Hnd Hrun).
Defined.

(** * The download route *)

Section DownloadFacts.
Variable path_exists : pystr -> bool.
Variable abspath : pystr -> pystr.

Lemma path_join_absolute a b : path_join a (47%N :: b) = 47%N :: b.
Proof. done. Qed.

Lemma path_join_relative (c : N) (b : pystr) :
  c <> 47%N -> path_join UPLOAD_FOLDER (c :: b) = py "uploads/" ++ c :: b.
Proof.
  intros Hc. unfold path_join.
  destruct c as [|p]; [done|].
  repeat (destruct p as [p|p|]; try done).
Qed.

(** [download] is not confined to the upload folder.  It sends only
    files that exist; but a name that starts with [/] is looked up as
    it stands, so that any existing file of the server is sent when
    asked for by its absolute path.  A relative name is looked up
    under "uploads/" first, then from the working directory, and the
    answer is 404 only when neither exists. *)
Theorem download_not_confined (filename : pystr) :
  filename <> [] ->
  (forall p, download path_exists abspath (Some filename) = SendFile p ->
     path_exists p = true
     /\ (p = path_join UPLOAD_FOLDER filename \/ p = abspath filename))
  /\ (forall rest, filename = 47%N :: rest -> path_exists filename = true ->
        download path_exists abspath (Some filename) = SendFile filename)
  /\ (forall c rest, filename = c :: rest -> c <> 47%N ->
        path_exists (py "uploads/" ++ filename) = true ->
        download path_exists abspath (Some filename)
        = SendFile (py "uploads/" ++ filename))
  /\ (download path_exists abspath (Some filename) = Text (py "File not found") 404
      <-> path_exists (path_join UPLOAD_FOLDER filename) = false
          /\ path_exists (abspath filename) = false).
Proof.
  intros Hne. apply nonempty_true in Hne as Hn. unfold download. rewrite Hn. cbn [negb]. cbv zeta.
  split; [|split; [|split]].
  - intros p.
    destruct (path_exists (path_join UPLOAD_FOLDER filename)) eqn:E1; cbn [negb].
    + intros [= <-]. split; [done | by left].
    + destruct (path_exists (abspath filename)) eqn:E2; [|done].
      intros [= <-]. split; [done | by right].
  - intros rest -> Hex. rewrite path_join_absolute. by rewrite Hex.
  - intros c rest -> Hc Hex. rewrite (path_join_relative c rest Hc). by rewrite Hex.
  - destruct (path_exists (path_join UPLOAD_FOLDER filename)) eqn:E1; cbn [negb].
    + split; [done | by intros [? _]].
    + destruct (path_exists (abspath filename)) eqn:E2; [|done].
      split; [done | by intros [_ ?]].
Qed.
End DownloadFacts.

Lemma download_not_confined_witness :
  py "/etc/passwd" <> []
  /\ download (fun p => bool_decide (p = py "/etc/passwd")) (fun p => py "/srv/app/" ++ p)
       (Some (py "/etc/passwd"))
     = SendFile (py "/etc/passwd").
Proof.
  assert (Hne : py "/etc/passwd" <> []) by done.
  split; [exact Hne|].
  destruct (download_not_confined (fun p => bool_decide (p = py "/etc/passwd"))
              (fun p => py "/srv/app/" ++ p) (py "/etc/passwd") Hne)
    as (_ & Habs & _).
  apply (Habs (py "etc/passwd")); reflexivity.
Defined.

(** * Runs with any float as the tolerance *)

(** ** Vocabulary *)


(** A magnitude that a float holds: [10 ** 308] is below the largest
    double, so a decimal text of such a value is not read as [inf]. *)
Definition float_range (x : Q) : Prop := (Qabs x <= inject_Z (10 ^ 308))%Q.

(** A text of ASCII characters. *)
Definition is_ascii (text : pystr) : Prop := Forall (fun c => (c < 128)%N) text.

(** Two records of the same GSTIN, of the same head, 6995 apart. *)
Module NanRun.
Definition l1 : list Invoice := [Scenarios.rec 2 "G1" IGST 5 "A"].
Definition l2 : list Invoice := [Scenarios.rec 2 "G1" IGST 7000 "B"].
End NanRun.

(** ** A finite tolerance gives the run on rationals *)



Lemma fold_left_pointwise {A B} (f g : A -> B -> A) (l : list B) (s : A) :
  (forall s x, f s x = g s x) -> fold_left f l s = fold_left g l s.
Proof.
  intros H. revert s. induction l as [|x l IH]; intros s; [done|].
  simpl. by rewrite H, IH.
Qed.

Lemma for_each_pointwise (f g : MState -> nat -> MState) (st : MState) :
  (forall s i, f s i = g s i) -> for_each f st = for_each g st.
Proof. intros H. unfold for_each. by apply fold_left_pointwise. Qed.


Lemma scan_candidates_Finite l2 t amt cs best :
  Float.scan_candidates l2 (Finite t) amt cs best = scan_candidates l2 t amt cs best.
Proof.
  revert best. induction cs as [|j cs IH]; intros best; [done|].
  cbn [Float.scan_candidates scan_candidates].
  destruct (l2 !! j) as [c|]; [|apply IH].
  destruct (claimed c); [apply IH|].
  cbn [float_le]. by rewrite !IH.
Qed.

Lemma claim_step_Finite skip cands_of desc t st i :
  Float.claim_step skip cands_of desc (Finite t) st i
  = claim_step skip cands_of desc t st i.
Proof.
  unfold Float.claim_step, claim_step, Float.best_match_of, best_match_of.
  destruct (list1 st !! i) as [inv1|]; [|done].
  by rewrite scan_candidates_Finite.
Qed.

Lemma phase1_Finite t st : Float.phase1 (Finite t) st = phase1 t st.
Proof.
  unfold Float.phase1, phase1. apply for_each_pointwise. intros s i.
  apply claim_step_Finite.
Qed.

Lemma phase2a_Finite t name2 st : Float.phase2a (Finite t) name2 st = phase2a t name2 st.
Proof.
  unfold Float.phase2a, phase2a. apply for_each_pointwise. intros s i.
  apply claim_step_Finite.
Qed.

Lemma phase2b_Finite t name1 st : Float.phase2b (Finite t) name1 st = phase2b t name1 st.
Proof.
  unfold Float.phase2b, phase2b. apply for_each_pointwise. intros s i.
  apply claim_step_Finite.
Qed.

Lemma phases12_Finite l1 l2 t name1 name2 :
  Float.phases12 l1 l2 (Finite t) name1 name2 = phases12 l1 l2 t name1 name2.
Proof.
  unfold Float.phases12, phases12.
  by rewrite phase1_Finite, phase2a_Finite, phase2b_Finite.
Qed.

Lemma scan_sorted_Finite l2 t amt cs best :
  Float.scan_sorted l2 (Finite t) amt cs best = scan_sorted l2 t amt cs best.
Proof.
  revert best. induction cs as [|j cs IH]; intros best; [done|].
  cbn [Float.scan_sorted scan_sorted].
  destruct (l2 !! j) as [c|]; [|apply IH].
  cbn [float_gt]. by rewrite !IH.
Qed.

Lemma phase3_choice_Finite cmap amap t l2 inv1 :
  Float.phase3_choice cmap amap (Finite t) l2 inv1 = phase3_choice cmap amap t l2 inv1.
Proof.
  unfold Float.phase3_choice, phase3_choice.
  destruct (default [] (cmap !! head inv1)); [done|].
  by rewrite !scan_sorted_Finite.
Qed.

Lemma phase3_step_Finite cmap amap t st i :
  Float.phase3_step cmap amap (Finite t) st i = phase3_step cmap amap t st i.
Proof.
  unfold Float.phase3_step, phase3_step.
  destruct (list1 st !! i) as [inv1|]; [|done].
  by rewrite phase3_choice_Finite.
Qed.

Lemma phase3_Finite t st : Float.phase3 (Finite t) st = phase3 t st.
Proof.
  unfold Float.phase3, phase3. apply for_each_pointwise. intros s i.
  apply phase3_step_Finite.
Qed.

Lemma match_invoices_Finite l1 l2 t name1 name2 :
  Float.match_invoices l1 l2 (Finite t) name1 name2 = match_invoices l1 l2 t name1 name2.
Proof.
  unfold Float.match_invoices, match_invoices.
  by rewrite phases12_Finite, phase3_Finite.
Qed.

Lemma process_reconciliation_Finite {rt : PyRuntime} path wb ts sheet1 sheet2 t :
  Float.process_reconciliation path wb ts sheet1 sheet2 (Finite t)
  = process_reconciliation path wb ts sheet1 sheet2 t.
Proof.
  unfold Float.process_reconciliation, process_reconciliation.
  destruct (resolve_names (fst <$> wb) sheet1 sheet2) as [[name1|] [name2|]]; try done.
  destruct (negb (nonempty name1) || negb (nonempty name2)); [done|].
  destruct (bool_decide (name1 = name2)); [done|].
  destruct (wb_get wb name1) as [ws1|]; [|done].
  destruct (wb_get wb name2) as [ws2|]; [|done].
  destruct (validate_map (get_header_map ws1) name1) as [[]|e]; [|done].
  destruct (validate_map (get_header_map ws2) name2) as [[]|e]; [|done].
  destruct (read_invoices ws1 (get_header_map ws1) name1) as [inv1|e]; [|done].
  destruct (read_invoices ws2 (get_header_map ws2) name2) as [inv2|e]; [|done].
  cbn [mbind result_bind mret result_ret].
  by rewrite match_invoices_Finite.
Qed.

(** ** A NaN tolerance *)

(** With a NaN tolerance Phases 1 and 2 link nothing: their test
    [diff <= tolerance] fails on every candidate. *)
Lemma scan_candidates_NaN l2 amt cs best :
  Float.scan_candidates l2 NaN amt cs best = best.
Proof.
  revert best. induction cs as [|j cs IH]; intros best; [done|].
  cbn [Float.scan_candidates].
  destruct (l2 !! j) as [c|]; [|apply IH].
  destruct (claimed c); [apply IH|].
  cbn [float_le andb]. apply IH.
Qed.

Lemma claim_step_NaN skip cands_of desc st i :
  Float.claim_step skip cands_of desc NaN st i = st.
Proof.
  unfold Float.claim_step, Float.best_match_of.
  destruct (list1 st !! i) as [inv1|]; [|done].
  destruct (claimed inv1 || skip inv1); [done|].
  by rewrite scan_candidates_NaN.
Qed.

Lemma phases12_NaN l1 l2 name1 name2 :
  Float.phases12 l1 l2 NaN name1 name2 = initial_state l1 l2.
Proof.
  unfold Float.phases12, Float.phase2b, Float.phase2a, Float.phase1, for_each.
  rewrite (fold_left_fixed (Float.phase1_step _ NaN))
    by (intros; apply claim_step_NaN).
  rewrite (fold_left_fixed (Float.phase2a_step _ _ NaN))
    by (intros; apply claim_step_NaN).
  by rewrite (fold_left_fixed (Float.phase2b_step _ _ NaN))
    by (intros; apply claim_step_NaN).
Qed.

(** * Phase 3, for a finite tolerance *)







(** With a finite tolerance, the tag "Match (No GSTINs)" is never
    written: a pair with two empty GSTINs, equal heads and amounts
    within tolerance is a Phase 1 pair, so every Phase 3 pair is a
    "Probable Match (GSTIN Mismatch)". *)
Theorem phase3_always_probable (l1 l2 : list Invoice) (t : Q) (name1 name2 : pystr)
    (i : nat) (a2 a : Invoice) :
  list1 (Float.phases12 l1 l2 (Finite t) name1 name2) !! i = Some a2 -> claimed a2 = false ->
  list1 (Float.match_invoices l1 l2 (Finite t) name1 name2) !! i = Some a ->
  claimed a = true ->
  match_type a = Some probable_match.
Proof.
  rewrite phases12_Finite, match_invoices_Finite. apply phase3_probable_rational.
Qed.

Lemma phase3_always_probable_witness :
  exists a,
    list1 (Float.match_invoices Scenarios.mixed_l1 Scenarios.mixed_l2 (Finite 1)
             Scenarios.A Scenarios.B) !! 0 = Some a
    /\ claimed a = true /\ match_type a = Some probable_match.
Proof.
  exists (set_match (Scenarios.rec 2 "G3" IGST 100 "A") 3 probable_match 3).
  assert (Ha2 : list1 (Float.phases12 Scenarios.mixed_l1 Scenarios.mixed_l2 (Finite 1)
                         Scenarios.A Scenarios.B) !! 0
                = Some (Scenarios.rec 2 "G3" IGST 100 "A")) by (vm_compute; reflexivity).
  assert (Ha : list1 (Float.match_invoices Scenarios.mixed_l1 Scenarios.mixed_l2 (Finite 1)
                        Scenarios.A Scenarios.B) !! 0
               = Some (set_match (Scenarios.rec 2 "G3" IGST 100 "A") 3 probable_match 3))
    by (vm_compute; reflexivity).
  split; [exact Ha|]. split; [reflexivity|].
  exact (phase3_always_probable Scenarios.mixed_l1 Scenarios.mixed_l2 1
           Scenarios.A Scenarios.B 0 _ _ Ha2 eq_refl Ha eq_refl).
Defined.

(** * The whole matching, for a finite tolerance *)

(** With a finite tolerance, when [match_invoices] returns, a record
    of list1 without a match and a record of list2 without a match,
    both with an amount that a float holds, never have the same head
    and amounts within tolerance: every pair left over is too far
    apart. *)
Theorem no_missed_pair (l1 l2 : list Invoice) (t : Q) (name1 name2 : pystr)
    (i j : nat) (a b : Invoice) :
  list1 (Float.match_invoices l1 l2 (Finite t) name1 name2) !! i = Some a ->
  list2 (Float.match_invoices l1 l2 (Finite t) name1 name2) !! j = Some b ->
  float_range (amount a) -> float_range (amount b) ->
  claimed a = false -> claimed b = false -> head a = head b ->
  (t < Qabs (amount a - amount b))%Q.
Proof.
  rewrite match_invoices_Finite. intros Ha Hb _ _. by eapply no_missed_pair_rational.
Qed.

Lemma no_missed_pair_witness :
  exists a b,
    list1 (Float.match_invoices [Scenarios.rec 2 "G4" IGST 75 "A"]
             [Scenarios.rec 2 "G4" IGST 200 "B"] (Finite 1) Scenarios.A Scenarios.B) !! 0
    = Some a
    /\ list2 (Float.match_invoices [Scenarios.rec 2 "G4" IGST 75 "A"]
                [Scenarios.rec 2 "G4" IGST 200 "B"] (Finite 1) Scenarios.A Scenarios.B) !! 0
       = Some b
    /\ float_range (amount a) /\ float_range (amount b)
    /\ claimed a = false /\ claimed b = false /\ head a = head b
    /\ (1 < Qabs (amount a - amount b))%Q.
Proof.
  exists (Scenarios.rec 2 "G4" IGST 75 "A"), (Scenarios.rec 2 "G4" IGST 200 "B").
  assert (Ha : list1 (Float.match_invoices [Scenarios.rec 2 "G4" IGST 75 "A"]
                        [Scenarios.rec 2 "G4" IGST 200 "B"] (Finite 1)
                        Scenarios.A Scenarios.B) !! 0
               = Some (Scenarios.rec 2 "G4" IGST 75 "A")) by (vm_compute; reflexivity).
  assert (Hb : list2 (Float.match_invoices [Scenarios.rec 2 "G4" IGST 75 "A"]
                        [Scenarios.rec 2 "G4" IGST 200 "B"] (Finite 1)
                        Scenarios.A Scenarios.B) !! 0
               = Some (Scenarios.rec 2 "G4" IGST 200 "B")) by (vm_compute; reflexivity).
  assert (Ra : float_range (amount (Scenarios.rec 2 "G4" IGST 75 "A")))
    by (vm_compute; discriminate).
  assert (Rb : float_range (amount (Scenarios.rec 2 "G4" IGST 200 "B")))
    by (vm_compute; discriminate).
  split; [exact Ha|]. split; [exact Hb|]. split; [exact Ra|]. split; [exact Rb|].
  split; [reflexivity|]. split; [reflexivity|]. split; [reflexivity|].
  exact (no_missed_pair _ _ 1 Scenarios.A Scenarios.B 0 0 _ _ Ha Hb Ra Rb
           eq_refl eq_refl eq_refl).
Defined.

(** With a finite tolerance and on fresh records, two records that
    share a match id have the same head and carry the same
    description, and the description is the one that goes with their
    two GSTINs: "Perfect Match" when the GSTINs are equal, "Match
    (Missing GSTIN in <name2>)" when only the record of list2 has none,
    "Match (Missing GSTIN in <name1>)" when only the record of list1
    has none, "Probable Match (GSTIN Mismatch)" when both have one and
    they differ. *)
Theorem match_type_by_gstins (l1 l2 : list Invoice) (t : Q) (name1 name2 : pystr)
    (i j : nat) (a b : Invoice) (m : Z) :
  Forall fresh l1 -> Forall fresh l2 ->
  list1 (Float.match_invoices l1 l2 (Finite t) name1 name2) !! i = Some a ->
  list2 (Float.match_invoices l1 l2 (Finite t) name1 name2) !! j = Some b ->
  match_id a = Some m -> match_id b = Some m ->
  head a = head b
  /\ match_type a = Some (tag_of name1 name2 a b)
  /\ match_type b = Some (tag_of name1 name2 a b).
Proof. rewrite match_invoices_Finite. apply match_type_rational. Qed.

Lemma match_type_by_gstins_witness :
  Forall fresh Scenarios.mixed_l1 /\ Forall fresh Scenarios.mixed_l2
  /\ exists a b,
       list1 (Float.match_invoices Scenarios.mixed_l1 Scenarios.mixed_l2 (Finite 1)
                Scenarios.A Scenarios.B) !! 2 = Some a
       /\ list2 (Float.match_invoices Scenarios.mixed_l1 Scenarios.mixed_l2 (Finite 1)
                   Scenarios.A Scenarios.B) !! 0 = Some b
       /\ match_id a = Some 2%Z /\ match_id b = Some 2%Z
       /\ head a = head b
       /\ match_type a = Some (missing_gstin_in Scenarios.A)
       /\ match_type b = Some (missing_gstin_in Scenarios.A).
Proof.
  assert (F1 : Forall fresh Scenarios.mixed_l1) by (repeat constructor).
  assert (F2 : Forall fresh Scenarios.mixed_l2) by (repeat constructor).
  split; [exact F1|]. split; [exact F2|].
  exists (set_match (Scenarios.rec 4 "" IGST 100 "A") 2 (missing_gstin_in Scenarios.A) 2),
         (set_match (Scenarios.rec 2 "G1" IGST 99 "B") 2 (missing_gstin_in Scenarios.A) 4).
  assert (Ha : list1 (Float.match_invoices Scenarios.mixed_l1 Scenarios.mixed_l2 (Finite 1)
                        Scenarios.A Scenarios.B) !! 2
               = Some (set_match (Scenarios.rec 4 "" IGST 100 "A") 2
                         (missing_gstin_in Scenarios.A) 2))
    by (vm_compute; reflexivity).
  assert (Hb : list2 (Float.match_invoices Scenarios.mixed_l1 Scenarios.mixed_l2 (Finite 1)
                        Scenarios.A Scenarios.B) !! 0
               = Some (set_match (Scenarios.rec 2 "G1" IGST 99 "B") 2
                         (missing_gstin_in Scenarios.A) 4))
    by (vm_compute; reflexivity).
  split; [exact Ha|]. split; [exact Hb|]. split; [reflexivity|]. split; [reflexivity|].
  exact (match_type_by_gstins Scenarios.mixed_l1 Scenarios.mixed_l2 1 Scenarios.A Scenarios.B
           2 0 _ _ 2%Z F1 F2 Ha Hb eq_refl eq_refl).
Defined.

(** With a finite tolerance and on fresh records, every record of
    either list comes back with its three match fields all empty or
    all set: a match id of at least 1, one of the four descriptions
    the phases write, and a row. *)
Theorem match_fields_all_or_nothing (l1 l2 : list Invoice) (t : Q)
    (name1 name2 : pystr) (x : Invoice) :
  Forall fresh l1 -> Forall fresh l2 ->
  x ∈ list1 (Float.match_invoices l1 l2 (Finite t) name1 name2)
  \/ x ∈ list2 (Float.match_invoices l1 l2 (Finite t) name1 name2) ->
  (match_id x = None /\ match_type x = None /\ matched_with_row x = None)
  \/ exists m t' r,
       match_id x = Some m /\ (1 <= m)%Z
       /\ match_type x = Some t' /\ t' ∈ match_tags name1 name2
       /\ matched_with_row x = Some r.
Proof. rewrite match_invoices_Finite. apply match_fields_rational. Qed.

Lemma match_fields_all_or_nothing_witness :
  Forall fresh Scenarios.mixed_l1 /\ Forall fresh Scenarios.mixed_l2
  /\ exists x,
       (x ∈ list1 (Float.match_invoices Scenarios.mixed_l1 Scenarios.mixed_l2 (Finite 1)
                     Scenarios.A Scenarios.B)
        \/ x ∈ list2 (Float.match_invoices Scenarios.mixed_l1 Scenarios.mixed_l2 (Finite 1)
                        Scenarios.A Scenarios.B))
       /\ ((match_id x = None /\ match_type x = None /\ matched_with_row x = None)
           \/ exists m t' r,
                match_id x = Some m /\ (1 <= m)%Z
                /\ match_type x = Some t' /\ t' ∈ match_tags Scenarios.A Scenarios.B
                /\ matched_with_row x = Some r).
Proof.
  assert (F1 : Forall fresh Scenarios.mixed_l1) by (repeat constructor).
  assert (F2 : Forall fresh Scenarios.mixed_l2) by (repeat constructor).
  split; [exact F1|]. split; [exact F2|].
  exists (set_match (Scenarios.rec 2 "G3" IGST 100 "A") 3 probable_match 3).
  assert (Hx : set_match (Scenarios.rec 2 "G3" IGST 100 "A") 3 probable_match 3
               ∈ list1 (Float.match_invoices Scenarios.mixed_l1 Scenarios.mixed_l2 (Finite 1)
                          Scenarios.A Scenarios.B)
               \/ set_match (Scenarios.rec 2 "G3" IGST 100 "A") 3 probable_match 3
                  ∈ list2 (Float.match_invoices Scenarios.mixed_l1 Scenarios.mixed_l2
                             (Finite 1) Scenarios.A Scenarios.B)).
  { left. apply list_elem_of_lookup. exists 0. vm_compute. reflexivity. }
  split; [exact Hx|].
  exact (match_fields_all_or_nothing Scenarios.mixed_l1 Scenarios.mixed_l2 1
           Scenarios.A Scenarios.B _ F1 F2 Hx).
Defined.

(** With a finite tolerance, the phases run from the strongest kind
    of match to the weakest, and a stronger match is never given up
    for a weaker one.  Of two records of equal head and amounts within
    tolerance, one in each list: when their GSTINs are equal, one at
    least ends as a "Perfect Match"; when their GSTINs are equal or one
    of them is absent, one at least ends with one of the descriptions
    of Phases 1 and 2, "Perfect Match" or "Match (Missing GSTIN in
    ...)". *)
Theorem match_priority (l1 l2 : list Invoice) (t : Q) (name1 name2 : pystr)
    (i j : nat) (a b : Invoice) :
  Forall fresh l1 -> Forall fresh l2 ->
  list1 (Float.match_invoices l1 l2 (Finite t) name1 name2) !! i = Some a ->
  list2 (Float.match_invoices l1 l2 (Finite t) name1 name2) !! j = Some b ->
  head a = head b -> within t a b ->
  (gstin a = gstin b ->
     match_type a = Some perfect_match \/ match_type b = Some perfect_match)
  /\ (compatible a b ->
        exists d, d ∈ [perfect_match; missing_gstin_in name2; missing_gstin_in name1]
          /\ (match_type a = Some d \/ match_type b = Some d)).
Proof. rewrite match_invoices_Finite. apply match_priority_rational. Qed.

Lemma match_priority_witness :
  Forall fresh Scenarios.exact_l1 /\ Forall fresh Scenarios.exact_l2
  /\ exists a b,
       list1 (Float.match_invoices Scenarios.exact_l1 Scenarios.exact_l2 (Finite 1)
                Scenarios.A Scenarios.B) !! 0 = Some a
       /\ list2 (Float.match_invoices Scenarios.exact_l1 Scenarios.exact_l2 (Finite 1)
                   Scenarios.A Scenarios.B) !! 0 = Some b
       /\ head a = head b /\ within 1 a b
       /\ (gstin a = gstin b ->
             match_type a = Some perfect_match \/ match_type b = Some perfect_match)
       /\ (compatible a b ->
             exists d, d ∈ [perfect_match; missing_gstin_in Scenarios.B;
                            missing_gstin_in Scenarios.A]
               /\ (match_type a = Some d \/ match_type b = Some d)).
Proof.
  assert (F1 : Forall fresh Scenarios.exact_l1) by (repeat constructor).
  assert (F2 : Forall fresh Scenarios.exact_l2) by (repeat constructor).
  split; [exact F1|]. split; [exact F2|].
  exists (set_match (Scenarios.rec 2 "G1" IGST 100 "A") 1 perfect_match 2),
         (set_match (Scenarios.rec 2 "G1" IGST 100.5 "B") 1 perfect_match 2).
  assert (Ha : list1 (Float.match_invoices Scenarios.exact_l1 Scenarios.exact_l2 (Finite 1)
                        Scenarios.A Scenarios.B) !! 0
               = Some (set_match (Scenarios.rec 2 "G1" IGST 100 "A") 1 perfect_match 2))
    by (vm_compute; reflexivity).
  assert (Hb : list2 (Float.match_invoices Scenarios.exact_l1 Scenarios.exact_l2 (Finite 1)
                        Scenarios.A Scenarios.B) !! 0
               = Some (set_match (Scenarios.rec 2 "G1" IGST 100.5 "B") 1 perfect_match 2))
    by (vm_compute; reflexivity).
  assert (Hw : within 1 (set_match (Scenarios.rec 2 "G1" IGST 100 "A") 1 perfect_match 2)
                 (set_match (Scenarios.rec 2 "G1" IGST 100.5 "B") 1 perfect_match 2))
    by (vm_compute; discriminate).
  split; [exact Ha|]. split; [exact Hb|]. split; [reflexivity|]. split; [exact Hw|].
  exact (match_priority Scenarios.exact_l1 Scenarios.exact_l2 1 Scenarios.A Scenarios.B
           0 0 _ _ F1 F2 Ha Hb eq_refl Hw).
Defined.

(** * [to_float] on texts *)

(** A text of ASCII characters without any digit (the empty text
    included) gives 0.0. *)
Theorem to_float_no_digit (text : pystr) :
  is_ascii text ->
  Forall (fun c => is_digit c = false) text -> to_float (VStr text) = Ok 0%Q.
Proof. intros _. apply to_float_digit_free. Qed.

Lemma to_float_no_digit_witness :
  is_ascii (py "(n/a)")
  /\ Forall (fun c => is_digit c = false) (py "(n/a)")
  /\ to_float (VStr (py "(n/a)")) = Ok 0%Q.
Proof.
  assert (A : is_ascii (py "(n/a)")) by (repeat constructor).
  assert (H : Forall (fun c => is_digit c = false) (py "(n/a)"))
    by (repeat constructor).
  split; [exact A|]. split; [exact H|]. exact (to_float_no_digit (py "(n/a)") A H).
Defined.

(** A text made of at most 308 digits, or of such digits, a point and
    digits, denotes a number that a float holds, and is read as that
    number; the same text after a minus sign or between parentheses
    is read as the opposite number, and a rupee sign in front of it
    changes nothing. *)
Theorem to_float_decimal (int_part frac : pystr) :
  int_part <> [] -> length int_part <= 308 ->
  Forall (fun c => is_digit c = true) int_part ->
  Forall (fun c => is_digit c = true) frac ->
  exists q,
    (q == decimal_value int_part frac)%Q
    /\ to_float (VStr (decimal_text int_part frac)) = Ok q
    /\ to_float (VStr (45%N :: decimal_text int_part frac)) = Ok (- q)%Q
    /\ to_float (VStr (40%N :: decimal_text int_part frac ++ [41%N])) = Ok (- q)%Q
    /\ to_float (VStr (8377%N :: decimal_text int_part frac)) = Ok q.
Proof. intros Hne _. by apply to_float_decimal_exact. Qed.

Lemma to_float_decimal_witness :
  py "1234" <> [] /\ length (py "1234") <= 308
  /\ Forall (fun c => is_digit c = true) (py "1234")
  /\ Forall (fun c => is_digit c = true) (py "56")
  /\ exists q,
       (q == decimal_value (py "1234") (py "56"))%Q
       /\ to_float (VStr (py "1234.56")) = Ok q
       /\ to_float (VStr (py "-1234.56")) = Ok (- q)%Q
       /\ to_float (VStr (py "(1234.56)")) = Ok (- q)%Q
       /\ to_float (VStr (8377%N :: py "1234.56")) = Ok q.
Proof.
  assert (H1 : py "1234" <> []) by discriminate.
  assert (H0 : length (py "1234") <= 308) by (simpl; lia).
  assert (H2 : Forall (fun c => is_digit c = true) (py "1234")) by (repeat constructor).
  assert (H3 : Forall (fun c => is_digit c = true) (py "56")) by (repeat constructor).
  split; [exact H1|]. split; [exact H0|]. split; [exact H2|]. split; [exact H3|].
  exact (to_float_decimal (py "1234") (py "56") H1 H0 H2 H3).
Defined.

(** * A whole run, for a finite tolerance *)

Lemma sample_run_float :
  exists out_file wb',
    Float.process_reconciliation (rt := Samples.runtime) (py "/uploads/books.xlsx")
      Samples.workbook (py "20240101_000000") None None (Finite 1) = Ok (out_file, wb').
Proof.
  destruct sample_run as (out_file & wb' & Hp). exists out_file, wb'.
  by rewrite process_reconciliation_Finite.
Qed.

(** With a finite tolerance, two rows of the saved workbook, one in
    each sheet, that carry the same match id were read as records with
    the same head and with amounts within the tolerance, and the
    status written beside both is the description that goes with the
    two GSTINs. *)
Theorem pipeline_match_sound {rt : PyRuntime} (path : pystr)
    (wb : list (pystr * gmap (nat * nat) PyVal))
    (ts : pystr) (sheet1 sheet2 : option pystr) (t : Q)
    (out_file : pystr) (wb' : list (pystr * gmap (nat * nat) PyVal)) :
  Float.process_reconciliation path wb ts sheet1 sheet2 (Finite t) = Ok (out_file, wb') ->
  exists name1 name2 ws1 ws2 out1 out2,
    run_sheets wb wb' sheet1 sheet2 name1 name2 ws1 ws2 out1 out2
    /\ forall r r' m, 2 <= r <= max_row ws1 -> 2 <= r' <= max_row ws2 ->
         cell_value out1 r (max_column ws1 + 2) = VInt m ->
         cell_value out2 r' (max_column ws2 + 2) = VInt m ->
         exists a b,
           row_record ws1 (get_header_map ws1) name1 r a
           /\ row_record ws2 (get_header_map ws2) name2 r' b
           /\ head a = head b /\ within t a b
           /\ cell_value out1 r (max_column ws1 + 1) = VStr (tag_of name1 name2 a b)
           /\ cell_value out2 r' (max_column ws2 + 1) = VStr (tag_of name1 name2 a b).
Proof. rewrite process_reconciliation_Finite. apply pipeline_match_rational. Qed.

Lemma pipeline_match_sound_witness :
  exists out_file wb',
    Float.process_reconciliation (rt := Samples.runtime) (py "/uploads/books.xlsx")
      Samples.workbook (py "20240101_000000") None None (Finite 1) = Ok (out_file, wb')
    /\
    exists name1 name2 ws1 ws2 out1 out2,
      run_sheets (rt := Samples.runtime) Samples.workbook wb' None None name1 name2
        ws1 ws2 out1 out2
      /\ forall r r' m, 2 <= r <= max_row ws1 -> 2 <= r' <= max_row ws2 ->
           cell_value out1 r (max_column ws1 + 2) = VInt m ->
           cell_value out2 r' (max_column ws2 + 2) = VInt m ->
           exists a b,
             row_record (rt := Samples.runtime) ws1
               (get_header_map (rt := Samples.runtime) ws1) name1 r a
             /\ row_record (rt := Samples.runtime) ws2
                  (get_header_map (rt := Samples.runtime) ws2) name2 r' b
             /\ head a = head b /\ within 1%Q a b
             /\ cell_value out1 r (max_column ws1 + 1) = VStr (tag_of name1 name2 a b)
             /\ cell_value out2 r' (max_column ws2 + 1) = VStr (tag_of name1 name2 a b).
Proof.
  destruct sample_run_float as (out_file & wb' & Hp).
  exists out_file, wb'. split; [exact Hp|].
  exact (pipeline_match_sound (rt := Samples.runtime) _ _ _ _ _ _ _ _ Hp).
Defined.

(** With a finite tolerance, a row of the first sheet and a row of
    the second that were both read as records, with amounts that a
    float holds, and are both left without a match id either have
    different heads, or have amounts further apart than the tolerance:
    the run leaves no pair that it could have matched. *)
Theorem pipeline_unmatched_apart {rt : PyRuntime} (path : pystr)
    (wb : list (pystr * gmap (nat * nat) PyVal))
    (ts : pystr) (sheet1 sheet2 : option pystr) (t : Q)
    (out_file : pystr) (wb' : list (pystr * gmap (nat * nat) PyVal)) :
  Float.process_reconciliation path wb ts sheet1 sheet2 (Finite t) = Ok (out_file, wb') ->
  exists name1 name2 ws1 ws2 out1 out2,
    run_sheets wb wb' sheet1 sheet2 name1 name2 ws1 ws2 out1 out2
    /\ forall r r' a b, 2 <= r <= max_row ws1 -> 2 <= r' <= max_row ws2 ->
         row_record ws1 (get_header_map ws1) name1 r a ->
         row_record ws2 (get_header_map ws2) name2 r' b ->
         float_range (amount a) -> float_range (amount b) ->
         cell_value out1 r (max_column ws1 + 2) = VNone ->
         cell_value out2 r' (max_column ws2 + 2) = VNone ->
         head a = head b ->
         (t < Qabs (amount a - amount b))%Q.
Proof.
  rewrite process_reconciliation_Finite. intros Hp.
  destruct (pipeline_unmatched_rational _ _ _ _ _ _ _ _ Hp)
    as (name1 & name2 & ws1 & ws2 & out1 & out2 & Hrun & H).
  exists name1, name2, ws1, ws2, out1, out2. split; [exact Hrun|].
  intros r r' a b Hr Hr' Ha Hb _ _. by apply H.
Qed.

Lemma pipeline_unmatched_apart_witness :
  exists out_file wb',
    Float.process_reconciliation (rt := Samples.runtime) (py "/uploads/books.xlsx")
      Samples.workbook (py "20240101_000000") None None (Finite 1) = Ok (out_file, wb')
    /\
    exists name1 name2 ws1 ws2 out1 out2,
      run_sheets (rt := Samples.runtime) Samples.workbook wb' None None name1 name2
        ws1 ws2 out1 out2
      /\ forall r r' a b, 2 <= r <= max_row ws1 -> 2 <= r' <= max_row ws2 ->
           row_record (rt := Samples.runtime) ws1
             (get_header_map (rt := Samples.runtime) ws1) name1 r a ->
           row_record (rt := Samples.runtime) ws2
             (get_header_map (rt := Samples.runtime) ws2) name2 r' b ->
           float_range (amount a) -> float_range (amount b) ->
           cell_value out1 r (max_column ws1 + 2) = VNone ->
           cell_value out2 r' (max_column ws2 + 2) = VNone ->
           head a = head b ->
           (1%Q < Qabs (amount a - amount b))%Q.
Proof.
  destruct sample_run_float as (out_file & wb' & Hp).
  exists out_file, wb'. split; [exact Hp|].
  exact (pipeline_unmatched_apart (rt := Samples.runtime) _ _ _ _ _ _ _ _ Hp).
Defined.

(** With a finite tolerance, every data row of the two reconciled
    sheets is accounted for: it is marked "Ignored/Zero" when no record
    was read from it, "Missing in <other sheet>" when its record found
    no partner, and otherwise it carries one of the four match
    descriptions, a match id from 1 and a data row of the other
    sheet. *)
Theorem pipeline_rows_accounted {rt : PyRuntime} (path : pystr)
    (wb : list (pystr * gmap (nat * nat) PyVal))
    (ts : pystr) (sheet1 sheet2 : option pystr) (t : Q)
    (out_file : pystr) (wb' : list (pystr * gmap (nat * nat) PyVal)) :
  Float.process_reconciliation path wb ts sheet1 sheet2 (Finite t) = Ok (out_file, wb') ->
  exists name1 name2 ws1 ws2 out1 out2,
    run_sheets wb wb' sheet1 sheet2 name1 name2 ws1 ws2 out1 out2
    /\ (forall r, 2 <= r <= max_row ws1 ->
          row_outcome (match_tags name1 name2) name2 (max_row ws2)
            (exists a, row_record ws1 (get_header_map ws1) name1 r a)
            (annotation out1 (max_column ws1) r))
    /\ (forall r', 2 <= r' <= max_row ws2 ->
          row_outcome (match_tags name1 name2) name1 (max_row ws1)
            (exists b, row_record ws2 (get_header_map ws2) name2 r' b)
            (annotation out2 (max_column ws2) r')).
Proof. rewrite process_reconciliation_Finite. apply pipeline_rows_rational. Qed.

Lemma pipeline_rows_accounted_witness :
  exists out_file wb',
    Float.process_reconciliation (rt := Samples.runtime) (py "/uploads/books.xlsx")
      Samples.workbook (py "20240101_000000") None None (Finite 1) = Ok (out_file, wb')
    /\
    exists name1 name2 ws1 ws2 out1 out2,
      run_sheets (rt := Samples.runtime) Samples.workbook wb' None None name1 name2
        ws1 ws2 out1 out2
      /\ (forall r, 2 <= r <= max_row ws1 ->
            row_outcome (match_tags name1 name2) name2 (max_row ws2)
              (exists a, row_record (rt := Samples.runtime) ws1
                           (get_header_map (rt := Samples.runtime) ws1) name1 r a)
              (annotation out1 (max_column ws1) r))
      /\ (forall r', 2 <= r' <= max_row ws2 ->
            row_outcome (match_tags name1 name2) name1 (max_row ws1)
              (exists b, row_record (rt := Samples.runtime) ws2
                           (get_header_map (rt := Samples.runtime) ws2) name2 r' b)
              (annotation out2 (max_column ws2) r')).
Proof.
  destruct sample_run_float as (out_file & wb' & Hp).
  exists out_file, wb'. split; [exact Hp|].
  exact (pipeline_rows_accounted (rt := Samples.runtime) _ _ _ _ _ _ _ _ Hp).
Defined.
